(** * Vehicle Registration Analytics: a shallow embedding of the analytics core

    The development embeds the metric calculator
    ([src/src/analytics_engine.py]), the store's growth recomputation
    ([src/src/database_manager.py]) and the insight narrator
    ([src/src/investor_insights.py]) as Rocq functions, and states the
    properties of the specification against them.

    Conventions of the embedding.
    - A pandas [DataFrame] of registration records is a list of [Row]s plus
      the information whether the optional [fuel_type] column is present.
    - Python [int] registration counts are natural numbers ([N]): the data
      model of the specification makes them non-negative integers.
    - Python and numpy floats are idealised as exact rationals ([Q]); [nan]
      is [None].  Rounding is round-half-to-even on the exact value.
    - A raised Python exception is the [Raise] result of the [exc] monad. *)

From Stdlib Require Import ZArith NArith QArith Qround List String Ascii Bool.
From Stdlib Require Import Lia Lqa Permutation Sorted DecimalString.
Import ListNotations.

Local Open Scope string_scope.
Local Open Scope list_scope.
Local Open Scope Z_scope.

(** ** Exceptions *)

Inductive error : Type :=
| KeyError
| IndexError
| ValueError
| ZeroDivisionError.

Inductive exc (A : Type) : Type :=
| Ok (a : A)
| Raise (e : error).

Arguments Ok {A} a.
Arguments Raise {A} e.

Definition bind {A B : Type} (c : exc A) (k : A -> exc B) : exc B :=
  match c with
  | Ok a => k a
  | Raise e => Raise e
  end.

Notation "x <- c ;; k" := (bind c (fun x => k))
  (at level 61, c at next level, right associativity).

(** [for x in xs: acc.extend(body x)], stopping at the first exception. *)
Fixpoint for_each {A B : Type} (body : A -> exc (list B)) (xs : list A)
  : exc (list B) :=
  match xs with
  | [] => Ok []
  | x :: xs' =>
      ys <- body x ;;
      zs <- for_each body xs' ;;
      Ok (ys ++ zs)
  end.

(** ** Generic list operations standing for pandas and Python primitives *)

Section ListOps.
Context {A : Type}.

(** Insertion of [x] in front of the first element it precedes or equals:
    the step of a stable sort. *)
Fixpoint insert_by (leb : A -> A -> bool) (x : A) (l : list A) : list A :=
  match l with
  | [] => [x]
  | y :: l' => if leb x y then x :: y :: l' else y :: insert_by leb x l'
  end.

(** A stable sort; [list.sort] and [sort_values] are stable or are applied
    to keys without ties wherever the order of the result is observed. *)
Fixpoint sort_by (leb : A -> A -> bool) (l : list A) : list A :=
  match l with
  | [] => []
  | x :: l' => insert_by leb x (sort_by leb l')
  end.

(** [drop_duplicates] / [unique]: first occurrences, in order. *)
Fixpoint drop_duplicates (eqb : A -> A -> bool) (l : list A) : list A :=
  match l with
  | [] => []
  | x :: l' => x :: filter (fun y => negb (eqb x y)) (drop_duplicates eqb l')
  end.

(** The pairs [(l[idx-1], l[idx])] for [idx in range(1, len(l))]. *)
Fixpoint consecutive (l : list A) : list (A * A) :=
  match l with
  | [] => []
  | a :: l' =>
      match l' with
      | [] => []
      | b :: _ => (a, b) :: consecutive l'
      end
  end.

Fixpoint last_opt (l : list A) : option A :=
  match l with
  | [] => None
  | [a] => Some a
  | _ :: l' => last_opt l'
  end.
End ListOps.

Fixpoint list_eqb {A : Type} (eqb : A -> A -> bool) (l1 l2 : list A) : bool :=
  match l1, l2 with
  | [], [] => true
  | a :: l1', b :: l2' => eqb a b && list_eqb eqb l1' l2'
  | _, _ => false
  end.

(** Lexicographic order on tuples of strings, as used on group keys. *)
Fixpoint list_compare (l1 l2 : list string) : comparison :=
  match l1, l2 with
  | [], [] => Eq
  | [], _ :: _ => Lt
  | _ :: _, [] => Gt
  | a :: l1', b :: l2' =>
      match String.compare a b with
      | Eq => list_compare l1' l2'
      | c => c
      end
  end.

Definition sumN (l : list N) : N := fold_right N.add 0%N l.

(** ** Numbers *)

Definition QofN (n : N) : Q := inject_Z (Z.of_N n).
Definition QofZ (z : Z) : Q := inject_Z z.

(** Nearest integer, ties to the even one. *)
Definition round_half_even (q : Q) : Z :=
  let f := Qfloor q in
  let r := (q - inject_Z f)%Q in
  match Qcompare r (1 # 2) with
  | Lt => f
  | Gt => f + 1
  | Eq => if Z.even f then f else f + 1
  end.

(** [round(x, ndigits)] on a float. *)
Definition py_round (x : Q) (ndigits : nat) : Q :=
  let scale := Z.pow 10 (Z.of_nat ndigits) in
  (inject_Z (round_half_even (x * inject_Z scale)) / inject_Z scale)%Q.

(** [a / b]; a zero divisor is treated as an arithmetic fault. *)
Definition true_div (a b : Q) : exc Q :=
  if Qeq_bool b 0 then Raise ZeroDivisionError else Ok (a / b)%Q.

(** [int(v)]: truncation toward zero. *)
Definition py_int (v : Q) : Z := Z.quot (Qnum v) (Zpos (Qden v)).

(** [str(n)] for an integer. *)
Definition str_Z (z : Z) : string := NilZero.string_of_int (Z.to_int z).
Definition str_N (n : N) : string := str_Z (Z.of_N n).

(** ** Registration records *)

Inductive Quarter : Type := Q1 | Q2 | Q3 | Q4.

Definition quarter_label (q : Quarter) : string :=
  match q with
  | Q1 => "Q1" | Q2 => "Q2" | Q3 => "Q3" | Q4 => "Q4"
  end.

(** [quarter.str[1].astype(int)] *)
Definition quarter_number (q : Quarter) : Z :=
  match q with
  | Q1 => 1 | Q2 => 2 | Q3 => 3 | Q4 => 4
  end.

Definition quarter_eqb (a b : Quarter) : bool :=
  Z.eqb (quarter_number a) (quarter_number b).

Record Row : Type := mkRow {
  date : string;
  year : Z;
  quarter : Quarter;
  month : Z;
  vehicle_type : string;
  manufacturer : string;
  registrations : N;
  fuel_type : string  (* read only when the frame has the column *)
}.

Record DataFrame : Type := mkFrame {
  has_fuel_type : bool;  (* ['fuel_type' in df.columns] *)
  rows : list Row
}.

(** [df[df[col] == v]]: the columns are kept, the rows filtered. *)
Definition select (df : DataFrame) (p : Row -> bool) : DataFrame :=
  mkFrame (has_fuel_type df) (filter p (rows df)).

Definition total_registrations (rs : list Row) : N :=
  sumN (map registrations rs).

(** [rs.groupby(key)['registrations'].sum()]: one entry per distinct key, in
    key order, holding the sum over the rows of the group. *)
Section GroupBy.
Context {K : Type}.
Variable eqb : K -> K -> bool.
Variable leb : K -> K -> bool.
Variable key : Row -> K.

Definition group_rows (rs : list Row) (k : K) : list Row :=
  filter (fun r => eqb (key r) k) rs.

Definition groupby_registrations (rs : list Row) : list (K * N) :=
  map (fun k => (k, total_registrations (group_rows rs k)))
      (sort_by leb (drop_duplicates eqb (map key rs))).
End GroupBy.

(** The string-valued columns of the record schema a caller can group by. *)
Inductive column : Type := col_vehicle_type | col_manufacturer.

Definition column_eqb (a b : column) : bool :=
  match a, b with
  | col_vehicle_type, col_vehicle_type => true
  | col_manufacturer, col_manufacturer => true
  | _, _ => false
  end.

Definition cell (r : Row) (c : column) : string :=
  match c with
  | col_vehicle_type => vehicle_type r
  | col_manufacturer => manufacturer r
  end.

Fixpoint has_duplicate (cs : list column) : bool :=
  match cs with
  | [] => false
  | c :: cs' => existsb (column_eqb c) cs' || has_duplicate cs'
  end.

(** ** Metric calculator: growth ([calculate_growth_metrics]) *)

Inductive GrowthPeriod : Type := YOY | QOQ | MOM.

Record GrowthMetric : Type := mkMetric {
  entity : string;
  period : string;
  current_value : N;
  previous_value : N;
  growth_rate : Q;
  growth_absolute : Z;
  rank : Z
}.

(** The period columns of a grouped frame: [year] alone for YoY, [year],
    [quarter] (and the derived [period_sort]) for QoQ. *)
Record Period : Type := mkPeriod {
  p_year : Z;
  p_quarter : option Quarter
}.

Definition period_of (pt : GrowthPeriod) (r : Row) : Period :=
  match pt with
  | YOY => mkPeriod (year r) None
  | _ => mkPeriod (year r) (Some (quarter r))
  end.

(** The column the group is sorted on: [year], or
    [period_sort = year * 10 + quarter number]. *)
Definition period_sort (p : Period) : Z :=
  match p_quarter p with
  | None => p_year p
  | Some q => p_year p * 10 + quarter_number q
  end.

(** [str(current['year'])], or [f"{current['year']}-{current['quarter']}"]. *)
Definition period_name (p : Period) : string :=
  match p_quarter p with
  | None => str_Z (p_year p)
  | Some q => str_Z (p_year p) ++ "-" ++ quarter_label q
  end.

Definition option_quarter_number (q : option Quarter) : Z :=
  match q with
  | None => 0
  | Some q' => quarter_number q'
  end.

Definition period_eqb (a b : Period) : bool :=
  Z.eqb (p_year a) (p_year b)
  && Z.eqb (option_quarter_number (p_quarter a))
           (option_quarter_number (p_quarter b)).

(** One row of [groupby(group_by + period columns)['registrations'].sum()
    .reset_index()]. *)
Record Grouped : Type := mkGrouped {
  g_vals : list string;  (* the values of the [group_by] columns *)
  g_period : Period;
  g_registrations : N
}.

Definition GroupKey : Type := (list string * Period)%type.

Definition key_eqb (a b : GroupKey) : bool :=
  list_eqb String.eqb (fst a) (fst b) && period_eqb (snd a) (snd b).

(** Order of the group keys: the group columns first, then the period. *)
Definition key_leb (a b : GroupKey) : bool :=
  match list_compare (fst a) (fst b) with
  | Lt => true
  | Gt => false
  | Eq =>
      match Z.compare (p_year (snd a)) (p_year (snd b)) with
      | Lt => true
      | Gt => false
      | Eq => Z.leb (option_quarter_number (p_quarter (snd a)))
                    (option_quarter_number (p_quarter (snd b)))
      end
  end.

Definition row_key (pt : GrowthPeriod) (group_by : list column) (r : Row)
  : GroupKey :=
  (map (cell r) group_by, period_of pt r).

Definition grouped_key (e : Grouped) : GroupKey := (g_vals e, g_period e).

(** [df.groupby(keys)['registrations'].sum().reset_index()] on the growth
    period columns. *)
Definition groupby_sum (pt : GrowthPeriod) (group_by : list column)
    (rs : list Row) : list Grouped :=
  map (fun ks => mkGrouped (fst (fst ks)) (snd (fst ks)) (snd ks))
      (groupby_registrations key_eqb key_leb (row_key pt group_by) rs).

(** [data.sort_values(group_by + [sort column])] *)
Definition sort_grouped (data : list Grouped) : list Grouped :=
  sort_by (fun a b => key_leb (grouped_key a) (grouped_key b)) data.

(** The row mask under construction: [None] is the Python scalar [True] the
    loop starts from, [Some f] a boolean column. *)
Definition mask_and (m : option (Grouped -> bool)) (f : Grouped -> bool)
  : option (Grouped -> bool) :=
  match m with
  | None => Some f
  | Some f0 => Some (fun e => f0 e && f e)
  end.

(** [for i, col in enumerate(group_by):
       group_filter &= (data[col] == group_vals[i])];
    column [col] is the [i]-th group column of the grouped frame. *)
Fixpoint group_filter_from (i : nat) (group_by : list column)
    (group_vals : list string) (m : option (Grouped -> bool))
  : option (Grouped -> bool) :=
  match group_by with
  | [] => m
  | _ :: group_by' =>
      group_filter_from (S i) group_by' group_vals
        (mask_and m (fun e =>
           String.eqb (nth i (g_vals e) EmptyString)
                      (nth i group_vals EmptyString)))
  end.

Definition group_filter (group_by : list column) (group_vals : list string)
  : option (Grouped -> bool) :=
  group_filter_from 0 group_by group_vals None.

(** The [GrowthMetric] appended for a pair of consecutive rows, given the
    unrounded growth rate. *)
Definition metric_of (group_vals : list string) (previous current : Grouped)
    (growth : Q) : GrowthMetric :=
  mkMetric (String.concat " - " group_vals)
           (period_name (g_period current))
           (g_registrations current)
           (g_registrations previous)
           (py_round growth 2)
           (Z.of_N (g_registrations current)
            - Z.of_N (g_registrations previous))
           0.

(** The body of the inner loop for one pair of consecutive rows. *)
Definition growth_metric (group_vals : list string)
    (previous current : Grouped) : exc (list GrowthMetric) :=
  if (0 <? g_registrations previous)%N then
    ratio <- true_div
               (QofN (g_registrations current)
                - QofN (g_registrations previous))%Q
               (QofN (g_registrations previous)) ;;
    Ok [metric_of group_vals previous current (ratio * 100)%Q]
  else Ok [].

(** The body of the loop over the distinct groups.  Indexing the frame with
    the scalar [True] (no group column) is a [KeyError]. *)
Definition group_growth (group_by : list column) (data : list Grouped)
    (group_vals : list string) : exc (list GrowthMetric) :=
  match group_filter group_by group_vals with
  | None => Raise KeyError
  | Some f =>
      let group_data :=
        sort_by (fun a b => Z.leb (period_sort (g_period a))
                                  (period_sort (g_period b)))
                (filter f data) in
      for_each (fun pc => growth_metric group_vals (fst pc) (snd pc))
               (consecutive group_data)
  end.

(** The metrics in the order they are appended, before ranking.  The YoY and
    QoQ branches of the source differ only in the period columns, the sort
    column and the period label, which [Period] carries; any other period
    type appends nothing.  A duplicated group column makes [reset_index]
    raise [ValueError]. *)
Definition growth_rows (df : DataFrame) (pt : GrowthPeriod)
    (group_by : list column) : exc (list GrowthMetric) :=
  match pt with
  | MOM => Ok []
  | _ =>
      if has_duplicate group_by then Raise ValueError
      else
        let data := sort_grouped (groupby_sum pt group_by (rows df)) in
        for_each (group_growth group_by data)
                 (drop_duplicates (list_eqb String.eqb) (map g_vals data))
  end.

Definition set_rank (m : GrowthMetric) (r : Z) : GrowthMetric :=
  mkMetric (entity m) (period m) (current_value m) (previous_value m)
           (growth_rate m) (growth_absolute m) r.

(** [for i, metric in enumerate(metrics): metric.rank = i + 1] *)
Fixpoint assign_ranks (i : Z) (ms : list GrowthMetric) : list GrowthMetric :=
  match ms with
  | [] => []
  | m :: ms' => set_rank m (i + 1) :: assign_ranks (i + 1) ms'
  end.

(** [metrics.sort(key=lambda x: x.growth_rate, reverse=True)] *)
Definition rate_geb (a b : GrowthMetric) : bool :=
  Qle_bool (growth_rate b) (growth_rate a).

Definition rank_metrics (ms : list GrowthMetric) : list GrowthMetric :=
  assign_ranks 0 (sort_by rate_geb ms).

Definition calculate_growth_metrics (df : DataFrame) (pt : GrowthPeriod)
    (group_by : list column) : exc (list GrowthMetric) :=
  ms <- growth_rows df pt group_by ;;
  Ok (rank_metrics ms).

(** ** Metric calculator: concentration ([calculate_market_concentration]) *)

Definition sumQ (l : list Q) : Q := fold_right Qplus 0%Q l.

(** [Series.sum()] on floats: [nan] entries are skipped. *)
Fixpoint sum_skipna (l : list (option Q)) : Q :=
  match l with
  | [] => 0%Q
  | None :: l' => sum_skipna l'
  | Some x :: l' => (x + sum_skipna l')%Q
  end.

(** [manufacturer_totals / total_market * 100]: a zero total divides the
    (all zero) counts by zero, which gives [nan] shares. *)
Definition share_of (total count : N) : option Q :=
  if (total =? 0)%N then None
  else Some (QofN count / QofN total * 100)%Q.

(** Descending order with [nan] last, as [sort_values(ascending=False)]
    leaves it.  The order among equal shares is not fixed by pandas; the
    stable one is taken. *)
Definition share_geb (a b : string * option Q) : bool :=
  match snd a, snd b with
  | Some x, Some y => Qle_bool y x
  | Some _, None => true
  | None, Some _ => false
  | None, None => true
  end.

Definition option_sq (x : option Q) : option Q :=
  match x with
  | None => None
  | Some q => Some (q * q)%Q
  end.

Definition string_leb (a b : string) : bool := String.leb a b.

(** [vehicle_data.groupby('manufacturer')['registrations'].sum()] *)
Definition manufacturer_totals (rs : list Row) : list (string * N) :=
  groupby_registrations String.eqb string_leb manufacturer rs.

Definition market_shares (rs : list Row) : list (string * option Q) :=
  let totals := manufacturer_totals rs in
  let total_market := sumN (map snd totals) in
  sort_by share_geb
    (map (fun mt => (fst mt, share_of total_market (snd mt))) totals).

Definition _classify_market_structure (hhi : Q) : string :=
  if Qlt_le_dec 2500 hhi then "Highly Concentrated (Oligopoly)"
  else if Qlt_le_dec 1500 hhi then "Moderately Concentrated"
  else if Qlt_le_dec 1000 hhi then "Unconcentrated (Competitive)"
  else "Highly Competitive".

Record Concentration : Type := mkConcentration {
  total_manufacturers : Z;
  market_leader : string;
  leader_share : option Q;
  cr4_ratio : Q;
  cr8_ratio : Q;
  hhi_index : Q;
  effective_competitors : Q;
  market_structure : string;
  top_5_shares : list (string * option Q)
}.

(** [series.index[0]] / [series.iloc[0]] *)
Definition first_item {A : Type} (l : list A) : exc A :=
  match l with
  | [] => Raise IndexError
  | a :: _ => Ok a
  end.

(** The body of the loop for one vehicle type. *)
Definition concentration_of (df : DataFrame) (vt : string)
  : exc Concentration :=
  let vehicle_data := select df (fun r => String.eqb (vehicle_type r) vt) in
  let shares := market_shares (rows vehicle_data) in
  let cr4 := sum_skipna (map snd (firstn 4 shares)) in
  let cr8 := sum_skipna (map snd (firstn 8 shares)) in
  let hhi := sum_skipna (map (fun s => option_sq (snd s)) shares) in
  eff <- (if Qlt_le_dec 0 hhi
          then d <- true_div hhi 10000 ;; true_div 1 d
          else Ok 0%Q) ;;
  leader <- first_item shares ;;
  Ok (mkConcentration (Z.of_nat (List.length shares)) (fst leader) (snd leader)
        cr4 cr8 hhi eff (_classify_market_structure hhi) (firstn 5 shares)).

(** [df['vehicle_type'].unique()] *)
Definition vehicle_types (df : DataFrame) : list string :=
  drop_duplicates String.eqb (map vehicle_type (rows df)).

(** A loop filling a dict with one entry per key; the keys are distinct, so
    the dict is the list of entries in insertion order. *)
Fixpoint for_keys {A : Type} (body : string -> exc (option A))
    (ks : list string) : exc (list (string * A)) :=
  match ks with
  | [] => Ok []
  | k :: ks' =>
      v <- body k ;;
      rest <- for_keys body ks' ;;
      Ok (match v with
          | Some a => (k, a) :: rest
          | None => rest
          end)
  end.

Definition calculate_market_concentration (df : DataFrame)
  : exc (list (string * Concentration)) :=
  for_keys (fun vt => c <- concentration_of df vt ;; Ok (Some c))
           (vehicle_types df).

(** [d[k]] on a dict. *)
Fixpoint dict_get {A : Type} (d : list (string * A)) (k : string) : exc A :=
  match d with
  | [] => Raise KeyError
  | (k', a) :: d' => if String.eqb k' k then Ok a else dict_get d' k
  end.

(** ** Metric calculator: scorecard ([generate_investment_scorecard]) *)

(** [np.mean]: [nan] on an empty list. *)
Definition np_mean (l : list Q) : option Q :=
  match l with
  | [] => None
  | _ => Some (sumQ l / inject_Z (Z.of_nat (List.length l)))%Q
  end.

Definition Qmax (a b : Q) : Q := if Qlt_le_dec a b then b else a.
Definition Qmin (a b : Q) : Q := if Qlt_le_dec b a then b else a.

(** [min(100, max(0, (avg_growth + 20) * 2))].  For [avg_growth = nan] the
    comparison [nan > 0] inside [max] is false, so [max] keeps its first
    argument [0], and [min(100, 0)] is [0]. *)
Definition growth_score_of (avg_growth : option Q) : Q :=
  match avg_growth with
  | None => 0%Q
  | Some a => Qmin 100 (Qmax 0 ((a + 20) * 2))
  end.

Definition size_percentile_of (vt : string) : Z :=
  if String.eqb vt "3W" then 33
  else if String.eqb vt "2W" then 67
  else 100.

Definition recommendation_of (overall_score : Q) : string :=
  if Qlt_le_dec overall_score 75 then
    if Qlt_le_dec overall_score 60 then
      if Qlt_le_dec overall_score 40 then
        "Avoid - Challenging market conditions"
      else "Hold - Mixed signals, monitor closely"
    else "Buy - Positive outlook with moderate risk"
  else "Strong Buy - High growth potential with favorable market dynamics".

Record KeyMetrics : Type := mkKeyMetrics {
  avg_yoy_growth : option Q;
  total_market_size : N;
  number_of_players : Z;
  km_market_leader : string
}.

Record Scorecard : Type := mkScorecard {
  overall_score : Q;
  growth_momentum : Q;
  market_size : Z;
  competition_intensity : Q;
  innovation_potential : Q;
  recommendation : string;
  key_metrics : KeyMetrics
}.

Definition option_round (x : option Q) (ndigits : nat) : option Q :=
  match x with
  | None => None
  | Some q => Some (py_round q ndigits)
  end.

(** The four sub-scores of one vehicle type, before any rounding. *)
Record Scores : Type := mkScores {
  growth_score : Q;
  size_score : Z;
  competition_score : Q;
  innovation_score : Q
}.

Definition weighted_score (s : Scores) : Q :=
  (growth_score s * (4 # 10) + inject_Z (size_score s) * (3 # 10)
   + competition_score s * (2 # 10) + innovation_score s * (1 # 10))%Q.

Definition innovation_score_of (vehicle_data : DataFrame) : Q :=
  if has_fuel_type vehicle_data then
    let fuel_diversity :=
      List.length (drop_duplicates String.eqb (map fuel_type (rows vehicle_data))) in
    Qmin 100 (inject_Z (Z.of_nat fuel_diversity * 20))
  else 50%Q.

(** The body of the scorecard loop for one vehicle type. *)
Definition scorecard_of (df : DataFrame) (vt : string) : exc Scorecard :=
  let vehicle_data := select df (fun r => String.eqb (vehicle_type r) vt) in
  yoy_metrics <- calculate_growth_metrics vehicle_data YOY [col_manufacturer] ;;
  let avg_growth := np_mean (map growth_rate yoy_metrics) in
  let total := total_registrations (rows vehicle_data) in
  concentration <- calculate_market_concentration vehicle_data ;;
  c <- dict_get concentration vt ;;
  let s := mkScores (growth_score_of avg_growth)
                    (size_percentile_of vt)
                    (Qmax 0 (100 - hhi_index c / 50))
                    (innovation_score_of vehicle_data) in
  let overall := weighted_score s in
  Ok (mkScorecard (py_round overall 1)
        (py_round (growth_score s) 1)
        (size_score s)
        (py_round (competition_score s) 1)
        (py_round (innovation_score s) 1)
        (recommendation_of overall)
        (mkKeyMetrics (option_round avg_growth 2) total
           (total_manufacturers c) (market_leader c))).

Definition generate_investment_scorecard (df : DataFrame)
  : exc (list (string * Scorecard)) :=
  for_keys (fun vt => s <- scorecard_of df vt ;; Ok (Some s))
           (vehicle_types df).

(** ** Metric calculator: forecast ([forecast_registrations]) *)

Record Forecast : Type := mkForecast {
  forecast_values : list Z;
  trend_slope : Q;
  confidence_interval : Q;
  last_actual : Z;
  growth_trend : string
}.

Definition yq_eqb (a b : Z * Quarter) : bool :=
  Z.eqb (fst a) (fst b) && quarter_eqb (snd a) (snd b).

Definition yq_leb (a b : Z * Quarter) : bool :=
  match Z.compare (fst a) (fst b) with
  | Lt => true
  | Gt => false
  | Eq => Z.leb (quarter_number (snd a)) (quarter_number (snd b))
  end.

(** [vehicle_data.groupby(['year', 'quarter'])['registrations'].sum()] *)
Definition quarterly_sums (rs : list Row) : list ((Z * Quarter) * N) :=
  groupby_registrations yq_eqb yq_leb (fun r => (year r, quarter r)) rs.

Definition min_Z (l : list Z) : Z :=
  match l with
  | [] => 0
  | a :: l' => fold_left Z.min l' a
  end.

(** [(year - year.min()) * 4 + quarter number - 1] *)
Definition period_index (min_year : Z) (yq : Z * Quarter) : Z :=
  (fst yq - min_year) * 4 + quarter_number (snd yq) - 1.

(** [np.polyfit(x, y, 1)]: the least-squares line, [(slope, intercept)]. *)
Definition polyfit1 (x y : list Q) : Q * Q :=
  let n := inject_Z (Z.of_nat (List.length x)) in
  let sx := sumQ x in
  let sy := sumQ y in
  let sxx := sumQ (map (fun a => a * a)%Q x) in
  let sxy := sumQ (map (fun ab => fst ab * snd ab)%Q (combine x y)) in
  let slope := ((n * sxy - sx * sy) / (n * sxx - sx * sx))%Q in
  (slope, ((sy - slope * sx) / n)%Q).

(** [range(a, b)] *)
Definition py_range (a b : Z) : list Z :=
  map (fun i => a + Z.of_nat i) (seq 0 (Z.to_nat (b - a))).

Section Forecast.
(** The floating-point square root behind [np.std]. *)
Variable sqrt : Q -> Q.

(** [np.std]: the population standard deviation. *)
Definition np_std (l : list Q) : Q :=
  let n := inject_Z (Z.of_nat (List.length l)) in
  let mean := (sumQ l / n)%Q in
  sqrt (sumQ (map (fun a => (a - mean) * (a - mean))%Q l) / n)%Q.

(** The body of the forecast loop for one vehicle type; [None] when the
    type gets no entry. *)
Definition forecast_of (df : DataFrame) (periods : Z) (vt : string)
  : exc (option Forecast) :=
  let vehicle_data := select df (fun r => String.eqb (vehicle_type r) vt) in
  let quarterly_data := quarterly_sums (rows vehicle_data) in
  let min_year := min_Z (map (fun e => fst (fst e)) quarterly_data) in
  if (4 <=? List.length quarterly_data)%nat then
    let x := map (fun e => period_index min_year (fst e)) quarterly_data in
    let y := map snd quarterly_data in
    let coeffs := polyfit1 (map inject_Z x) (map QofN y) in
    let slope := fst coeffs in
    let intercept := snd coeffs in
    match last_opt x, last_opt y with
    | Some last_period, Some last_y =>
        let forecast_periods :=
          py_range (last_period + 1) (last_period + periods + 1) in
        let values :=
          map (fun p => slope * inject_Z p + intercept)%Q forecast_periods in
        let residuals :=
          map (fun xy => QofN (snd xy)
                         - (slope * inject_Z (fst xy) + intercept))%Q
              (combine x y) in
        let std_error := np_std residuals in
        Ok (Some (mkForecast
                    (map (fun v => Z.max 0 (py_int v)) values)
                    slope
                    (std_error * (196 # 100))%Q
                    (Z.of_N last_y)
                    (if Qlt_le_dec 0 slope then "Positive" else "Negative")))
    | _, _ => Raise IndexError
    end
  else Ok None.

Definition forecast_registrations (df : DataFrame) (periods : Z)
  : exc (list (string * Forecast)) :=
  for_keys (forecast_of df periods) (vehicle_types df).
End Forecast.

(** ** Store: growth recomputation ([calculate_and_store_growth_metrics]) *)

Record StoredMetric : Type := mkStored {
  entity_type : string;
  entity_name : string;
  metric_type : string;
  stored_period : string;
  stored_current : option N;
  stored_previous : option N;
  stored_growth_rate : option Q;  (* [None] is SQL [NULL] *)
  stored_growth_absolute : Z
}.

Record Store : Type := mkStore {
  vehicle_registrations : list Row;
  growth_metrics : list StoredMetric
}.

(** SQL [ROUND(x, 2)]: nearest value, halves away from zero. *)
Definition sql_round (x : Q) (ndigits : nat) : Q :=
  let scale := inject_Z (Z.pow 10 (Z.of_nat ndigits)) in
  let s := (x * scale)%Q in
  if Qlt_le_dec s 0
  then (inject_Z (- Qfloor (- s + (1 # 2))) / scale)%Q
  else (inject_Z (Qfloor (s + (1 # 2))) / scale)%Q.

(** [CASE WHEN prev > 0 THEN ROUND((cur - prev) * 100.0 / prev, 2)
     ELSE NULL END] *)
Definition sql_growth_rate (cur : N) (prev : option N) : option Q :=
  match prev with
  | Some p =>
      if (0 <? p)%N
      then Some (sql_round ((QofN cur - QofN p) * 100 / QofN p) 2)
      else None
  | None => None
  end.

(** [cur - COALESCE(prev, 0)] *)
Definition sql_growth_absolute (cur : N) (prev : option N) : Z :=
  Z.of_N cur - match prev with Some p => Z.of_N p | None => 0 end.

(** [a LEFT JOIN b ON cond]: every row of [a] with each matching row of [b],
    or once with [NULL]s when none matches. *)
Definition left_join {A B : Type} (cond : A -> B -> bool)
    (a : list A) (b : list B) : list (A * option B) :=
  flat_map (fun x =>
              match filter (cond x) b with
              | [] => [(x, None)]
              | ms => map (fun y => (x, Some y)) ms
              end) a.

Definition is_some {A : Type} (o : option A) : bool :=
  match o with
  | Some _ => true
  | None => false
  end.

(** *** YoY growth by manufacturer *)

Definition MvyKey : Type := (string * string * Z)%type.

Definition mvy_eqb (a b : MvyKey) : bool :=
  String.eqb (fst (fst a)) (fst (fst b))
  && String.eqb (snd (fst a)) (snd (fst b))
  && Z.eqb (snd a) (snd b).

Definition mvy_leb (a b : MvyKey) : bool :=
  match String.compare (fst (fst a)) (fst (fst b)) with
  | Lt => true
  | Gt => false
  | Eq =>
      match String.compare (snd (fst a)) (snd (fst b)) with
      | Lt => true
      | Gt => false
      | Eq => Z.leb (snd a) (snd b)
      end
  end.

(** [SELECT manufacturer, vehicle_type, year, SUM(registrations)
     FROM vehicle_registrations GROUP BY manufacturer, vehicle_type, year] *)
Definition sql_yearly_data (rs : list Row) : list (MvyKey * N) :=
  groupby_registrations mvy_eqb mvy_leb
    (fun r => (manufacturer r, vehicle_type r, year r)) rs.

(** [ON y1.manufacturer = y2.manufacturer
     AND y1.vehicle_type = y2.vehicle_type AND y1.year = y2.year + 1] *)
Definition yoy_join_cond (y1 y2 : MvyKey * N) : bool :=
  String.eqb (fst (fst (fst y1))) (fst (fst (fst y2)))
  && String.eqb (snd (fst (fst y1))) (snd (fst (fst y2)))
  && Z.eqb (snd (fst y1)) (snd (fst y2) + 1).

Definition yoy_manufacturer_rows (rs : list Row) : list StoredMetric :=
  let yearly_data := sql_yearly_data rs in
  let yoy_growth := left_join yoy_join_cond yearly_data yearly_data in
  map (fun j =>
         let y1 := fst j in
         let prev := option_map snd (snd j) in
         mkStored "manufacturer"
           (fst (fst (fst y1)) ++ " (" ++ snd (fst (fst y1)) ++ ")")
           "yoy"
           (str_Z (snd (fst y1)))
           (Some (snd y1))
           prev
           (sql_growth_rate (snd y1) prev)
           (sql_growth_absolute (snd y1) prev))
      (filter (fun j => is_some (snd j)) yoy_growth).

(** *** QoQ growth by manufacturer *)

Definition MvyqKey : Type := (string * string * Z * Quarter)%type.

Definition mvyq_partition_eqb (a b : MvyqKey) : bool :=
  String.eqb (fst (fst (fst a))) (fst (fst (fst b)))
  && String.eqb (snd (fst (fst a))) (snd (fst (fst b))).

Definition mvyq_eqb (a b : MvyqKey) : bool :=
  mvyq_partition_eqb a b
  && yq_eqb (snd (fst a), snd a) (snd (fst b), snd b).

Definition mvyq_leb (a b : MvyqKey) : bool :=
  match String.compare (fst (fst (fst a))) (fst (fst (fst b))) with
  | Lt => true
  | Gt => false
  | Eq =>
      match String.compare (snd (fst (fst a))) (snd (fst (fst b))) with
      | Lt => true
      | Gt => false
      | Eq => yq_leb (snd (fst a), snd a) (snd (fst b), snd b)
      end
  end.

Definition sql_quarterly_data (rs : list Row) : list (MvyqKey * N) :=
  groupby_registrations mvyq_eqb mvyq_leb
    (fun r => (manufacturer r, vehicle_type r, year r, quarter r)) rs.

(** [ROW_NUMBER() OVER (PARTITION BY manufacturer, vehicle_type
     ORDER BY year, quarter)] *)
Definition period_num (data : list (MvyqKey * N)) (e : MvyqKey * N) : Z :=
  1 + Z.of_nat
        (List.length
           (filter (fun e' =>
                      mvyq_partition_eqb (fst e') (fst e)
                      && negb (yq_leb (snd (fst (fst e)), snd (fst e))
                                      (snd (fst (fst e')), snd (fst e'))))
                   data)).

Definition qoq_manufacturer_rows (rs : list Row) : list StoredMetric :=
  let quarterly_data := sql_quarterly_data rs in
  let cond q1 q2 :=
    mvyq_partition_eqb (fst q1) (fst q2)
    && Z.eqb (period_num quarterly_data q1)
             (period_num quarterly_data q2 + 1) in
  let qoq_growth := left_join cond quarterly_data quarterly_data in
  map (fun j =>
         let q1 := fst j in
         let prev := option_map snd (snd j) in
         mkStored "manufacturer"
           (fst (fst (fst (fst q1))) ++ " (" ++ snd (fst (fst (fst q1))) ++ ")")
           "qoq"
           (str_Z (snd (fst (fst q1))) ++ "-" ++ quarter_label (snd (fst q1)))
           (Some (snd q1))
           prev
           (sql_growth_rate (snd q1) prev)
           (sql_growth_absolute (snd q1) prev))
      (filter (fun j => is_some (snd j)) qoq_growth).

(** *** YoY growth by vehicle type *)

Definition vy_eqb (a b : string * Z) : bool :=
  String.eqb (fst a) (fst b) && Z.eqb (snd a) (snd b).

Definition vy_leb (a b : string * Z) : bool :=
  match String.compare (fst a) (fst b) with
  | Lt => true
  | Gt => false
  | Eq => Z.leb (snd a) (snd b)
  end.

Definition sql_yearly_vehicle_data (rs : list Row) : list ((string * Z) * N) :=
  groupby_registrations vy_eqb vy_leb (fun r => (vehicle_type r, year r)) rs.

Definition vehicle_type_yoy_rows (rs : list Row) : list StoredMetric :=
  let yearly := sql_yearly_vehicle_data rs in
  let cond v1 v2 :=
    String.eqb (fst (fst v1)) (fst (fst v2))
    && Z.eqb (snd (fst v1)) (snd (fst v2) + 1) in
  map (fun j =>
         let v1 := fst j in
         let prev := option_map snd (snd j) in
         mkStored "vehicle_type"
           (fst (fst v1))
           "yoy"
           (str_Z (snd (fst v1)))
           (Some (snd v1))
           prev
           (sql_growth_rate (snd v1) prev)
           (sql_growth_absolute (snd v1) prev))
      (filter (fun j => is_some (snd j)) (left_join cond yearly yearly)).

(** [DELETE FROM growth_metrics] followed by the three inserts. *)
Definition calculate_and_store_growth_metrics (st : Store) : Store :=
  let rs := vehicle_registrations st in
  mkStore rs
    (yoy_manufacturer_rows rs ++ qoq_manufacturer_rows rs
     ++ vehicle_type_yoy_rows rs).

(** ** Insight narrator ([InvestorInsightsGenerator]) *)

(** *** String formatting *)

Fixpoint chars_of (s : string) : list ascii :=
  match s with
  | EmptyString => []
  | String c s' => c :: chars_of s'
  end.

Fixpoint string_of_chars (cs : list ascii) : string :=
  match cs with
  | [] => EmptyString
  | c :: cs' => String c (string_of_chars cs')
  end.

(** Digits from the least significant one, a comma after every third digit
    that has a successor. *)
Fixpoint group_thousands (k : nat) (rev_digits : list ascii) : list ascii :=
  match rev_digits with
  | [] => []
  | c :: rest =>
      match k, rest with
      | 2%nat, _ :: _ => c :: ","%char :: group_thousands 0 rest
      | _, _ => c :: group_thousands (S k) rest
      end
  end.

(** [f"{n:,}"] *)
Definition fmt_comma (n : N) : string :=
  string_of_chars (rev (group_thousands 0 (rev (chars_of (str_N n))))).

(** [f"{x:.1f}"] *)
Definition fmt_1f (x : Q) : string :=
  let tenths := Z.abs (round_half_even (x * 10)) in
  ((if Qlt_le_dec x 0 then "-" else "")
   ++ str_Z (tenths / 10) ++ "." ++ str_Z (tenths mod 10))%string.

(** [f"{x:.1f}%"] for a float that may be [nan]. *)
Definition fmt_pct (x : option Q) : string :=
  match x with
  | Some q => (fmt_1f q ++ "%")%string
  | None => "nan%"
  end.

(** [sub in s] *)
Definition contains (sub s : string) : bool :=
  match String.index 0 sub s with
  | Some _ => true
  | None => false
  end.

(** *** Executive summary *)

Record MarketOverview : Type := mkOverview {
  mo_total_registrations : string;
  mo_yoy_growth : string;
  mo_total_manufacturers : Z;
  mo_dominant_category : string;
  mo_market_size_category : string
}.

Record ExecutiveSummary : Type := mkSummary {
  market_overview : MarketOverview;
  key_highlights : list string;
  investment_outlook : string;
  risk_assessment : list string
}.

Definition _classify_market_size (total : N) : string :=
  if (10000000 <? total)%N then "Large Market (>10M registrations)"
  else if (1000000 <? total)%N then "Medium Market (1-10M registrations)"
  else "Small Market (<1M registrations)".

Definition _get_concentration_summary
    (concentration_metrics : list (string * Concentration)) : string :=
  let structures := map (fun e => market_structure (snd e))
                        concentration_metrics in
  if forallb (contains "Highly Concentrated") structures
  then "All segments highly concentrated"
  else if forallb (contains "Competitive") structures
  then "All segments competitive"
  else "Mixed concentration levels across segments".

Definition outlook_of (avg_score : option Q) : string :=
  match avg_score with
  | Some a =>
      if Qlt_le_dec a 75 then
        if Qlt_le_dec a 60 then
          if Qlt_le_dec a 40 then
            "Cautious - Challenging market conditions with limited opportunities"
          else "Neutral - Mixed signals requiring careful analysis"
        else "Cautiously Optimistic - Good opportunities with selective approach needed"
      else "Positive - Strong growth fundamentals with favorable market dynamics"
  | None =>
      "Cautious - Challenging market conditions with limited opportunities"
  end.

Definition _generate_investment_outlook (df : DataFrame) : exc string :=
  scorecard <- generate_investment_scorecard df ;;
  Ok (outlook_of (np_mean (map (fun e => overall_score (snd e)) scorecard))).

Definition _assess_market_risks (df : DataFrame) : exc (list string) :=
  concentration_metrics <- calculate_market_concentration df ;;
  let high_concentration_segments :=
    map fst (filter (fun e => if Qlt_le_dec 2500 (hhi_index (snd e))
                              then true else false)
                    concentration_metrics) in
  let risks1 :=
    match high_concentration_segments with
    | [] => []
    | _ => [("High concentration risk in "
             ++ String.concat ", " high_concentration_segments
             ++ " segments")%string]
    end in
  yoy_metrics <- calculate_growth_metrics df YOY [col_vehicle_type] ;;
  let declining_segments :=
    map entity (filter (fun m => if Qlt_le_dec (growth_rate m) (-5)
                                 then true else false)
                       yoy_metrics) in
  let risks2 :=
    match declining_segments with
    | [] => []
    | _ => [("Declining demand in "
             ++ String.concat ", " declining_segments)%string]
    end in
  Ok (risks1 ++ risks2
      ++ ["Economic downturn impact on vehicle purchases";
          "Regulatory changes affecting vehicle standards";
          "Technology disruption from new mobility solutions"]%string).

Definition max_Z (l : list Z) : Z :=
  match l with
  | [] => 0
  | a :: l' => fold_left Z.max l' a
  end.

Definition count_geb (a b : string * N) : bool := (snd b <=? snd a)%N.

Definition generate_executive_summary (df : DataFrame)
  : exc ExecutiveSummary :=
  match rows df with
  | [] =>
      Ok (mkSummary
            (mkOverview "0" "N/A" 0 "No data available" "No data available")
            ["No data available for the selected filters"%string]
            "No data available"
            ["No data available"%string])
  | _ =>
      let rs := rows df in
      let total := total_registrations rs in
      let n_manufacturers :=
        Z.of_nat (List.length
                    (drop_duplicates String.eqb (map manufacturer rs))) in
      let latest_year := max_Z (map year rs) in
      let current_year_data :=
        total_registrations (filter (fun r => Z.eqb (year r) latest_year) rs) in
      let previous_year_data :=
        total_registrations
          (filter (fun r => Z.eqb (year r) (latest_year - 1)) rs) in
      yoy_growth <-
        (if (0 <? previous_year_data)%N
         then ratio <- true_div (QofN current_year_data
                                 - QofN previous_year_data)%Q
                                (QofN previous_year_data) ;;
              Ok (ratio * 100)%Q
         else Ok 0%Q) ;;
      let vehicle_breakdown :=
        sort_by count_geb
          (groupby_registrations String.eqb string_leb vehicle_type rs) in
      let dominant :=
        match vehicle_breakdown with
        | [] => ("No data", 0%N)
        | top :: _ => top
        end in
      concentration_metrics <- calculate_market_concentration df ;;
      outlook <- _generate_investment_outlook df ;;
      risks <- _assess_market_risks df ;;
      Ok (mkSummary
            (mkOverview (fmt_comma total)
                        (fmt_1f yoy_growth ++ "%")
                        n_manufacturers
                        (fst dominant)
                        (_classify_market_size total))
            [("Market grew " ++ fmt_1f yoy_growth ++ "% YoY with "
              ++ fmt_comma total ++ " total registrations")%string;
             (fst dominant ++ " segment dominates with "
              ++ fmt_comma (snd dominant) ++ " registrations")%string;
             ("Market features " ++ str_Z n_manufacturers
              ++ " active manufacturers across all segments")%string;
             ("Concentration varies by segment: "
              ++ _get_concentration_summary concentration_metrics)%string]
            outlook
            risks)
  end.

(** *** Investment themes *)

Inductive DataValue : Type :=
| Text (s : string)
| Count (n : N)
| Number (q : Q)
| Delta (z : Z).

Record InvestmentTheme : Type := mkTheme {
  theme_name : string;
  description : string;
  supporting_data : list (string * DataValue);
  investment_thesis : string;
  risk_factors : list string;
  potential_returns : string
}.

(** [max(ms, key=lambda x: x.growth_rate)]: the first metric of the largest
    rate, [best] being the running maximum. *)
Fixpoint max_by_rate (best : GrowthMetric) (ms : list GrowthMetric)
  : GrowthMetric :=
  match ms with
  | [] => best
  | m :: ms' =>
      max_by_rate (if Qlt_le_dec (growth_rate best) (growth_rate m)
                   then m else best) ms'
  end.

Section Themes.
(** [f"{((last / first) ** (1 / (n - 1)) - 1) * 100:.1f}%"]: the compound
    growth rate needs a real root, outside exact rational arithmetic; its
    text is taken as given.  The float operations involved never raise. *)
Variable cagr_text : N -> N -> nat -> string.

(** Theme 1: electric vehicle adoption. *)
Definition ev_theme (df : DataFrame) : exc (list InvestmentTheme) :=
  if has_fuel_type df then
    let ev_data := filter (fun r => String.eqb (fuel_type r) "Electric")
                          (rows df) in
    match ev_data with
    | [] => Ok []
    | _ =>
        let ev_growth := groupby_registrations Z.eqb Z.leb year ev_data in
        if (1 <? List.length ev_growth)%nat then
          first <- first_item ev_growth ;;
          match last_opt ev_growth with
          | None => Raise IndexError
          | Some last =>
              Ok [mkTheme "Electric Vehicle Adoption"
                    "Rapid transition to electric mobility across vehicle segments"
                    [("ev_cagr",
                      Text (cagr_text (snd last) (snd first)
                                      (List.length ev_growth)));
                     ("current_ev_registrations", Count (snd last));
                     ("ev_market_share",
                      Text (fmt_pct
                              (share_of (total_registrations (rows df))
                                        (total_registrations ev_data))))]
                    "Government incentives and environmental concerns driving massive shift to EVs"
                    ["Charging infrastructure development lag";
                     "Battery technology and cost challenges";
                     "Policy changes affecting incentives"]%string
                    "High (20-30% CAGR potential)"]
          end
        else Ok []
    end
  else Ok [].

Definition consolidation_theme (e : string * Concentration)
  : InvestmentTheme :=
  let vt := fst e in
  let metrics := snd e in
  mkTheme (vt ++ " Market Consolidation")
    ("Increasing concentration in " ++ vt
     ++ " segment favoring market leaders")
    [("market_leader", Text (market_leader metrics));
     ("leader_share", Text (fmt_pct (leader_share metrics)));
     ("top_4_share", Text (fmt_pct (Some (cr4_ratio metrics))));
     ("hhi_index", Number (hhi_index metrics))]
    "Market leaders gaining pricing power and economies of scale"
    ["Regulatory intervention in concentrated markets";
     "New entrant disruption";
     "Technology shifts favoring smaller players"]%string
    "Medium-High (15-25% CAGR for leaders)".

Definition is_concentrated (e : string * Concentration) : bool :=
  if Qlt_le_dec 1500 (hhi_index (snd e)) then true else false.

(** Theme 2: one entry per concentrated vehicle type. *)
Definition consolidation_themes (df : DataFrame)
  : exc (list InvestmentTheme) :=
  concentration_metrics <- calculate_market_concentration df ;;
  Ok (map consolidation_theme (filter is_concentrated concentration_metrics)).

Definition is_high_growth (m : GrowthMetric) : bool :=
  if Qlt_le_dec 15 (growth_rate m) then true else false.

(** Theme 3: the fastest growing segment. *)
Definition high_growth_theme (df : DataFrame) : exc (list InvestmentTheme) :=
  growth <- calculate_growth_metrics df YOY [col_vehicle_type] ;;
  match filter is_high_growth growth with
  | [] => Ok []
  | m :: ms =>
      let fastest_growing := max_by_rate m ms in
      Ok [mkTheme "High-Growth Segment Opportunity"
            ("Exceptional growth in " ++ entity fastest_growing ++ " segment")
            [("growth_rate",
              Text (fmt_pct (Some (growth_rate fastest_growing))));
             ("current_registrations",
              Count (current_value fastest_growing));
             ("growth_absolute", Delta (growth_absolute fastest_growing))]
            "Structural demand drivers supporting sustained high growth"
            ["Growth rate normalization as market matures";
             "Increased competition as segment attracts entrants";
             "Economic downturn impact on discretionary purchases"]%string
            "High (25-40% CAGR potential)"]
  end.

Definition identify_investment_themes (df : DataFrame)
  : exc (list InvestmentTheme) :=
  t1 <- ev_theme df ;;
  t2 <- consolidation_themes df ;;
  t3 <- high_growth_theme df ;;
  Ok (t1 ++ t2 ++ t3).
End Themes.


(** * Further functions of the analytics and the narrator *)

(** ** Market leaders ([identify_market_leaders]) *)

Record MarketLeaders : Type := mkLeaders {
  ml_vehicle_type : string;
  ml_market_leader : string;
  ml_leader_share : option Q;
  top_3_players : list (string * option Q);
  top_3_combined_share : Q;
  ml_hhi_index : Q;
  ml_market_structure : string;
  total_players : Z;
  ml_fragmentation_level : string
}.

(** [groupby('manufacturer')['registrations'].sum()
     .sort_values(ascending=False)].  The order among equal sums is not fixed
    by pandas; the stable one is taken. *)
Definition ranked_totals (rs : list Row) : list (string * N) :=
  sort_by count_geb (manufacturer_totals rs).

(** [(market_share / total * 100).round(2)] *)
Definition rounded_shares (total : N) (totals : list (string * N))
  : list (string * option Q) :=
  map (fun mt => (fst mt, option_round (share_of total (snd mt)) 2)) totals.

(** ['High' if n > 15 else 'Medium' if n > 8 else 'Low'] *)
Definition fragmentation_of (n : nat) : string :=
  if (15 <? n)%nat then "High"
  else if (8 <? n)%nat then "Medium"
  else "Low".

Definition identify_market_leaders (df : DataFrame) (vt : string)
  : exc MarketLeaders :=
  let vehicle_data := select df (fun r => String.eqb (vehicle_type r) vt) in
  let total_registrations := total_registrations (rows vehicle_data) in
  let market_share := ranked_totals (rows vehicle_data) in
  let market_share_pct := rounded_shares total_registrations market_share in
  let hhi := sum_skipna (map (fun s => option_sq (snd s)) market_share_pct) in
  let market_structure :=
    if Qlt_le_dec 2500 hhi then "Highly Concentrated"
    else if Qlt_le_dec 1500 hhi then "Moderately Concentrated"
    else "Competitive" in
  let top_3 := firstn 3 market_share_pct in
  let top_3_share := sum_skipna (map snd top_3) in
  leader <- first_item market_share_pct ;;
  Ok (mkLeaders vt (fst leader) (snd leader) top_3 top_3_share
        (py_round hhi 2) market_structure
        (Z.of_nat (List.length market_share_pct))
        (fragmentation_of (List.length market_share_pct))).

(** ** Competitive analysis ([generate_competitive_analysis]) *)










(** ** Store: registrations ([bulk_insert_registrations], [get_data]) *)

(** [df_enhanced[required_columns]]: the seven columns of the table; any
    other column of the frame, like [fuel_type], is not stored. *)
Definition schema_row (r : Row) : Row :=
  mkRow (date r) (year r) (quarter r) (month r) (vehicle_type r)
        (manufacturer r) (registrations r) EmptyString.

(** [DELETE FROM vehicle_registrations] when [replace], then the append of
    [to_sql]. *)
Definition bulk_insert_registrations (st : Store) (df : DataFrame)
    (replace : bool) : Store :=
  let kept := if replace then [] else vehicle_registrations st in
  mkStore (kept ++ map schema_row (rows df)) (growth_metrics st).

(** [if start_date: query += " AND date >= ?"]: [None] and the empty string
    add no condition.  Dates are compared as the texts they are stored as. *)
Definition date_from (start_date : option string) (r : Row) : bool :=
  match start_date with
  | None => true
  | Some s => if String.eqb s "" then true else String.leb s (date r)
  end.

Definition date_until (end_date : option string) (r : Row) : bool :=
  match end_date with
  | None => true
  | Some s => if String.eqb s "" then true else String.leb (date r) s
  end.

(** [if values: query += " AND col IN (?, ...)"]: [None] and the empty list
    add no condition. *)
Definition one_of (values : option (list string)) (v : string) : bool :=
  match values with
  | None => true
  | Some [] => true
  | Some l => existsb (String.eqb v) l
  end.

(** [ORDER BY date, vehicle_type, manufacturer]; rows equal in all three
    keep the order of the table. *)
Definition lex (c1 c2 : comparison) : comparison :=
  match c1 with
  | Eq => c2
  | _ => c1
  end.

Definition registration_compare (a b : Row) : comparison :=
  lex (String.compare (date a) (date b))
      (lex (String.compare (vehicle_type a) (vehicle_type b))
           (String.compare (manufacturer a) (manufacturer b))).

Definition registration_leb (a b : Row) : bool :=
  match registration_compare a b with
  | Gt => false
  | _ => true
  end.

(** The frame [get_data] returns has the columns of the table, so no
    [fuel_type]; its [id] and [created_at] columns are not represented, no
    function of the analytics reads them.  The dates are the ISO texts of
    the records, which [pd.to_datetime] accepts. *)
Definition get_data (st : Store) (start_date end_date : option string)
    (vehicle_types manufacturers : option (list string)) : DataFrame :=
  mkFrame false
    (sort_by registration_leb
       (filter (fun r => date_from start_date r && date_until end_date r
                         && one_of vehicle_types (vehicle_type r)
                         && one_of manufacturers (manufacturer r))
               (vehicle_registrations st))).

(** ** Market sizing ([calculate_tam_sam_som]) *)

Record SizedMarket : Type := mkSized {
  sized_value : Q;
  sized_description : string
}.

Record MarketPenetration : Type := mkPenetration {
  current_penetration : string;
  growth_potential : string
}.

Record MarketSizing : Type := mkSizing {
  total_addressable_market : SizedMarket;
  serviceable_addressable_market : SizedMarket;
  serviceable_obtainable_market : SizedMarket;
  market_penetration : MarketPenetration
}.

(** [f"{x:.0f}%"] for a float that may be [nan]. *)
Definition fmt_pct0 (x : option Q) : string :=
  match x with
  | Some q =>
      ((if Qlt_le_dec q 0 then "-" else "")
       ++ str_Z (Z.abs (round_half_even q)) ++ "%")%string
  | None => "nan%"
  end.

Section MarketSizing.
(** The outcome of a division by zero.  It depends on the kind of number the
    sum of the column is: [nan] for a numpy number, a [ZeroDivisionError]
    for a Python one, as the sum of an empty column without a numeric type
    is. *)
Variable zero_division : exc (option Q).

Definition sizing_div (a b : Q) : exc (option Q) :=
  if Qeq_bool b 0 then zero_division else Ok (Some (a / b)%Q).

Definition calculate_tam_sam_som (df : DataFrame) : exc MarketSizing :=
  let current_registrations := QofN (total_registrations (rows df)) in
  let tam_multiplier := 3%Q in
  let sam_multiplier := 2%Q in
  let som_percentage := (5 # 100)%Q in
  let tam := (current_registrations * tam_multiplier)%Q in
  let sam := (current_registrations * sam_multiplier)%Q in
  let som := (sam * som_percentage)%Q in
  penetration <- sizing_div current_registrations tam ;;
  potential <- sizing_div (sam - current_registrations)%Q
                          current_registrations ;;
  Ok (mkSizing
        (mkSized tam
           "Total market opportunity across all segments and regions")
        (mkSized sam
           "Market opportunity for products/services we can realistically serve")
        (mkSized som
           "Realistic market share we can capture in near term")
        (mkPenetration
           (fmt_pct (option_map (fun x => x * 100)%Q penetration))
           (fmt_pct0 (option_map (fun x => x * 100)%Q potential)))).
End MarketSizing.

(** ** Store: market shares ([calculate_and_store_market_share],
    [get_market_leaders]) *)

Record ShareRow : Type := mkShare {
  share_period : string;
  share_vehicle_type : string;
  share_manufacturer : string;
  share_registrations : N;
  market_share_percent : Q;  (* [REAL NOT NULL] *)
  rank_position : Z
}.

(** The outcome of a statement that may violate a constraint of the table;
    after [IntegrityError] nothing is committed. *)
Inductive Outcome (A : Type) : Type :=
| Stored (table : A)
| IntegrityError.
Arguments Stored {A} table.
Arguments IntegrityError {A}.

Definition QvmKey : Type := (Z * Quarter * string * string)%type.

Definition qvm_eqb (a b : QvmKey) : bool :=
  yq_eqb (fst (fst a)) (fst (fst b))
  && String.eqb (snd (fst a)) (snd (fst b))
  && String.eqb (snd a) (snd b).

Definition qvm_leb (a b : QvmKey) : bool :=
  if yq_eqb (fst (fst a)) (fst (fst b)) then
    match String.compare (snd (fst a)) (snd (fst b)) with
    | Lt => true
    | Gt => false
    | Eq => String.leb (snd a) (snd b)
    end
  else yq_leb (fst (fst a)) (fst (fst b)).

(** [year || '-' || quarter] *)
Definition period_text (y : Z) (q : Quarter) : string :=
  (str_Z y ++ "-" ++ quarter_label q)%string.

(** One row of the [quarterly_totals] subquery. *)
Record QuarterlyTotal : Type := mkQuarterly {
  qt_period : string;
  qt_vehicle_type : string;
  qt_manufacturer : string;
  qt_registrations : N
}.

(** [SELECT (year || '-' || quarter), vehicle_type, manufacturer,
     SUM(registrations) FROM vehicle_registrations
     GROUP BY year, quarter, vehicle_type, manufacturer] *)
Definition quarterly_totals (rs : list Row) : list QuarterlyTotal :=
  map (fun e =>
         mkQuarterly (period_text (fst (fst (fst (fst e))))
                                  (snd (fst (fst (fst e)))))
                     (snd (fst (fst e))) (snd (fst e)) (snd e))
      (groupby_registrations qvm_eqb qvm_leb
         (fun r => (year r, quarter r, vehicle_type r, manufacturer r)) rs).

(** A partition of the window: a period and a vehicle type. *)
Definition in_partition (pv : string * string) (e : QuarterlyTotal) : bool :=
  String.eqb (qt_period e) (fst pv) && String.eqb (qt_vehicle_type e) (snd pv).

Definition pv_eqb (a b : string * string) : bool :=
  String.eqb (fst a) (fst b) && String.eqb (snd a) (snd b).

Definition partitions (qts : list QuarterlyTotal) : list (string * string) :=
  drop_duplicates pv_eqb (map (fun e => (qt_period e, qt_vehicle_type e)) qts).

(** [ROUND(registrations * 100.0 / total_registrations, 2)]; a division by
    zero is [NULL]. *)
Definition sql_share (registrations total : N) : option Q :=
  if (total =? 0)%N then None
  else Some (sql_round (QofN registrations * 100 / QofN total) 2).

Definition registrations_geb (a b : QuarterlyTotal) : bool :=
  (qt_registrations b <=? qt_registrations a)%N.

(** [ROW_NUMBER()] over the rows of a partition in their order. *)
Fixpoint number_rows (i : Z) (total : N) (l : list QuarterlyTotal)
  : list (QuarterlyTotal * option Q * Z) :=
  match l with
  | [] => []
  | e :: l' =>
      (e, sql_share (qt_registrations e) total, i)
      :: number_rows (i + 1) total l'
  end.

(** The [market_share_calc] subquery: every partition joined with its
    [vehicle_type_totals] row and numbered
    [ORDER BY registrations DESC]; rows with equal registrations keep the
    order of [quarterly_totals]. *)
Definition market_share_calc (qts : list QuarterlyTotal)
  : list (QuarterlyTotal * option Q * Z) :=
  flat_map (fun pv =>
              let part := filter (in_partition pv) qts in
              let total_registrations := sumN (map qt_registrations part) in
              number_rows 1 total_registrations
                          (sort_by registrations_geb part))
           (partitions qts).

(** [INSERT INTO market_share ... SELECT ...]: a [NULL] share violates the
    [NOT NULL] constraint of the column and aborts the statement. *)
Fixpoint insert_shares (calc : list (QuarterlyTotal * option Q * Z))
  : Outcome (list ShareRow) :=
  match calc with
  | [] => Stored []
  | (e, None, _) :: _ => IntegrityError
  | (e, Some share, k) :: rest =>
      match insert_shares rest with
      | Stored table =>
          Stored (mkShare (qt_period e) (qt_vehicle_type e)
                          (qt_manufacturer e) (qt_registrations e) share k
                  :: table)
      | IntegrityError => IntegrityError
      end
  end.

(** [DELETE FROM market_share] followed by the insert: the new table, which
    does not depend on the old one. *)
Definition calculate_and_store_market_share (rs : list Row)
  : Outcome (list ShareRow) :=
  insert_shares (market_share_calc (quarterly_totals rs)).

(** [SELECT MAX(period) FROM market_share WHERE vehicle_type = ?]: the
    greatest text, [NULL] without rows. *)
Definition max_text (l : list string) : option string :=
  match l with
  | [] => None
  | s :: l' =>
      Some (fold_left (fun best t => if String.leb best t then t else best)
                      l' s)
  end.

Definition rank_leb (a b : ShareRow) : bool :=
  (rank_position a <=? rank_position b).

(** [if period:] takes the first query, otherwise the latest period of the
    vehicle type is looked up; [ORDER BY rank_position]. *)
Definition get_market_leaders (market_share : list ShareRow)
    (vehicle_type : string) (period : option string) : list ShareRow :=
  let of_type := filter (fun r => String.eqb (share_vehicle_type r)
                                    vehicle_type) market_share in
  let wanted :=
    match period with
    | None => max_text (map share_period of_type)
    | Some p => if String.eqb p "" then max_text (map share_period of_type)
                else Some p
    end in
  match wanted with
  | None => []
  | Some p =>
      sort_by rank_leb
        (filter (fun r => String.eqb (share_period r) p) of_type)
  end.

(** ** Metric calculator: trends ([detect_growth_trends]) *)

(** A float that numpy computes from the sums: a division by zero gives
    [inf] or [nan] with a warning, never an exception. *)
Inductive NpFloat : Type :=
| Finite (q : Q)
| PosInf
| NegInf
| NaN.

Definition np_neg (x : NpFloat) : NpFloat :=
  match x with
  | Finite q => Finite (- q)
  | PosInf => NegInf
  | NegInf => PosInf
  | NaN => NaN
  end.

(** [x - y] *)
Definition np_sub (x y : NpFloat) : NpFloat :=
  match x, y with
  | NaN, _ | _, NaN => NaN
  | Finite a, Finite b => Finite (a - b)
  | PosInf, PosInf | NegInf, NegInf => NaN
  | PosInf, _ => PosInf
  | NegInf, _ => NegInf
  | Finite _, PosInf => NegInf
  | Finite _, NegInf => PosInf
  end.

(** An infinity with the sign of [q]; [nan] for [q = 0]. *)
Definition signed_inf (q : Q) : NpFloat :=
  if Qlt_le_dec 0 q then PosInf
  else if Qlt_le_dec q 0 then NegInf
  else NaN.

(** [x * y] *)
Definition np_mul (x y : NpFloat) : NpFloat :=
  match x, y with
  | NaN, _ | _, NaN => NaN
  | Finite a, Finite b => Finite (a * b)
  | PosInf, Finite b | Finite b, PosInf => signed_inf b
  | NegInf, Finite b | Finite b, NegInf => signed_inf (- b)
  | PosInf, PosInf | NegInf, NegInf => PosInf
  | PosInf, NegInf | NegInf, PosInf => NegInf
  end.

(** [x / y] *)
Definition np_div (x y : NpFloat) : NpFloat :=
  match x, y with
  | NaN, _ | _, NaN => NaN
  | Finite a, Finite b =>
      if Qeq_bool b 0 then signed_inf a else Finite (a / b)
  | Finite _, _ => Finite 0
  | PosInf, Finite b => if Qlt_le_dec b 0 then NegInf else PosInf
  | NegInf, Finite b => if Qlt_le_dec b 0 then PosInf else NegInf
  | _, _ => NaN
  end.

(** [abs(x)] *)
Definition np_abs (x : NpFloat) : NpFloat :=
  match x with
  | Finite q => Finite (if Qlt_le_dec q 0 then - q else q)
  | PosInf | NegInf => PosInf
  | NaN => NaN
  end.

(** [x > c]; false for [nan]. *)
Definition np_gt (x : NpFloat) (c : Q) : bool :=
  match x with
  | Finite q => if Qlt_le_dec c q then true else false
  | PosInf => true
  | NegInf | NaN => false
  end.

(** [x < c]; false for [nan]. *)
Definition np_lt (x : NpFloat) (c : Q) : bool :=
  match x with
  | Finite q => if Qlt_le_dec q c then true else false
  | NegInf => true
  | PosInf | NaN => false
  end.

(** [f"{x:.1f}"] *)
Definition fmt_np_1f (x : NpFloat) : string :=
  match x with
  | Finite q => fmt_1f q
  | PosInf => "inf"
  | NegInf => "-inf"
  | NaN => "nan"
  end.

Inductive InsightValue : Type :=
| Float (x : NpFloat)
| Registrations (n : N)
| Label (s : string)
| Averages (d : list (string * Q)).

Record MarketInsight : Type := mkInsight {
  insight_type : string;
  title : string;
  insight_description : string;
  impact_level : string;
  data_points : list (string * InsightValue);
  insight_recommendation : string
}.



Definition YmKey : Type := (Z * string)%type.

Definition ym_eqb (a b : YmKey) : bool :=
  Z.eqb (fst a) (fst b) && String.eqb (snd a) (snd b).

Definition ym_leb (a b : YmKey) : bool :=
  match Z.compare (fst a) (fst b) with
  | Lt => true
  | Gt => false
  | Eq => String.leb (snd a) (snd b)
  end.

(** [vehicle_data.groupby(['year', 'manufacturer'])['registrations'].sum()
     .reset_index()] *)
Definition yearly_manufacturer (rs : list Row) : list (YmKey * N) :=
  groupby_registrations ym_eqb ym_leb (fun r => (year r, manufacturer r)) rs.

(** [registrations / total * 100] *)
Definition share_percent (registrations total : N) : NpFloat :=
  np_mul (np_div (Finite (QofN registrations)) (Finite (QofN total)))
         (Finite 100).

Definition shift_insight (vehicle_type manufacturer : string)
    (share_change current_share previous_share : NpFloat) : MarketInsight :=
  mkInsight "Market Share Shift"
    (manufacturer ++ " Market Position Change")
    (manufacturer ++ " "
     ++ (if np_gt share_change 0 then "gained" else "lost") ++ " "
     ++ fmt_np_1f (np_abs share_change) ++ "% market share in "
     ++ vehicle_type ++ " segment")
    (if np_lt (np_abs share_change) 5 then "Medium" else "High")
    [("manufacturer", Label manufacturer);
     ("vehicle_type", Label vehicle_type);
     ("share_change", Float share_change);
     ("current_share", Float current_share);
     ("previous_share", Float previous_share)]
    (if np_gt share_change 0 then "Monitor for continued growth"
     else "Investigate causes of decline").

(** The body of the loop over the rows of [current_year]. *)
Definition manufacturer_shift (vehicle_type : string)
    (previous_year : list (YmKey * N)) (current_total previous_total : N)
    (manufacturer_data : YmKey * N) : list MarketInsight :=
  let manufacturer := snd (fst manufacturer_data) in
  let current_share := share_percent (snd manufacturer_data) current_total in
  let prev_data :=
    filter (fun e => String.eqb (snd (fst e)) manufacturer) previous_year in
  match prev_data with
  | [] => []
  | first :: _ =>
      let previous_share := share_percent (snd first) previous_total in
      let share_change := np_sub current_share previous_share in
      if np_gt (np_abs share_change) 2 then
        [shift_insight vehicle_type manufacturer share_change current_share
                       previous_share]
      else []
  end.

(** The body of the loop over the years. *)
Definition year_shifts (vehicle_type : string)
    (yearly_manufacturer : list (YmKey * N)) (year : Z)
  : list MarketInsight :=
  let current_year :=
    filter (fun e => Z.eqb (fst (fst e)) year) yearly_manufacturer in
  let previous_year :=
    filter (fun e => Z.eqb (fst (fst e)) (year - 1)) yearly_manufacturer in
  let current_total := sumN (map snd current_year) in
  let previous_total := sumN (map snd previous_year) in
  flat_map (manufacturer_shift vehicle_type previous_year current_total
                               previous_total)
           current_year.

(** The body of the loop over the vehicle types; the first year of the
    category is skipped ([unique()[1:]]). *)
Definition category_shifts (df : DataFrame) (vt : string)
  : list MarketInsight :=
  let vehicle_data := select df (fun r => String.eqb (vehicle_type r) vt) in
  let yearly := yearly_manufacturer (rows vehicle_data) in
  flat_map (year_shifts vt yearly)
           (tl (drop_duplicates Z.eqb (map (fun e => fst (fst e)) yearly))).

(** Trend 2: market share shifts, for the three categories in turn. *)
Definition market_share_shifts (df : DataFrame) : list MarketInsight :=
  flat_map (category_shifts df) ["2W"; "3W"; "4W"]%string.












(** * Vocabulary of the statements *)

(** A metric with its rank erased, to compare metrics across ranking. *)
Definition unranked (m : GrowthMetric) : GrowthMetric := set_rank m 0.

Definition has_rate (r : Q) (m : GrowthMetric) : bool :=
  Qeq_bool (growth_rate m) r.

(** *** Groups and their histories *)

(** The values of the grouping columns on a row. *)
Definition group_of (group_by : list column) (r : Row) : list string :=
  map (cell r) group_by.

(** Group [g] has a record in year [y]. *)
Definition has_year (df : DataFrame) (group_by : list column)
    (g : list string) (y : Z) : Prop :=
  exists r, In r (rows df) /\ group_of group_by r = g /\ year r = y.

(** The summed registrations of group [g] in year [y]. *)
Definition year_sum (df : DataFrame) (group_by : list column)
    (g : list string) (y : Z) : N :=
  total_registrations
    (filter (fun r => list_eqb String.eqb (group_of group_by r) g
                      && Z.eqb (year r) y)
            (rows df)).

(** [y1] and [y2] are chronologically consecutive periods of group [g]: both
    occur in its history and no period of the group lies between them. *)
Definition consecutive_years (df : DataFrame) (group_by : list column)
    (g : list string) (y1 y2 : Z) : Prop :=
  has_year df group_by g y1 /\ has_year df group_by g y2 /\ y1 < y2
  /\ forall y, has_year df group_by g y -> ~ (y1 < y < y2).

(** [m] is the YoY metric of group [g] for the step from [previous] to
    [current] registrations reached in year [y]. *)
Definition is_yoy_metric (g : list string) (y : Z) (current previous : N)
    (m : GrowthMetric) : Prop :=
  entity m = String.concat " - " g
  /\ period m = str_Z y
  /\ current_value m = current
  /\ previous_value m = previous
  /\ growth_rate m
     = py_round ((QofN current - QofN previous) / QofN previous * 100)%Q 2
  /\ growth_absolute m = Z.of_N current - Z.of_N previous.

(** A record with the fields the analytics read. *)
Definition record (y : Z) (q : Quarter) (vt mf : string) (n : N) : Row :=
  mkRow "" y q (3 * quarter_number q - 2) vt mf n "".

(** The two-record scenario of the specification. *)
Definition scenario_two_years : DataFrame :=
  mkFrame false [record 2020 Q1 "2W" "A" 1000; record 2021 Q1 "2W" "A" 1500].

(** *** The growth loop without its exception plumbing *)

Definition period_leb (a b : Grouped) : bool :=
  Z.leb (period_sort (g_period a)) (period_sort (g_period b)).

(** The rows of group [g], in period order. *)
Definition group_data (data : list Grouped) (g : list string) : list Grouped :=
  sort_by period_leb (filter (fun e => list_eqb String.eqb (g_vals e) g) data).

(** The metrics one pair of consecutive rows contributes. *)
Definition pair_metrics (g : list string) (pc : Grouped * Grouped)
  : list GrowthMetric :=
  let previous := fst pc in
  let current := snd pc in
  if (0 <? g_registrations previous)%N then
    [metric_of g previous current
       ((QofN (g_registrations current) - QofN (g_registrations previous))
        / QofN (g_registrations previous) * 100)%Q]
  else [].

(** The grouped frame the loop runs over, its distinct groups, and the
    metrics appended when no exception interrupts the loops. *)
Definition grouped_frame (df : DataFrame) (pt : GrowthPeriod)
    (group_by : list column) : list Grouped :=
  sort_grouped (groupby_sum pt group_by (rows df)).

Definition group_keys (df : DataFrame) (pt : GrowthPeriod)
    (group_by : list column) : list (list string) :=
  drop_duplicates (list_eqb String.eqb)
                  (map g_vals (grouped_frame df pt group_by)).

Definition emitted_metrics (df : DataFrame) (pt : GrowthPeriod)
    (group_by : list column) : list GrowthMetric :=
  flat_map (fun g =>
              flat_map (pair_metrics g)
                       (consecutive
                          (group_data (grouped_frame df pt group_by) g)))
           (group_keys df pt group_by).

(** The position of a grouped row in the history of its group. *)
Definition period_pos (e : Grouped) : Z := period_sort (g_period e).

(** Three manufacturers, two of them growing at the same rate. *)
Definition scenario_tie : DataFrame :=
  mkFrame false
    [record 2020 Q1 "2W" "A" 100; record 2021 Q1 "2W" "A" 150;
     record 2020 Q1 "2W" "B" 200; record 2021 Q1 "2W" "B" 300;
     record 2020 Q1 "2W" "C" 100; record 2021 Q1 "2W" "C" 190].

(** *** Scenarios for the zero-previous and missing-year cases *)

(** A group whose first year sums to zero. *)
Definition scenario_zero_previous : DataFrame :=
  mkFrame false [record 2020 Q1 "2W" "A" 0; record 2021 Q1 "2W" "A" 100].

(** A group with no record in 2021. *)
Definition scenario_missing_year : DataFrame :=
  mkFrame false [record 2020 Q1 "2W" "A" 100; record 2022 Q1 "2W" "A" 150].

(** The grouping that corresponds to the store's per-manufacturer query. *)
Definition by_manufacturer : list column := [col_manufacturer; col_vehicle_type].

(** The store holding the records of a frame, before recomputation; the
    derived table starts out with arbitrary content. *)
Definition store_of (df : DataFrame) (old : list StoredMetric) : Store :=
  mkStore (rows df) old.

(** The exact value lies halfway between two neighbouring values of
    [ndigits] decimals, where the rounding modes differ. *)
Definition is_tie (x : Q) (ndigits : nat) : Prop :=
  let s := (x * inject_Z (Z.pow 10 (Z.of_nat ndigits)))%Q in
  (s - inject_Z (Qfloor s) == 1 # 2)%Q.

Definition is_yoy_row (row : StoredMetric) : bool :=
  String.eqb (metric_type row) "yoy".

(** *** Market shares of a category *)

Definition category_rows (df : DataFrame) (vt : string) : list Row :=
  filter (fun r => String.eqb (vehicle_type r) vt) (rows df).

(** The registrations of each manufacturer of a category, and their sum. *)
Definition category_totals (df : DataFrame) (vt : string) : list (string * N) :=
  manufacturer_totals (category_rows df vt).

Definition category_total (df : DataFrame) (vt : string) : N :=
  sumN (map snd (category_totals df vt)).

(** The sorted shares [concentration_of] works on. *)
Definition category_shares (df : DataFrame) (vt : string)
  : list (string * option Q) :=
  market_shares (category_rows df vt).

(** The shares that are numbers. *)
Definition share_values (l : list (string * option Q)) : list Q :=
  flat_map (fun s => match snd s with Some q => [q] | None => [] end) l.

(** The manufacturer of this entry holds 100% of the category. *)
Definition holds_all (s : string * option Q) : bool :=
  match snd s with
  | Some q => Qeq_bool q 100
  | None => false
  end.

Definition is_full (q : Q) : bool := Qeq_bool q 100.

(** The entry [concentration_of] builds when nothing raises. *)
Definition concentration_value (df : DataFrame) (vt : string) : Concentration :=
  let shares := category_shares df vt in
  let hhi := sum_skipna (map (fun s => option_sq (snd s)) shares) in
  let leader := hd (EmptyString, None) shares in
  mkConcentration (Z.of_nat (List.length shares)) (fst leader) (snd leader)
    (sum_skipna (map snd (firstn 4 shares)))
    (sum_skipna (map snd (firstn 8 shares)))
    hhi
    (if Qlt_le_dec 0 hhi then (1 / (hhi / 10000))%Q else 0%Q)
    (_classify_market_structure hhi)
    (firstn 5 shares).

(** A category without a single registration. *)
Definition scenario_no_registrations : DataFrame :=
  mkFrame false [record 2020 Q1 "2W" "A" 0].

(** Four manufacturers holding 40%, 30%, 20% and 10% of a category. *)
Definition scenario_four_shares : DataFrame :=
  mkFrame false
    [record 2021 Q1 "4W" "A" 40; record 2021 Q1 "4W" "B" 30;
     record 2021 Q1 "4W" "C" 20; record 2021 Q1 "4W" "D" 10].

(** *** Scorecard *)

(** [df[df['vehicle_type'] == vt]] *)
Definition category_frame (df : DataFrame) (vt : string) : DataFrame :=
  select df (fun r => String.eqb (vehicle_type r) vt).

(** The YoY metrics per manufacturer the scorecard averages. *)
Definition category_yoy_metrics (df : DataFrame) (vt : string)
  : list GrowthMetric :=
  rank_metrics (emitted_metrics (category_frame df vt) YOY [col_manufacturer]).

(** The four sub-scores of a category, before rounding. *)
Definition category_scores (df : DataFrame) (vt : string) : Scores :=
  mkScores
    (growth_score_of (np_mean (map growth_rate (category_yoy_metrics df vt))))
    (size_percentile_of vt)
    (Qmax 0 (100 - hhi_index (concentration_value (category_frame df vt) vt)
                   / 50))
    (innovation_score_of (category_frame df vt)).

(** The entry [scorecard_of] builds when nothing raises. *)
Definition scorecard_value (df : DataFrame) (vt : string) : Scorecard :=
  let s := category_scores df vt in
  let c := concentration_value (category_frame df vt) vt in
  let avg := np_mean (map growth_rate (category_yoy_metrics df vt)) in
  mkScorecard (py_round (weighted_score s) 1)
    (py_round (growth_score s) 1)
    (size_score s)
    (py_round (competition_score s) 1)
    (py_round (innovation_score s) 1)
    (recommendation_of (weighted_score s))
    (mkKeyMetrics (option_round avg 2)
       (total_registrations (rows (category_frame df vt)))
       (total_manufacturers c) (market_leader c)).

(** One manufacturer growing by 29.95%: the weighted score is 74.96. *)
Definition scenario_rounded_score : DataFrame :=
  mkFrame false [record 2020 Q1 "4W" "A" 2000; record 2021 Q1 "4W" "A" 2599].

(** A category whose records all fall into one year. *)
Definition scenario_single_year : DataFrame :=
  mkFrame false [record 2021 Q1 "2W" "A" 600; record 2021 Q2 "2W" "B" 400].

(** *** Forecast *)

(** The distinct [(year, quarter)] points of a category's history. *)
Definition distinct_quarters (df : DataFrame) (vt : string)
  : list (Z * Quarter) :=
  drop_duplicates yq_eqb
    (map (fun r => (year r, quarter r)) (category_rows df vt)).

Definition has_enough_history (df : DataFrame) (vt : string) : bool :=
  (4 <=? List.length (distinct_quarters df vt))%nat.

(** The regression inputs of a category: period indexes and quarterly sums. *)
Definition forecast_x (df : DataFrame) (vt : string) : list Z :=
  let quarterly_data := quarterly_sums (category_rows df vt) in
  let min_year := min_Z (map (fun e => fst (fst e)) quarterly_data) in
  map (fun e => period_index min_year (fst e)) quarterly_data.

Definition forecast_y (df : DataFrame) (vt : string) : list N :=
  map snd (quarterly_sums (category_rows df vt)).

Definition forecast_line (df : DataFrame) (vt : string) : Q * Q :=
  polyfit1 (map inject_Z (forecast_x df vt)) (map QofN (forecast_y df vt)).

(** The value of the fitted line at period [p]. *)
Definition projection (df : DataFrame) (vt : string) (p : Z) : Q :=
  (fst (forecast_line df vt) * inject_Z p + snd (forecast_line df vt))%Q.

Definition forecast_residuals (df : DataFrame) (vt : string) : list Q :=
  map (fun xy => QofN (snd xy) - projection df vt (fst xy))%Q
      (combine (forecast_x df vt) (forecast_y df vt)).

(** The periods forecast: the [periods] indexes after the last one. *)
Definition forecast_periods (df : DataFrame) (vt : string) (periods : Z)
  : list Z :=
  let last_period := last (forecast_x df vt) 0 in
  py_range (last_period + 1) (last_period + periods + 1).

(** The entry [forecast_of] builds for a category with enough history. *)
Definition forecast_value (sqrt : Q -> Q) (df : DataFrame) (periods : Z)
    (vt : string) : Forecast :=
  mkForecast
    (map (fun p => Z.max 0 (py_int (projection df vt p)))
         (forecast_periods df vt periods))
    (fst (forecast_line df vt))
    (np_std sqrt (forecast_residuals df vt) * (196 # 100))%Q
    (Z.of_N (last (forecast_y df vt) 0%N))
    (if Qlt_le_dec 0 (fst (forecast_line df vt))
     then "Positive" else "Negative").

(** Five quarters on the line [1000 + 50 * index]. *)
Definition scenario_linear : DataFrame :=
  mkFrame false
    [record 2020 Q1 "4W" "A" 1000; record 2020 Q2 "4W" "A" 1050;
     record 2020 Q3 "4W" "A" 1100; record 2020 Q4 "4W" "A" 1150;
     record 2021 Q1 "4W" "A" 1200; record 2021 Q1 "2W" "B" 10].

(** *** Themes *)

Definition record_fuel (y : Z) (q : Quarter) (vt mf : string) (n : N)
    (fuel : string) : Row :=
  mkRow "" y q (3 * quarter_number q - 2) vt mf n fuel.

(** Three single-manufacturer categories, electric records in two years and
    a category that doubles. *)
Definition scenario_five_themes : DataFrame :=
  mkFrame true
    [record_fuel 2020 Q1 "2W" "A" 100 "Electric";
     record_fuel 2021 Q1 "2W" "A" 200 "Electric";
     record_fuel 2020 Q1 "3W" "B" 100 "Petrol";
     record_fuel 2021 Q1 "3W" "B" 100 "Petrol";
     record_fuel 2021 Q1 "4W" "C" 100 "Diesel"].


(** * Vocabulary of the further properties *)

(** [df['manufacturer'].unique()] *)
Definition distinct_manufacturers (df : DataFrame) : list string :=
  drop_duplicates String.eqb (map manufacturer (rows df)).

(** The four outlook sentences of the executive summary. *)
Definition outlook_labels : list string :=
  ["Positive - Strong growth fundamentals with favorable market dynamics";
   "Cautiously Optimistic - Good opportunities with selective approach needed";
   "Neutral - Mixed signals requiring careful analysis";
   "Cautious - Challenging market conditions with limited opportunities"]%string.

(** The risks every assessment ends with. *)
Definition generic_risks : list string :=
  ["Economic downturn impact on vehicle purchases";
   "Regulatory changes affecting vehicle standards";
   "Technology disruption from new mobility solutions"]%string.

(** *** Quarterly histories of the groups *)

(** Group [g] has a record in quarter [yq]. *)
Definition has_quarter (df : DataFrame) (group_by : list column)
    (g : list string) (yq : Z * Quarter) : Prop :=
  exists r, In r (rows df) /\ group_of group_by r = g
            /\ year r = fst yq /\ quarter r = snd yq.

(** The summed registrations of group [g] in quarter [yq]. *)
Definition quarter_sum (df : DataFrame) (group_by : list column)
    (g : list string) (yq : Z * Quarter) : N :=
  total_registrations
    (filter (fun r => list_eqb String.eqb (group_of group_by r) g
                      && (Z.eqb (year r) (fst yq)
                          && quarter_eqb (quarter r) (snd yq)))
            (rows df)).

(** Quarter [a] lies before quarter [b] in the calendar. *)
Definition earlier (a b : Z * Quarter) : Prop :=
  fst a < fst b
  \/ (fst a = fst b /\ quarter_number (snd a) < quarter_number (snd b)).

(** [a] and [b] are chronologically consecutive quarters of group [g]: both
    occur in its history and no quarter of the group lies between them. *)
Definition consecutive_quarters (df : DataFrame) (group_by : list column)
    (g : list string) (a b : Z * Quarter) : Prop :=
  has_quarter df group_by g a /\ has_quarter df group_by g b /\ earlier a b
  /\ forall c, has_quarter df group_by g c -> ~ (earlier a c /\ earlier c b).

(** [m] is the QoQ metric of group [g] for the step from [previous] to
    [current] registrations reached in quarter [yq]. *)
Definition is_qoq_metric (g : list string) (yq : Z * Quarter)
    (current previous : N) (m : GrowthMetric) : Prop :=
  entity m = String.concat " - " g
  /\ period m = (str_Z (fst yq) ++ "-" ++ quarter_label (snd yq))%string
  /\ current_value m = current
  /\ previous_value m = previous
  /\ growth_rate m
     = py_round ((QofN current - QofN previous) / QofN previous * 100)%Q 2
  /\ growth_absolute m = Z.of_N current - Z.of_N previous.

(** The grouped row of group [g] for quarter [yq]. *)
Definition quarter_row (df : DataFrame) (group_by : list column)
    (g : list string) (yq : Z * Quarter) : Grouped :=
  mkGrouped g (mkPeriod (fst yq) (Some (snd yq)))
            (quarter_sum df group_by g yq).

(** A group recorded in the first quarter of 2020 and the third of 2021. *)
Definition scenario_quarter_gap : DataFrame :=
  mkFrame false [record 2020 Q1 "2W" "A" 100; record 2021 Q3 "2W" "A" 125].

(** The position of a quarter on the time axis, as [period_sort] counts it. *)
Definition quarter_pos (yq : Z * Quarter) : Z :=
  fst yq * 10 + quarter_number (snd yq).

(** The quarter of a key of the store's quarterly sums. *)
Definition key_quarter (k : MvyqKey) : Z * Quarter := (snd (fst k), snd k).

(** The rows strictly before [e] in its partition, which [period_num]
    counts. *)
Definition precedes (e e' : MvyqKey * N) : bool :=
  mvyq_partition_eqb (fst e') (fst e)
  && negb (yq_leb (snd (fst (fst e)), snd (fst e))
                  (snd (fst (fst e')), snd (fst e'))).

(** *** Manufacturers of a category *)

(** [vehicle_data['manufacturer'].unique()] *)
Definition category_manufacturers (df : DataFrame) (vt : string)
  : list string :=
  drop_duplicates String.eqb (map manufacturer (category_rows df vt)).

(** The registrations of manufacturer [mf] in category [vt]. *)
Definition manufacturer_total (df : DataFrame) (vt mf : string) : N :=
  total_registrations
    (filter (fun r => String.eqb (manufacturer r) mf) (category_rows df vt)).



(** *** Reading the registrations back *)

(** Lexicographic comparison of pairs. *)
Definition pair_compare {A B : Type} (cmpA : A -> A -> comparison)
    (cmpB : B -> B -> comparison) (x y : A * B) : comparison :=
  lex (cmpA (fst x) (fst y)) (cmpB (snd x) (snd y)).

(** The sort key of [get_data]. *)
Definition registration_key (r : Row) : string * (string * string) :=
  (date r, (vehicle_type r, manufacturer r)).

(** Row [a] does not come after row [b] in the order of [get_data]. *)
Definition in_order (a b : Row) : Prop := registration_compare a b <> Gt.

(** Row [r] passes the filters given to [get_data]; a filter that is absent
    or empty passes everything. *)
Definition selected (start_date end_date : option string)
    (vehicle_types manufacturers : option (list string)) (r : Row) : Prop :=
  (forall s, start_date = Some s -> s <> EmptyString ->
             String.leb s (date r) = true)
  /\ (forall s, end_date = Some s -> s <> EmptyString ->
                String.leb (date r) s = true)
  /\ (forall l, vehicle_types = Some l -> l <> [] -> In (vehicle_type r) l)
  /\ (forall l, manufacturers = Some l -> l <> [] -> In (manufacturer r) l).

(** Records carrying fuel types, electric ones in two years. *)
Definition scenario_fuel : DataFrame :=
  mkFrame true
    [mkRow "2021-01-01" 2021 Q1 1 "2W" "B" 200 "Electric";
     mkRow "2020-01-01" 2020 Q1 1 "2W" "B" 100 "Electric";
     mkRow "2020-01-01" 2020 Q1 1 "2W" "A" 300 "Petrol"].

(** *** Orders behind the sorts *)

(** [a <= b] read off a three-way comparison. *)
Definition leb_of (c : comparison) : bool :=
  match c with
  | Gt => false
  | _ => true
  end.

(** The components [key_leb] compares. *)
Definition group_key_parts (k : GroupKey) : list string * (Z * Z) :=
  (fst k, (p_year (snd k), option_quarter_number (p_quarter (snd k)))).

(** The components [yq_leb] compares. *)
Definition quarter_parts (yq : Z * Quarter) : Z * Z :=
  (fst yq, quarter_number (snd yq)).

(** The frame holding what the table keeps of the rows of [df]. *)
Definition stored_frame (df : DataFrame) : DataFrame :=
  mkFrame false (map schema_row (rows df)).

(** *** The market share table *)

(** The registrations of a manufacturer in a category and quarter. *)
Definition quarter_total (rs : list Row) (y : Z) (q : Quarter)
    (vt mf : string) : N :=
  total_registrations
    (filter (fun r => qvm_eqb (year r, quarter r, vehicle_type r,
                               manufacturer r) (y, q, vt, mf)) rs).

(** A row of the table as the row of the subquery it was inserted from. *)
Definition lift_row (row : ShareRow) : QuarterlyTotal * option Q * Z :=
  (mkQuarterly (share_period row) (share_vehicle_type row)
               (share_manufacturer row) (share_registrations row),
   Some (market_share_percent row), rank_position row).

(** The rows of the subquery for one period and vehicle type. *)
Definition share_chunk (qts : list QuarterlyTotal) (pv : string * string)
  : list (QuarterlyTotal * option Q * Z) :=
  number_rows 1 (sumN (map qt_registrations (filter (in_partition pv) qts)))
              (sort_by registrations_geb (filter (in_partition pv) qts)).

(** Two quarters of a category, one of them without registrations. *)
Definition scenario_idle_quarter : DataFrame :=
  mkFrame false
    [record 2021 Q1 "2W" "A" 60; record 2021 Q1 "2W" "B" 40;
     record 2021 Q2 "2W" "A" 0].

(** One quarter of a category with three manufacturers. *)
Definition scenario_quarter_shares : DataFrame :=
  mkFrame false
    [record 2021 Q1 "2W" "A" 30; record 2021 Q1 "2W" "B" 50;
     record 2021 Q1 "2W" "C" 20].

(** The registrations of all records of a period and vehicle type. *)
Definition partition_total (rs : list Row) (p vt : string) : N :=
  total_registrations
    (filter (fun r => String.eqb (period_text (year r) (quarter r)) p
                      && String.eqb (vehicle_type r) vt) rs).

(** The table rows of a period and vehicle type. *)
Definition share_rows (table : list ShareRow) (p vt : string)
  : list ShareRow :=
  filter (fun row => String.eqb (share_period row) p
                     && String.eqb (share_vehicle_type row) vt) table.

(** Four manufacturers of one quarter, two of them level. *)
Definition scenario_level_pair : DataFrame :=
  mkFrame false
    [record 2021 Q1 "2W" "A" 30; record 2021 Q1 "2W" "B" 40;
     record 2021 Q1 "2W" "C" 30; record 2021 Q1 "4W" "D" 10].

(** Two consecutive quarters of a category. *)
Definition scenario_two_quarters : DataFrame :=
  mkFrame false
    [record 2021 Q4 "2W" "A" 30; record 2021 Q4 "2W" "B" 70;
     record 2022 Q1 "2W" "A" 60; record 2022 Q1 "2W" "B" 40].

(** *** Market share shifts *)

(** The columns that identify a manufacturer within a category. *)
Definition in_category : list column := [col_vehicle_type; col_manufacturer].

(** The exact percentage of category [vt] that manufacturer [mf] holds in
    year [y]. *)
Definition yearly_share (df : DataFrame) (vt mf : string) (y : Z) : Q :=
  QofN (year_sum df in_category [vt; mf] y)
  / QofN (year_sum df [col_vehicle_type] [vt] y) * 100.

(** A category in which a manufacturer goes from a quarter to a half. *)
Definition scenario_share_gain : DataFrame :=
  mkFrame false
    [record 2020 Q1 "2W" "A" 25; record 2020 Q1 "2W" "B" 75;
     record 2021 Q1 "2W" "A" 50; record 2021 Q1 "2W" "B" 50;
     record 2021 Q1 "LMV" "C" 10; record 2022 Q1 "LMV" "C" 90;
     record 2022 Q1 "LMV" "D" 10].

(** *** Rounded and float-valued results, stated without fixing ties *)

(** [r] is a number of [ndigits] decimals nearest to [x]: what rounding [x]
    to [ndigits] decimals gives, whichever neighbour is taken when [x] lies
    halfway.  The code rounds the binary float it computed for [x], which
    at such a tie can go either way. *)
Definition nearest_decimal (ndigits : nat) (x r : Q) : Prop :=
  let scale := inject_Z (10 ^ Z.of_nat ndigits) in
  (exists k : Z, r == inject_Z k / scale)%Q
  /\ (- (1 # 2) <= (r - x) * scale <= 1 # 2)%Q.

(** The same for a value that may be [nan]. *)
Definition nearest_decimal_opt (ndigits : nat) (x r : option Q) : Prop :=
  match x, r with
  | Some a, Some b => nearest_decimal ndigits a b
  | None, None => True
  | _, _ => False
  end.

(** [m] is a metric of group [g] for the step from [previous] to [current]
    registrations, labelled [label]: the rate is the exact percentage
    rounded to two decimals. *)
Definition is_growth_step (label : string) (g : list string)
    (current previous : N) (m : GrowthMetric) : Prop :=
  entity m = String.concat " - " g
  /\ period m = label
  /\ current_value m = current
  /\ previous_value m = previous
  /\ nearest_decimal 2
       ((QofN current - QofN previous) / QofN previous * 100)%Q
       (growth_rate m)
  /\ growth_absolute m = Z.of_N current - Z.of_N previous.

(** The magnitude of a rational. *)
Definition Qmag (x : Q) : Q := if Qlt_le_dec x 0 then (- x)%Q else x.

(** The room left for the binary float evaluation of a quantity: one part
    in a thousand million of its size. *)
Definition float_slack : Q := 1 # 1000000000.

(** [x] is the exact value [y] up to that room. *)
Definition close_to (y x : Q) : Prop :=
  (Qmag (x - y) <= float_slack * (1 + Qmag y))%Q.


(** Three manufacturers of equal size: the exact shares are thirds of 100. *)
Definition scenario_three_equal : DataFrame :=
  mkFrame false
    [record 2020 Q1 "2W" "A" 1; record 2020 Q1 "2W" "B" 1;
     record 2020 Q1 "2W" "C" 1].

(** *** Forecast, up to the float evaluation *)

(** The mean of the squared deviations of the regression residuals of a
    category: the square of their standard deviation. *)
Definition residual_variance (df : DataFrame) (vt : string) : Q :=
  let l := forecast_residuals df vt in
  let n := inject_Z (Z.of_nat (List.length l)) in
  let mean := (sumQ l / n)%Q in
  (sumQ (map (fun a => (a - mean) * (a - mean))%Q l) / n)%Q.

(** The room for the float evaluation of the fitted line of a category at a
    point where its exact value is [v]. *)
Definition forecast_room (df : DataFrame) (vt : string) (v : Q) : Q :=
  (float_slack * (1 + Qmag v + QofN (category_total df vt)))%Q.

(** A square root to ten decimals, through the integer square root. *)
Definition sqrt_10 (x : Q) : Q :=
  (inject_Z (Z.sqrt (Qfloor (x * inject_Z (10 ^ 20)))) / inject_Z (10 ^ 10))%Q.

(** Four quarters off a line: the residuals are 1.5 and -1.5 in turn. *)
Definition scenario_zigzag : DataFrame :=
  mkFrame false
    [record 2020 Q1 "4W" "A" 13; record 2020 Q2 "4W" "A" 10;
     record 2020 Q3 "4W" "A" 13; record 2020 Q4 "4W" "A" 10].

(** * Rounding *)

Lemma round_half_even_near (q : Q) :
  (q - (1 # 2) <= inject_Z (round_half_even q) <= q + (1 # 2))%Q.
Proof.
  unfold round_half_even. cbv zeta.
  pose proof (Qfloor_le q) as Hlo. pose proof (Qlt_floor q) as Hhi.
  set (f := Qfloor q) in *. clearbody f.
  rewrite inject_Z_plus in Hhi. change (inject_Z 1) with 1%Q in Hhi.
  destruct (Qcompare (q - inject_Z f) (1 # 2)) eqn:C.
  - apply Qeq_alt in C.
    destruct (Z.even f);
      [|rewrite inject_Z_plus; change (inject_Z 1) with 1%Q]; lra.
  - apply Qlt_alt in C. lra.
  - apply Qgt_alt in C. rewrite inject_Z_plus.
    change (inject_Z 1) with 1%Q. lra.
Qed.

Lemma decimal_scale_pos (ndigits : nat) :
  (0 < inject_Z (10 ^ Z.of_nat ndigits))%Q.
Proof.
  change 0%Q with (inject_Z 0). rewrite <- Zlt_Qlt.
  apply Z.pow_pos_nonneg; lia.
Qed.

(** Rounding half to even is one way of rounding to the nearest decimal. *)
Lemma py_round_nearest (ndigits : nat) (x : Q) :
  nearest_decimal ndigits x (py_round x ndigits).
Proof.
  unfold nearest_decimal, py_round. cbv zeta.
  pose proof (decimal_scale_pos ndigits) as Hs.
  set (scale := inject_Z (10 ^ Z.of_nat ndigits)) in *. clearbody scale.
  split; [eexists; reflexivity|].
  destruct (round_half_even_near (x * scale)) as [Hlo Hhi].
  set (k := inject_Z (round_half_even (x * scale))) in *. clearbody k.
  assert (E : ((k / scale - x) * scale == k - x * scale)%Q)
    by (field; lra).
  rewrite E. lra.
Qed.

Lemma option_round_nearest (ndigits : nat) (x : option Q) :
  nearest_decimal_opt ndigits x (option_round x ndigits).
Proof.
  destruct x as [q|]; [|exact I]. apply py_round_nearest.
Qed.

Lemma Qmag_nonneg (x : Q) : (0 <= Qmag x)%Q.
Proof. unfold Qmag. destruct (Qlt_le_dec x 0); lra. Qed.

Lemma Qmag_compat (x y : Q) : (x == y)%Q -> (Qmag x == Qmag y)%Q.
Proof.
  intros E. unfold Qmag.
  destruct (Qlt_le_dec x 0), (Qlt_le_dec y 0); lra.
Qed.

Lemma close_to_refl (y x : Q) : (x == y)%Q -> close_to y x.
Proof.
  intros E. unfold close_to, float_slack.
  pose proof (Qmag_nonneg y) as Hy.
  assert (H0 : (Qmag (x - y) == 0)%Q).
  { unfold Qmag. destruct (Qlt_le_dec (x - y) 0); lra. }
  rewrite H0. apply Qmult_le_0_compat; lra.
Qed.

(** * Properties *)

(** ** The exception monad *)

Lemma bind_Ok_inv {A B : Type} (c : exc A) (k : A -> exc B) (b : B) :
  bind c k = Ok b -> exists a, c = Ok a /\ k a = Ok b.
Proof.
  destruct c as [a|e]; simpl; intros H; [eauto | discriminate].
Qed.

Lemma for_each_Ok {A B : Type} (body : A -> exc (list B)) (f : A -> list B)
    (xs : list A) :
  (forall x, In x xs -> body x = Ok (f x)) ->
  for_each body xs = Ok (flat_map f xs).
Proof.
  induction xs as [|x xs IH]; simpl; intros H; [reflexivity|].
  rewrite (H x) by auto. simpl.
  rewrite IH by auto. reflexivity.
Qed.

Lemma for_keys_Ok {A : Type} (body : string -> exc (option A))
    (f : string -> A) (ks : list string) :
  (forall k, In k ks -> body k = Ok (Some (f k))) ->
  for_keys body ks = Ok (map (fun k => (k, f k)) ks).
Proof.
  induction ks as [|k ks IH]; simpl; intros H; [reflexivity|].
  rewrite (H k) by auto. simpl.
  rewrite IH by auto. reflexivity.
Qed.

(** ** Sorting and duplicates *)

Section SortFacts.
Context {A : Type}.
Variable leb : A -> A -> bool.

Lemma insert_by_perm (x : A) (l : list A) :
  Permutation (x :: l) (insert_by leb x l).
Proof.
  induction l as [|y l IH]; simpl; [reflexivity|].
  destruct (leb x y); [reflexivity|].
  rewrite perm_swap. constructor. exact IH.
Qed.

Lemma sort_by_perm (l : list A) : Permutation l (sort_by leb l).
Proof.
  induction l as [|x l IH]; simpl; [constructor|].
  rewrite <- insert_by_perm. constructor. exact IH.
Qed.

Lemma sort_by_In (l : list A) (x : A) : In x (sort_by leb l) <-> In x l.
Proof.
  split; apply Permutation_in;
    [symmetry|]; apply sort_by_perm.
Qed.

Lemma sort_by_length (l : list A) :
  List.length (sort_by leb l) = List.length l.
Proof. symmetry. apply Permutation_length, sort_by_perm. Qed.

(** Inserting does not disturb the elements a predicate selects, when the
    elements the new one overtakes are not selected together with it. *)
Lemma insert_by_filter (p : A -> bool) (x : A) (l : list A) :
  (forall y, In y l -> leb x y = false -> p x = true -> p y = false) ->
  filter p (insert_by leb x l) = filter p (x :: l).
Proof.
  induction l as [|y l IH]; intros H; [reflexivity|].
  simpl. destruct (leb x y) eqn:Hxy; [reflexivity|].
  simpl. rewrite IH by (intros z Hz; apply H; right; exact Hz).
  simpl. destruct (p x) eqn:Hx; [|reflexivity].
  rewrite (H y) by (simpl; auto). reflexivity.
Qed.

Lemma sort_by_filter (p : A -> bool) (l : list A) :
  (forall x y, leb x y = false -> p x = true -> p y = false) ->
  filter p (sort_by leb l) = filter p l.
Proof.
  intros H. induction l as [|x l IH]; [reflexivity|].
  simpl sort_by. rewrite insert_by_filter by (intros y _; apply H).
  simpl. rewrite IH. reflexivity.
Qed.

Variable R : A -> A -> Prop.
Hypothesis leb_R : forall x y, leb x y = true -> R x y.
Hypothesis leb_total : forall x y, leb x y = false -> R y x.
Hypothesis R_trans : forall x y z, R x y -> R y z -> R x z.

Lemma insert_by_sorted (x : A) (l : list A) :
  StronglySorted R l -> StronglySorted R (insert_by leb x l).
Proof.
  induction 1 as [|y l Hs IH Hy]; simpl.
  - repeat constructor.
  - destruct (leb x y) eqn:Hxy.
    + constructor; [constructor; assumption|].
      constructor; [apply leb_R; exact Hxy|].
      rewrite Forall_forall in *. intros z Hz.
      eapply R_trans; [apply leb_R; exact Hxy | apply Hy; exact Hz].
    + constructor; [exact IH|].
      rewrite Forall_forall in *. intros z Hz.
      apply (Permutation_in _ (Permutation_sym (insert_by_perm x l))) in Hz.
      destruct Hz as [<-|Hz]; [apply leb_total; exact Hxy | apply Hy; exact Hz].
Qed.

Lemma sort_by_sorted (l : list A) : StronglySorted R (sort_by leb l).
Proof.
  induction l as [|x l IH]; simpl; [constructor|].
  apply insert_by_sorted. exact IH.
Qed.
End SortFacts.

Section DedupFacts.
Context {A : Type}.
Variable eqb : A -> A -> bool.
Hypothesis eqb_eq : forall x y, eqb x y = true <-> x = y.

Lemma drop_duplicates_In (l : list A) (x : A) :
  In x (drop_duplicates eqb l) <-> In x l.
Proof.
  induction l as [|a l IH]; simpl; [tauto|].
  rewrite filter_In, IH. split.
  - intros [H|[H _]]; auto.
  - intros [H|H]; [auto|].
    destruct (eqb a x) eqn:E.
    + left. apply eqb_eq. exact E.
    + right. split; [exact H | reflexivity].
Qed.

Lemma drop_duplicates_NoDup (l : list A) : NoDup (drop_duplicates eqb l).
Proof.
  induction l as [|a l IH]; simpl; constructor.
  - rewrite filter_In. intros [_ H].
    assert (E : eqb a a = true) by (apply eqb_eq; reflexivity).
    rewrite E in H. discriminate.
  - apply NoDup_filter. exact IH.
Qed.
End DedupFacts.

(** ** Ranking *)

Lemma assign_ranks_rank (i : Z) (ms : list GrowthMetric) :
  map rank (assign_ranks i ms)
  = map (fun k => i + Z.of_nat k) (seq 1 (List.length ms)).
Proof.
  revert i. induction ms as [|m ms IH]; intros i; [reflexivity|].
  cbn [assign_ranks map List.length seq]. cbn [rank set_rank].
  f_equal. rewrite IH, <- (seq_shift (List.length ms) 1), map_map.
  apply map_ext. intros k. lia.
Qed.

Lemma assign_ranks_length (i : Z) (ms : list GrowthMetric) :
  List.length (assign_ranks i ms) = List.length ms.
Proof.
  revert i. induction ms as [|m ms IH]; intros i; simpl; [|rewrite IH];
    reflexivity.
Qed.

Lemma assign_ranks_unranked (i : Z) (ms : list GrowthMetric) :
  map unranked (assign_ranks i ms) = map unranked ms.
Proof.
  revert i. induction ms as [|m ms IH]; intros i; [reflexivity|].
  simpl. rewrite IH. reflexivity.
Qed.

Lemma assign_ranks_rates (i : Z) (ms : list GrowthMetric) :
  map growth_rate (assign_ranks i ms) = map growth_rate ms.
Proof.
  revert i. induction ms as [|m ms IH]; intros i; [reflexivity|].
  simpl. rewrite IH. reflexivity.
Qed.

Lemma assign_ranks_filter (p : GrowthMetric -> bool) (i : Z)
    (ms : list GrowthMetric) :
  (forall m r, p (set_rank m r) = p m) ->
  map unranked (filter p (assign_ranks i ms)) = map unranked (filter p ms).
Proof.
  intros Hp. revert i. induction ms as [|m ms IH]; intros i; [reflexivity|].
  simpl. rewrite Hp. destruct (p m); simpl; rewrite IH; reflexivity.
Qed.

Lemma rate_geb_sorted (ms : list GrowthMetric) :
  StronglySorted (fun a b => growth_rate b <= growth_rate a)%Q
                 (sort_by rate_geb ms).
Proof.
  apply sort_by_sorted.
  - intros x y H. apply Qle_bool_iff. exact H.
  - intros x y H. unfold rate_geb in H.
    destruct (Qlt_le_dec (growth_rate x) (growth_rate y)) as [Hlt|Hle].
    + apply Qlt_le_weak. exact Hlt.
    + apply Qle_bool_iff in Hle. congruence.
  - intros x y z Hxy Hyz. eapply Qle_trans; eassumption.
Qed.

Lemma StronglySorted_map {A B : Type} (f : A -> B) (R : B -> B -> Prop)
    (l : list A) :
  StronglySorted (fun a b => R (f a) (f b)) l -> StronglySorted R (map f l).
Proof.
  induction 1 as [|a l Hs IH Ha]; simpl; constructor; [exact IH|].
  rewrite Forall_forall in *. intros b Hb.
  apply in_map_iff in Hb. destruct Hb as [x [<- Hx]]. apply Ha. exact Hx.
Qed.

Lemma rank_metrics_spec (emitted : list GrowthMetric) :
  let ms := rank_metrics emitted in
  map rank ms = map Z.of_nat (seq 1 (List.length ms))
  /\ Permutation (map unranked emitted) (map unranked ms)
  /\ StronglySorted (fun x y => y <= x)%Q (map growth_rate ms)
  /\ (forall r, map unranked (filter (has_rate r) ms)
                = map unranked (filter (has_rate r) emitted)).
Proof.
  unfold rank_metrics. cbv zeta. repeat split.
  - rewrite assign_ranks_rank, assign_ranks_length.
    apply map_ext. intros k. lia.
  - rewrite assign_ranks_unranked. apply Permutation_map, sort_by_perm.
  - rewrite assign_ranks_rates. apply StronglySorted_map, rate_geb_sorted.
  - intros r. rewrite assign_ranks_filter by reflexivity.
    rewrite sort_by_filter; [reflexivity|].
    intros x y Hxy Hx. unfold has_rate, rate_geb in *.
    apply Qeq_bool_iff in Hx.
    destruct (Qeq_bool (growth_rate y) r) eqn:Hy; [|reflexivity].
    apply Qeq_bool_iff in Hy.
    assert (Hle : Qle_bool (growth_rate y) (growth_rate x) = true).
    { apply Qle_bool_iff. rewrite Hx, Hy. apply Qle_refl. }
    congruence.
Qed.

(** ** Grouped sums *)

Lemma list_eqb_eq (l1 l2 : list string) :
  list_eqb String.eqb l1 l2 = true <-> l1 = l2.
Proof.
  revert l2. induction l1 as [|a l1 IH]; intros [|b l2]; simpl;
    try (split; [discriminate | congruence]); [tauto|].
  rewrite andb_true_iff, String.eqb_eq, IH. split.
  - intros [-> ->]. reflexivity.
  - intros H. injection H. auto.
Qed.

Lemma quarter_number_inj (a b : Quarter) :
  quarter_number a = quarter_number b -> a = b.
Proof. destruct a, b; simpl; intros H; congruence || discriminate. Qed.

Lemma option_quarter_number_inj (a b : option Quarter) :
  option_quarter_number a = option_quarter_number b -> a = b.
Proof.
  destruct a as [a|], b as [b|]; simpl; intros H.
  - f_equal. apply quarter_number_inj. exact H.
  - destruct a; discriminate.
  - destruct b; discriminate.
  - reflexivity.
Qed.

Lemma period_eqb_eq (a b : Period) : period_eqb a b = true <-> a = b.
Proof.
  unfold period_eqb. rewrite andb_true_iff, !Z.eqb_eq.
  destruct a as [ya qa], b as [yb qb]; simpl. split.
  - intros [-> H]. f_equal. apply option_quarter_number_inj. exact H.
  - intros H. injection H as -> ->. auto.
Qed.

Lemma key_eqb_eq (a b : GroupKey) : key_eqb a b = true <-> a = b.
Proof.
  unfold key_eqb. rewrite andb_true_iff, list_eqb_eq, period_eqb_eq.
  destruct a, b; simpl. split.
  - intros [-> ->]. reflexivity.
  - intros H. injection H. auto.
Qed.

Section GroupByFacts.
Context {K : Type}.
Variable eqb : K -> K -> bool.
Variable leb : K -> K -> bool.
Variable key : Row -> K.
Hypothesis eqb_eq : forall x y, eqb x y = true <-> x = y.

Lemma groupby_keys (rs : list Row) :
  map fst (groupby_registrations eqb leb key rs)
  = sort_by leb (drop_duplicates eqb (map key rs)).
Proof.
  unfold groupby_registrations. rewrite map_map. simpl. apply map_id.
Qed.

Lemma groupby_In (rs : list Row) (k : K) (s : N) :
  In (k, s) (groupby_registrations eqb leb key rs)
  <-> (exists r, In r rs /\ key r = k)
      /\ s = total_registrations (group_rows eqb key rs k).
Proof.
  unfold groupby_registrations. rewrite in_map_iff. split.
  - intros [k' [E Hk]]. injection E as -> <-.
    apply sort_by_In, (drop_duplicates_In eqb eqb_eq), in_map_iff in Hk.
    destruct Hk as [r [Hr Hin]]. split; [exists r; auto | reflexivity].
  - intros [[r [Hin Hr]] ->]. exists k. split; [reflexivity|].
    apply sort_by_In, (drop_duplicates_In eqb eqb_eq), in_map_iff.
    exists r. auto.
Qed.

Lemma groupby_NoDup (rs : list Row) :
  NoDup (map fst (groupby_registrations eqb leb key rs)).
Proof.
  rewrite groupby_keys.
  eapply Permutation_NoDup; [apply sort_by_perm|].
  apply drop_duplicates_NoDup. exact eqb_eq.
Qed.

Lemma groupby_nil : groupby_registrations eqb leb key [] = [].
Proof. reflexivity. Qed.

Lemma groupby_length (rs : list Row) :
  List.length (groupby_registrations eqb leb key rs)
  = List.length (drop_duplicates eqb (map key rs)).
Proof.
  unfold groupby_registrations. rewrite length_map. apply sort_by_length.
Qed.
End GroupByFacts.

(** ** Consecutive elements of a sorted list *)

Section ConsecutiveFacts.
Context {A : Type}.
Variable pos : A -> Z.

Lemma consecutive_sorted (l : list A) (a b : A) :
  StronglySorted (fun x y => pos x < pos y) l ->
  (In (a, b) (consecutive l)
   <-> In a l /\ In b l /\ pos a < pos b
       /\ forall c, In c l -> ~ (pos a < pos c < pos b)).
Proof.
  induction 1 as [|x l Hs IH Hx].
  - simpl. tauto.
  - rewrite Forall_forall in Hx.
    destruct l as [|y l].
    + simpl. split; [tauto|]. intros [[->|[]] [[->|[]] [H _]]]. lia.
    + change (consecutive (x :: y :: l))
        with ((x, y) :: consecutive (y :: l)).
      assert (Hy : forall z, In z l -> pos y < pos z).
      { inversion Hs as [|? ? _ Hf]. rewrite Forall_forall in Hf. exact Hf. }
      split.
      * intros [E|Hin].
        -- injection E as <- <-.
           split; [left; reflexivity|].
           split; [right; left; reflexivity|].
           split; [apply Hx; left; reflexivity|].
           intros c [<-|[<-|Hc]]; [lia|lia|].
           specialize (Hy c Hc). lia.
        -- apply IH in Hin. destruct Hin as [Ha [Hb [Hab Hfree]]].
           split; [right; exact Ha|]. split; [right; exact Hb|].
           split; [exact Hab|].
           intros c [<-|Hc]; [|apply Hfree; exact Hc].
           specialize (Hx a Ha). lia.
      * intros [Ha [Hb [Hab Hfree]]].
        destruct Ha as [<-|Ha].
        -- left. destruct Hb as [<-|[<-|Hb]]; [lia|reflexivity|].
           exfalso. apply (Hfree y); [right; left; reflexivity|].
           specialize (Hy b Hb). specialize (Hx y (or_introl eq_refl)). lia.
        -- right. apply IH. split; [exact Ha|].
           destruct Hb as [<-|Hb].
           ++ specialize (Hx a Ha). lia.
           ++ split; [exact Hb|]. split; [exact Hab|].
              intros c Hc. apply Hfree. right. exact Hc.
Qed.

Lemma sorted_strict (l : list A) :
  StronglySorted (fun x y => pos x <= pos y) l ->
  NoDup (map pos l) ->
  StronglySorted (fun x y => pos x < pos y) l.
Proof.
  induction 1 as [|x l Hs IH Hx]; intros Hnd; constructor.
  - apply IH. inversion Hnd. assumption.
  - rewrite Forall_forall in *. intros y Hy.
    specialize (Hx y Hy).
    assert (pos x <> pos y); [|lia].
    intros E. inversion Hnd as [|? ? Hnot _]. apply Hnot.
    rewrite E. apply in_map. exact Hy.
Qed.
End ConsecutiveFacts.

(** ** The growth loop *)

Lemma QofN_pos (n : N) : (0 < n)%N -> ~ (QofN n == 0)%Q.
Proof.
  intros H E. unfold QofN, Qeq in E. simpl in E. lia.
Qed.

Lemma growth_metric_Ok (g : list string) (previous current : Grouped) :
  growth_metric g previous current = Ok (pair_metrics g (previous, current)).
Proof.
  unfold growth_metric, pair_metrics. simpl.
  destruct (0 <? g_registrations previous)%N eqn:Hpos; [|reflexivity].
  apply N.ltb_lt in Hpos. unfold true_div.
  destruct (Qeq_bool (QofN (g_registrations previous)) 0) eqn:E.
  - apply Qeq_bool_iff in E. exfalso. exact (QofN_pos _ Hpos E).
  - reflexivity.
Qed.

Lemma group_filter_from_Some (cols : list column) (g : list string)
    (i : nat) (f0 : Grouped -> bool) :
  exists f, group_filter_from i cols g (Some f0) = Some f
            /\ forall e, f e = f0 e
                 && forallb (fun j => String.eqb (nth j (g_vals e) EmptyString)
                                                 (nth j g EmptyString))
                            (seq i (List.length cols)).
Proof.
  revert i f0. induction cols as [|c cols IH]; intros i f0; simpl.
  - exists f0. split; [reflexivity|]. intros e. rewrite andb_true_r. reflexivity.
  - destruct (IH (S i) (fun e => f0 e
        && String.eqb (nth i (g_vals e) EmptyString) (nth i g EmptyString)))
      as [f [Hf Hspec]].
    exists f. split; [exact Hf|]. intros e. rewrite Hspec.
    rewrite andb_assoc. reflexivity.
Qed.

Lemma forallb_map_S (f : nat -> bool) (l : list nat) :
  forallb f (map S l) = forallb (fun j => f (S j)) l.
Proof.
  induction l as [|a l IH]; simpl; [|rewrite IH]; reflexivity.
Qed.

Lemma nth_eqb_all (l1 l2 : list string) :
  List.length l1 = List.length l2 ->
  forallb (fun j => String.eqb (nth j l1 EmptyString) (nth j l2 EmptyString))
          (seq 0 (List.length l1))
  = list_eqb String.eqb l1 l2.
Proof.
  revert l2. induction l1 as [|a l1 IH]; intros [|b l2] Hlen;
    try discriminate; [reflexivity|].
  simpl in Hlen. injection Hlen as Hlen.
  cbn [List.length seq forallb list_eqb nth]. f_equal.
  rewrite <- seq_shift, <- (IH l2 Hlen).
  rewrite forallb_map_S. reflexivity.
Qed.

Lemma group_filter_spec (group_by : list column) (g : list string) :
  group_by <> [] ->
  exists f, group_filter group_by g = Some f
            /\ forall e, List.length (g_vals e) = List.length group_by ->
                         List.length g = List.length group_by ->
                         f e = list_eqb String.eqb (g_vals e) g.
Proof.
  destruct group_by as [|c cols]; [congruence|]. intros _.
  unfold group_filter. cbn [group_filter_from mask_and].
  destruct (group_filter_from_Some cols g 1
              (fun e => String.eqb (nth 0 (g_vals e) EmptyString)
                                   (nth 0 g EmptyString)))
    as [f [Hf Hspec]].
  exists f. split; [exact Hf|]. intros e He Hg.
  rewrite Hspec, <- nth_eqb_all by congruence.
  rewrite He. reflexivity.
Qed.

Lemma group_growth_Ok (group_by : list column) (data : list Grouped)
    (g : list string) :
  group_by <> [] ->
  (forall e, In e data -> List.length (g_vals e) = List.length group_by) ->
  List.length g = List.length group_by ->
  group_growth group_by data g
  = Ok (flat_map (pair_metrics g) (consecutive (group_data data g))).
Proof.
  intros Hne Hdata Hg. unfold group_growth.
  destruct (group_filter_spec group_by g Hne) as [f [-> Hf]].
  cbv zeta.
  replace (filter f data)
    with (filter (fun e => list_eqb String.eqb (g_vals e) g) data).
  - apply for_each_Ok. intros [a b] _. apply growth_metric_Ok.
  - apply filter_ext_in. intros e He. symmetry. apply Hf; auto.
Qed.

Lemma grouped_frame_In (df : DataFrame) (pt : GrowthPeriod)
    (group_by : list column) (e : Grouped) :
  In e (grouped_frame df pt group_by)
  <-> exists r, In r (rows df)
        /\ e = mkGrouped (group_of group_by r) (period_of pt r)
                 (total_registrations
                    (group_rows key_eqb (row_key pt group_by) (rows df)
                                (row_key pt group_by r))).
Proof.
  unfold grouped_frame, sort_grouped, groupby_sum.
  rewrite sort_by_In, in_map_iff. split.
  - intros [[k s] [<- Hin]].
    apply (groupby_In key_eqb key_leb _ key_eqb_eq) in Hin.
    destruct Hin as [[r [Hr Hk]] ->]. exists r. split; [exact Hr|].
    rewrite <- Hk. reflexivity.
  - intros [r [Hr ->]].
    exists (row_key pt group_by r,
            total_registrations
              (group_rows key_eqb (row_key pt group_by) (rows df)
                          (row_key pt group_by r))).
    split; [reflexivity|].
    apply (groupby_In key_eqb key_leb _ key_eqb_eq).
    split; [exists r; auto | reflexivity].
Qed.

Lemma grouped_frame_keys (df : DataFrame) (pt : GrowthPeriod)
    (group_by : list column) :
  NoDup (map grouped_key (grouped_frame df pt group_by)).
Proof.
  unfold grouped_frame, sort_grouped.
  eapply Permutation_NoDup;
    [apply Permutation_map, sort_by_perm|].
  unfold groupby_sum. rewrite map_map.
  erewrite map_ext; [apply (groupby_NoDup key_eqb key_leb _ key_eqb_eq)|].
  intros [[vals p] s]. reflexivity.
Qed.

Lemma grouped_frame_width (df : DataFrame) (pt : GrowthPeriod)
    (group_by : list column) (e : Grouped) :
  In e (grouped_frame df pt group_by) ->
  List.length (g_vals e) = List.length group_by.
Proof.
  intros H. apply grouped_frame_In in H. destruct H as [r [_ ->]].
  simpl. unfold group_of. apply length_map.
Qed.

Lemma growth_rows_Ok (df : DataFrame) (pt : GrowthPeriod)
    (group_by : list column) :
  pt <> MOM -> group_by <> [] -> has_duplicate group_by = false ->
  growth_rows df pt group_by = Ok (emitted_metrics df pt group_by).
Proof.
  intros Hpt Hne Hnd.
  assert (H : for_each (group_growth group_by (grouped_frame df pt group_by))
                       (group_keys df pt group_by)
              = Ok (emitted_metrics df pt group_by)).
  { apply for_each_Ok. intros g Hg.
    apply group_growth_Ok; [exact Hne | apply grouped_frame_width |].
    apply (drop_duplicates_In _ list_eqb_eq), in_map_iff in Hg.
    destruct Hg as [e [<- He]]. eapply grouped_frame_width. exact He. }
  unfold growth_rows. rewrite Hnd.
  destruct pt; [exact H | exact H | congruence].
Qed.

Lemma calculate_growth_metrics_Ok (df : DataFrame) (pt : GrowthPeriod)
    (group_by : list column) :
  pt <> MOM -> group_by <> [] -> has_duplicate group_by = false ->
  calculate_growth_metrics df pt group_by
  = Ok (rank_metrics (emitted_metrics df pt group_by)).
Proof.
  intros Hpt Hne Hnd. unfold calculate_growth_metrics.
  rewrite growth_rows_Ok by assumption. reflexivity.
Qed.

(** Ranking keeps the metrics, up to their rank. *)
Lemma rank_metrics_In (emitted : list GrowthMetric) (m : GrowthMetric) :
  In m (rank_metrics emitted) ->
  exists m', In m' emitted /\ unranked m = unranked m'.
Proof.
  intros H. destruct (rank_metrics_spec emitted) as [_ [Hperm _]].
  apply (in_map unranked) in H.
  apply (Permutation_in _ (Permutation_sym Hperm)) in H.
  apply in_map_iff in H. destruct H as [m' [E Hm']]. eauto.
Qed.

Lemma rank_metrics_In_inv (emitted : list GrowthMetric) (m' : GrowthMetric) :
  In m' emitted ->
  exists m, In m (rank_metrics emitted) /\ unranked m = unranked m'.
Proof.
  intros H. destruct (rank_metrics_spec emitted) as [_ [Hperm _]].
  apply (in_map unranked) in H.
  apply (Permutation_in _ Hperm) in H.
  apply in_map_iff in H. destruct H as [m [E Hm]]. eauto.
Qed.

Lemma is_yoy_metric_unranked (g : list string) (y : Z) (c p : N)
    (m m' : GrowthMetric) :
  unranked m = unranked m' -> is_yoy_metric g y c p m' -> is_yoy_metric g y c p m.
Proof.
  unfold unranked, set_rank, is_yoy_metric. intros E.
  injection E as -> -> -> -> -> ->. tauto.
Qed.

(** ** Histories of the groups *)

Lemma NoDup_map_filter {K V : Type} (keep : V -> bool) (key : V -> K)
    (xs : list V) (Hkeys : NoDup (map key xs)) :
  NoDup (map key (filter keep xs)).
Proof.
  revert Hkeys. induction xs as [|x xs IH]; simpl; intros H; [constructor|].
  inversion H as [|? ? Hnot Hnd]; subst.
  destruct (keep x); [|auto]. simpl. constructor; [|auto].
  intros Hin. apply Hnot. apply in_map_iff in Hin.
  destruct Hin as [y [E Hy]]. apply filter_In in Hy.
  rewrite <- E. apply in_map. tauto.
Qed.

Lemma NoDup_map_finer {A B C : Type} (f : A -> B) (h : A -> C) (l : list A) :
  (forall a b, In a l -> In b l -> h a = h b -> f a = f b) ->
  NoDup (map f l) -> NoDup (map h l).
Proof.
  induction l as [|a l IH]; simpl; intros Hinj H; [constructor|].
  inversion H as [|? ? Hnot Hnd]; subst. constructor.
  - intros Hin. apply Hnot. apply in_map_iff in Hin.
    destruct Hin as [x [E Hx]].
    rewrite <- (Hinj x a) by auto. apply in_map. exact Hx.
  - apply IH; [|exact Hnd]. intros x y Hx Hy. apply Hinj; auto.
Qed.

Lemma period_sort_inj (pt : GrowthPeriod) (r r' : Row) :
  period_sort (period_of pt r) = period_sort (period_of pt r') ->
  period_of pt r = period_of pt r'.
Proof.
  destruct pt; unfold period_sort, period_of; simpl; intros H;
    try (rewrite H; reflexivity);
    assert (year r = year r' /\ quarter r = quarter r') as [-> ->];
    try reflexivity;
    destruct (quarter r), (quarter r'); simpl in H; split;
      try reflexivity; lia.
Qed.

Lemma group_data_In (data : list Grouped) (g : list string) (e : Grouped) :
  In e (group_data data g) <-> In e data /\ g_vals e = g.
Proof.
  unfold group_data. rewrite sort_by_In, filter_In, list_eqb_eq. tauto.
Qed.

Lemma group_data_sorted (df : DataFrame) (pt : GrowthPeriod)
    (group_by : list column) (g : list string) :
  StronglySorted (fun a b => period_pos a < period_pos b)
                 (group_data (grouped_frame df pt group_by) g).
Proof.
  apply sorted_strict.
  - unfold group_data. apply sort_by_sorted.
    + intros x y H. apply Z.leb_le. exact H.
    + intros x y H. apply Z.leb_gt in H. unfold period_pos. lia.
    + intros x y z. lia.
  - unfold group_data.
    eapply Permutation_NoDup; [apply Permutation_map, sort_by_perm|].
    apply (NoDup_map_finer grouped_key).
    + intros a b Ha Hb E.
      apply filter_In in Ha. destruct Ha as [Ha Hga].
      apply filter_In in Hb. destruct Hb as [Hb Hgb].
      apply list_eqb_eq in Hga. apply list_eqb_eq in Hgb.
      apply grouped_frame_In in Ha. destruct Ha as [ra [_ ->]].
      apply grouped_frame_In in Hb. destruct Hb as [rb [_ ->]].
      unfold period_pos, grouped_key in *. simpl in *.
      rewrite Hga, Hgb. f_equal. eapply period_sort_inj. exact E.
    + apply NoDup_map_filter, grouped_frame_keys.
Qed.

Lemma yoy_sum_eq (df : DataFrame) (group_by : list column) (r : Row) :
  total_registrations
    (group_rows key_eqb (row_key YOY group_by) (rows df)
                (row_key YOY group_by r))
  = year_sum df group_by (group_of group_by r) (year r).
Proof.
  unfold year_sum, group_rows. f_equal. apply filter_ext. intros r'.
  unfold key_eqb, row_key, period_eqb, group_of. simpl.
  rewrite andb_true_r. reflexivity.
Qed.

Lemma yoy_frame_In (df : DataFrame) (group_by : list column) (e : Grouped) :
  In e (grouped_frame df YOY group_by)
  <-> exists y, has_year df group_by (g_vals e) y
        /\ e = mkGrouped (g_vals e) (mkPeriod y None)
                 (year_sum df group_by (g_vals e) y).
Proof.
  rewrite grouped_frame_In. split.
  - intros [r [Hr ->]]. exists (year r). simpl. split.
    + exists r. auto.
    + rewrite yoy_sum_eq. reflexivity.
  - intros [y [[r [Hr [Hg Hy]]] E]]. exists r. split; [exact Hr|].
    rewrite yoy_sum_eq, Hg. unfold period_of. rewrite Hy. exact E.
Qed.

Lemma yoy_group_data_In (df : DataFrame) (group_by : list column)
    (g : list string) (e : Grouped) :
  In e (group_data (grouped_frame df YOY group_by) g)
  <-> exists y, has_year df group_by g y
        /\ e = mkGrouped g (mkPeriod y None) (year_sum df group_by g y).
Proof.
  rewrite group_data_In, yoy_frame_In. split.
  - intros [[y [Hy E]] Hg]. exists y. rewrite <- Hg. auto.
  - intros [y [Hy ->]]. simpl. split; [|reflexivity]. exists y. auto.
Qed.

Lemma yoy_group_keys_In (df : DataFrame) (group_by : list column)
    (g : list string) (y : Z) :
  has_year df group_by g y -> In g (group_keys df YOY group_by).
Proof.
  intros H. unfold group_keys.
  apply (drop_duplicates_In _ list_eqb_eq), in_map_iff.
  exists (mkGrouped g (mkPeriod y None) (year_sum df group_by g y)).
  split; [reflexivity|]. apply yoy_frame_In. exists y. simpl. auto.
Qed.

(** The pairs the YoY loop visits for group [g] are the pairs of
    chronologically consecutive years of the group. *)
Lemma yoy_consecutive (df : DataFrame) (group_by : list column)
    (g : list string) (a b : Grouped) :
  In (a, b) (consecutive (group_data (grouped_frame df YOY group_by) g))
  <-> exists y1 y2,
        consecutive_years df group_by g y1 y2
        /\ a = mkGrouped g (mkPeriod y1 None) (year_sum df group_by g y1)
        /\ b = mkGrouped g (mkPeriod y2 None) (year_sum df group_by g y2).
Proof.
  rewrite (consecutive_sorted period_pos) by apply group_data_sorted.
  split.
  - intros [Ha [Hb [Hlt Hfree]]].
    apply yoy_group_data_In in Ha. destruct Ha as [y1 [H1 ->]].
    apply yoy_group_data_In in Hb. destruct Hb as [y2 [H2 ->]].
    exists y1, y2. split; [|auto].
    split; [exact H1|]. split; [exact H2|]. split; [exact Hlt|].
    intros y Hy.
    apply (Hfree (mkGrouped g (mkPeriod y None) (year_sum df group_by g y))).
    apply yoy_group_data_In. exists y. auto.
  - intros [y1 [y2 [[H1 [H2 [Hlt Hfree]]] [-> ->]]]].
    split; [apply yoy_group_data_In; exists y1; auto|].
    split; [apply yoy_group_data_In; exists y2; auto|].
    split; [exact Hlt|].
    intros c Hc. apply yoy_group_data_In in Hc. destruct Hc as [y [Hy ->]].
    apply Hfree. exact Hy.
Qed.

Lemma pair_metrics_yoy (df : DataFrame) (group_by : list column)
    (g : list string) (y1 y2 : Z) (m : GrowthMetric) :
  In m (pair_metrics g
          (mkGrouped g (mkPeriod y1 None) (year_sum df group_by g y1),
           mkGrouped g (mkPeriod y2 None) (year_sum df group_by g y2)))
  <-> (0 < year_sum df group_by g y1)%N
      /\ unranked m = m
      /\ is_yoy_metric g y2 (year_sum df group_by g y2)
                       (year_sum df group_by g y1) m.
Proof.
  unfold pair_metrics. simpl.
  destruct (0 <? year_sum df group_by g y1)%N eqn:Hpos.
  - apply N.ltb_lt in Hpos. simpl. split.
    + intros [<-|[]]. split; [exact Hpos|]. unfold is_yoy_metric. simpl.
      repeat split; reflexivity.
    + intros [_ [Hu [He [Hp [Hc [Hv [Hr Ha]]]]]]]. left.
      rewrite <- Hu. unfold unranked, set_rank, metric_of. simpl.
      rewrite He, Hp, Hc, Hv, Hr, Ha. reflexivity.
  - apply N.ltb_ge in Hpos. simpl. split; [tauto|]. intros [H _]. lia.
Qed.


(** The YoY metrics are exactly the steps between consecutive years of a
    group whose earlier sum is positive. *)
Lemma yoy_growth_metrics_sound_complete (df : DataFrame)
    (group_by : list column) :
  group_by <> [] -> has_duplicate group_by = false ->
  calculate_growth_metrics df YOY group_by
  = Ok (rank_metrics (emitted_metrics df YOY group_by))
  /\ (forall g y1 y2,
        consecutive_years df group_by g y1 y2 ->
        (0 < year_sum df group_by g y1)%N ->
        exists m, In m (rank_metrics (emitted_metrics df YOY group_by))
                  /\ is_yoy_metric g y2 (year_sum df group_by g y2)
                                   (year_sum df group_by g y1) m)
  /\ (forall m, In m (rank_metrics (emitted_metrics df YOY group_by)) ->
        exists g y1 y2,
          consecutive_years df group_by g y1 y2
          /\ (0 < year_sum df group_by g y1)%N
          /\ is_yoy_metric g y2 (year_sum df group_by g y2)
                           (year_sum df group_by g y1) m).
Proof.
  intros Hne Hnd.
  split; [apply calculate_growth_metrics_Ok; congruence|]. split.
  - intros g y1 y2 Hcons Hpos.
    destruct (rank_metrics_In_inv (emitted_metrics df YOY group_by)
                (metric_of g
                   (mkGrouped g (mkPeriod y1 None) (year_sum df group_by g y1))
                   (mkGrouped g (mkPeriod y2 None) (year_sum df group_by g y2))
                   ((QofN (year_sum df group_by g y2)
                     - QofN (year_sum df group_by g y1))
                    / QofN (year_sum df group_by g y1) * 100)%Q))
      as [m [Hm Hu]].
    + unfold emitted_metrics. apply in_flat_map. exists g. split.
      * destruct Hcons as [H1 _]. eapply yoy_group_keys_In. exact H1.
      * apply in_flat_map.
        exists (mkGrouped g (mkPeriod y1 None) (year_sum df group_by g y1),
                mkGrouped g (mkPeriod y2 None) (year_sum df group_by g y2)).
        split; [apply yoy_consecutive; exists y1, y2; auto|].
        unfold pair_metrics. simpl.
        apply N.ltb_lt in Hpos. rewrite Hpos. left. reflexivity.
    + exists m. split; [exact Hm|].
      eapply is_yoy_metric_unranked; [exact Hu|].
      unfold is_yoy_metric. simpl. repeat split; reflexivity.
  - intros m Hm. apply rank_metrics_In in Hm. destruct Hm as [m' [Hm' Hu]].
    unfold emitted_metrics in Hm'.
    apply in_flat_map in Hm'. destruct Hm' as [g [_ Hm']].
    apply in_flat_map in Hm'. destruct Hm' as [[a b] [Hab Hm']].
    apply yoy_consecutive in Hab.
    destruct Hab as [y1 [y2 [Hcons [-> ->]]]].
    apply pair_metrics_yoy in Hm'. destruct Hm' as [Hpos [_ Hmetric]].
    exists g, y1, y2. split; [exact Hcons|]. split; [exact Hpos|].
    eapply is_yoy_metric_unranked; eassumption.
Qed.

(** A frame whose groups all have a single year yields no YoY metric. *)
Lemma single_year_no_metrics (df : DataFrame) (group_by : list column) :
  group_by <> [] -> has_duplicate group_by = false ->
  (forall r r', In r (rows df) -> In r' (rows df) ->
                group_of group_by r = group_of group_by r' ->
                year r = year r') ->
  rank_metrics (emitted_metrics df YOY group_by) = [].
Proof.
  intros Hne Hnd Hsingle.
  destruct (yoy_growth_metrics_sound_complete df group_by Hne Hnd)
    as [_ [_ Hsound]].
  destruct (rank_metrics (emitted_metrics df YOY group_by)) as [|m ms] eqn:E;
    [reflexivity|].
  exfalso. destruct (Hsound m (or_introl eq_refl))
    as [g [y1 [y2 [[H1 [H2 [Hlt _]]] _]]]].
  destruct H1 as [r1 [Hr1 [Hg1 Hy1]]]. destruct H2 as [r2 [Hr2 [Hg2 Hy2]]].
  assert (year r1 = year r2) by (apply Hsingle; congruence). lia.
Qed.



(** C2.  Whatever [calculate_growth_metrics] returns, the ranks along the
    returned list are 1, 2, ..., N; the list is a rearrangement of the
    metrics in the order they were appended, sorted by descending growth
    rate; and for every rate the metrics of that rate appear in the order in
    which they were appended, so that among equal rates the one appended
    earlier has the smaller rank. *)
Theorem ranks_follow_descending_growth (df : DataFrame) (pt : GrowthPeriod)
    (group_by : list column) (ms : list GrowthMetric) :
  calculate_growth_metrics df pt group_by = Ok ms ->
  exists emitted,
    growth_rows df pt group_by = Ok emitted
    /\ map rank ms = map Z.of_nat (seq 1 (List.length ms))
    /\ Permutation (map unranked emitted) (map unranked ms)
    /\ StronglySorted (fun x y => y <= x)%Q (map growth_rate ms)
    /\ forall r, map unranked (filter (has_rate r) ms)
                 = map unranked (filter (has_rate r) emitted).
Proof.
  unfold calculate_growth_metrics. intros H.
  apply bind_Ok_inv in H. destruct H as [emitted [Hrows Hrank]].
  injection Hrank as <-. exists emitted. split; [exact Hrows|].
  apply rank_metrics_spec.
Qed.

Lemma ranks_follow_descending_growth_witness :
  exists ms,
    calculate_growth_metrics scenario_tie YOY [col_manufacturer] = Ok ms
    /\ map rank ms = [1; 2; 3]
    /\ map entity ms = ["C"; "A"; "B"]
    /\ StronglySorted (fun x y => y <= x)%Q (map growth_rate ms).
Proof.
  assert (E : calculate_growth_metrics scenario_tie YOY [col_manufacturer]
              = Ok (rank_metrics
                      (emitted_metrics scenario_tie YOY [col_manufacturer])))
    by (vm_compute; reflexivity).
  destruct (ranks_follow_descending_growth _ _ _ _ E)
    as [emitted [_ [Hranks [_ [Hsorted _]]]]].
  eexists. split; [exact E|]. split; [|split; [|exact Hsorted]].
  - rewrite Hranks. vm_compute. reflexivity.
  - vm_compute. reflexivity.
Defined.

(** ** Zero previous values *)

Lemma for_each_In {A B : Type} (body : A -> exc (list B)) (xs : list A)
    (ys : list B) (y : B) :
  for_each body xs = Ok ys -> In y ys ->
  exists x l, In x xs /\ body x = Ok l /\ In y l.
Proof.
  revert ys. induction xs as [|x xs IH]; simpl; intros ys H Hy.
  - injection H as <-. destruct Hy.
  - apply bind_Ok_inv in H. destruct H as [l [Hl H]].
    apply bind_Ok_inv in H. destruct H as [zs [Hzs H]].
    injection H as <-. apply in_app_or in Hy. destruct Hy as [Hy|Hy].
    + exists x, l. auto.
    + destruct (IH zs Hzs Hy) as [x' [l' [Hx' [Hb Hl']]]].
      exists x', l'. auto.
Qed.

Lemma for_each_no_fault {A B : Type} (body : A -> exc (list B)) (xs : list A) :
  (forall x, body x <> Raise ZeroDivisionError) ->
  for_each body xs <> Raise ZeroDivisionError.
Proof.
  intros Hb. induction xs as [|x xs IH]; simpl; [discriminate|].
  specialize (Hb x). destruct (body x) as [l|e]; simpl; [|exact Hb].
  destruct (for_each body xs) as [zs|e]; simpl; [discriminate | exact IH].
Qed.

Lemma pair_metrics_previous (g : list string) (pc : Grouped * Grouped)
    (m : GrowthMetric) :
  In m (pair_metrics g pc) -> (0 < previous_value m)%N.
Proof.
  unfold pair_metrics. cbv zeta.
  destruct (0 <? g_registrations (fst pc))%N eqn:Hpos; [|intros []].
  intros [<-|[]]. simpl. apply N.ltb_lt. exact Hpos.
Qed.

Lemma growth_rows_previous (df : DataFrame) (pt : GrowthPeriod)
    (group_by : list column) (emitted : list GrowthMetric) (m : GrowthMetric) :
  growth_rows df pt group_by = Ok emitted -> In m emitted ->
  (0 < previous_value m)%N.
Proof.
  unfold growth_rows. intros H Hm.
  assert (Hloop : forall data gs,
            for_each (group_growth group_by data) gs = Ok emitted ->
            (0 < previous_value m)%N).
  { intros data gs Hfor.
    destruct (for_each_In _ _ _ _ Hfor Hm) as [g [l [_ [Hg Hl]]]].
    unfold group_growth in Hg.
    destruct (group_filter group_by g) as [f|]; [|discriminate].
    destruct (for_each_In _ _ _ _ Hg Hl) as [pc [l' [_ [Hpc Hl']]]].
    rewrite growth_metric_Ok in Hpc. injection Hpc as <-.
    destruct pc as [a b]. eapply pair_metrics_previous. exact Hl'. }
  destruct pt; try (destruct (has_duplicate group_by); [discriminate|]);
    try (eapply Hloop; exact H).
  injection H as <-. destruct Hm.
Qed.

Lemma rank_metrics_previous (emitted : list GrowthMetric) (m : GrowthMetric) :
  (forall m', In m' emitted -> (0 < previous_value m')%N) ->
  In m (rank_metrics emitted) -> (0 < previous_value m)%N.
Proof.
  intros H Hm. apply rank_metrics_In in Hm. destruct Hm as [m' [Hm' Hu]].
  specialize (H m' Hm'). unfold unranked, set_rank in Hu.
  injection Hu as _ _ _ -> _ _. exact H.
Qed.

Lemma calculate_growth_metrics_no_fault (df : DataFrame) (pt : GrowthPeriod)
    (group_by : list column) :
  calculate_growth_metrics df pt group_by <> Raise ZeroDivisionError.
Proof.
  unfold calculate_growth_metrics.
  assert (H : growth_rows df pt group_by <> Raise ZeroDivisionError).
  { unfold growth_rows.
    assert (Hloop : forall data gs,
              for_each (group_growth group_by data) gs
              <> Raise ZeroDivisionError).
    { intros data gs. apply for_each_no_fault. intros g. unfold group_growth.
      destruct (group_filter group_by g) as [f|]; [|discriminate].
      apply for_each_no_fault. intros [a b].
      rewrite growth_metric_Ok. discriminate. }
    destruct pt; try discriminate;
      (destruct (has_duplicate group_by); [discriminate | apply Hloop]). }
  destruct (growth_rows df pt group_by) as [l|e]; simpl;
    [discriminate | exact H].
Qed.

(** ** The store's YoY rows *)

Lemma left_join_Some {A B : Type} (cond : A -> B -> bool)
    (a : list A) (b : list B) (x : A) (y : B) :
  In (x, Some y) (left_join cond a b)
  <-> In x a /\ In y b /\ cond x y = true.
Proof.
  unfold left_join. rewrite in_flat_map. split.
  - intros [x' [Hx' Hin]].
    destruct (filter (cond x') b) as [|z zs] eqn:E.
    + destruct Hin as [Hin|[]]. discriminate.
    + rewrite <- E in Hin. apply in_map_iff in Hin.
      destruct Hin as [y' [Ey Hy']]. injection Ey as -> ->.
      apply filter_In in Hy'. tauto.
  - intros [Hx [Hy Hc]]. exists x. split; [exact Hx|].
    assert (Hin : In y (filter (cond x) b)) by (apply filter_In; auto).
    destruct (filter (cond x) b) as [|z zs] eqn:E; [destruct Hin|].
    apply (in_map (fun y0 => (x, Some y0))). exact Hin.
Qed.

Lemma mvy_eqb_eq (a b : MvyKey) : mvy_eqb a b = true <-> a = b.
Proof.
  unfold mvy_eqb. rewrite !andb_true_iff, !String.eqb_eq, Z.eqb_eq.
  destruct a as [[ma va] ya], b as [[mb vb] yb]; simpl. split.
  - intros [[-> ->] ->]. reflexivity.
  - intros H. injection H. auto.
Qed.

Lemma sql_yearly_sum_eq (df : DataFrame) (mf vt : string) (y : Z) :
  total_registrations
    (group_rows mvy_eqb (fun r => (manufacturer r, vehicle_type r, year r))
                (rows df) (mf, vt, y))
  = year_sum df by_manufacturer [mf; vt] y.
Proof.
  unfold year_sum, group_rows. f_equal. apply filter_ext. intros r.
  unfold mvy_eqb, by_manufacturer, group_of. simpl.
  rewrite andb_true_r. reflexivity.
Qed.

Lemma sql_yearly_data_In (df : DataFrame) (k : MvyKey) (s : N) :
  In (k, s) (sql_yearly_data (rows df))
  <-> has_year df by_manufacturer [fst (fst k); snd (fst k)] (snd k)
      /\ s = year_sum df by_manufacturer [fst (fst k); snd (fst k)] (snd k).
Proof.
  unfold sql_yearly_data.
  rewrite (groupby_In mvy_eqb mvy_leb _ mvy_eqb_eq).
  destruct k as [[mf vt] y]. simpl. rewrite sql_yearly_sum_eq.
  unfold has_year, by_manufacturer, group_of. simpl.
  split; intros [[r [Hr H]] Hs]; (split; [exists r|exact Hs]).
  - injection H as -> -> ->. auto.
  - destruct H as [H ->]. injection H as -> ->. auto.
Qed.

(** The rows of the per-manufacturer YoY insert: one for every year of a
    group whose calendar predecessor is in the group's history too. *)
Lemma yoy_manufacturer_rows_In (df : DataFrame) (row : StoredMetric) :
  In row (yoy_manufacturer_rows (rows df))
  <-> exists mf vt y,
        has_year df by_manufacturer [mf; vt] (y - 1)
        /\ has_year df by_manufacturer [mf; vt] y
        /\ row = mkStored "manufacturer" (mf ++ " (" ++ vt ++ ")") "yoy"
                   (str_Z y)
                   (Some (year_sum df by_manufacturer [mf; vt] y))
                   (Some (year_sum df by_manufacturer [mf; vt] (y - 1)))
                   (sql_growth_rate
                      (year_sum df by_manufacturer [mf; vt] y)
                      (Some (year_sum df by_manufacturer [mf; vt] (y - 1))))
                   (sql_growth_absolute
                      (year_sum df by_manufacturer [mf; vt] y)
                      (Some (year_sum df by_manufacturer [mf; vt] (y - 1)))).
Proof.
  unfold yoy_manufacturer_rows. cbv zeta. rewrite in_map_iff. split.
  - intros [[y1 [y2|]] [<- Hin]]; apply filter_In in Hin;
      destruct Hin as [Hin Hsome]; [|discriminate].
    apply left_join_Some in Hin. destruct Hin as [H1 [H2 Hc]].
    destruct y1 as [[[m1 v1] yr1] s1], y2 as [[[m2 v2] yr2] s2].
    apply sql_yearly_data_In in H1. apply sql_yearly_data_In in H2.
    simpl in H1, H2. destruct H1 as [H1 ->]. destruct H2 as [H2 ->].
    unfold yoy_join_cond in Hc. simpl in Hc.
    rewrite !andb_true_iff, !String.eqb_eq, Z.eqb_eq in Hc.
    destruct Hc as [[-> ->] ->].
    exists m2, v2, (yr2 + 1).
    replace (yr2 + 1 - 1) with yr2 by lia. simpl. auto.
  - intros [mf [vt [y [H1 [H2 ->]]]]].
    exists ((mf, vt, y, year_sum df by_manufacturer [mf; vt] y),
            Some (mf, vt, y - 1,
                  year_sum df by_manufacturer [mf; vt] (y - 1))).
    split; [reflexivity|]. apply filter_In. split; [|reflexivity].
    apply left_join_Some. split; [|split].
    + apply sql_yearly_data_In. simpl. auto.
    + apply sql_yearly_data_In. simpl. auto.
    + unfold yoy_join_cond. simpl.
      rewrite !String.eqb_refl. simpl. apply Z.eqb_eq. lia.
Qed.

(** ** Rounding modes *)

Lemma Qfloor_unique (x : Q) (z : Z) :
  (inject_Z z <= x)%Q -> (x < inject_Z z + 1)%Q -> Qfloor x = z.
Proof.
  intros H1 H2. apply Z.le_antisymm.
  - assert (H : (inject_Z (Qfloor x) < inject_Z (z + 1))%Q).
    { rewrite inject_Z_plus. eapply Qle_lt_trans; [apply Qfloor_le|exact H2]. }
    rewrite <- Zlt_Qlt in H. lia.
  - rewrite <- (Qfloor_Z z). apply Qfloor_resp_le. exact H1.
Qed.

Lemma Qfloor_bounds (x : Q) :
  (inject_Z (Qfloor x) <= x)%Q /\ (x < inject_Z (Qfloor x) + 1)%Q.
Proof.
  split; [apply Qfloor_le|].
  pose proof (Qlt_floor x) as H. rewrite inject_Z_plus in H. exact H.
Qed.

(** Off the halfway points the two rounding modes give the same value. *)
Lemma round_modes_agree (x x' : Q) :
  (x' == x)%Q -> ~ is_tie x 2 -> (sql_round x' 2 == py_round x 2)%Q.
Proof.
  unfold is_tie, sql_round, py_round, round_half_even. cbv zeta.
  set (scale := inject_Z (10 ^ Z.of_nat 2)).
  intros Hx Htie.
  assert (Hs : (x' * scale == x * scale)%Q) by (rewrite Hx; reflexivity).
  destruct (Qfloor_bounds (x * scale)) as [Hlo Hhi].
  set (f := Qfloor (x * scale)) in *. clearbody f. clearbody scale.
  destruct (Qcompare (x * scale - inject_Z f) (1 # 2)) eqn:C.
  - apply Qeq_alt in C. contradiction.
  - apply Qlt_alt in C.
    destruct (Qlt_le_dec (x' * scale) 0) as [Hneg|Hpos].
    + rewrite (Qfloor_unique (- (x' * scale) + (1 # 2)) (- f)).
      * rewrite Z.opp_involutive. reflexivity.
      * rewrite inject_Z_opp. lra.
      * rewrite inject_Z_opp. lra.
    + rewrite (Qfloor_unique (x' * scale + (1 # 2)) f); [reflexivity| |]; lra.
  - apply Qgt_alt in C.
    destruct (Qlt_le_dec (x' * scale) 0) as [Hneg|Hpos].
    + rewrite (Qfloor_unique (- (x' * scale) + (1 # 2)) (- (f + 1))).
      * rewrite Z.opp_involutive. reflexivity.
      * rewrite inject_Z_opp, inject_Z_plus.
        change (inject_Z 1) with 1%Q. lra.
      * rewrite inject_Z_opp, inject_Z_plus.
        change (inject_Z 1) with 1%Q. lra.
    + rewrite (Qfloor_unique (x' * scale + (1 # 2)) (f + 1));
        [reflexivity| |]; rewrite inject_Z_plus;
        change (inject_Z 1) with 1%Q; lra.
Qed.

Lemma stored_rows_null_rate (df : DataFrame) (old : list StoredMetric)
    (row : StoredMetric) :
  In row (growth_metrics (calculate_and_store_growth_metrics (store_of df old))) ->
  stored_previous row = Some 0%N -> stored_growth_rate row = None.
Proof.
  unfold calculate_and_store_growth_metrics, store_of. simpl.
  unfold yoy_manufacturer_rows, qoq_manufacturer_rows, vehicle_type_yoy_rows.
  cbv zeta. intros H.
  repeat (apply in_app_or in H; destruct H as [H|H]);
    apply in_map_iff in H; destruct H as [j [<- _]]; simpl;
    intros ->; reflexivity.
Qed.

(** C6, counterexample.  In [scenario_zero_previous] the years 2020 and 2021
    of group A / 2W are consecutive and the sum of 2020 is zero, yet the
    in-memory calculator returns no metric at all: the growth rate of that
    step is not reported as 0 or null, it is not reported. *)
Lemma zero_previous_not_reported :
  consecutive_years scenario_zero_previous by_manufacturer ["A"; "2W"] 2020 2021
  /\ year_sum scenario_zero_previous by_manufacturer ["A"; "2W"] 2020 = 0%N
  /\ calculate_growth_metrics scenario_zero_previous YOY by_manufacturer = Ok []
  /\ ~ (exists ms m,
          calculate_growth_metrics scenario_zero_previous YOY by_manufacturer
          = Ok ms
          /\ In m ms /\ (growth_rate m == 0)%Q).
Proof.
  split; [|split; [reflexivity|split; [reflexivity|]]].
  - split; [|split; [|split; [lia|intros y _; lia]]].
    + exists (record 2020 Q1 "2W" "A" 0). simpl. auto.
    + exists (record 2021 Q1 "2W" "A" 100). simpl. auto.
  - intros [ms [m [H [Hm _]]]].
    assert (E : calculate_growth_metrics scenario_zero_previous YOY
                  by_manufacturer = Ok []) by reflexivity.
    rewrite E in H. injection H as <-. destruct Hm.
Qed.

(** ** In-memory calculator and store *)

Lemma adjacent_years_consecutive (df : DataFrame) (group_by : list column)
    (g : list string) (y : Z) :
  has_year df group_by g (y - 1) -> has_year df group_by g y ->
  consecutive_years df group_by g (y - 1) y.
Proof.
  intros H1 H2. split; [exact H1|]. split; [exact H2|].
  split; [lia|]. intros y' _. lia.
Qed.

(** C10, counterexample.  In [scenario_missing_year] the group A / 2W has
    records in 2020 and 2022 only.  The in-memory calculator treats the two
    years as consecutive and returns a metric for period 2022; the store
    joins a year with its calendar predecessor and stores no YoY row. *)
Lemma store_differs_on_missing_year :
  (exists m,
     calculate_growth_metrics scenario_missing_year YOY by_manufacturer
     = Ok [m]
     /\ entity m = "A - 2W" /\ period m = "2022"
     /\ current_value m = 150%N /\ previous_value m = 100%N)
  /\ filter is_yoy_row
       (growth_metrics
          (calculate_and_store_growth_metrics
             (store_of scenario_missing_year [])))
     = [].
Proof.
  split; [|reflexivity].
  eexists. split; [vm_compute; reflexivity|]. repeat split; reflexivity.
Qed.

(** C10, amended.  For every year [y] of a manufacturer and category whose
    preceding calendar year [y - 1] is in the group's history with a
    positive sum, the in-memory YoY metrics (grouped by manufacturer and
    category) and the rows stored by the store's recomputation both contain
    an entry of that entity and period, with equal current value, previous
    value and absolute growth, and with equal growth rate whenever the exact
    rate is not halfway between two values of two decimals.  Every YoY row
    the store holds for a manufacturer is such a step between a year and its
    calendar predecessor. *)
Theorem yoy_store_agrees_on_adjacent_years (df : DataFrame)
    (old : list StoredMetric) :
  (forall mf vt y,
     has_year df by_manufacturer [mf; vt] (y - 1) ->
     has_year df by_manufacturer [mf; vt] y ->
     (0 < year_sum df by_manufacturer [mf; vt] (y - 1))%N ->
     exists ms m row,
       calculate_growth_metrics df YOY by_manufacturer = Ok ms
       /\ In m ms
       /\ In row (growth_metrics
                    (calculate_and_store_growth_metrics (store_of df old)))
       /\ entity m = (mf ++ " - " ++ vt)%string
       /\ period m = str_Z y
       /\ entity_type row = "manufacturer"
       /\ metric_type row = "yoy"
       /\ entity_name row = (mf ++ " (" ++ vt ++ ")")%string
       /\ stored_period row = str_Z y
       /\ stored_current row = Some (current_value m)
       /\ stored_previous row = Some (previous_value m)
       /\ stored_growth_absolute row = growth_absolute m
       /\ exists r,
            stored_growth_rate row = Some r
            /\ (~ is_tie ((QofN (current_value m) - QofN (previous_value m))
                          / QofN (previous_value m) * 100) 2 ->
                (r == growth_rate m)%Q))
  /\ (forall row,
        In row (growth_metrics
                  (calculate_and_store_growth_metrics (store_of df old))) ->
        entity_type row = "manufacturer" -> metric_type row = "yoy" ->
        exists mf vt y,
          has_year df by_manufacturer [mf; vt] (y - 1)
          /\ has_year df by_manufacturer [mf; vt] y
          /\ entity_name row = (mf ++ " (" ++ vt ++ ")")%string
          /\ stored_period row = str_Z y
          /\ stored_current row
             = Some (year_sum df by_manufacturer [mf; vt] y)
          /\ stored_previous row
             = Some (year_sum df by_manufacturer [mf; vt] (y - 1))).
Proof.
  split.
  - intros mf vt y H1 H2 Hpos.
    destruct (yoy_growth_metrics_sound_complete df by_manufacturer)
      as [Hok [Hcomplete _]]; [discriminate | reflexivity |].
    destruct (Hcomplete [mf; vt] (y - 1) y
                (adjacent_years_consecutive _ _ _ _ H1 H2) Hpos)
      as [m [Hm [He [Hp [Hc [Hv [Hr Ha]]]]]]].
    exists (rank_metrics (emitted_metrics df YOY by_manufacturer)), m.
    eexists. split; [exact Hok|]. split; [exact Hm|]. split.
    + unfold calculate_and_store_growth_metrics, store_of. simpl.
      apply in_or_app. left. apply yoy_manufacturer_rows_In.
      exists mf, vt, y. split; [exact H1|]. split; [exact H2|]. reflexivity.
    + simpl. rewrite He, Hp, Hc, Hv, Ha.
      repeat (split; [reflexivity|]).
      apply N.ltb_lt in Hpos. rewrite Hpos. eexists. split; [reflexivity|].
      intros Htie. rewrite Hr. apply round_modes_agree; [|exact Htie].
      apply N.ltb_lt, QofN_pos in Hpos. field. exact Hpos.
  - unfold calculate_and_store_growth_metrics, store_of. simpl.
    intros row H Het Hmt.
    apply in_app_or in H. destruct H as [H|H].
    + apply yoy_manufacturer_rows_In in H.
      destruct H as [mf [vt [y [H1 [H2 ->]]]]].
      exists mf, vt, y. simpl. repeat split; assumption || reflexivity.
    + exfalso. apply in_app_or in H. destruct H as [H|H].
      * unfold qoq_manufacturer_rows in H. cbv zeta in H.
        apply in_map_iff in H. destruct H as [j [<- _]]. discriminate.
      * unfold vehicle_type_yoy_rows in H. cbv zeta in H.
        apply in_map_iff in H. destruct H as [j [<- _]]. discriminate.
Qed.

Lemma yoy_store_agrees_on_adjacent_years_witness :
  exists ms m row,
    calculate_growth_metrics scenario_two_years YOY by_manufacturer = Ok ms
    /\ In m ms
    /\ In row (growth_metrics
                 (calculate_and_store_growth_metrics
                    (store_of scenario_two_years [])))
    /\ period m = "2021"
    /\ stored_period row = "2021"
    /\ stored_current row = Some (current_value m)
    /\ stored_previous row = Some (previous_value m)
    /\ stored_growth_absolute row = growth_absolute m.
Proof.
  destruct (yoy_store_agrees_on_adjacent_years scenario_two_years [])
    as [Hagree _].
  destruct (Hagree "A" "2W" 2021)
    as (ms & m & row & Hok & Hm & Hrow & _ & Hp & _ & _ & _ & Hsp & Hc & Hv
        & Ha & _).
  - exists (record 2020 Q1 "2W" "A" 1000). simpl. auto.
  - exists (record 2021 Q1 "2W" "A" 1500). simpl. auto.
  - reflexivity.
  - exists ms, m, row. repeat split; assumption.
Defined.

(** ** Sums of shares *)

Lemma sumQ_nonneg (l : list Q) :
  Forall (fun q => 0 <= q)%Q l -> (0 <= sumQ l)%Q.
Proof.
  induction 1 as [|q l Hq _ IH]; simpl; [apply Qle_refl | lra].
Qed.

Lemma sumQ_perm (l l' : list Q) :
  Permutation l l' -> (sumQ l == sumQ l')%Q.
Proof.
  induction 1; simpl; lra.
Qed.

Lemma sumQ_sq_le (l : list Q) :
  Forall (fun q => 0 <= q)%Q l ->
  (sumQ (map (fun q => q * q) l) <= sumQ l * sumQ l)%Q.
Proof.
  induction 1 as [|q l Hq Hl IH]; simpl; [lra|].
  pose proof (sumQ_nonneg l Hl). nra.
Qed.

Lemma sumQ_sq_nonneg (l : list Q) : (0 <= sumQ (map (fun q => q * q) l))%Q.
Proof.
  induction l as [|q l IH]; simpl; [lra | nra].
Qed.

Lemma sumQ_In_le (l : list Q) (q : Q) :
  Forall (fun q => 0 <= q)%Q l -> In q l -> (q <= sumQ l)%Q.
Proof.
  induction 1 as [|a l Ha Hl IH]; simpl; [tauto|].
  pose proof (sumQ_nonneg l Hl). intros [->|Hin]; [lra|].
  specialize (IH Hin). lra.
Qed.

Lemma sumQ_firstn_le (k : nat) (l : list Q) :
  Forall (fun q => 0 <= q)%Q l -> (sumQ (firstn k l) <= sumQ l)%Q.
Proof.
  intros H. revert k. induction H as [|q l Hq Hl IH]; intros [|k]; simpl;
    try lra.
  - pose proof (sumQ_nonneg l Hl). lra.
  - specialize (IH k). lra.
Qed.

(** With every share between 0 and 100, the squares sum to [100 * total]
    exactly when each share is 0 or 100. *)
Lemma sumQ_sq_bound (l : list Q) :
  Forall (fun q => 0 <= q <= 100)%Q l ->
  (sumQ (map (fun q => q * q) l) <= 100 * sumQ l)%Q.
Proof.
  induction 1 as [|q l Hq _ IH]; simpl; [lra | nra].
Qed.

Lemma sumQ_sq_extremal (l : list Q) :
  Forall (fun q => 0 <= q <= 100)%Q l ->
  ((sumQ (map (fun q => q * q) l) == 100 * sumQ l)%Q
   <-> Forall (fun q => q == 0 \/ q == 100)%Q l).
Proof.
  induction 1 as [|q l Hq Hl IH]; simpl.
  - split; [constructor | lra].
  - pose proof (sumQ_sq_bound l Hl) as Hb. split.
    + intros H. constructor.
      * assert (H0 : (q * (q - 100) == 0)%Q) by nra.
        apply Qmult_integral in H0. destruct H0; [left; assumption | right; lra].
      * apply IH. nra.
    + intros H. inversion H as [|? ? Hq' Hl']; subst.
      apply IH in Hl'. destruct Hq' as [E|E]; rewrite E; lra.
Qed.

Lemma count_full_le (l : list Q) :
  Forall (fun q => 0 <= q)%Q l ->
  (100 * inject_Z (Z.of_nat (List.length (filter is_full l))) <= sumQ l)%Q.
Proof.
  induction 1 as [|q l Hq _ IH]; [unfold Qle; simpl; lia|].
  cbn [filter sumQ fold_right]. fold (sumQ l).
  unfold is_full at 1. destruct (Qeq_bool q 100) eqn:E.
  - apply Qeq_bool_iff in E. cbn [List.length].
    rewrite Nat2Z.inj_succ, <- Z.add_1_r, inject_Z_plus.
    change (inject_Z 1) with 1%Q. lra.
  - lra.
Qed.

Lemma count_full_extremal (l : list Q) :
  Forall (fun q => 0 <= q)%Q l ->
  ((sumQ l == 100 * inject_Z (Z.of_nat (List.length (filter is_full l))))%Q
   <-> Forall (fun q => q == 0 \/ q == 100)%Q l).
Proof.
  induction 1 as [|q l Hq Hl IH].
  - split; [constructor | intros _; reflexivity].
  - cbn [filter sumQ fold_right]. fold (sumQ l).
    pose proof (count_full_le l Hl) as Hb.
    unfold is_full at 1. destruct (Qeq_bool q 100) eqn:E.
    + apply Qeq_bool_iff in E. cbn [List.length].
      rewrite Nat2Z.inj_succ, <- Z.add_1_r, inject_Z_plus.
      change (inject_Z 1) with 1%Q. split.
      * intros H. constructor; [right; exact E | apply IH; lra].
      * intros H. inversion H as [|? ? _ Hl']; subst. apply IH in Hl'. lra.
    + apply Qeq_bool_neq in E. split.
      * intros H. assert (q == 0)%Q by lra.
        constructor; [left; assumption | apply IH; lra].
      * intros H. inversion H as [|? ? Hq' Hl']; subst. apply IH in Hl'.
        destruct Hq' as [E'|E']; [lra | contradiction].
Qed.

(** For non-negative shares that sum to 100, the squares sum to 10000
    exactly when one share is 100. *)
Lemma hhi_full_iff (l : list Q) :
  Forall (fun q => 0 <= q)%Q l -> (sumQ l == 100)%Q ->
  ((sumQ (map (fun q => q * q) l) == 10000)%Q
   <-> List.length (filter is_full l) = 1%nat).
Proof.
  intros Hnn Hsum.
  assert (Hb : Forall (fun q => 0 <= q <= 100)%Q l).
  { rewrite Forall_forall in *. intros q Hq. split; [apply Hnn; exact Hq|].
    rewrite <- Hsum. apply sumQ_In_le; [|exact Hq].
    apply Forall_forall. exact Hnn. }
  pose proof (sumQ_sq_extremal l Hb) as H1.
  pose proof (count_full_extremal l Hnn) as H2.
  split.
  - intros H. assert (H3 : (sumQ l == 100 * inject_Z (Z.of_nat
                              (List.length (filter is_full l))))%Q).
    { apply H2, H1. lra. }
    assert (H4 : (inject_Z (Z.of_nat (List.length (filter is_full l)))
                  == inject_Z 1)%Q).
    { change (inject_Z 1) with 1%Q. clear H1 H2.
      set (c := inject_Z (Z.of_nat (List.length (filter is_full l)))) in *.
      clearbody c. lra. }
    unfold Qeq in H4. simpl in H4. lia.
  - intros H. rewrite H in H2.
    assert (H3 : (sumQ (map (fun q => q * q) l) == 100 * sumQ l)%Q).
    { apply H1, H2. rewrite Hsum. reflexivity. }
    lra.
Qed.

(** ** Market shares *)

Lemma sum_skipna_values (l : list (string * option Q)) :
  sum_skipna (map snd l) = sumQ (share_values l).
Proof.
  induction l as [|[name [q|]] l IH]; simpl; [reflexivity| |exact IH].
  rewrite IH. reflexivity.
Qed.

Lemma sum_skipna_squares (l : list (string * option Q)) :
  sum_skipna (map (fun s => option_sq (snd s)) l)
  = sumQ (map (fun q => q * q)%Q (share_values l)).
Proof.
  induction l as [|[name [q|]] l IH]; simpl; [reflexivity| |exact IH].
  rewrite IH. reflexivity.
Qed.

Lemma holds_all_values (l : list (string * option Q)) :
  List.length (filter holds_all l)
  = List.length (filter is_full (share_values l)).
Proof.
  induction l as [|[name [q|]] l IH]; simpl; [reflexivity| |exact IH].
  change (holds_all (name, Some q)) with (is_full q).
  destruct (is_full q); simpl; rewrite IH; reflexivity.
Qed.

Lemma share_values_firstn_le (k : nat) (l : list (string * option Q)) :
  Forall (fun q => 0 <= q)%Q (share_values l) ->
  (sumQ (share_values (firstn k l)) <= sumQ (share_values l))%Q.
Proof.
  revert k. induction l as [|[name [q|]] l IH]; intros k H.
  - destruct k; simpl; lra.
  - simpl in H. inversion H as [|? ? Hq Hl]; subst.
    destruct k as [|k]; simpl.
    + pose proof (sumQ_nonneg _ Hl). lra.
    + specialize (IH k Hl). lra.
  - simpl in H. destruct k as [|k]; simpl.
    + apply sumQ_nonneg. exact H.
    + apply IH. exact H.
Qed.

Lemma share_values_firstn_nonneg (k : nat) (l : list (string * option Q)) :
  Forall (fun q => 0 <= q)%Q (share_values l) ->
  Forall (fun q => 0 <= q)%Q (share_values (firstn k l)).
Proof.
  revert k. induction l as [|[name [q|]] l IH]; intros k H.
  - destruct k; constructor.
  - simpl in H. inversion H as [|? ? Hq Hl]; subst.
    destruct k as [|k]; simpl; constructor; [exact Hq | apply IH; exact Hl].
  - simpl in H. destruct k as [|k]; simpl; [constructor | apply IH; exact H].
Qed.

Lemma length_filter_perm {A : Type} (p : A -> bool) (l l' : list A) :
  Permutation l l' ->
  List.length (filter p l) = List.length (filter p l').
Proof.
  induction 1 as [|x l l' _ IH|x y l|l l' l'' _ IH1 _ IH2]; simpl.
  - reflexivity.
  - destruct (p x); simpl; rewrite IH; reflexivity.
  - destruct (p x), (p y); reflexivity.
  - congruence.
Qed.

Lemma QofN_add (a b : N) : (QofN (a + b) == QofN a + QofN b)%Q.
Proof.
  unfold QofN. rewrite N2Z.inj_add, inject_Z_plus. reflexivity.
Qed.

Lemma QofN_nonneg (n : N) : (0 <= QofN n)%Q.
Proof. unfold QofN, Qle. simpl. lia. Qed.

Lemma sumN_In_le (l : list N) (n : N) : In n l -> (n <= sumN l)%N.
Proof.
  induction l as [|a l IH]; simpl; [tauto|].
  intros [->|H]; [lia|]. specialize (IH H). lia.
Qed.

Lemma total_registrations_In_le (p : Row -> bool) (rs : list Row) (r : Row) :
  In r rs -> p r = true ->
  (registrations r <= total_registrations (filter p rs))%N.
Proof.
  intros Hin Hp. unfold total_registrations. apply sumN_In_le.
  apply in_map. apply filter_In. auto.
Qed.

(** The shares before sorting, for a given total. *)
Lemma share_values_zero (l : list (string * N)) :
  share_values (map (fun mt => (fst mt, share_of 0 (snd mt))) l) = [].
Proof.
  induction l as [|mt l IH]; simpl; [reflexivity | exact IH].
Qed.

Lemma share_values_pos (t : N) (l : list (string * N)) :
  t <> 0%N ->
  share_values (map (fun mt => (fst mt, share_of t (snd mt))) l)
  = map (fun mt => QofN (snd mt) / QofN t * 100)%Q l.
Proof.
  intros H. unfold share_of. apply N.eqb_neq in H. rewrite H.
  induction l as [|mt l IH]; simpl; [reflexivity|].
  rewrite IH. reflexivity.
Qed.

Lemma QofN_nonzero (t : N) : t <> 0%N -> ~ (QofN t == 0)%Q.
Proof. intros H. apply QofN_pos. lia. Qed.

Lemma share_values_nonneg (t : N) (l : list (string * N)) :
  Forall (fun q => 0 <= q)%Q
         (share_values (map (fun mt => (fst mt, share_of t (snd mt))) l)).
Proof.
  destruct (N.eq_dec t 0) as [->|H].
  - rewrite share_values_zero. constructor.
  - rewrite (share_values_pos t l H). apply Forall_forall. intros q Hq.
    apply in_map_iff in Hq. destruct Hq as [mt [<- _]].
    pose proof (QofN_nonneg (snd mt)).
    assert (0 < QofN t)%Q by (unfold QofN, Qlt; simpl; lia).
    apply Qmult_le_0_compat; [|lra].
    apply Qle_shift_div_l; [assumption | lra].
Qed.

Lemma share_values_sum (t : N) (l : list (string * N)) :
  t <> 0%N ->
  (sumQ (share_values (map (fun mt => (fst mt, share_of t (snd mt))) l))
   == QofN (sumN (map snd l)) / QofN t * 100)%Q.
Proof.
  intros H. rewrite (share_values_pos t l H).
  pose proof (QofN_nonzero t H) as Hnz.
  induction l as [|mt l IH]; simpl.
  - change (QofN 0) with 0%Q. field. exact Hnz.
  - rewrite IH, QofN_add. field. exact Hnz.
Qed.

Lemma share_values_perm (l l' : list (string * option Q)) :
  Permutation l l' -> Permutation (share_values l) (share_values l').
Proof.
  induction 1 as [|x l l' _ IH|x y l|l l' l'' _ IH1 _ IH2]; simpl.
  - constructor.
  - apply Permutation_app_head. exact IH.
  - rewrite !app_assoc. apply Permutation_app_tail, Permutation_app_comm.
  - etransitivity; eassumption.
Qed.

Section CategoryFacts.
Variable df : DataFrame.
Variable vt : string.

Lemma category_shares_perm :
  Permutation
    (share_values
       (map (fun mt => (fst mt, share_of (category_total df vt) (snd mt)))
            (category_totals df vt)))
    (share_values (category_shares df vt)).
Proof.
  apply share_values_perm.
  unfold category_shares, market_shares, category_total, category_totals.
  apply sort_by_perm.
Qed.

Lemma category_shares_nonneg :
  Forall (fun q => 0 <= q)%Q (share_values (category_shares df vt)).
Proof.
  eapply Permutation_Forall; [apply category_shares_perm|].
  apply share_values_nonneg.
Qed.

Lemma category_shares_sum :
  (sumQ (share_values (category_shares df vt))
   == if (category_total df vt =? 0)%N then 0 else 100)%Q.
Proof.
  rewrite <- (sumQ_perm _ _ category_shares_perm).
  destruct (category_total df vt =? 0)%N eqn:E.
  - apply N.eqb_eq in E. rewrite E, share_values_zero. reflexivity.
  - apply N.eqb_neq in E. rewrite (share_values_sum _ _ E).
    fold (category_totals df vt). fold (category_total df vt).
    field. apply QofN_nonzero. exact E.
Qed.

Lemma category_shares_empty :
  category_total df vt = 0%N -> share_values (category_shares df vt) = [].
Proof.
  intros E. apply Permutation_nil.
  rewrite <- share_values_zero with (l := category_totals df vt).
  rewrite <- E. apply category_shares_perm.
Qed.

Lemma category_shares_length :
  List.length (category_shares df vt) = List.length (category_totals df vt).
Proof.
  unfold category_shares, market_shares, category_total, category_totals.
  rewrite sort_by_length, length_map. reflexivity.
Qed.

Lemma category_total_pos (r : Row) :
  In r (category_rows df vt) -> (0 < registrations r)%N ->
  category_total df vt <> 0%N.
Proof.
  intros Hr Hpos.
  assert (Hin : In (manufacturer r,
                    total_registrations
                      (group_rows String.eqb manufacturer
                         (category_rows df vt) (manufacturer r)))
                   (category_totals df vt)).
  { apply (groupby_In String.eqb string_leb manufacturer String.eqb_eq).
    split; [exists r; auto | reflexivity]. }
  apply (in_map snd), sumN_In_le in Hin. simpl in Hin.
  assert (registrations r
          <= total_registrations
               (group_rows String.eqb manufacturer (category_rows df vt)
                           (manufacturer r)))%N.
  { apply total_registrations_In_le; [exact Hr | apply String.eqb_refl]. }
  unfold category_total. lia.
Qed.

Lemma category_shares_nonempty :
  In vt (vehicle_types df) -> (category_shares df vt) <> [].
Proof.
  intros Hvt Hnil.
  apply (drop_duplicates_In _ String.eqb_eq), in_map_iff in Hvt.
  destruct Hvt as [r [Hr Hin]].
  assert (Hin' : In (manufacturer r,
                     total_registrations
                       (group_rows String.eqb manufacturer
                          (category_rows df vt) (manufacturer r)))
                    (category_totals df vt)).
  { apply (groupby_In String.eqb string_leb manufacturer String.eqb_eq).
    split; [|reflexivity]. exists r. split; [|reflexivity].
    apply filter_In. split; [exact Hin | apply String.eqb_eq; exact Hr]. }
  pose proof category_shares_length as Hlen. rewrite Hnil in Hlen.
  destruct (category_totals df vt); [destruct Hin' | discriminate].
Qed.

Lemma concentration_of_Ok :
  In vt (vehicle_types df) ->
  concentration_of df vt = Ok (concentration_value df vt).
Proof.
  intros Hvt. pose proof (category_shares_nonempty Hvt) as Hne.
  unfold concentration_of, concentration_value. cbv zeta.
  change (rows (select df (fun r => String.eqb (vehicle_type r) vt)))
    with (category_rows df vt).
  fold (category_shares df vt).
  set (hhi := sum_skipna (map (fun s => option_sq (snd s)) (category_shares df vt))).
  assert (Heff : (if Qlt_le_dec 0 hhi
                  then d <- true_div hhi 10000 ;; true_div 1 d
                  else Ok 0%Q)
                 = Ok (if Qlt_le_dec 0 hhi
                       then (1 / (hhi / 10000))%Q else 0%Q)).
  { destruct (Qlt_le_dec 0 hhi) as [Hpos|_]; [|reflexivity].
    unfold true_div at 2. simpl. unfold true_div.
    destruct (Qeq_bool (hhi / 10000) 0) eqn:E; [|reflexivity].
    apply Qeq_bool_iff in E. exfalso.
    assert (hhi == 0)%Q; [|lra].
    setoid_replace hhi with (hhi / 10000 * 10000)%Q by (field; discriminate).
    rewrite E. reflexivity. }
  rewrite Heff. simpl.
  destruct (category_shares df vt) as [|s l]; [congruence | reflexivity].
Qed.
End CategoryFacts.

Lemma calculate_market_concentration_Ok (df : DataFrame) :
  calculate_market_concentration df
  = Ok (map (fun vt => (vt, concentration_value df vt)) (vehicle_types df)).
Proof.
  unfold calculate_market_concentration. apply for_keys_Ok.
  intros vt Hvt. rewrite concentration_of_Ok by exact Hvt. reflexivity.
Qed.

(** C3, counterexample.  The single record of [scenario_no_registrations]
    counts zero registrations: its category has one manufacturer, fewer than
    four, and its [cr4_ratio] is 0, not 100 (the shares are [nan] and the
    sums skip them). *)
Lemma cr4_without_registrations :
  exists c,
    calculate_market_concentration scenario_no_registrations = Ok [("2W", c)]
    /\ total_manufacturers c < 4
    /\ ~ (cr4_ratio c == 100)%Q.
Proof.
  eexists. split; [vm_compute; reflexivity|].
  split; [reflexivity | discriminate].
Qed.

(** The concentration sums over the exact shares. *)
Lemma concentration_sums_exact (df : DataFrame) :
  calculate_market_concentration df
  = Ok (map (fun vt => (vt, concentration_value df vt)) (vehicle_types df))
  /\ forall vt,
       let c := concentration_value df vt in
       (0 <= hhi_index c <= 10000)%Q
       /\ ((hhi_index c == 10000)%Q
           <-> List.length (filter holds_all (category_shares df vt)) = 1%nat)
       /\ (cr4_ratio c <= cr8_ratio c <= 100)%Q
       /\ (total_manufacturers c < 4 ->
           (exists r, In r (category_rows df vt) /\ (0 < registrations r)%N) ->
           (cr4_ratio c == 100)%Q).
Proof.
  split; [apply calculate_market_concentration_Ok|].
  intros vt. cbv zeta.
  unfold concentration_value. cbv zeta.
  cbn [hhi_index cr4_ratio cr8_ratio total_manufacturers].
  set (shares := category_shares df vt).
  pose proof (category_shares_nonneg df vt) as Hnn.
  pose proof (category_shares_sum df vt) as Hsum.
  fold shares in Hnn, Hsum.
  rewrite sum_skipna_squares, !sum_skipna_values.
  assert (Hcr8 : (sumQ (share_values (firstn 4 shares))
                  <= sumQ (share_values (firstn 8 shares)))%Q).
  { replace (firstn 4 shares) with (firstn 4 (firstn 8 shares))
      by (rewrite firstn_firstn; reflexivity).
    apply share_values_firstn_le, share_values_firstn_nonneg, Hnn. }
  pose proof (share_values_firstn_le 8 shares Hnn) as Hall.
  pose proof (sumQ_sq_le _ Hnn) as Hsq.
  pose proof (sumQ_sq_nonneg (share_values shares)) as Hsq0.
  destruct (category_total df vt =? 0)%N eqn:Ht.
  - apply N.eqb_eq in Ht.
    pose proof (category_shares_empty df vt Ht) as Hnil. fold shares in Hnil.
    split; [split; [exact Hsq0 | nra]|].
    split; [|split; [split; [exact Hcr8 | lra]|]].
    + rewrite holds_all_values, Hnil. simpl. split; [lra | discriminate].
    + intros _ [r [Hr Hpos]]. exfalso.
      exact (category_total_pos df vt r Hr Hpos Ht).
  - split; [split; [exact Hsq0 | nra]|].
    split; [|split; [split; [exact Hcr8 | lra]|]].
    + rewrite holds_all_values. apply hhi_full_iff; assumption.
    + intros Hfew _. rewrite firstn_all2 by lia. exact Hsum.
Qed.

(** C3, amended.  [calculate_market_concentration] returns an entry for
    every category of the record set, and for every entry:
    [0 <= hhi_index <= 10000]; [hhi_index = 10000] exactly when one
    manufacturer holds a 100% share; and, up to the rounding of the float
    sums (a margin of one part in a thousand million), [cr4_ratio <=
    cr8_ratio <= 100], with [cr4_ratio = 100] up to that margin when the
    category has fewer than 4 manufacturers and at least one registration.
    The sums of float shares need not hit 100 exactly. *)
Theorem concentration_invariants (df : DataFrame) :
  exists out,
    calculate_market_concentration df = Ok out
    /\ map fst out = vehicle_types df
    /\ forall vt c, In (vt, c) out ->
         (0 <= hhi_index c <= 10000)%Q
         /\ ((hhi_index c == 10000)%Q
             <-> List.length (filter holds_all (category_shares df vt)) = 1%nat)
         /\ (cr4_ratio c <= cr8_ratio c + float_slack)%Q
         /\ (cr8_ratio c <= 100 + float_slack)%Q
         /\ (total_manufacturers c < 4 ->
             (exists r, In r (category_rows df vt) /\ (0 < registrations r)%N) ->
             (100 - float_slack <= cr4_ratio c <= 100 + float_slack)%Q).
Proof.
  destruct (concentration_sums_exact df) as [Hok Hexact].
  eexists. split; [exact Hok|].
  split; [rewrite map_map; apply map_id|].
  intros vt c Hin. apply in_map_iff in Hin. destruct Hin as [vt' [E _]].
  injection E as -> <-.
  destruct (Hexact vt) as [Hhhi [Hfull [[Hcr4 Hcr8] Hfew]]].
  unfold float_slack.
  split; [exact Hhhi|]. split; [exact Hfull|].
  split; [lra|]. split; [lra|].
  intros Hlt Hreg. specialize (Hfew Hlt Hreg). lra.
Qed.

Lemma concentration_invariants_witness :
  exists c,
    calculate_market_concentration scenario_three_equal = Ok [("2W", c)]
    /\ total_manufacturers c < 4
    /\ (0 <= hhi_index c <= 10000)%Q
    /\ (100 - float_slack <= cr4_ratio c <= 100 + float_slack)%Q.
Proof.
  destruct (concentration_invariants scenario_three_equal)
    as [out [Hok [_ Hinv]]].
  assert (E : calculate_market_concentration scenario_three_equal
              = Ok [("2W", concentration_value scenario_three_equal "2W")])
    by (vm_compute; reflexivity).
  rewrite E in Hok. injection Hok as <-.
  destruct (Hinv "2W" _ (or_introl eq_refl)) as [Hhhi [_ [_ [_ Hfew]]]].
  eexists. split; [exact E|]. split; [reflexivity|]. split; [exact Hhhi|].
  apply Hfew; [reflexivity|].
  exists (record 2020 Q1 "2W" "A" 1). split; [|reflexivity].
  vm_compute. left. reflexivity.
Defined.

(** C4, counterexample.  For an HHI of 3000 the label is
    "Highly Concentrated (Oligopoly)", not "Highly Concentrated"; for 1200
    it is "Unconcentrated (Competitive)", not "Unconcentrated". *)
Lemma market_structure_label_differs :
  _classify_market_structure 3000 <> "Highly Concentrated"
  /\ _classify_market_structure 1200 <> "Unconcentrated".
Proof. split; discriminate. Qed.

(** C4, amended.  The label of an HHI value is
    "Highly Concentrated (Oligopoly)" above 2500, "Moderately Concentrated"
    above 1500 up to 2500, "Unconcentrated (Competitive)" above 1000 up to
    1500 and "Highly Competitive" otherwise; every entry of
    [calculate_market_concentration] carries the label of its own HHI; and
    a category with the shares 40, 30, 20, 10 has HHI 3000, the label
    "Highly Concentrated (Oligopoly)" and CR4 100. *)
Theorem market_structure_labels :
  (forall hhi : Q,
     ((2500 < hhi)%Q ->
      _classify_market_structure hhi = "Highly Concentrated (Oligopoly)")
     /\ ((1500 < hhi <= 2500)%Q ->
         _classify_market_structure hhi = "Moderately Concentrated")
     /\ ((1000 < hhi <= 1500)%Q ->
         _classify_market_structure hhi = "Unconcentrated (Competitive)")
     /\ ((hhi <= 1000)%Q ->
         _classify_market_structure hhi = "Highly Competitive"))
  /\ (forall df out vt c,
        calculate_market_concentration df = Ok out -> In (vt, c) out ->
        market_structure c = _classify_market_structure (hhi_index c))
  /\ exists c,
       calculate_market_concentration scenario_four_shares = Ok [("4W", c)]
       /\ (hhi_index c == 3000)%Q
       /\ market_structure c = "Highly Concentrated (Oligopoly)"
       /\ (cr4_ratio c == 100)%Q.
Proof.
  split; [|split].
  - intros hhi. unfold _classify_market_structure.
    repeat split; intros H;
      repeat match goal with
             | |- context [Qlt_le_dec ?a ?b] => destruct (Qlt_le_dec a b)
             end; try reflexivity; exfalso; lra.
  - intros df out vt c Hok Hin.
    rewrite calculate_market_concentration_Ok in Hok. injection Hok as <-.
    apply in_map_iff in Hin. destruct Hin as [vt' [E _]].
    injection E as _ <-. reflexivity.
  - eexists. split; [vm_compute; reflexivity|].
    split; [reflexivity|]. split; reflexivity.
Qed.

Lemma market_structure_labels_witness :
  _classify_market_structure 3000 = "Highly Concentrated (Oligopoly)"
  /\ _classify_market_structure 2000 = "Moderately Concentrated"
  /\ _classify_market_structure 1200 = "Unconcentrated (Competitive)"
  /\ _classify_market_structure 1000 = "Highly Competitive".
Proof.
  destruct market_structure_labels as [Hlabels _].
  split; [apply (proj1 (Hlabels 3000%Q)); reflexivity|].
  split; [apply (proj1 (proj2 (Hlabels 2000%Q)));
          split; [reflexivity | discriminate]|].
  split; [apply (proj1 (proj2 (proj2 (Hlabels 1200%Q))));
          split; [reflexivity | discriminate]|].
  apply (proj2 (proj2 (proj2 (Hlabels 1000%Q)))). discriminate.
Defined.

(** ** Scorecard *)

Lemma drop_duplicates_constant (a : string) (l : list string) :
  l <> [] -> (forall x, In x l -> x = a) ->
  drop_duplicates String.eqb l = [a].
Proof.
  induction l as [|x l IH]; [congruence|]. intros _ Hall.
  assert (x = a) by (apply Hall; left; reflexivity). subst x.
  simpl. f_equal. destruct l as [|y l]; [reflexivity|].
  rewrite IH; [|discriminate | intros z Hz; apply Hall; right; exact Hz].
  simpl. rewrite String.eqb_refl. reflexivity.
Qed.

Lemma category_frame_types (df : DataFrame) (vt : string) :
  In vt (vehicle_types df) -> vehicle_types (category_frame df vt) = [vt].
Proof.
  intros Hvt. unfold vehicle_types, category_frame, select. simpl.
  apply (drop_duplicates_In _ String.eqb_eq), in_map_iff in Hvt.
  destruct Hvt as [r [Hr Hin]].
  apply drop_duplicates_constant.
  - intros Hnil. apply map_eq_nil in Hnil.
    assert (Hf : In r (filter (fun r0 => String.eqb (vehicle_type r0) vt)
                              (rows df))).
    { apply filter_In. split; [exact Hin | apply String.eqb_eq; exact Hr]. }
    rewrite Hnil in Hf. destruct Hf.
  - intros x Hx. apply in_map_iff in Hx. destruct Hx as [r' [<- Hr']].
    apply filter_In in Hr'. apply String.eqb_eq. tauto.
Qed.

Lemma scorecard_of_Ok (df : DataFrame) (vt : string) :
  In vt (vehicle_types df) ->
  scorecard_of df vt = Ok (scorecard_value df vt).
Proof.
  intros Hvt. unfold scorecard_of. cbv zeta.
  fold (category_frame df vt).
  rewrite calculate_growth_metrics_Ok by discriminate || reflexivity.
  cbn [bind].
  rewrite calculate_market_concentration_Ok, category_frame_types by exact Hvt.
  cbn [bind map dict_get]. rewrite String.eqb_refl. reflexivity.
Qed.

Lemma generate_investment_scorecard_Ok (df : DataFrame) :
  generate_investment_scorecard df
  = Ok (map (fun vt => (vt, scorecard_value df vt)) (vehicle_types df)).
Proof.
  unfold generate_investment_scorecard. apply for_keys_Ok.
  intros vt Hvt. rewrite scorecard_of_Ok by exact Hvt. reflexivity.
Qed.

Lemma Qmin_Qmax_bounds (x : Q) : (0 <= Qmin 100 (Qmax 0 x) <= 100)%Q.
Proof.
  unfold Qmin, Qmax.
  destruct (Qlt_le_dec 0 x); destruct (Qlt_le_dec _ 100); lra.
Qed.

Lemma concentration_hhi_nonneg (df : DataFrame) (vt : string) :
  (0 <= hhi_index (concentration_value df vt))%Q.
Proof.
  unfold concentration_value. cbv zeta. cbn [hhi_index].
  rewrite sum_skipna_squares. apply sumQ_sq_nonneg.
Qed.

Lemma category_scores_bounds (df : DataFrame) (vt : string) :
  let s := category_scores df vt in
  (0 <= growth_score s <= 100)%Q
  /\ (size_score s = 33 \/ size_score s = 67 \/ size_score s = 100)
  /\ (0 <= competition_score s <= 100)%Q
  /\ (0 <= innovation_score s <= 100)%Q.
Proof.
  unfold category_scores. cbv zeta.
  cbn [growth_score size_score competition_score innovation_score].
  split; [|split; [|split]].
  - unfold growth_score_of.
    destruct (np_mean _); [apply Qmin_Qmax_bounds | lra].
  - unfold size_percentile_of.
    destruct (String.eqb vt "3W"); [auto|].
    destruct (String.eqb vt "2W"); auto.
  - pose proof (concentration_hhi_nonneg (category_frame df vt) vt) as H.
    set (h := hhi_index _) in *. clearbody h.
    assert (Hd : (h / 50 == h * (1 # 50))%Q) by (field; discriminate).
    unfold Qmax. destruct (Qlt_le_dec 0 _); lra.
  - unfold innovation_score_of.
    destruct (has_fuel_type (category_frame df vt)); [|lra].
    set (n := List.length _).
    assert (0 <= inject_Z (Z.of_nat n * 20))%Q.
    { unfold Qle. simpl. lia. }
    unfold Qmin. destruct (Qlt_le_dec _ 100); lra.
Qed.

Lemma weighted_score_bounds (s : Scores) :
  (0 <= growth_score s <= 100)%Q ->
  (size_score s = 33 \/ size_score s = 67 \/ size_score s = 100) ->
  (0 <= competition_score s <= 100)%Q ->
  (0 <= innovation_score s <= 100)%Q ->
  (0 <= weighted_score s <= 100)%Q.
Proof.
  intros Hg Hs Hc Hi. unfold weighted_score.
  destruct Hs as [-> | [-> | ->]];
    match goal with
    | |- context [inject_Z ?z] =>
        change (inject_Z z) with (z # 1)
    end; lra.
Qed.

Lemma round_half_even_bounds (q : Q) (a b : Z) :
  (inject_Z a <= q <= inject_Z b)%Q -> a <= round_half_even q <= b.
Proof.
  intros [Ha Hb]. unfold round_half_even. cbv zeta.
  destruct (Qfloor_bounds q) as [Hlo Hhi].
  assert (Haf : a <= Qfloor q).
  { rewrite <- (Qfloor_Z a). apply Qfloor_resp_le. exact Ha. }
  assert (Hfb : Qfloor q <= b).
  { rewrite <- (Qfloor_Z b). apply Qfloor_resp_le. exact Hb. }
  assert (Hup : (inject_Z (Qfloor q) < q)%Q -> Qfloor q + 1 <= b).
  { intros Hlt. assert (H : (inject_Z (Qfloor q) < inject_Z b)%Q) by lra.
    rewrite <- Zlt_Qlt in H. lia. }
  destruct (Qcompare (q - inject_Z (Qfloor q)) (1 # 2)) eqn:C.
  - apply Qeq_alt in C. destruct (Z.even (Qfloor q)); [lia|].
    split; [lia|]. apply Hup. lra.
  - lia.
  - apply Qgt_alt in C. split; [lia|]. apply Hup. lra.
Qed.

Lemma py_round_bounds (x : Q) :
  (0 <= x <= 100)%Q -> (0 <= py_round x 1 <= 100)%Q.
Proof.
  intros Hx. unfold py_round. cbv zeta.
  change (inject_Z (10 ^ Z.of_nat 1)) with 10%Q.
  destruct (round_half_even_bounds (x * 10) 0 1000) as [Hlo Hhi].
  { change (inject_Z 0) with 0%Q. change (inject_Z 1000) with 1000%Q. lra. }
  set (k := round_half_even (x * 10)) in *.
  assert (0 <= inject_Z k)%Q by (unfold Qle; simpl; lia).
  assert (inject_Z k <= 1000)%Q by (unfold Qle; simpl; lia).
  clearbody k. split.
  - apply Qle_shift_div_l; lra.
  - apply Qle_shift_div_r; lra.
Qed.

(** C5, counterexample.  In [scenario_rounded_score] the weighted score is
    74.96: the returned [overall_score] is its rounding 75.0, which is
    neither the weighted sum of the sub-scores nor below 75, and the
    recommendation is "Buy", not "Strong Buy". *)
Lemma rounded_score_crosses_threshold :
  exists sc,
    generate_investment_scorecard scenario_rounded_score = Ok [("4W", sc)]
    /\ (weighted_score (category_scores scenario_rounded_score "4W")
        == 7496 # 100)%Q
    /\ (overall_score sc == 75)%Q
    /\ recommendation sc = "Buy - Positive outlook with moderate risk"
    /\ ~ (overall_score sc
          == growth_momentum sc * (4 # 10)
             + inject_Z (market_size sc) * (3 # 10)
             + competition_intensity sc * (2 # 10)
             + innovation_potential sc * (1 # 10))%Q.
Proof.
  eexists. split; [vm_compute; reflexivity|].
  split; [vm_compute; reflexivity|].
  split; [vm_compute; reflexivity|].
  split; [vm_compute; reflexivity|].
  vm_compute. discriminate.
Qed.

Lemma nearest_decimal_1_near (x r : Q) :
  nearest_decimal 1 x r -> (- (1 # 20) <= r - x <= 1 # 20)%Q.
Proof.
  unfold nearest_decimal. cbv zeta.
  change (inject_Z (10 ^ Z.of_nat 1)) with 10%Q. intros [_ H]. lra.
Qed.

Lemma Qmag_le (x b : Q) : (- b <= x <= b)%Q -> (Qmag x <= b)%Q.
Proof. unfold Qmag. destruct (Qlt_le_dec x 0); lra. Qed.

Lemma recommendation_thresholds (x : Q) :
  ((75 <= x)%Q ->
   recommendation_of x
   = "Strong Buy - High growth potential with favorable market dynamics")
  /\ ((60 <= x < 75)%Q ->
      recommendation_of x = "Buy - Positive outlook with moderate risk")
  /\ ((40 <= x < 60)%Q ->
      recommendation_of x = "Hold - Mixed signals, monitor closely")
  /\ ((x < 40)%Q ->
      recommendation_of x = "Avoid - Challenging market conditions").
Proof.
  unfold recommendation_of.
  repeat split; intros H;
    repeat match goal with
           | |- context [Qlt_le_dec ?a ?b] => destruct (Qlt_le_dec a b)
           end; try reflexivity; exfalso; lra.
Qed.

(** C5, amended.  [generate_investment_scorecard] returns an entry for every
    category.  For every entry there is a score [s] in [0, 100], the
    weighted score [0.4 * growth + 0.3 * size + 0.2 * competition
    + 0.1 * innovation] of the unrounded sub-scores (within 0.01 of the
    weighted score of the exact sub-scores: a growth rate at a rounding tie
    can move it by that much), such that the returned [overall_score] is [s]
    rounded to one decimal and lies in [0, 100], and the recommendation is
    decided by [s], not by the returned [overall_score]: at least 75 "Strong
    Buy", at least 60 "Buy", at least 40 "Hold", else "Avoid" (each with its
    fixed explanatory suffix).  The returned [overall_score] differs from
    the weighted sum of the returned, rounded sub-scores by at most 0.1.
    This includes categories whose records fall into a single year: their
    growth momentum is 0 and their average growth is not a number. *)
Theorem scorecard_overall_and_recommendation (df : DataFrame) :
  (exists out,
     generate_investment_scorecard df = Ok out
     /\ map fst out = vehicle_types df
     /\ forall vt sc, In (vt, sc) out ->
          (exists s : Q,
             (Qmag (s - weighted_score (category_scores df vt)) <= 1 # 100)%Q
             /\ (0 <= s <= 100)%Q
             /\ nearest_decimal 1 s (overall_score sc)
             /\ recommendation sc = recommendation_of s)
          /\ (0 <= overall_score sc <= 100)%Q
          /\ (Qmag (overall_score sc
                    - ((4 # 10) * growth_momentum sc
                       + (3 # 10) * inject_Z (market_size sc)
                       + (2 # 10) * competition_intensity sc
                       + (1 # 10) * innovation_potential sc))
              <= 1 # 10)%Q
          /\ ((forall r r', In r (category_rows df vt) ->
                            In r' (category_rows df vt) -> year r = year r') ->
              (growth_momentum sc == 0)%Q
              /\ avg_yoy_growth (key_metrics sc) = None))
  /\ forall x : Q,
       ((75 <= x)%Q ->
        recommendation_of x
        = "Strong Buy - High growth potential with favorable market dynamics")
       /\ ((60 <= x < 75)%Q ->
           recommendation_of x = "Buy - Positive outlook with moderate risk")
       /\ ((40 <= x < 60)%Q ->
           recommendation_of x = "Hold - Mixed signals, monitor closely")
       /\ ((x < 40)%Q ->
           recommendation_of x = "Avoid - Challenging market conditions").
Proof.
  split; [|exact recommendation_thresholds].
  eexists. split; [apply generate_investment_scorecard_Ok|].
  split; [rewrite map_map; apply map_id|].
  intros vt sc Hin. apply in_map_iff in Hin. destruct Hin as [vt' [E _]].
  injection E as -> <-.
  destruct (category_scores_bounds df vt) as [Hg [Hs [Hc Hi]]].
  pose proof (weighted_score_bounds _ Hg Hs Hc Hi) as Hw.
  unfold scorecard_value. cbv zeta.
  cbn [overall_score growth_momentum market_size competition_intensity
       innovation_potential recommendation key_metrics avg_yoy_growth].
  split; [|split; [apply py_round_bounds; exact Hw|split]].
  - exists (weighted_score (category_scores df vt)).
    split; [apply Qmag_le; lra|]. split; [exact Hw|].
    split; [apply py_round_nearest | reflexivity].
  - pose proof (nearest_decimal_1_near _ _
                  (py_round_nearest 1 (weighted_score (category_scores df vt))))
      as Ho.
    pose proof (nearest_decimal_1_near _ _
                  (py_round_nearest 1 (growth_score (category_scores df vt))))
      as Hgr.
    pose proof (nearest_decimal_1_near _ _
                  (py_round_nearest 1
                     (competition_score (category_scores df vt)))) as Hcr.
    pose proof (nearest_decimal_1_near _ _
                  (py_round_nearest 1
                     (innovation_score (category_scores df vt)))) as Hir.
    unfold weighted_score in *.
    set (o := py_round _ 1) in *.
    set (g := py_round (growth_score _) 1) in *.
    set (c := py_round (competition_score _) 1) in *.
    set (i := py_round (innovation_score _) 1) in *.
    clearbody o g c i. clear Hg Hs Hc Hi Hw.
    apply Qmag_le. lra.
  - intros Hsingle.
    assert (Hnone : category_yoy_metrics df vt = []).
    { unfold category_yoy_metrics. apply single_year_no_metrics;
        [discriminate | reflexivity |].
      intros r r' Hr Hr' _. apply Hsingle; assumption. }
    unfold category_scores. cbn [growth_score].
    rewrite Hnone. split; reflexivity.
Qed.

Lemma scorecard_overall_and_recommendation_witness :
  exists sc,
    generate_investment_scorecard scenario_single_year = Ok [("2W", sc)]
    /\ (0 <= overall_score sc <= 100)%Q
    /\ (growth_momentum sc == 0)%Q
    /\ exists s, nearest_decimal 1 s (overall_score sc)
                 /\ recommendation sc = recommendation_of s.
Proof.
  destruct (scorecard_overall_and_recommendation scenario_single_year)
    as [[out [Hok [_ Hinv]]] Hrec].
  assert (E : generate_investment_scorecard scenario_single_year
              = Ok [("2W", scorecard_value scenario_single_year "2W")])
    by (vm_compute; reflexivity).
  rewrite E in Hok. injection Hok as <-.
  destruct (Hinv "2W" _ (or_introl eq_refl))
    as ((s & _ & _ & Hnear & Hr) & Hrange & _ & Hsingle).
  eexists. split; [exact E|]. split; [exact Hrange|]. split.
  - apply Hsingle. intros r r' Hr1 Hr2. simpl in Hr1, Hr2.
    destruct Hr1 as [<-|[<-|[]]]; destruct Hr2 as [<-|[<-|[]]]; reflexivity.
  - exists s. split; assumption.
Defined.

(** ** The empty record set *)




(** ** Forecast *)

Lemma for_keys_filter {A : Type} (body : string -> exc (option A))
    (p : string -> bool) (f : string -> A) (ks : list string) :
  (forall k, In k ks -> body k = Ok (if p k then Some (f k) else None)) ->
  for_keys body ks = Ok (map (fun k => (k, f k)) (filter p ks)).
Proof.
  induction ks as [|k ks IH]; simpl; intros H; [reflexivity|].
  rewrite (H k) by auto. simpl. rewrite IH by auto. simpl.
  destruct (p k); reflexivity.
Qed.

Lemma last_opt_Some {A : Type} (l : list A) (d : A) :
  l <> [] -> last_opt l = Some (last l d).
Proof.
  induction l as [|a l IH]; [congruence|]. intros _.
  destruct l as [|b l]; [reflexivity|].
  change (last_opt (a :: b :: l)) with (last_opt (b :: l)).
  change (last (a :: b :: l) d) with (last (b :: l) d).
  apply IH. discriminate.
Qed.

Lemma py_range_length (a n : Z) :
  0 <= n -> List.length (py_range (a + 1) (a + n + 1)) = Z.to_nat n.
Proof.
  intros Hn. unfold py_range. rewrite length_map, length_seq.
  f_equal. lia.
Qed.

Lemma yq_eqb_eq (a b : Z * Quarter) : yq_eqb a b = true <-> a = b.
Proof.
  unfold yq_eqb, quarter_eqb. rewrite andb_true_iff, !Z.eqb_eq.
  destruct a as [ya qa], b as [yb qb]; simpl. split.
  - intros [-> H]. f_equal. apply quarter_number_inj. exact H.
  - intros H. injection H as -> ->. auto.
Qed.

Section ForecastFacts.
Variable sqrt : Q -> Q.

Lemma forecast_of_Ok (df : DataFrame) (periods : Z) (vt : string) :
  forecast_of sqrt df periods vt
  = Ok (if has_enough_history df vt
        then Some (forecast_value sqrt df periods vt) else None).
Proof.
  unfold forecast_of. cbv zeta.
  change (rows (select df (fun r => String.eqb (vehicle_type r) vt)))
    with (category_rows df vt).
  fold (forecast_x df vt). fold (forecast_y df vt).
  fold (forecast_line df vt).
  assert (Hlen : List.length (quarterly_sums (category_rows df vt))
                 = List.length (distinct_quarters df vt)).
  { apply groupby_length. }
  unfold has_enough_history. rewrite <- Hlen.
  destruct (4 <=? List.length (quarterly_sums (category_rows df vt)))%nat
    eqn:E; [|reflexivity].
  apply Nat.leb_le in E.
  assert (Hx : forecast_x df vt <> []).
  { unfold forecast_x. cbv zeta. intros Hnil.
    apply (f_equal (@List.length Z)) in Hnil.
    rewrite length_map in Hnil. simpl in Hnil. lia. }
  assert (Hy : forecast_y df vt <> []).
  { unfold forecast_y. intros Hnil.
    apply (f_equal (@List.length N)) in Hnil.
    rewrite length_map in Hnil. simpl in Hnil. lia. }
  rewrite (last_opt_Some _ 0 Hx), (last_opt_Some _ 0%N Hy).
  unfold forecast_value. rewrite map_map. reflexivity.
Qed.

Lemma forecast_registrations_Ok (df : DataFrame) (periods : Z) :
  forecast_registrations sqrt df periods
  = Ok (map (fun vt => (vt, forecast_value sqrt df periods vt))
            (filter (has_enough_history df) (vehicle_types df))).
Proof.
  unfold forecast_registrations. apply for_keys_filter.
  intros vt _. apply forecast_of_Ok.
Qed.
End ForecastFacts.

(** [max(0, int(v))] lies between [v - 1] and [max(0, v)]. *)
Lemma truncated_floor_bounds (v : Q) :
  (v - 1 < inject_Z (Z.max 0 (py_int v)))%Q
  /\ (inject_Z (Z.max 0 (py_int v)) <= Qmax 0 v)%Q.
Proof.
  unfold py_int. destruct v as [a b]. cbn [Qnum Qden].
  pose proof (Z.quot_rem' a (Zpos b)) as Hqr.
  set (q := Z.quot a (Zpos b)) in *. set (r := Z.rem a (Zpos b)) in *.
  assert (Hlt : forall z : Z, a < z * Zpos b -> (a # b < inject_Z z)%Q).
  { intros z Hz. unfold Qlt. cbn [Qnum Qden inject_Z]. lia. }
  assert (Hle : forall z : Z, z * Zpos b <= a -> (inject_Z z <= a # b)%Q).
  { intros z Hz. unfold Qle. cbn [Qnum Qden inject_Z]. lia. }
  assert (Hsub : forall z : Z,
            ((a # b) < inject_Z (z + 1))%Q -> ((a # b) - 1 < inject_Z z)%Q).
  { intros z. generalize (a # b). intros v Hz. rewrite inject_Z_plus in Hz.
    change (inject_Z 1) with 1%Q in Hz. lra. }
  destruct (Z_lt_le_dec a 0) as [Hneg|Hpos].
  - assert (Hr : - Zpos b < r <= 0)
      by (unfold r;
          pose proof (Z.rem_bound_pos_neg a (Zpos b) ltac:(lia) ltac:(lia));
          lia).
    assert (Hq0 : q <= 0) by nia.
    assert (Hv : (a # b < 0)%Q) by (unfold Qlt; cbn [Qnum Qden]; lia).
    rewrite Z.max_l by lia. unfold Qmax.
    change (inject_Z 0) with 0%Q. revert Hv. generalize (a # b). intros v Hv.
    destruct (Qlt_le_dec 0 v); split; lra.
  - assert (Hr : 0 <= r < Zpos b)
      by (unfold r; apply Z.rem_bound_pos; lia).
    assert (Hq0 : 0 <= q) by nia.
    rewrite Z.max_r by lia. split.
    + apply Hsub, Hlt. nia.
    + pose proof (Hle q ltac:(nia)) as Hqa. unfold Qmax.
      revert Hqa. generalize (a # b). intros v Hqa.
      destruct (Qlt_le_dec 0 v); [exact Hqa | lra].
Qed.

(** C8.  [forecast_registrations] returns, for a non-negative number of
    periods, exactly the categories with at least 4 distinct quarterly data
    points, so a category with fewer is omitted; every returned entry holds
    [periods] forecast values, each a non-negative integer that is the
    projection of the fitted line at the next period index truncated to an
    integer and floored at 0: it lies between the projection less 1 and the
    greater of 0 and the projection, up to the float evaluation of the line
    (so where the exact projection is a whole number the value may be that
    number or the one below); and its [confidence_interval] is 1.96 times
    the standard deviation of the regression residuals: it is not negative
    and, divided by 1.96, its square is the mean squared deviation of the
    residuals, up to the float evaluation, for a square root that is one.
    The least-squares line is the exact one. *)
Theorem forecast_entries (sqrt : Q -> Q) (df : DataFrame) (periods : Z) :
  0 <= periods ->
  exists out,
    forecast_registrations sqrt df periods = Ok out
    /\ (forall vt,
          In vt (map fst out)
          <-> In vt (vehicle_types df)
              /\ (4 <= List.length (distinct_quarters df vt))%nat)
    /\ forall vt f, In (vt, f) out ->
         List.length (forecast_values f) = Z.to_nat periods
         /\ Forall (fun v => 0 <= v) (forecast_values f)
         /\ Forall2
              (fun p v =>
                 (projection df vt p - 1
                  - forecast_room df vt (projection df vt p)
                  <= inject_Z v
                  <= Qmax 0 (projection df vt p)
                     + forecast_room df vt (projection df vt p))%Q)
              (forecast_periods df vt periods) (forecast_values f)
         /\ ((0 <= sqrt (residual_variance df vt))%Q ->
             close_to (residual_variance df vt)
                      (sqrt (residual_variance df vt)
                       * sqrt (residual_variance df vt)) ->
             (0 <= confidence_interval f)%Q
             /\ close_to (residual_variance df vt)
                         ((confidence_interval f / (196 # 100))
                          * (confidence_interval f / (196 # 100)))).
Proof.
  intros Hp. eexists. split; [apply forecast_registrations_Ok|]. split.
  - intros vt. rewrite map_map. simpl. rewrite map_id, filter_In.
    unfold has_enough_history. rewrite Nat.leb_le. reflexivity.
  - intros vt f Hin. apply in_map_iff in Hin. destruct Hin as [vt' [E _]].
    injection E as -> <-. unfold forecast_value.
    cbn [forecast_values confidence_interval].
    split; [|split; [|split]].
    + rewrite length_map. unfold forecast_periods. cbv zeta.
      apply py_range_length. exact Hp.
    + apply Forall_forall. intros v Hv. apply in_map_iff in Hv.
      destruct Hv as [p [<- _]]. apply Z.le_max_l.
    + induction (forecast_periods df vt periods) as [|p ps IH];
        [constructor|].
      cbn [map]. constructor; [|exact IH].
      destruct (truncated_floor_bounds (projection df vt p)) as [Hlo Hhi].
      assert (Hroom : (0 <= forecast_room df vt (projection df vt p))%Q).
      { unfold forecast_room, float_slack.
        pose proof (Qmag_nonneg (projection df vt p)) as Hm.
        assert (Ht : (0 <= QofN (category_total df vt))%Q)
          by (unfold QofN; change 0%Q with (inject_Z 0);
              rewrite <- Zle_Qle; lia).
        apply Qmult_le_0_compat; lra. }
      split; lra.
    + change (np_std sqrt (forecast_residuals df vt))
        with (sqrt (residual_variance df vt)).
      set (v := residual_variance df vt). set (s := sqrt v).
      intros Hs Hclose. split; [apply Qmult_le_0_compat; lra|].
      unfold close_to in *.
      assert (E : (Qmag (s * (196 # 100) / (196 # 100)
                         * (s * (196 # 100) / (196 # 100)) - v)
                   == Qmag (s * s - v))%Q).
      { apply Qmag_compat. field. }
      rewrite E. exact Hclose.
Qed.

Lemma forecast_entries_witness :
  exists f,
    forecast_registrations sqrt_10 scenario_zigzag 4 = Ok [("4W", f)]
    /\ List.length (forecast_values f) = 4%nat
    /\ Forall (fun v => 0 <= v) (forecast_values f)
    /\ (0 <= confidence_interval f)%Q
    /\ close_to (residual_variance scenario_zigzag "4W")
                ((confidence_interval f / (196 # 100))
                 * (confidence_interval f / (196 # 100)))
    /\ (residual_variance scenario_zigzag "4W" == 18 # 10)%Q.
Proof.
  destruct (forecast_entries sqrt_10 scenario_zigzag 4)
    as [out [Hok [_ Hinv]]]; [lia|].
  assert (E : forecast_registrations sqrt_10 scenario_zigzag 4
              = Ok [("4W", forecast_value sqrt_10 scenario_zigzag 4 "4W")])
    by (vm_compute; reflexivity).
  rewrite E in Hok. injection Hok as <-.
  destruct (Hinv "4W" _ (or_introl eq_refl)) as [Hlen [Hpos [_ Hconf]]].
  destruct Hconf as [Hc0 Hc].
  { vm_compute. discriminate. }
  { unfold close_to, Qmag, float_slack. vm_compute. discriminate. }
  eexists. split; [exact E|]. split; [exact Hlen|]. split; [exact Hpos|].
  split; [exact Hc0|]. split; [exact Hc|]. vm_compute. reflexivity.
Defined.

(** ** Themes *)

Lemma max_by_rate_spec (best : GrowthMetric) (ms : list GrowthMetric) :
  In (max_by_rate best ms) (best :: ms)
  /\ forall m, In m (best :: ms) ->
       (growth_rate m <= growth_rate (max_by_rate best ms))%Q.
Proof.
  revert best. induction ms as [|x ms IH]; intros best; simpl.
  - split; [auto|]. intros m [<-|[]]. apply Qle_refl.
  - destruct (Qlt_le_dec (growth_rate best) (growth_rate x)) as [Hlt|Hle];
      [destruct (IH x) as [Hin Hmax] | destruct (IH best) as [Hin Hmax]].
    + split; [right; exact Hin|].
      intros m [<-|Hm]; [|apply Hmax; exact Hm].
      apply Qle_trans with (growth_rate x);
        [apply Qlt_le_weak; exact Hlt | apply Hmax; left; reflexivity].
    + split; [destruct Hin as [Hin|Hin]; auto|].
      intros m [<-|[<-|Hm]].
      * apply Hmax. left. reflexivity.
      * apply Qle_trans with (growth_rate best);
          [exact Hle | apply Hmax; left; reflexivity].
      * apply Hmax. right. exact Hm.
Qed.

Lemma is_high_growth_iff (m : GrowthMetric) :
  is_high_growth m = true <-> (15 < growth_rate m)%Q.
Proof.
  unfold is_high_growth. destruct (Qlt_le_dec 15 (growth_rate m)); split;
    intros H; try reflexivity; try assumption; try discriminate.
  exfalso. lra.
Qed.

Lemma first_item_Ok {A : Type} (l : list A) (d : A) :
  l <> [] -> first_item l = Ok (hd d l).
Proof. destruct l; [congruence | reflexivity]. Qed.

Lemma two_groups_two_years (rs : list Row) :
  (1 < List.length (groupby_registrations Z.eqb Z.leb year rs))%nat ->
  exists r r', In r rs /\ In r' rs /\ year r <> year r'.
Proof.
  pose proof (groupby_NoDup Z.eqb Z.leb year Z.eqb_eq rs) as Hnd.
  pose proof (groupby_In Z.eqb Z.leb year Z.eqb_eq rs) as Hin.
  destruct (groupby_registrations Z.eqb Z.leb year rs)
    as [|[k1 s1] [|[k2 s2] tail]]; simpl; try lia.
  intros _.
  destruct (proj1 (Hin k1 s1) (or_introl eq_refl)) as [[r1 [Hr1 Hk1]] _].
  destruct (proj1 (Hin k2 s2) (or_intror (or_introl eq_refl)))
    as [[r2 [Hr2 Hk2]] _].
  exists r1, r2. split; [exact Hr1|]. split; [exact Hr2|].
  rewrite Hk1, Hk2. intros E. simpl in Hnd.
  inversion Hnd as [|? ? Hnot _]. apply Hnot. left. symmetry. exact E.
Qed.

Section ThemeFacts.
Variable cagr_text : N -> N -> nat -> string.

Lemma ev_theme_spec (df : DataFrame) :
  exists ev,
    ev_theme cagr_text df = Ok ev
    /\ (List.length ev <= 1)%nat
    /\ forall t, In t ev ->
         theme_name t = "Electric Vehicle Adoption"
         /\ has_fuel_type df = true
         /\ exists r r',
              In r (rows df) /\ In r' (rows df)
              /\ fuel_type r = "Electric" /\ fuel_type r' = "Electric"
              /\ year r <> year r'.
Proof.
  unfold ev_theme.
  destruct (has_fuel_type df) eqn:Hfuel;
    [|exists []; split; [reflexivity|]; split; [auto | intros t []]].
  destruct (filter (fun r => String.eqb (fuel_type r) "Electric") (rows df))
    as [|r0 rest] eqn:Hev;
    [exists []; split; [reflexivity|]; split; [auto | intros t []]|].
  destruct (1 <? List.length
                   (groupby_registrations Z.eqb Z.leb year (r0 :: rest)))%nat
    eqn:Hlen;
    [|exists []; split; [reflexivity|]; split; [auto | intros t []]].
  apply Nat.ltb_lt in Hlen.
  assert (Hne : groupby_registrations Z.eqb Z.leb year (r0 :: rest) <> []).
  { intros Hnil. rewrite Hnil in Hlen. simpl in Hlen. lia. }
  rewrite (first_item_Ok _ (0, 0%N) Hne), (last_opt_Some _ (0, 0%N) Hne).
  cbn [bind]. eexists. split; [reflexivity|]. split; [simpl; lia|].
  intros t [<-|[]]. split; [reflexivity|]. split; [reflexivity|].
  destruct (two_groups_two_years _ Hlen) as [r [r' [Hr [Hr' Hy]]]].
  rewrite <- Hev in Hr, Hr'.
  apply filter_In in Hr. apply filter_In in Hr'.
  rewrite String.eqb_eq in Hr, Hr'.
  exists r, r'. tauto.
Qed.

Lemma high_growth_theme_spec (df : DataFrame) :
  let ms := rank_metrics (emitted_metrics df YOY [col_vehicle_type]) in
  exists growth,
    high_growth_theme df = Ok growth
    /\ (List.length growth <= 1)%nat
    /\ (growth <> [] <-> exists m, In m ms /\ (15 < growth_rate m)%Q)
    /\ forall t, In t growth ->
         theme_name t = "High-Growth Segment Opportunity"
         /\ exists m,
              In m ms /\ (15 < growth_rate m)%Q
              /\ (forall m', In m' ms ->
                    (growth_rate m' <= growth_rate m)%Q)
              /\ description t
                 = ("Exceptional growth in " ++ entity m ++ " segment")%string.
Proof.
  cbv zeta. unfold high_growth_theme.
  rewrite calculate_growth_metrics_Ok by discriminate || reflexivity.
  cbn [bind].
  set (ms := rank_metrics (emitted_metrics df YOY [col_vehicle_type])).
  destruct (filter is_high_growth ms) as [|m rest] eqn:Hf.
  - exists []. split; [reflexivity|]. split; [auto|]. split.
    + split; [congruence|]. intros [m [Hm Hrate]]. exfalso.
      assert (Hin : In m (filter is_high_growth ms)).
      { apply filter_In. split; [exact Hm|].
        apply is_high_growth_iff. exact Hrate. }
      rewrite Hf in Hin. destruct Hin.
    + intros t [].
  - destruct (max_by_rate_spec m rest) as [Hin Hmax].
    assert (Hsub : forall x, In x (m :: rest) ->
                     In x ms /\ (15 < growth_rate x)%Q).
    { intros x Hx. rewrite <- Hf in Hx. apply filter_In in Hx.
      rewrite is_high_growth_iff in Hx. exact Hx. }
    eexists. split; [reflexivity|]. split; [simpl; lia|]. split.
    + split; [|discriminate]. intros _. exists m.
      apply Hsub. left. reflexivity.
    + intros t [<-|[]]. split; [reflexivity|].
      exists (max_by_rate m rest).
      destruct (Hsub _ Hin) as [Hms Hrate].
      split; [exact Hms|]. split; [exact Hrate|]. split; [|reflexivity].
      intros m' Hm'.
      destruct (Qlt_le_dec 15 (growth_rate m')) as [Hhigh|Hlow].
      * apply Hmax. rewrite <- Hf. apply filter_In.
        split; [exact Hm' | apply is_high_growth_iff; exact Hhigh].
      * apply Qle_trans with 15%Q; [exact Hlow|].
        apply Qlt_le_weak. exact Hrate.
Qed.
End ThemeFacts.

(** C9, counterexample.  [scenario_five_themes] has electric records in two
    years, three categories of one manufacturer each (HHI 10000) and a
    category growing by 100%: five themes are returned, more than 3. *)
Lemma five_themes_returned :
  exists themes,
    identify_investment_themes (fun _ _ _ => "100.0%") scenario_five_themes
    = Ok themes
    /\ map theme_name themes
       = ["Electric Vehicle Adoption"; "2W Market Consolidation";
          "3W Market Consolidation"; "4W Market Consolidation";
          "High-Growth Segment Opportunity"]
    /\ (3 < List.length themes)%nat.
Proof.
  eexists. split; [vm_compute; reflexivity|].
  split; [reflexivity | simpl; lia].
Qed.

(** C9, amended.  [identify_investment_themes] returns, in this order: at
    most one EV-adoption theme, present only when the frame has a fuel_type
    column and Electric records in more than one year; one
    market-consolidation theme for every category whose HHI exceeds 1500;
    and at most one high-growth theme, present exactly when some category
    has a YoY growth above 15%, built from a metric of the highest rate.
    The number of themes is between 0 and the number of categories plus
    2. *)
Theorem investment_theme_entries (cagr_text : N -> N -> nat -> string)
    (df : DataFrame) :
  exists ev cons growth conc ms,
    identify_investment_themes cagr_text df = Ok (ev ++ cons ++ growth)
    /\ calculate_market_concentration df = Ok conc
    /\ calculate_growth_metrics df YOY [col_vehicle_type] = Ok ms
    /\ (List.length ev <= 1)%nat
    /\ (forall t, In t ev ->
          theme_name t = "Electric Vehicle Adoption"
          /\ has_fuel_type df = true
          /\ exists r r',
               In r (rows df) /\ In r' (rows df)
               /\ fuel_type r = "Electric" /\ fuel_type r' = "Electric"
               /\ year r <> year r')
    /\ cons = map consolidation_theme
                  (filter (fun e => if Qlt_le_dec 1500 (hhi_index (snd e))
                                    then true else false) conc)
    /\ (forall e, theme_name (consolidation_theme e)
                  = (fst e ++ " Market Consolidation")%string)
    /\ (List.length growth <= 1)%nat
    /\ (growth <> [] <-> exists m, In m ms /\ (15 < growth_rate m)%Q)
    /\ (forall t, In t growth ->
          theme_name t = "High-Growth Segment Opportunity"
          /\ exists m,
               In m ms /\ (15 < growth_rate m)%Q
               /\ (forall m', In m' ms -> (growth_rate m' <= growth_rate m)%Q)
               /\ description t
                  = ("Exceptional growth in " ++ entity m ++ " segment")%string)
    /\ (List.length (ev ++ cons ++ growth)
        <= List.length (vehicle_types df) + 2)%nat.
Proof.
  destruct (ev_theme_spec cagr_text df) as [ev [Hev [Hevlen Hevspec]]].
  destruct (high_growth_theme_spec df) as [growth [Hg [Hglen [Hgiff Hgspec]]]].
  exists ev,
    (map consolidation_theme
         (filter is_concentrated
                 (map (fun vt => (vt, concentration_value df vt))
                      (vehicle_types df)))),
    growth,
    (map (fun vt => (vt, concentration_value df vt)) (vehicle_types df)),
    (rank_metrics (emitted_metrics df YOY [col_vehicle_type])).
  split.
  { unfold identify_investment_themes, consolidation_themes.
    rewrite Hev, calculate_market_concentration_Ok, Hg. reflexivity. }
  split; [apply calculate_market_concentration_Ok|].
  split; [apply calculate_growth_metrics_Ok; discriminate || reflexivity|].
  split; [exact Hevlen|]. split; [exact Hevspec|].
  split; [reflexivity|]. split; [reflexivity|].
  split; [exact Hglen|]. split; [exact Hgiff|]. split; [exact Hgspec|].
  rewrite !length_app, length_map.
  pose proof (filter_length_le is_concentrated
                (map (fun vt => (vt, concentration_value df vt))
                     (vehicle_types df))) as Hle.
  rewrite length_map in Hle. lia.
Qed.

Lemma investment_theme_entries_witness :
  exists themes,
    identify_investment_themes (fun _ _ _ => "100.0%") scenario_five_themes
    = Ok themes
    /\ (List.length themes
        <= List.length (vehicle_types scenario_five_themes) + 2)%nat.
Proof.
  destruct (investment_theme_entries (fun _ _ _ => "100.0%")
              scenario_five_themes)
    as (ev & cons & growth & conc & ms & Hok & _ & _ & _ & _ & _ & _ & _ & _
        & _ & Hlen).
  exists (ev ++ cons ++ growth). split; [exact Hok | exact Hlen].
Defined.

(** * Further properties of the modelled code *)

(** ** Consistency of the growth metrics *)

Lemma round_half_even_lower (q : Q) (a : Z) :
  (inject_Z a <= q)%Q -> a <= round_half_even q.
Proof.
  intros Ha. unfold round_half_even. cbv zeta.
  assert (Haf : a <= Qfloor q).
  { rewrite <- (Qfloor_Z a). apply Qfloor_resp_le. exact Ha. }
  destruct (Qcompare (q - inject_Z (Qfloor q)) (1 # 2));
    [destruct (Z.even (Qfloor q))| |]; lia.
Qed.

Lemma round_half_even_upper (q : Q) (b : Z) :
  (q <= inject_Z b)%Q -> round_half_even q <= b.
Proof.
  intros Hb. unfold round_half_even. cbv zeta.
  destruct (Qfloor_bounds q) as [Hlo Hhi].
  assert (Hfb : Qfloor q <= b).
  { rewrite <- (Qfloor_Z b). apply Qfloor_resp_le. exact Hb. }
  assert (Hup : (inject_Z (Qfloor q) < q)%Q -> Qfloor q + 1 <= b).
  { intros Hlt. assert (H : (inject_Z (Qfloor q) < inject_Z b)%Q) by lra.
    rewrite <- Zlt_Qlt in H. lia. }
  destruct (Qcompare (q - inject_Z (Qfloor q)) (1 # 2)) eqn:C.
  - apply Qeq_alt in C. destruct (Z.even (Qfloor q)); [lia|]. apply Hup. lra.
  - lia.
  - apply Qgt_alt in C. apply Hup. lra.
Qed.

Lemma py_round_lower (x : Q) (a : Z) :
  (inject_Z a <= x)%Q -> (inject_Z a <= py_round x 2)%Q.
Proof.
  intros Ha. unfold py_round. cbv zeta.
  change (inject_Z (10 ^ Z.of_nat 2)) with 100%Q.
  assert (H : a * 100 <= round_half_even (x * 100)).
  { apply round_half_even_lower. rewrite inject_Z_mult.
    change (inject_Z 100) with 100%Q. lra. }
  apply Qle_shift_div_l; [reflexivity|].
  rewrite Zle_Qle, inject_Z_mult in H. exact H.
Qed.

Lemma py_round_upper (x : Q) (b : Z) :
  (x <= inject_Z b)%Q -> (py_round x 2 <= inject_Z b)%Q.
Proof.
  intros Hb. unfold py_round. cbv zeta.
  change (inject_Z (10 ^ Z.of_nat 2)) with 100%Q.
  assert (H : round_half_even (x * 100) <= b * 100).
  { apply round_half_even_upper. rewrite inject_Z_mult.
    change (inject_Z 100) with 100%Q. lra. }
  apply Qle_shift_div_r; [reflexivity|].
  rewrite Zle_Qle, inject_Z_mult in H. exact H.
Qed.

(** The exact growth of a step, in percent. *)
Lemma exact_growth_sign (current previous : N) :
  (0 < previous)%N ->
  let x := ((QofN current - QofN previous) / QofN previous * 100)%Q in
  (-100 <= x)%Q
  /\ ((previous <= current)%N -> (0 <= x)%Q)
  /\ ((current <= previous)%N -> (x <= 0)%Q)
  /\ (current = 0%N -> (x == -100)%Q).
Proof.
  intros Hpos. cbv zeta.
  assert (Hp : (0 < QofN previous)%Q) by (unfold QofN, Qlt; simpl; lia).
  assert (Hc : (0 <= QofN current)%Q) by apply QofN_nonneg.
  assert (Hx : ((QofN current - QofN previous) / QofN previous * 100
                == (QofN current / QofN previous) * 100 - 100)%Q).
  { field. lra. }
  assert (Hq : (0 <= QofN current / QofN previous)%Q).
  { apply Qle_shift_div_l; lra. }
  rewrite Hx. split; [lra|]. split; [|split].
  - intros Hle.
    assert (QofN previous <= QofN current)%Q
      by (unfold QofN; rewrite <- Zle_Qle; lia).
    assert (1 <= QofN current / QofN previous)%Q
      by (apply Qle_shift_div_l; lra).
    lra.
  - intros Hle.
    assert (QofN current <= QofN previous)%Q
      by (unfold QofN; rewrite <- Zle_Qle; lia).
    assert (QofN current / QofN previous <= 1)%Q
      by (apply Qle_shift_div_r; lra).
    lra.
  - intros ->. change (QofN 0) with 0%Q.
    assert (0 / QofN previous == 0)%Q by (field; lra). lra.
Qed.

Lemma growth_rows_shape (df : DataFrame) (pt : GrowthPeriod)
    (group_by : list column) (emitted : list GrowthMetric) (m : GrowthMetric) :
  growth_rows df pt group_by = Ok emitted -> In m emitted ->
  exists g previous current,
    (0 < g_registrations previous)%N
    /\ m = metric_of g previous current
             ((QofN (g_registrations current) - QofN (g_registrations previous))
              / QofN (g_registrations previous) * 100)%Q.
Proof.
  unfold growth_rows. intros H Hm.
  assert (Hloop : forall data gs,
            for_each (group_growth group_by data) gs = Ok emitted ->
            exists g previous current,
              (0 < g_registrations previous)%N
              /\ m = metric_of g previous current
                       ((QofN (g_registrations current)
                         - QofN (g_registrations previous))
                        / QofN (g_registrations previous) * 100)%Q).
  { intros data gs Hfor.
    destruct (for_each_In _ _ _ _ Hfor Hm) as [g [l [_ [Hg Hl]]]].
    unfold group_growth in Hg.
    destruct (group_filter group_by g) as [f|]; [|discriminate].
    destruct (for_each_In _ _ _ _ Hg Hl) as [[a b] [l' [_ [Hpc Hl']]]].
    rewrite growth_metric_Ok in Hpc. injection Hpc as <-.
    unfold pair_metrics in Hl'. simpl in Hl'.
    destruct (0 <? g_registrations a)%N eqn:Hpos; [|destruct Hl'].
    destruct Hl' as [<-|[]]. exists g, a, b.
    split; [apply N.ltb_lt; exact Hpos | reflexivity]. }
  destruct pt; try (destruct (has_duplicate group_by); [discriminate|]);
    try (eapply Hloop; exact H).
  injection H as <-. destruct Hm.
Qed.

(** X1.  Every metric [calculate_growth_metrics] returns, for any period type
    and grouping, is internally consistent: its previous value is positive,
    its absolute growth is [current - previous], its rate is a value of two
    decimals at most 0.005 away from the exact percentage (the rounding of
    the percentage, whichever way an exact tie goes), the rate is never
    below -100 and is -100 when the current value is 0, and the rate never
    has the opposite sign of the absolute growth. *)
Theorem growth_metric_fields_consistent (df : DataFrame) (pt : GrowthPeriod)
    (group_by : list column) (ms : list GrowthMetric) (m : GrowthMetric) :
  calculate_growth_metrics df pt group_by = Ok ms -> In m ms ->
  (0 < previous_value m)%N
  /\ growth_absolute m = Z.of_N (current_value m) - Z.of_N (previous_value m)
  /\ nearest_decimal 2
       ((QofN (current_value m) - QofN (previous_value m))
        / QofN (previous_value m) * 100)%Q
       (growth_rate m)
  /\ (-100 <= growth_rate m)%Q
  /\ (current_value m = 0%N -> (growth_rate m == -100)%Q)
  /\ (0 <= growth_absolute m -> (0 <= growth_rate m)%Q)
  /\ (growth_absolute m <= 0 -> (growth_rate m <= 0)%Q).
Proof.
  unfold calculate_growth_metrics. intros H Hm.
  apply bind_Ok_inv in H. destruct H as [emitted [Hrows H]].
  injection H as <-.
  apply rank_metrics_In in Hm. destruct Hm as [m' [Hm' Hu]].
  destruct (growth_rows_shape _ _ _ _ _ Hrows Hm')
    as [g [previous [current [Hpos ->]]]].
  unfold unranked, set_rank, metric_of in Hu.
  injection Hu as _ _ Hc Hp Hr Ha.
  cbn [current_value previous_value growth_rate growth_absolute] in *.
  rewrite Hc, Hp, Hr, Ha.
  destruct (exact_growth_sign (g_registrations current)
              (g_registrations previous) Hpos) as [Hlow [Hup [Hdown Hzero]]].
  split; [exact Hpos|]. split; [reflexivity|].
  split; [apply py_round_nearest|].
  split; [apply (py_round_lower _ (-100)); exact Hlow|].
  split; [|split].
  - intros E. specialize (Hzero E). apply Qle_antisym.
    + apply (py_round_upper _ (-100)). rewrite Hzero. apply Qle_refl.
    + apply (py_round_lower _ (-100)). exact Hlow.
  - intros Habs. apply (py_round_lower _ 0). apply Hup. lia.
  - intros Habs. apply (py_round_upper _ 0). apply Hdown. lia.
Qed.

Lemma growth_metric_fields_consistent_witness :
  exists m,
    In m (rank_metrics (emitted_metrics scenario_tie YOY [col_manufacturer]))
    /\ entity m = "C"
    /\ (0 < previous_value m)%N
    /\ growth_absolute m = Z.of_N (current_value m) - Z.of_N (previous_value m)
    /\ (-100 <= growth_rate m)%Q.
Proof.
  assert (E : calculate_growth_metrics scenario_tie YOY [col_manufacturer]
              = Ok (rank_metrics
                      (emitted_metrics scenario_tie YOY [col_manufacturer])))
    by (vm_compute; reflexivity).
  assert (Hin : In (mkMetric "C" "2021" 190 100 (9000 # 100) 90 1)
                   (rank_metrics
                      (emitted_metrics scenario_tie YOY [col_manufacturer])))
    by (vm_compute; left; reflexivity).
  destruct (growth_metric_fields_consistent _ _ _ _ _ E Hin)
    as (Hpos & Habs & _ & Hlow & _).
  eexists. split; [exact Hin|]. split; [reflexivity|].
  split; [exact Hpos|]. split; [exact Habs | exact Hlow].
Defined.

(** ** Groupings that make the growth calculation raise *)

Lemma for_each_first_raises {A B : Type} (body : A -> exc (list B))
    (x : A) (xs : list A) (e : error) :
  body x = Raise e -> for_each body (x :: xs) = Raise e.
Proof. intros H. simpl. rewrite H. reflexivity. Qed.

Lemma group_keys_nonempty (df : DataFrame) (pt : GrowthPeriod)
    (group_by : list column) :
  rows df <> [] -> group_keys df pt group_by <> [].
Proof.
  intros Hrows Hnil. destruct (rows df) as [|r rs] eqn:E; [congruence|].
  assert (Hin : In (group_of group_by r) (group_keys df pt group_by)).
  { unfold group_keys.
    apply (drop_duplicates_In _ list_eqb_eq), in_map_iff.
    eexists. split; [|apply grouped_frame_In; exists r; split;
                       [rewrite E; left; reflexivity | reflexivity]].
    reflexivity. }
  rewrite Hnil in Hin. destruct Hin.
Qed.

(** X2.  Groupings by the columns vehicle type and manufacturer.
    [calculate_growth_metrics] returns the empty list for the
    month-over-month period type whatever the input.  For the YoY and QoQ
    types it raises when one of the two columns is repeated in the grouping,
    raises [KeyError] when the grouping is empty and the frame has a record,
    returns the empty list when the grouping and the frame are both empty,
    and returns normally for a grouping by one or both of the two columns,
    each once.  Groupings that name another column are not covered. *)
Theorem growth_metrics_grouping_errors (df : DataFrame)
    (group_by : list column) :
  calculate_growth_metrics df MOM group_by = Ok []
  /\ forall pt, pt <> MOM ->
       (has_duplicate group_by = true ->
        exists e, calculate_growth_metrics df pt group_by = Raise e)
       /\ (rows df <> [] ->
           calculate_growth_metrics df pt [] = Raise KeyError)
       /\ (rows df = [] -> calculate_growth_metrics df pt [] = Ok [])
       /\ (group_by <> [] -> has_duplicate group_by = false ->
           exists ms, calculate_growth_metrics df pt group_by = Ok ms).
Proof.
  split; [reflexivity|]. intros pt Hpt. split; [|split; [|split]].
  - intros Hdup. exists ValueError.
    unfold calculate_growth_metrics, growth_rows.
    rewrite Hdup. destruct pt; [reflexivity | reflexivity | congruence].
  - intros Hrows.
    assert (H : growth_rows df pt [] = Raise KeyError).
    { pose proof (group_keys_nonempty df pt [] Hrows) as Hne.
      unfold group_keys, grouped_frame in Hne.
      unfold growth_rows. cbn [has_duplicate]. cbv zeta.
      destruct (drop_duplicates (list_eqb String.eqb)
                  (map g_vals (sort_grouped (groupby_sum pt [] (rows df)))))
        as [|g gs]; [congruence|].
      destruct pt; try congruence; apply for_each_first_raises; reflexivity. }
    unfold calculate_growth_metrics. rewrite H. reflexivity.
  - intros Hrows. unfold calculate_growth_metrics, growth_rows.
    rewrite Hrows. destruct pt; reflexivity.
  - intros Hne Hnd. eexists.
    apply calculate_growth_metrics_Ok; assumption.
Qed.

Lemma growth_metrics_grouping_errors_witness :
  (exists e, calculate_growth_metrics scenario_two_years YOY
               [col_manufacturer; col_manufacturer] = Raise e)
  /\ calculate_growth_metrics scenario_two_years QOQ [] = Raise KeyError
  /\ calculate_growth_metrics (mkFrame false []) YOY [] = Ok [].
Proof.
  destruct (growth_metrics_grouping_errors scenario_two_years
              [col_manufacturer; col_manufacturer]) as [_ H].
  destruct (H YOY) as [Hdup _]; [discriminate|].
  destruct (H QOQ) as [_ [Hkey _]]; [discriminate|].
  destruct (growth_metrics_grouping_errors (mkFrame false []) []) as [_ H'].
  destruct (H' YOY) as [_ [_ [Hempty _]]]; [discriminate|].
  split; [apply Hdup; reflexivity|].
  split; [apply Hkey; discriminate | apply Hempty; reflexivity].
Defined.

(** ** Rows of the store's growth table *)

Lemma sql_growth_rate_null (c p : N) :
  sql_growth_rate c (Some p) = None <-> p = 0%N.
Proof.
  unfold sql_growth_rate. destruct (0 <? p)%N eqn:E.
  - apply N.ltb_lt in E. split; [discriminate | lia].
  - apply N.ltb_ge in E. split; [lia | reflexivity].
Qed.

(** X3.  After [calculate_and_store_growth_metrics] every row of the growth
    table is a manufacturer YoY, manufacturer QoQ or vehicle-type YoY row;
    its current and previous values are present, its absolute growth is
    their difference, and its growth rate is null exactly when the previous
    value is 0. *)
Theorem stored_growth_rows_consistent (df : DataFrame)
    (old : list StoredMetric) (row : StoredMetric) :
  In row (growth_metrics (calculate_and_store_growth_metrics (store_of df old))) ->
  exists c p,
    stored_current row = Some c
    /\ stored_previous row = Some p
    /\ stored_growth_absolute row = Z.of_N c - Z.of_N p
    /\ stored_growth_rate row = sql_growth_rate c (Some p)
    /\ (stored_growth_rate row = None <-> p = 0%N)
    /\ ((entity_type row = "manufacturer" /\ metric_type row = "yoy")
        \/ (entity_type row = "manufacturer" /\ metric_type row = "qoq")
        \/ (entity_type row = "vehicle_type" /\ metric_type row = "yoy")).
Proof.
  unfold calculate_and_store_growth_metrics, store_of. simpl.
  unfold yoy_manufacturer_rows, qoq_manufacturer_rows, vehicle_type_yoy_rows.
  cbv zeta. intros H.
  repeat (apply in_app_or in H; destruct H as [H|H]);
    apply in_map_iff in H; destruct H as [[x [y|]] [<- Hj]];
    apply filter_In in Hj; destruct Hj as [_ Hsome]; try discriminate;
    exists (snd x), (snd y); cbn;
    (split; [reflexivity|]); (split; [reflexivity|]);
    (split; [reflexivity|]); (split; [reflexivity|]);
    (split; [apply sql_growth_rate_null|]); tauto.
Qed.

Lemma stored_growth_rows_consistent_witness :
  exists row c p,
    In row (growth_metrics
              (calculate_and_store_growth_metrics
                 (store_of scenario_zero_previous [])))
    /\ stored_current row = Some c
    /\ stored_previous row = Some p
    /\ stored_growth_absolute row = Z.of_N c - Z.of_N p.
Proof.
  assert (Hin : In (mkStored "manufacturer" "A (2W)" "yoy" "2021"
                      (Some 100%N) (Some 0%N) None 100)
                   (growth_metrics
                      (calculate_and_store_growth_metrics
                         (store_of scenario_zero_previous []))))
    by (vm_compute; left; reflexivity).
  destruct (stored_growth_rows_consistent _ _ _ Hin)
    as (c & p & Hc & Hp & Ha & _).
  eexists. exists c, p. split; [exact Hin|]. repeat split; assumption.
Defined.

(** ** Leader and top shares of a category *)

Lemma share_geb_sorted (l : list (string * option Q)) :
  StronglySorted (fun a b => share_geb a b = true) (sort_by share_geb l).
Proof.
  apply sort_by_sorted.
  - auto.
  - intros [n1 [x|]] [n2 [y|]]; unfold share_geb; simpl; intros H;
      try reflexivity; try discriminate.
    destruct (Qlt_le_dec x y) as [Hlt|Hle].
    + apply Qle_bool_iff, Qlt_le_weak. exact Hlt.
    + apply Qle_bool_iff in Hle. congruence.
  - intros [n1 [x|]] [n2 [y|]] [n3 [z|]]; unfold share_geb; simpl;
      intros H1 H2; try reflexivity; try discriminate.
    apply Qle_bool_iff in H1. apply Qle_bool_iff in H2.
    apply Qle_bool_iff. eapply Qle_trans; eassumption.
Qed.

Lemma firstn_incl {A : Type} (k : nat) (l : list A) (x : A) :
  In x (firstn k l) -> In x l.
Proof.
  intros H. rewrite <- (firstn_skipn k l). apply in_or_app. left. exact H.
Qed.

Lemma StronglySorted_firstn {A : Type} (R : A -> A -> Prop) (k : nat)
    (l : list A) :
  StronglySorted R l -> StronglySorted R (firstn k l).
Proof.
  intros H. revert k. induction H as [|a l Hs IH Ha]; intros [|k]; simpl;
    try constructor.
  - apply IH.
  - rewrite Forall_forall in *. intros x Hx. apply Ha.
    apply (firstn_incl k). exact Hx.
Qed.

Lemma category_shares_names (df : DataFrame) (vt : string) (name : string)
    (s : option Q) :
  In (name, s) (category_shares df vt) ->
  exists r, In r (category_rows df vt) /\ manufacturer r = name.
Proof.
  unfold category_shares, market_shares. intros H.
  apply sort_by_In, in_map_iff in H. destruct H as [[n t] [E Hin]].
  injection E as -> _.
  apply (groupby_In String.eqb string_leb manufacturer String.eqb_eq) in Hin.
  destruct Hin as [H _]. exact H.
Qed.

(** X4.  For every entry of [calculate_market_concentration]:
    [total_manufacturers] is the number of distinct manufacturers of the
    category and is at least 1; the market leader is a manufacturer of the
    category and no manufacturer has a larger share than [leader_share];
    and [top_5_shares] holds the first (at most 5) manufacturers in
    descending order of share. *)
Theorem concentration_leader_and_top (df : DataFrame)
    (out : list (string * Concentration)) (vt : string) (c : Concentration) :
  calculate_market_concentration df = Ok out -> In (vt, c) out ->
  total_manufacturers c
  = Z.of_nat (List.length (drop_duplicates String.eqb
                             (map manufacturer (category_rows df vt))))
  /\ 1 <= total_manufacturers c
  /\ (exists r, In r (category_rows df vt)
                /\ manufacturer r = market_leader c)
  /\ (forall name s, In (name, Some s) (category_shares df vt) ->
        exists l, leader_share c = Some l /\ (s <= l)%Q)
  /\ top_5_shares c = firstn 5 (category_shares df vt)
  /\ (List.length (top_5_shares c) <= 5)%nat
  /\ StronglySorted (fun a b => share_geb a b = true) (top_5_shares c).
Proof.
  intros Hok Hin.
  rewrite calculate_market_concentration_Ok in Hok. injection Hok as <-.
  apply in_map_iff in Hin. destruct Hin as [vt' [E Hvt]].
  injection E as -> <-.
  pose proof (category_shares_nonempty df vt Hvt) as Hne.
  pose proof (category_shares_length df vt) as Hlen.
  unfold concentration_value. cbv zeta.
  cbn [total_manufacturers market_leader leader_share top_5_shares].
  assert (Hsorted : StronglySorted (fun a b => share_geb a b = true)
                                   (category_shares df vt)).
  { unfold category_shares, market_shares. apply share_geb_sorted. }
  assert (Hcount : List.length (category_shares df vt)
                   = List.length (drop_duplicates String.eqb
                                    (map manufacturer (category_rows df vt)))).
  { rewrite Hlen. apply groupby_length. }
  destruct (category_shares df vt) as [|[leader ls] rest] eqn:Hs;
    [congruence|].
  split; [rewrite <- Hcount; reflexivity|].
  split; [simpl; lia|]. split; [|split; [|split; [reflexivity|split]]].
  - apply (category_shares_names df vt leader ls). rewrite Hs. left.
    reflexivity.
  - intros name s [E|Hin].
    + injection E as _ ->. exists s. split; [reflexivity | apply Qle_refl].
    + inversion Hsorted as [|? ? _ Hall]; subst.
      rewrite Forall_forall in Hall. specialize (Hall _ Hin).
      unfold share_geb in Hall. simpl in Hall.
      destruct ls as [l|]; [|discriminate].
      exists l. split; [reflexivity | apply Qle_bool_iff; exact Hall].
  - apply firstn_le_length.
  - apply StronglySorted_firstn. exact Hsorted.
Qed.

Lemma concentration_leader_and_top_witness :
  exists c,
    calculate_market_concentration scenario_four_shares = Ok [("4W", c)]
    /\ market_leader c = "A"
    /\ total_manufacturers c = 4
    /\ StronglySorted (fun a b => share_geb a b = true) (top_5_shares c).
Proof.
  assert (E : calculate_market_concentration scenario_four_shares
              = Ok [("4W", concentration_value scenario_four_shares "4W")])
    by (vm_compute; reflexivity).
  destruct (concentration_leader_and_top _ _ "4W" _ E (or_introl eq_refl))
    as (_ & _ & _ & _ & _ & _ & Hsorted).
  eexists. split; [exact E|]. split; [reflexivity|].
  split; [reflexivity | exact Hsorted].
Defined.

(** ** Effective number of competitors *)

Lemma inject_length_cons {A : Type} (a : A) (l : list A) :
  (inject_Z (Z.of_nat (List.length (a :: l)))
   == inject_Z (Z.of_nat (List.length l)) + 1)%Q.
Proof.
  cbn [List.length]. rewrite Nat2Z.inj_succ, <- Z.add_1_r, inject_Z_plus.
  reflexivity.
Qed.

Lemma sumN_all_zero (l : list N) :
  (forall n, In n l -> n = 0%N) -> sumN l = 0%N.
Proof.
  induction l as [|n l IH]; intros Hall; [reflexivity|].
  unfold sumN in *. simpl. rewrite (Hall n) by (left; reflexivity).
  apply IH. intros k Hk. apply Hall. right. exact Hk.
Qed.

Lemma Qsquare_nonneg (x : Q) : (0 <= x * x)%Q.
Proof.
  destruct (Qlt_le_dec x 0) as [Hneg|Hpos].
  - setoid_replace (x * x)%Q with ((- x) * (- x))%Q by ring.
    apply Qmult_le_0_compat; lra.
  - apply Qmult_le_0_compat; assumption.
Qed.

Lemma sumQ_sq_deviation (a : Q) (l : list Q) :
  (0 <= inject_Z (Z.of_nat (List.length l)) * (a * a)
        - 2 * a * sumQ l + sumQ (map (fun q => q * q) l))%Q.
Proof.
  induction l as [|q l IH].
  - simpl. change (inject_Z 0) with 0%Q. lra.
  - rewrite inject_length_cons. cbn [map sumQ fold_right].
    fold (sumQ l). fold (sumQ (map (fun q => q * q)%Q l)).
    set (n := inject_Z (Z.of_nat (List.length l))) in *. clearbody n.
    set (s1 := sumQ l) in *. clearbody s1.
    set (s2 := sumQ (map (fun q => q * q)%Q l)) in *. clearbody s2.
    pose proof (Qsquare_nonneg (a - q)) as Hsq.
    lra.
Qed.

(** The Cauchy-Schwarz bound behind the effective number of competitors. *)
Lemma sumQ_sq_mean (l : list Q) :
  (sumQ l * sumQ l
   <= inject_Z (Z.of_nat (List.length l)) * sumQ (map (fun q => q * q) l))%Q.
Proof.
  induction l as [|q l IH].
  - simpl. change (inject_Z 0) with 0%Q. lra.
  - pose proof (sumQ_sq_deviation q l) as Hdev.
    rewrite inject_length_cons. cbn [map sumQ fold_right].
    fold (sumQ l). fold (sumQ (map (fun q => q * q)%Q l)).
    set (n := inject_Z (Z.of_nat (List.length l))) in *. clearbody n.
    set (s1 := sumQ l) in *. clearbody s1.
    set (s2 := sumQ (map (fun q => q * q)%Q l)) in *. clearbody s2.
    lra.
Qed.

Lemma category_share_values_length (df : DataFrame) (vt : string) :
  category_total df vt <> 0%N ->
  List.length (share_values (category_shares df vt))
  = List.length (category_shares df vt).
Proof.
  intros Ht.
  rewrite <- (Permutation_length (category_shares_perm df vt)).
  rewrite (share_values_pos _ _ Ht), length_map.
  symmetry. apply category_shares_length.
Qed.

(** The effective number of competitors over the exact shares. *)
Lemma effective_competitors_exact (df : DataFrame)
    (out : list (string * Concentration)) (vt : string) (c : Concentration) :
  calculate_market_concentration df = Ok out -> In (vt, c) out ->
  ((exists r, In r (category_rows df vt) /\ (0 < registrations r)%N) ->
   (0 < hhi_index c)%Q
   /\ (effective_competitors c == 10000 / hhi_index c)%Q
   /\ (1 <= effective_competitors c)%Q
   /\ (effective_competitors c <= inject_Z (total_manufacturers c))%Q)
  /\ ((forall r, In r (category_rows df vt) -> registrations r = 0%N) ->
      (effective_competitors c == 0)%Q).
Proof.
  intros Hok Hin.
  rewrite calculate_market_concentration_Ok in Hok. injection Hok as <-.
  apply in_map_iff in Hin. destruct Hin as [vt' [E Hvt]].
  injection E as -> <-.
  unfold concentration_value. cbv zeta.
  cbn [total_manufacturers hhi_index effective_competitors].
  rewrite sum_skipna_squares.
  pose proof (category_shares_nonneg df vt) as Hnn.
  pose proof (category_shares_sum df vt) as Hsum.
  pose proof (sumQ_sq_le _ Hnn) as Hsq.
  pose proof (sumQ_sq_mean (share_values (category_shares df vt))) as Hcs.
  pose proof (sumQ_sq_nonneg (share_values (category_shares df vt))) as Hsq0.
  split.
  - intros [r [Hr Hpos]].
    pose proof (category_total_pos df vt r Hr Hpos) as Ht.
    rewrite (category_share_values_length df vt Ht) in Hcs.
    apply N.eqb_neq in Ht. rewrite Ht in Hsum.
    set (n := inject_Z (Z.of_nat (List.length (category_shares df vt)))) in *.
    set (h := sumQ (map (fun q => q * q)%Q
                        (share_values (category_shares df vt)))) in *.
    set (s := sumQ (share_values (category_shares df vt))) in *.
    assert (Hn : (0 <= n)%Q) by (unfold n, Qle; simpl; lia).
    clearbody n h s.
    assert (Hh : (0 < h)%Q) by nra.
    destruct (Qlt_le_dec 0 h) as [_|Hle]; [|lra].
    assert (He : (1 / (h / 10000) == 10000 / h)%Q) by (field; lra).
    split; [exact Hh|]. split; [exact He|]. rewrite He. split.
    + apply Qle_shift_div_l; [exact Hh | nra].
    + apply Qle_shift_div_r; [exact Hh | nra].
  - intros Hzero.
    assert (Ht : category_total df vt = 0%N).
    { unfold category_total. apply sumN_all_zero.
      intros n Hn. apply in_map_iff in Hn. destruct Hn as [[m t] [<- Hmt]].
      apply (groupby_In String.eqb string_leb manufacturer String.eqb_eq)
        in Hmt.
      destruct Hmt as [_ ->]. simpl. unfold total_registrations.
      apply sumN_all_zero. intros k Hk. apply in_map_iff in Hk.
      destruct Hk as [r [<- Hr]]. apply Hzero.
      unfold group_rows in Hr. apply filter_In in Hr. apply Hr. }
    rewrite (category_shares_empty df vt Ht). simpl.
    destruct (Qlt_le_dec 0 0) as [H|_]; [lra | reflexivity].
Qed.

(** X5.  For every entry of [calculate_market_concentration] whose category
    has at least one registration, [effective_competitors] is
    [10000 / hhi_index] and lies between 1 and the number of manufacturers
    of the category, all up to the rounding of the float evaluation (one
    part in a thousand million: for three equal manufacturers the floats
    give a value just above 3); for a category without registrations it
    is 0. *)
Theorem effective_competitors_bounds (df : DataFrame)
    (out : list (string * Concentration)) (vt : string) (c : Concentration) :
  calculate_market_concentration df = Ok out -> In (vt, c) out ->
  ((exists r, In r (category_rows df vt) /\ (0 < registrations r)%N) ->
   (0 < hhi_index c)%Q
   /\ close_to (10000 / hhi_index c) (effective_competitors c)
   /\ (1 - float_slack <= effective_competitors c)%Q
   /\ (effective_competitors c
       <= inject_Z (total_manufacturers c) * (1 + float_slack))%Q)
  /\ ((forall r, In r (category_rows df vt) -> registrations r = 0%N) ->
      (effective_competitors c == 0)%Q).
Proof.
  intros Hok Hin.
  destruct (effective_competitors_exact df out vt c Hok Hin) as [Hpos Hzero].
  split; [|exact Hzero].
  intros Hreg. destruct (Hpos Hreg) as (Hh & He & Hlow & Hup).
  split; [exact Hh|]. split; [apply close_to_refl; exact He|].
  unfold float_slack. split; [lra|].
  set (n := inject_Z (total_manufacturers c)) in *.
  set (e := effective_competitors c) in *. clearbody n e. nra.
Qed.

Lemma effective_competitors_bounds_witness :
  exists c,
    calculate_market_concentration scenario_three_equal = Ok [("2W", c)]
    /\ (1 - float_slack <= effective_competitors c)%Q
    /\ (effective_competitors c <= 3 * (1 + float_slack))%Q.
Proof.
  assert (E : calculate_market_concentration scenario_three_equal
              = Ok [("2W", concentration_value scenario_three_equal "2W")])
    by (vm_compute; reflexivity).
  destruct (effective_competitors_bounds _ _ "2W" _ E (or_introl eq_refl))
    as [Hpos _].
  destruct Hpos as (_ & _ & Hlow & Hup).
  { exists (record 2020 Q1 "2W" "A" 1). split; [left|]; reflexivity. }
  eexists. split; [exact E|]. split; [exact Hlow | exact Hup].
Defined.

(** ** The narrator's view of the concentration metrics *)

Lemma contains_highly_concentrated (hhi : Q) :
  contains "Highly Concentrated" (_classify_market_structure hhi) = true
  <-> (2500 < hhi)%Q.
Proof.
  unfold _classify_market_structure.
  destruct (Qlt_le_dec 2500 hhi) as [H|H].
  - split; [intros _; exact H | intros _; vm_compute; reflexivity].
  - assert (E : forall s,
              (if Qlt_le_dec 1500 hhi then "Moderately Concentrated"
               else if Qlt_le_dec 1000 hhi then "Unconcentrated (Competitive)"
               else "Highly Competitive") = s ->
              contains "Highly Concentrated" s = false).
    { intros s <-. destruct (Qlt_le_dec 1500 hhi);
        [|destruct (Qlt_le_dec 1000 hhi)]; vm_compute; reflexivity. }
    rewrite (E _ eq_refl). split; [discriminate | lra].
Qed.

Lemma contains_competitive (hhi : Q) :
  contains "Competitive" (_classify_market_structure hhi) = true
  <-> (hhi <= 1500)%Q.
Proof.
  unfold _classify_market_structure.
  destruct (Qlt_le_dec 2500 hhi) as [H|H].
  - split; [vm_compute; discriminate | lra].
  - destruct (Qlt_le_dec 1500 hhi) as [H1|H1].
    + split; [vm_compute; discriminate | lra].
    + split; [intros _; exact H1|].
      intros _. destruct (Qlt_le_dec 1000 hhi); vm_compute; reflexivity.
Qed.

Lemma forallb_structures (p : Q -> Prop) (sub : string)
    (cm : list (string * Concentration)) :
  (forall hhi, contains sub (_classify_market_structure hhi) = true <-> p hhi) ->
  (forall e, In e cm ->
             market_structure (snd e)
             = _classify_market_structure (hhi_index (snd e))) ->
  forallb (contains sub) (map (fun e => market_structure (snd e)) cm) = true
  <-> forall vt c, In (vt, c) cm -> p (hhi_index c).
Proof.
  intros Hsub Hcm. rewrite forallb_forall. split.
  - intros Hall vt c Hin. apply Hsub.
    pose proof (Hcm _ Hin) as Hc. simpl in Hc. rewrite <- Hc.
    apply Hall. apply in_map_iff. exists (vt, c). split; [reflexivity|exact Hin].
  - intros Hall s Hs. apply in_map_iff in Hs. destruct Hs as [[vt c] [<- Hin]].
    pose proof (Hcm _ Hin) as Hc. simpl in Hc. simpl. rewrite Hc.
    apply Hsub. apply (Hall vt c Hin).
Qed.

Lemma not_forallb_exists {A : Type} (p : A -> bool) (l : list A) :
  forallb p l = false <-> exists x, In x l /\ p x = false.
Proof.
  induction l as [|a l IH]; simpl.
  - split; [discriminate | intros [x [[] _]]].
  - destruct (p a) eqn:E; simpl.
    + rewrite IH. split; intros [x [Hx Hp]]; exists x.
      * split; [right; exact Hx | exact Hp].
      * destruct Hx as [->|Hx]; [congruence | split; assumption].
    + split; [intros _; exists a; split; [left; reflexivity | exact E]
             | reflexivity].
Qed.

Lemma concentration_structures (df : DataFrame)
    (cm : list (string * Concentration)) :
  calculate_market_concentration df = Ok cm ->
  forall e, In e cm ->
            market_structure (snd e)
            = _classify_market_structure (hhi_index (snd e)).
Proof.
  rewrite calculate_market_concentration_Ok. intros E. injection E as <-.
  intros e He. apply in_map_iff in He. destruct He as [vt [<- _]]. reflexivity.
Qed.

(** X6. The concentration sentence of the executive summary, read off the
    metrics of [calculate_market_concentration]: it says "All segments highly
    concentrated" exactly when every category has an HHI above 2500,
    "All segments competitive" exactly when some category has an HHI of at
    most 2500 and every category has an HHI of at most 1500 (a moderately
    concentrated category does not count as competitive), and "Mixed
    concentration levels across segments" exactly when some category is at
    most 2500 and some category is above 1500. *)
Theorem concentration_summary_by_hhi (df : DataFrame)
    (cm : list (string * Concentration)) :
  calculate_market_concentration df = Ok cm ->
  let s := _get_concentration_summary cm in
  (s = "All segments highly concentrated"
   <-> forall vt c, In (vt, c) cm -> (2500 < hhi_index c)%Q)
  /\ (s = "All segments competitive"
      <-> (exists vt c, In (vt, c) cm /\ (hhi_index c <= 2500)%Q)
          /\ forall vt c, In (vt, c) cm -> (hhi_index c <= 1500)%Q)
  /\ (s = "Mixed concentration levels across segments"
      <-> (exists vt c, In (vt, c) cm /\ (hhi_index c <= 2500)%Q)
          /\ exists vt c, In (vt, c) cm /\ (1500 < hhi_index c)%Q).
Proof.
  intros Hok s. subst s.
  pose proof (concentration_structures df cm Hok) as Hcm.
  pose proof (forallb_structures (fun h => 2500 < h)%Q "Highly Concentrated"
                cm contains_highly_concentrated Hcm) as Hhigh.
  pose proof (forallb_structures (fun h => h <= 1500)%Q "Competitive"
                cm contains_competitive Hcm) as Hcomp.
  assert (Hlow : forallb (contains "Highly Concentrated")
                   (map (fun e => market_structure (snd e)) cm) = false
                 <-> exists vt c, In (vt, c) cm /\ (hhi_index c <= 2500)%Q).
  { rewrite not_forallb_exists. split.
    - intros [x [Hx Hp]]. apply in_map_iff in Hx.
      destruct Hx as [[vt c] [<- Hin]]. exists vt, c. split; [exact Hin|].
      pose proof (Hcm _ Hin) as Hc. simpl in Hc, Hp. rewrite Hc in Hp.
      destruct (Qlt_le_dec 2500 (hhi_index c)) as [H|H]; [|exact H].
      apply contains_highly_concentrated in H. congruence.
    - intros [vt [c [Hin Hle]]]. exists (market_structure c). split.
      + apply in_map_iff. exists (vt, c). split; [reflexivity | exact Hin].
      + pose proof (Hcm _ Hin) as Hc. simpl in Hc. rewrite Hc.
        destruct (contains "Highly Concentrated"
                    (_classify_market_structure (hhi_index c))) eqn:E;
          [|reflexivity].
        apply contains_highly_concentrated in E. lra. }
  assert (Hmid : forallb (contains "Competitive")
                   (map (fun e => market_structure (snd e)) cm) = false
                 <-> exists vt c, In (vt, c) cm /\ (1500 < hhi_index c)%Q).
  { rewrite not_forallb_exists. split.
    - intros [x [Hx Hp]]. apply in_map_iff in Hx.
      destruct Hx as [[vt c] [<- Hin]]. exists vt, c. split; [exact Hin|].
      pose proof (Hcm _ Hin) as Hc. simpl in Hc, Hp. rewrite Hc in Hp.
      destruct (Qlt_le_dec 1500 (hhi_index c)) as [H|H]; [exact H|].
      apply contains_competitive in H. congruence.
    - intros [vt [c [Hin Hle]]]. exists (market_structure c). split.
      + apply in_map_iff. exists (vt, c). split; [reflexivity | exact Hin].
      + pose proof (Hcm _ Hin) as Hc. simpl in Hc. rewrite Hc.
        destruct (contains "Competitive"
                    (_classify_market_structure (hhi_index c))) eqn:E;
          [|reflexivity].
        apply contains_competitive in E. lra. }
  unfold _get_concentration_summary. cbv zeta.
  destruct (forallb (contains "Highly Concentrated")
              (map (fun e => market_structure (snd e)) cm)) eqn:E1.
  - assert (Hno : ~ exists vt c, In (vt, c) cm /\ (hhi_index c <= 2500)%Q).
    { intros H. apply Hlow in H. discriminate. }
    split; [split; [intros _; apply Hhigh; reflexivity | reflexivity]|].
    split; (split; [discriminate | intros [H _]; contradiction]).
  - assert (Hsome : exists vt c, In (vt, c) cm /\ (hhi_index c <= 2500)%Q)
      by (apply Hlow; reflexivity).
    assert (Hnot : ~ forall vt c, In (vt, c) cm -> (2500 < hhi_index c)%Q).
    { intros H. apply Hhigh in H. discriminate. }
    destruct (forallb (contains "Competitive")
                (map (fun e => market_structure (snd e)) cm)) eqn:E2.
    + split; [split; [discriminate | intros H; contradiction]|].
      split.
      * split; [intros _; split; [exact Hsome | apply Hcomp; reflexivity]
               | reflexivity].
      * split; [discriminate|]. intros [_ H]. apply Hmid in H. discriminate.
    + split; [split; [discriminate | intros H; contradiction]|].
      split.
      * split; [discriminate|]. intros [_ H]. apply Hcomp in H. discriminate.
      * split; [intros _; split; [exact Hsome | apply Hmid; reflexivity]
               | reflexivity].
Qed.

Lemma concentration_summary_by_hhi_witness :
  exists cm,
    calculate_market_concentration scenario_four_shares = Ok cm
    /\ _get_concentration_summary cm = "All segments highly concentrated"
    /\ forall vt c, In (vt, c) cm -> (2500 < hhi_index c)%Q.
Proof.
  assert (E : calculate_market_concentration scenario_four_shares
              = Ok [("4W", concentration_value scenario_four_shares "4W")])
    by (vm_compute; reflexivity).
  eexists. split; [exact E|].
  destruct (concentration_summary_by_hhi _ _ E) as [[Hto _] _].
  split; [vm_compute; reflexivity|].
  apply Hto. vm_compute. reflexivity.
Defined.

(** ** The risk list of the executive summary *)

Lemma filter_nonempty_iff {A : Type} (p : A -> bool) (l : list A) :
  filter p l <> [] <-> exists x, In x l /\ p x = true.
Proof.
  split.
  - destruct (filter p l) as [|x l'] eqn:E; [congruence|].
    intros _. exists x. apply filter_In. rewrite E. left. reflexivity.
  - intros [x Hx] E. apply filter_In in Hx. rewrite E in Hx. exact Hx.
Qed.

Lemma map_nonempty_iff {A B : Type} (f : A -> B) (l : list A) :
  map f l <> [] <-> l <> [].
Proof. destruct l; simpl; split; congruence. Qed.

Lemma prefix_append (p s : string) : String.prefix p (p ++ s) = true.
Proof.
  induction p as [|a p IH]; simpl.
  - destruct s; reflexivity.
  - destruct (ascii_dec a a) as [_|Hne]; [exact IH | congruence].
Qed.

Lemma vehicle_type_group (df : DataFrame) (g : list string) (y : Z) :
  has_year df [col_vehicle_type] g y -> exists vt, g = [vt].
Proof. intros [r [_ [<- _]]]. exists (vehicle_type r). reflexivity. Qed.

(** The risk list, by the metrics it is built from. *)
Lemma market_risks_spec (df : DataFrame) :
  exists specific,
    _assess_market_risks df
    = Ok (specific
          ++ ["Economic downturn impact on vehicle purchases";
              "Regulatory changes affecting vehicle standards";
              "Technology disruption from new mobility solutions"]%string)
    /\ (List.length specific <= 2)%nat
    /\ ((exists s, In s specific
                   /\ String.prefix "High concentration risk in " s = true)
        <-> exists vt, In vt (vehicle_types df)
                       /\ (2500 < hhi_index (concentration_value df vt))%Q)
    /\ ((exists s, In s specific
                   /\ String.prefix "Declining demand in " s = true)
        <-> exists vt y1 y2,
              consecutive_years df [col_vehicle_type] [vt] y1 y2
              /\ (0 < year_sum df [col_vehicle_type] [vt] y1)%N
              /\ (py_round
                    ((QofN (year_sum df [col_vehicle_type] [vt] y2)
                      - QofN (year_sum df [col_vehicle_type] [vt] y1))
                     / QofN (year_sum df [col_vehicle_type] [vt] y1) * 100) 2
                  < -5)%Q).
Proof.
  assert (Hg : [col_vehicle_type] <> []) by discriminate.
  assert (Hd : has_duplicate [col_vehicle_type] = false) by reflexivity.
  destruct (yoy_growth_metrics_sound_complete df [col_vehicle_type] Hg Hd)
    as [Hok [Hcomplete Hsound]].
  unfold _assess_market_risks.
  rewrite calculate_market_concentration_Ok. cbn [bind]. cbv zeta.
  rewrite Hok. cbn [bind].
  set (hs := map fst (filter _ (map (fun vt => (vt, concentration_value df vt))
                                    (vehicle_types df)))).
  set (ds := map entity (filter _ (rank_metrics
                                     (emitted_metrics df YOY [col_vehicle_type])))).
  assert (Hhs : hs <> []
                <-> exists vt, In vt (vehicle_types df)
                      /\ (2500 < hhi_index (concentration_value df vt))%Q).
  { unfold hs. rewrite map_nonempty_iff, filter_nonempty_iff. split.
    - intros [[vt c] [Hin Hp]]. apply in_map_iff in Hin.
      destruct Hin as [vt' [E Hvt]]. injection E as -> <-.
      exists vt. split; [exact Hvt|]. cbn [snd] in Hp.
      destruct (Qlt_le_dec 2500 (hhi_index (concentration_value df vt)));
        [assumption | discriminate].
    - intros [vt [Hvt Hlt]]. exists (vt, concentration_value df vt). split.
      + apply in_map_iff. exists vt. split; [reflexivity | exact Hvt].
      + cbn [snd].
        destruct (Qlt_le_dec 2500 (hhi_index (concentration_value df vt)));
          [reflexivity | lra]. }
  assert (Hds : ds <> []
                <-> exists vt y1 y2,
                      consecutive_years df [col_vehicle_type] [vt] y1 y2
                      /\ (0 < year_sum df [col_vehicle_type] [vt] y1)%N
                      /\ (py_round
                            ((QofN (year_sum df [col_vehicle_type] [vt] y2)
                              - QofN (year_sum df [col_vehicle_type] [vt] y1))
                             / QofN (year_sum df [col_vehicle_type] [vt] y1)
                             * 100) 2
                          < -5)%Q).
  { unfold ds. rewrite map_nonempty_iff, filter_nonempty_iff. split.
    - intros [m [Hin Hp]].
      destruct (Hsound m Hin) as [g [y1 [y2 [Hc [Hpos Hm]]]]].
      destruct (vehicle_type_group df g y1 (proj1 Hc)) as [vt ->].
      exists vt, y1, y2. split; [exact Hc|]. split; [exact Hpos|].
      destruct Hm as (_ & _ & _ & _ & Hrate & _). rewrite <- Hrate.
      destruct (Qlt_le_dec (growth_rate m) (-5)); [assumption | discriminate].
    - intros [vt [y1 [y2 [Hc [Hpos Hlt]]]]].
      destruct (Hcomplete [vt] y1 y2 Hc Hpos) as [m [Hin Hm]].
      exists m. split; [exact Hin|].
      destruct Hm as (_ & _ & _ & _ & Hrate & _). rewrite <- Hrate in Hlt.
      destruct (Qlt_le_dec (growth_rate m) (-5)); [reflexivity | lra]. }
  clearbody hs ds.
  eexists. split; [rewrite app_assoc; reflexivity|].
  split; [destruct hs; destruct ds; simpl; lia|].
  split; [etransitivity; [|exact Hhs] | etransitivity; [|exact Hds]];
    clear Hhs Hds; destruct hs as [|h hs]; destruct ds as [|d ds];
    cbn [app].
  - split; [intros [s [[] _]] | congruence].
  - split; [|congruence]. intros [s [[<-|[]] Hp]]. vm_compute in Hp.
    discriminate.
  - split; [discriminate|]. intros _. eexists. split; [left; reflexivity|].
    apply prefix_append.
  - split; [discriminate|]. intros _. eexists. split; [left; reflexivity|].
    apply prefix_append.
  - split; [intros [s [[] _]] | congruence].
  - split; [discriminate|]. intros _. eexists. split; [left; reflexivity|].
    apply prefix_append.
  - split; [|congruence]. intros [s [[<-|[]] Hp]]. vm_compute in Hp.
    discriminate.
  - split; [discriminate|]. intros _. eexists.
    split; [right; left; reflexivity|]. apply prefix_append.
Qed.

(** A value of two decimals below -5 is at most -5.01. *)
Lemma below_minus_five (x r : Q) :
  nearest_decimal 2 x r -> (r < -5)%Q -> (x <= - (5005 # 1000))%Q.
Proof.
  unfold nearest_decimal. cbv zeta.
  change (inject_Z (10 ^ Z.of_nat 2)) with 100%Q.
  intros [[k Hk] [Hlo _]] Hlt.
  assert (Hk5 : (inject_Z k < -500)%Q).
  { assert (E : (inject_Z k == r * 100)%Q) by (rewrite Hk; field). lra. }
  assert (Hz : k < -500).
  { change (-500)%Q with (inject_Z (-500)) in Hk5.
    rewrite <- Zlt_Qlt in Hk5. exact Hk5. }
  assert (Hq : (inject_Z k <= -501)%Q).
  { change (-501)%Q with (inject_Z (-501)). rewrite <- Zle_Qle. lia. }
  assert (E : (r * 100 == inject_Z k)%Q) by (rewrite Hk; field).
  lra.
Qed.

Lemma above_minus_five (x r : Q) :
  nearest_decimal 2 x r -> (x < - (5005 # 1000))%Q -> (r < -5)%Q.
Proof.
  unfold nearest_decimal. cbv zeta.
  change (inject_Z (10 ^ Z.of_nat 2)) with 100%Q.
  intros [_ [_ Hhi]] Hlt. lra.
Qed.

(** X7. [_assess_market_risks] never raises.  Its list ends with the three
    generic risks, preceded by at most two data-driven ones: a "High
    concentration risk" entry, present exactly when some entry of the
    concentration metrics it computed has an [hhi_index] above 2500, and a
    "Declining demand" entry, present exactly when some YoY metric per
    vehicle type it computed has a growth rate below -5.  In terms of the
    records: a step between consecutive recorded years of a category whose
    exact rate is below -5.005 produces the declining entry, and the entry
    is produced only when some step has an exact rate of at most -5.005. *)
Theorem market_risks_characterised (df : DataFrame) :
  exists cm ms specific,
    calculate_market_concentration df = Ok cm
    /\ calculate_growth_metrics df YOY [col_vehicle_type] = Ok ms
    /\ _assess_market_risks df
       = Ok (specific
             ++ ["Economic downturn impact on vehicle purchases";
                 "Regulatory changes affecting vehicle standards";
                 "Technology disruption from new mobility solutions"]%string)
    /\ (List.length specific <= 2)%nat
    /\ ((exists s, In s specific
                   /\ String.prefix "High concentration risk in " s = true)
        <-> exists vt c, In (vt, c) cm /\ (2500 < hhi_index c)%Q)
    /\ ((exists s, In s specific
                   /\ String.prefix "Declining demand in " s = true)
        <-> exists m, In m ms /\ (growth_rate m < -5)%Q)
    /\ ((exists vt y1 y2,
           consecutive_years df [col_vehicle_type] [vt] y1 y2
           /\ (0 < year_sum df [col_vehicle_type] [vt] y1)%N
           /\ ((QofN (year_sum df [col_vehicle_type] [vt] y2)
                - QofN (year_sum df [col_vehicle_type] [vt] y1))
               / QofN (year_sum df [col_vehicle_type] [vt] y1) * 100
               < - (5005 # 1000))%Q) ->
        exists s, In s specific
                  /\ String.prefix "Declining demand in " s = true)
    /\ ((exists s, In s specific
                   /\ String.prefix "Declining demand in " s = true) ->
        exists vt y1 y2,
          consecutive_years df [col_vehicle_type] [vt] y1 y2
          /\ (0 < year_sum df [col_vehicle_type] [vt] y1)%N
          /\ ((QofN (year_sum df [col_vehicle_type] [vt] y2)
               - QofN (year_sum df [col_vehicle_type] [vt] y1))
              / QofN (year_sum df [col_vehicle_type] [vt] y1) * 100
              <= - (5005 # 1000))%Q).
Proof.
  assert (Hg : [col_vehicle_type] <> []) by discriminate.
  assert (Hd : has_duplicate [col_vehicle_type] = false) by reflexivity.
  destruct (yoy_growth_metrics_sound_complete df [col_vehicle_type] Hg Hd)
    as [Hok [Hcomplete Hsound]].
  destruct (market_risks_spec df) as (specific & Hrisks & Hlen & Hconc & Hdecl).
  exists (map (fun vt => (vt, concentration_value df vt)) (vehicle_types df)),
         (rank_metrics (emitted_metrics df YOY [col_vehicle_type])), specific.
  split; [apply calculate_market_concentration_Ok|].
  split; [exact Hok|]. split; [exact Hrisks|]. split; [exact Hlen|].
  assert (Hrel : (exists s, In s specific
                            /\ String.prefix "Declining demand in " s = true)
                 <-> exists m,
                       In m (rank_metrics
                               (emitted_metrics df YOY [col_vehicle_type]))
                       /\ (growth_rate m < -5)%Q).
  { rewrite Hdecl. split.
    - intros [vt [y1 [y2 [Hc [Hpos Hlt]]]]].
      destruct (Hcomplete [vt] y1 y2 Hc Hpos) as [m [Hin Hm]].
      exists m. split; [exact Hin|].
      destruct Hm as (_ & _ & _ & _ & Hrate & _). rewrite Hrate. exact Hlt.
    - intros [m [Hin Hlt]].
      destruct (Hsound m Hin) as [g [y1 [y2 [Hc [Hpos Hm]]]]].
      destruct (vehicle_type_group df g y1 (proj1 Hc)) as [vt ->].
      exists vt, y1, y2. split; [exact Hc|]. split; [exact Hpos|].
      destruct Hm as (_ & _ & _ & _ & Hrate & _). rewrite <- Hrate.
      exact Hlt. }
  split; [|split; [exact Hrel|split]].
  - rewrite Hconc. split.
    + intros [vt [Hvt Hlt]]. exists vt, (concentration_value df vt).
      split; [|exact Hlt]. apply in_map_iff. exists vt. auto.
    + intros [vt [c [Hin Hlt]]]. apply in_map_iff in Hin.
      destruct Hin as [vt' [E Hvt]]. injection E as -> <-.
      exists vt. auto.
  - intros [vt [y1 [y2 [Hc [Hpos Hlt]]]]]. apply Hdecl.
    exists vt, y1, y2. split; [exact Hc|]. split; [exact Hpos|].
    exact (above_minus_five _ _ (py_round_nearest 2 _) Hlt).
  - intros Hs. apply Hdecl in Hs.
    destruct Hs as [vt [y1 [y2 [Hc [Hpos Hlt]]]]].
    exists vt, y1, y2. split; [exact Hc|]. split; [exact Hpos|].
    exact (below_minus_five _ _ (py_round_nearest 2 _) Hlt).
Qed.

Lemma market_risks_characterised_witness :
  exists specific,
    _assess_market_risks scenario_four_shares
    = Ok (specific
          ++ ["Economic downturn impact on vehicle purchases";
              "Regulatory changes affecting vehicle standards";
              "Technology disruption from new mobility solutions"]%string)
    /\ exists s, In s specific
                 /\ String.prefix "High concentration risk in " s = true.
Proof.
  destruct (market_risks_characterised scenario_four_shares)
    as (cm & ms & sp & Hcm & _ & H & _ & [_ Hc] & _).
  exists sp. split; [exact H|]. apply Hc.
  assert (E : calculate_market_concentration scenario_four_shares
              = Ok [("4W", concentration_value scenario_four_shares "4W")])
    by (vm_compute; reflexivity).
  rewrite E in Hcm. injection Hcm as <-.
  eexists. eexists. split; [left; reflexivity | vm_compute; reflexivity].
Defined.

(** ** The executive summary of a frame with records *)

Lemma true_div_Ok (a b : Q) : ~ (b == 0)%Q -> true_div a b = Ok (a / b)%Q.
Proof.
  intros Hb. unfold true_div. destruct (Qeq_bool b 0) eqn:E; [|reflexivity].
  apply Qeq_bool_iff in E. contradiction.
Qed.

Lemma outlook_of_label (a : option Q) : In (outlook_of a) outlook_labels.
Proof.
  unfold outlook_of, outlook_labels. destruct a as [a|]; simpl.
  - destruct (Qlt_le_dec a 75); [destruct (Qlt_le_dec a 60);
      [destruct (Qlt_le_dec a 40)|]|]; auto 6.
  - auto 6.
Qed.

Lemma market_risks_Ok (df : DataFrame) :
  exists specific,
    _assess_market_risks df = Ok (specific ++ generic_risks)
    /\ (List.length specific <= 2)%nat.
Proof.
  unfold _assess_market_risks.
  rewrite calculate_market_concentration_Ok. cbn [bind]. cbv zeta.
  rewrite calculate_growth_metrics_Ok by (discriminate || reflexivity).
  cbn [bind].
  eexists. split; [rewrite app_assoc; reflexivity|].
  rewrite length_app.
  match goal with
  | |- (List.length (match ?a with _ => _ end)
        + List.length (match ?b with _ => _ end) <= 2)%nat =>
      destruct a; destruct b; simpl; lia
  end.
Qed.

Lemma fold_max_ge (l : list Z) (a : Z) : a <= fold_left Z.max l a.
Proof.
  revert a. induction l as [|b l IH]; intros a; simpl; [lia|].
  specialize (IH (Z.max a b)). lia.
Qed.

Lemma fold_max_In (l : list Z) (a : Z) :
  fold_left Z.max l a = a \/ In (fold_left Z.max l a) l.
Proof.
  revert a. induction l as [|b l IH]; intros a; simpl; [left; reflexivity|].
  destruct (IH (Z.max a b)) as [E|Hin]; [|right; right; exact Hin].
  rewrite E. destruct (Z.max_spec a b) as [[_ ->]|[_ ->]]; auto.
Qed.

Lemma max_Z_In (l : list Z) : l <> [] -> In (max_Z l) l.
Proof.
  destruct l as [|a l]; [congruence|]. intros _. unfold max_Z.
  destruct (fold_max_In l a) as [->|Hin]; [left; reflexivity | right; exact Hin].
Qed.

Lemma count_geb_sorted (l : list (string * N)) :
  StronglySorted (fun a b => (snd b <= snd a)%N) (sort_by count_geb l).
Proof.
  apply sort_by_sorted.
  - intros x y H. unfold count_geb in H. apply N.leb_le. exact H.
  - intros x y H. unfold count_geb in H. apply N.leb_gt in H. lia.
  - intros x y z H1 H2. lia.
Qed.

Lemma total_registrations_nil_filter (p : Row -> bool) (rs : list Row) :
  (forall r, In r rs -> p r = false) ->
  total_registrations (filter p rs) = 0%N.
Proof.
  intros H. replace (filter p rs) with (@nil Row); [reflexivity|].
  induction rs as [|r rs IH]; [reflexivity|]. simpl.
  rewrite (H r) by (left; reflexivity).
  apply IH. intros r' Hr'. apply H. right. exact Hr'.
Qed.

(** X8. On a frame with at least one record [generate_executive_summary]
    never raises.  Its overview counts the distinct manufacturers, its
    dominant category is a category of the frame whose registrations no other
    category exceeds, there are exactly four highlights, the outlook is one
    of the four outlook sentences, the risk list has between three and five
    entries, and when all records fall into one year the growth is reported
    as "0.0%". *)
Theorem executive_summary_of_records (df : DataFrame) :
  rows df <> [] ->
  exists s,
    generate_executive_summary df = Ok s
    /\ mo_total_registrations (market_overview s)
       = fmt_comma (total_registrations (rows df))
    /\ mo_total_manufacturers (market_overview s)
       = Z.of_nat (List.length (distinct_manufacturers df))
    /\ 1 <= mo_total_manufacturers (market_overview s)
    /\ In (mo_dominant_category (market_overview s)) (vehicle_types df)
    /\ (forall vt,
          (total_registrations (category_rows df vt)
           <= total_registrations
                (category_rows df (mo_dominant_category (market_overview s))))%N)
    /\ List.length (key_highlights s) = 4%nat
    /\ In (investment_outlook s) outlook_labels
    /\ (3 <= List.length (risk_assessment s) <= 5)%nat
    /\ ((forall r r', In r (rows df) -> In r' (rows df) -> year r = year r') ->
        mo_yoy_growth (market_overview s) = "0.0%").
Proof.
  intros Hne.
  destruct (market_risks_Ok df) as [specific [Hrisks Hlen]].
  unfold generate_executive_summary.
  destruct (rows df) as [|r0 rs0] eqn:Hrows; [congruence|].
  rewrite <- Hrows in *. cbv zeta.
  set (latest := max_Z (map year (rows df))).
  set (prev := total_registrations
                 (filter (fun r => Z.eqb (year r) (latest - 1)) (rows df))).
  set (cur := total_registrations
                (filter (fun r => Z.eqb (year r) latest) (rows df))).
  set (breakdown := sort_by count_geb
                      (groupby_registrations String.eqb string_leb
                         vehicle_type (rows df))).
  assert (Hyoy : exists g,
             (if (0 <? prev)%N
              then ratio <- true_div (QofN cur - QofN prev)%Q (QofN prev) ;;
                   Ok (ratio * 100)%Q
              else Ok 0%Q) = Ok g
             /\ (prev = 0%N -> g = 0%Q)).
  { destruct (0 <? prev)%N eqn:E.
    - apply N.ltb_lt in E. rewrite true_div_Ok by (apply QofN_pos; exact E).
      cbn [bind]. eexists. split; [reflexivity|]. lia.
    - eexists. split; [reflexivity | reflexivity]. }
  destruct Hyoy as [g [-> Hzero]]. cbn [bind].
  rewrite calculate_market_concentration_Ok. cbn [bind].
  unfold _generate_investment_outlook.
  rewrite generate_investment_scorecard_Ok. cbn [bind].
  rewrite Hrisks. cbn [bind].
  assert (Hsorted : StronglySorted (fun a b => (snd b <= snd a)%N) breakdown)
    by apply count_geb_sorted.
  assert (Hin : forall k n, In (k, n) breakdown
                  <-> (exists r, In r (rows df) /\ vehicle_type r = k)
                      /\ n = total_registrations (category_rows df k)).
  { intros k n. unfold breakdown. rewrite sort_by_In.
    apply (groupby_In String.eqb string_leb vehicle_type String.eqb_eq). }
  assert (Hbne : breakdown <> []).
  { intros E. assert (H : In (vehicle_type r0,
                              total_registrations
                                (category_rows df (vehicle_type r0)))
                             breakdown).
    { apply Hin. split; [|reflexivity]. exists r0. split; [|reflexivity].
      rewrite Hrows. left. reflexivity. }
    rewrite E in H. exact H. }
  destruct breakdown as [|[top n] rest] eqn:Hb; [congruence|].
  assert (Htop : In (top, n) ((top, n) :: rest)) by (left; reflexivity).
  apply Hin in Htop. destruct Htop as [[rt [Hrt Ert]] ->].
  eexists. split; [reflexivity|].
  cbn [market_overview mo_total_registrations mo_total_manufacturers
       mo_dominant_category mo_yoy_growth key_highlights investment_outlook
       risk_assessment fst snd].
  split; [reflexivity|]. split; [reflexivity|].
  split.
  { assert (H : In (manufacturer r0)
                   (drop_duplicates String.eqb (map manufacturer (rows df)))).
    { apply (drop_duplicates_In _ String.eqb_eq). apply in_map.
      rewrite Hrows. left.
      reflexivity. }
    destruct (drop_duplicates String.eqb (map manufacturer (rows df)));
      [destruct H | simpl; lia]. }
  split.
  { unfold vehicle_types. apply (drop_duplicates_In _ String.eqb_eq).
    rewrite <- Ert.
    apply in_map. exact Hrt. }
  split.
  { intros vt.
    destruct (category_rows df vt) as [|r1 rs1] eqn:Hc; [apply N.le_0_l|].
    rewrite <- Hc.
    assert (Hvt : In (vt, total_registrations (category_rows df vt))
                     ((top, total_registrations (category_rows df top))
                      :: rest)).
    { apply Hin. split; [|reflexivity].
      assert (H1 : In r1 (category_rows df vt)) by (rewrite Hc; left; reflexivity).
      unfold category_rows in H1. apply filter_In in H1.
      destruct H1 as [H1 H2]. apply String.eqb_eq in H2.
      exists r1. split; assumption. }
    destruct Hvt as [E|Hvt]; [injection E as -> _; apply N.le_refl|].
    inversion Hsorted as [|? ? _ Hall]; subst.
    rewrite Forall_forall in Hall. apply (Hall _ Hvt). }
  split; [reflexivity|].
  split; [apply outlook_of_label|].
  split; [rewrite length_app; simpl; lia|].
  intros Hyear.
  rewrite Hzero; [vm_compute; reflexivity|].
  unfold prev. apply total_registrations_nil_filter.
  intros r Hr. apply Z.eqb_neq.
  assert (Hl : In latest (map year (rows df))).
  { apply max_Z_In. rewrite Hrows. discriminate. }
  apply in_map_iff in Hl. destruct Hl as [r' [E Hr']].
  rewrite (Hyear r r' Hr Hr'). lia.
Qed.

Lemma executive_summary_of_records_witness :
  exists s,
    generate_executive_summary scenario_single_year = Ok s
    /\ mo_total_manufacturers (market_overview s) = 2
    /\ mo_dominant_category (market_overview s) = "2W"
    /\ mo_yoy_growth (market_overview s) = "0.0%"
    /\ List.length (key_highlights s) = 4%nat.
Proof.
  assert (Hne : rows scenario_single_year <> []) by discriminate.
  destruct (executive_summary_of_records scenario_single_year Hne)
    as (s & Hs & _ & Hm & _ & Hd & _ & Hk & _ & _ & Hy).
  exists s. split; [exact Hs|].
  split; [rewrite Hm; reflexivity|].
  split; [destruct Hd as [<-|[]]; reflexivity|].
  split; [|exact Hk].
  apply Hy. intros r r' Hr Hr'. simpl in Hr, Hr'.
  destruct Hr as [<-|[<-|[]]]; destruct Hr' as [<-|[<-|[]]]; reflexivity.
Defined.

(** ** The outlook sentence *)

Lemma py_round1_lower (x : Q) (a : Z) :
  (inject_Z a <= x)%Q -> (inject_Z a <= py_round x 1)%Q.
Proof.
  intros Ha. unfold py_round. cbv zeta.
  change (inject_Z (10 ^ Z.of_nat 1)) with 10%Q.
  assert (H : a * 10 <= round_half_even (x * 10)).
  { apply round_half_even_lower. rewrite inject_Z_mult.
    change (inject_Z 10) with 10%Q. lra. }
  apply Qle_shift_div_l; [reflexivity|].
  rewrite Zle_Qle, inject_Z_mult in H. exact H.
Qed.

Lemma sumQ_lower (a : Q) (l : list Q) :
  Forall (fun q => a <= q)%Q l ->
  (inject_Z (Z.of_nat (List.length l)) * a <= sumQ l)%Q.
Proof.
  induction 1 as [|q l Hq _ IH].
  - simpl. change (inject_Z 0) with 0%Q. lra.
  - rewrite inject_length_cons. cbn [sumQ fold_right]. fold (sumQ l). lra.
Qed.

Lemma sumQ_upper (a : Q) (l : list Q) :
  Forall (fun q => q < a)%Q l -> l <> [] ->
  (sumQ l < inject_Z (Z.of_nat (List.length l)) * a)%Q.
Proof.
  induction 1 as [|q l Hq Hl IH]; [congruence|]. intros _.
  rewrite inject_length_cons. cbn [sumQ fold_right]. fold (sumQ l).
  destruct l as [|q' l'].
  - simpl. change (inject_Z 0) with 0%Q. lra.
  - assert (H : q' :: l' <> []) by discriminate. specialize (IH H). lra.
Qed.

Lemma np_mean_lower (a : Q) (l : list Q) :
  l <> [] -> Forall (fun q => a <= q)%Q l ->
  exists m, np_mean l = Some m /\ (a <= m)%Q.
Proof.
  intros Hne Hall. pose proof (sumQ_lower a l Hall) as H.
  destruct l as [|q l]; [congruence|]. unfold np_mean.
  eexists. split; [reflexivity|].
  set (n := inject_Z (Z.of_nat (List.length (q :: l)))) in *.
  assert (Hn : (0 < n)%Q) by (unfold n, Qlt; simpl; lia).
  apply Qle_shift_div_l; [exact Hn | lra].
Qed.

Lemma np_mean_upper (a : Q) (l : list Q) :
  l <> [] -> Forall (fun q => q < a)%Q l ->
  exists m, np_mean l = Some m /\ (m < a)%Q.
Proof.
  intros Hne Hall. pose proof (sumQ_upper a l Hall Hne) as H.
  destruct l as [|q l]; [congruence|]. unfold np_mean.
  eexists. split; [reflexivity|].
  set (n := inject_Z (Z.of_nat (List.length (q :: l)))) in *.
  assert (Hn : (0 < n)%Q) by (unfold n, Qlt; simpl; lia).
  apply Qlt_shift_div_r; [exact Hn | lra].
Qed.

Lemma strong_buy_score (x : Q) :
  recommendation_of x
  = "Strong Buy - High growth potential with favorable market dynamics" ->
  (75 <= x)%Q.
Proof.
  unfold recommendation_of.
  destruct (Qlt_le_dec x 75); [|intros _; assumption].
  destruct (Qlt_le_dec x 60); [destruct (Qlt_le_dec x 40)|]; discriminate.
Qed.

(** X9. [_generate_investment_outlook] never raises and always answers with
    one of the four outlook sentences.  Without any category (an empty
    frame) the average of no scores is not a number and the answer is the
    "Cautious" sentence; when every category is recommended as "Strong Buy",
    or every overall score is at least 75, it is the "Positive" sentence;
    when every overall score is below 40 it is the "Cautious" sentence. *)
Theorem investment_outlook_follows_scorecard (df : DataFrame) :
  exists scorecard o,
    generate_investment_scorecard df = Ok scorecard
    /\ _generate_investment_outlook df = Ok o
    /\ In o outlook_labels
    /\ (rows df = [] ->
        o = "Cautious - Challenging market conditions with limited opportunities")
    /\ (rows df <> [] ->
        (forall vt sc, In (vt, sc) scorecard ->
           recommendation sc
           = "Strong Buy - High growth potential with favorable market dynamics"
           \/ (75 <= overall_score sc)%Q) ->
        o = "Positive - Strong growth fundamentals with favorable market dynamics")
    /\ ((forall vt sc, In (vt, sc) scorecard -> (overall_score sc < 40)%Q) ->
        o = "Cautious - Challenging market conditions with limited opportunities").
Proof.
  unfold _generate_investment_outlook.
  rewrite generate_investment_scorecard_Ok. cbn [bind].
  set (scorecard := map (fun vt => (vt, scorecard_value df vt))
                        (vehicle_types df)).
  set (scores := map (fun e : string * Scorecard => overall_score (snd e))
                     scorecard).
  exists scorecard. eexists. split; [reflexivity|]. split; [reflexivity|].
  split; [apply outlook_of_label|].
  assert (Hscores : scores <> [] <-> rows df <> []).
  { unfold scores, scorecard, vehicle_types.
    destruct (rows df) as [|r rs]; simpl; split; congruence. }
  split; [|split].
  - intros E. destruct scores; [reflexivity|].
    exfalso. assert (H : rows df <> []) by (apply Hscores; discriminate).
    contradiction.
  - intros Hne Hall. apply Hscores in Hne.
    destruct (np_mean_lower 75 scores Hne) as [m [-> Hm]].
    + apply Forall_forall. intros q Hq. unfold scores in Hq.
      apply in_map_iff in Hq. destruct Hq as [[vt sc] [<- Hin]].
      destruct (Hall vt sc Hin) as [Hrec|Hge]; [|exact Hge].
      unfold scorecard in Hin. apply in_map_iff in Hin.
      destruct Hin as [vt' [E _]]. cbv beta in E. injection E as -> <-.
      cbn [snd overall_score scorecard_value recommendation] in *.
      apply strong_buy_score in Hrec.
      apply (py_round1_lower _ 75). exact Hrec.
    + unfold outlook_of.
      destruct (Qlt_le_dec m 75); [lra | reflexivity].
  - intros Hall. destruct scores as [|q l] eqn:Hs; [reflexivity|].
    destruct (np_mean_upper 40 (q :: l)) as [m [-> Hm]]; [discriminate| |].
    + rewrite <- Hs. apply Forall_forall. intros x Hx. unfold scores in Hx.
      apply in_map_iff in Hx. destruct Hx as [[vt sc] [<- Hin]].
      apply (Hall vt sc Hin).
    + unfold outlook_of.
      destruct (Qlt_le_dec m 75); [|lra].
      destruct (Qlt_le_dec m 60); [|lra].
      destruct (Qlt_le_dec m 40); [reflexivity | lra].
Qed.

Lemma investment_outlook_follows_scorecard_witness :
  _generate_investment_outlook scenario_single_year
  = Ok "Cautious - Challenging market conditions with limited opportunities".
Proof.
  destruct (investment_outlook_follows_scorecard scenario_single_year)
    as (sc & o & Hsc & Ho & _ & _ & _ & Hlow).
  rewrite Ho. f_equal. apply Hlow. intros vt s Hin.
  assert (E : generate_investment_scorecard scenario_single_year
              = Ok [("2W", scorecard_value scenario_single_year "2W")])
    by (vm_compute; reflexivity).
  rewrite E in Hsc. injection Hsc as <-.
  destruct Hin as [E'|[]]. injection E' as _ <-. vm_compute. reflexivity.
Defined.

(** ** Quarter-over-quarter growth *)

Lemma is_qoq_metric_unranked (g : list string) (yq : Z * Quarter) (c p : N)
    (m m' : GrowthMetric) :
  unranked m = unranked m' -> is_qoq_metric g yq c p m' ->
  is_qoq_metric g yq c p m.
Proof.
  unfold unranked, set_rank, is_qoq_metric. intros E.
  injection E as -> -> -> -> -> ->. tauto.
Qed.

Lemma earlier_period_pos (df : DataFrame) (group_by : list column)
    (g : list string) (a b : Z * Quarter) :
  period_pos (quarter_row df group_by g a)
  < period_pos (quarter_row df group_by g b)
  <-> earlier a b.
Proof.
  unfold period_pos, quarter_row, period_sort, earlier. simpl.
  destruct a as [ya qa], b as [yb qb]. simpl.
  destruct qa, qb; simpl; lia.
Qed.

Lemma qoq_sum_eq (df : DataFrame) (group_by : list column) (r : Row) :
  total_registrations
    (group_rows key_eqb (row_key QOQ group_by) (rows df)
                (row_key QOQ group_by r))
  = quarter_sum df group_by (group_of group_by r) (year r, quarter r).
Proof.
  unfold quarter_sum, group_rows. reflexivity.
Qed.

Lemma qoq_frame_In (df : DataFrame) (group_by : list column) (e : Grouped) :
  In e (grouped_frame df QOQ group_by)
  <-> exists yq, has_quarter df group_by (g_vals e) yq
        /\ e = quarter_row df group_by (g_vals e) yq.
Proof.
  rewrite grouped_frame_In. split.
  - intros [r [Hr ->]]. exists (year r, quarter r). simpl. split.
    + exists r. auto.
    + rewrite qoq_sum_eq. reflexivity.
  - intros [[y q] [[r [Hr [Hg [Hy Hq]]]] E]]. exists r. split; [exact Hr|].
    simpl in Hy, Hq.
    rewrite qoq_sum_eq, Hg. unfold period_of. rewrite Hy, Hq. exact E.
Qed.

Lemma qoq_group_data_In (df : DataFrame) (group_by : list column)
    (g : list string) (e : Grouped) :
  In e (group_data (grouped_frame df QOQ group_by) g)
  <-> exists yq, has_quarter df group_by g yq
        /\ e = quarter_row df group_by g yq.
Proof.
  rewrite group_data_In, qoq_frame_In. split.
  - intros [[yq [Hyq E]] Hg]. exists yq. rewrite <- Hg. auto.
  - intros [yq [Hyq ->]]. simpl. split; [|reflexivity]. exists yq. auto.
Qed.

Lemma qoq_group_keys_In (df : DataFrame) (group_by : list column)
    (g : list string) (yq : Z * Quarter) :
  has_quarter df group_by g yq -> In g (group_keys df QOQ group_by).
Proof.
  intros H. unfold group_keys.
  apply (drop_duplicates_In _ list_eqb_eq), in_map_iff.
  exists (quarter_row df group_by g yq).
  split; [reflexivity|]. apply qoq_frame_In. exists yq. simpl. auto.
Qed.

(** The pairs the QoQ loop visits for group [g] are the pairs of
    chronologically consecutive quarters of the group. *)
Lemma qoq_consecutive (df : DataFrame) (group_by : list column)
    (g : list string) (a b : Grouped) :
  In (a, b) (consecutive (group_data (grouped_frame df QOQ group_by) g))
  <-> exists p1 p2,
        consecutive_quarters df group_by g p1 p2
        /\ a = quarter_row df group_by g p1
        /\ b = quarter_row df group_by g p2.
Proof.
  rewrite (consecutive_sorted period_pos) by apply group_data_sorted.
  split.
  - intros [Ha [Hb [Hlt Hfree]]].
    apply qoq_group_data_In in Ha. destruct Ha as [p1 [H1 ->]].
    apply qoq_group_data_In in Hb. destruct Hb as [p2 [H2 ->]].
    exists p1, p2. split; [|auto].
    split; [exact H1|]. split; [exact H2|].
    split; [apply (earlier_period_pos df group_by g); exact Hlt|].
    intros c Hc [Hac Hcb].
    apply (Hfree (quarter_row df group_by g c)).
    + apply qoq_group_data_In. exists c. auto.
    + split; apply earlier_period_pos; assumption.
  - intros [p1 [p2 [[H1 [H2 [Hlt Hfree]]] [-> ->]]]].
    split; [apply qoq_group_data_In; exists p1; auto|].
    split; [apply qoq_group_data_In; exists p2; auto|].
    split; [apply earlier_period_pos; exact Hlt|].
    intros c Hc. apply qoq_group_data_In in Hc. destruct Hc as [p [Hp ->]].
    intros [Hac Hcb]. apply (Hfree p Hp).
    split; eapply earlier_period_pos; eassumption.
Qed.

Lemma pair_metrics_qoq (df : DataFrame) (group_by : list column)
    (g : list string) (p1 p2 : Z * Quarter) (m : GrowthMetric) :
  In m (pair_metrics g (quarter_row df group_by g p1,
                        quarter_row df group_by g p2))
  <-> (0 < quarter_sum df group_by g p1)%N
      /\ unranked m = m
      /\ is_qoq_metric g p2 (quarter_sum df group_by g p2)
                       (quarter_sum df group_by g p1) m.
Proof.
  unfold pair_metrics, quarter_row. simpl.
  destruct (0 <? quarter_sum df group_by g p1)%N eqn:Hpos.
  - apply N.ltb_lt in Hpos. simpl. split.
    + intros [<-|[]]. split; [exact Hpos|]. unfold is_qoq_metric. simpl.
      repeat split; reflexivity.
    + intros [_ [Hu [He [Hp [Hc [Hv [Hr Ha]]]]]]]. left.
      rewrite <- Hu. unfold unranked, set_rank, metric_of. simpl.
      rewrite He, Hp, Hc, Hv, Hr, Ha. reflexivity.
  - apply N.ltb_ge in Hpos. simpl. split; [tauto|]. intros [H _]. lia.
Qed.

(** The QoQ metrics are exactly the steps between consecutive quarters of a
    group whose earlier sum is positive. *)
Lemma qoq_growth_metrics_sound_complete (df : DataFrame)
    (group_by : list column) :
  group_by <> [] -> has_duplicate group_by = false ->
  calculate_growth_metrics df QOQ group_by
  = Ok (rank_metrics (emitted_metrics df QOQ group_by))
  /\ (forall g p1 p2,
        consecutive_quarters df group_by g p1 p2 ->
        (0 < quarter_sum df group_by g p1)%N ->
        exists m, In m (rank_metrics (emitted_metrics df QOQ group_by))
                  /\ is_qoq_metric g p2 (quarter_sum df group_by g p2)
                                   (quarter_sum df group_by g p1) m)
  /\ (forall m, In m (rank_metrics (emitted_metrics df QOQ group_by)) ->
        exists g p1 p2,
          consecutive_quarters df group_by g p1 p2
          /\ (0 < quarter_sum df group_by g p1)%N
          /\ is_qoq_metric g p2 (quarter_sum df group_by g p2)
                           (quarter_sum df group_by g p1) m).
Proof.
  intros Hne Hnd.
  split; [apply calculate_growth_metrics_Ok; congruence|]. split.
  - intros g p1 p2 Hcons Hpos.
    destruct (rank_metrics_In_inv (emitted_metrics df QOQ group_by)
                (metric_of g (quarter_row df group_by g p1)
                   (quarter_row df group_by g p2)
                   ((QofN (quarter_sum df group_by g p2)
                     - QofN (quarter_sum df group_by g p1))
                    / QofN (quarter_sum df group_by g p1) * 100)%Q))
      as [m [Hm Hu]].
    + unfold emitted_metrics. apply in_flat_map. exists g. split.
      * destruct Hcons as [H1 _]. eapply qoq_group_keys_In. exact H1.
      * apply in_flat_map.
        exists (quarter_row df group_by g p1, quarter_row df group_by g p2).
        split; [apply qoq_consecutive; exists p1, p2; auto|].
        unfold pair_metrics. simpl.
        apply N.ltb_lt in Hpos. rewrite Hpos. left. reflexivity.
    + exists m. split; [exact Hm|].
      eapply is_qoq_metric_unranked; [exact Hu|].
      unfold is_qoq_metric. simpl. repeat split; reflexivity.
  - intros m Hm. apply rank_metrics_In in Hm. destruct Hm as [m' [Hm' Hu]].
    unfold emitted_metrics in Hm'.
    apply in_flat_map in Hm'. destruct Hm' as [g [_ Hm']].
    apply in_flat_map in Hm'. destruct Hm' as [[a b] [Hab Hm']].
    apply qoq_consecutive in Hab.
    destruct Hab as [p1 [p2 [Hcons [-> ->]]]].
    apply pair_metrics_qoq in Hm'. destruct Hm' as [Hpos [_ Hmetric]].
    exists g, p1, p2. split; [exact Hcons|]. split; [exact Hpos|].
    eapply is_qoq_metric_unranked; eassumption.
Qed.

Lemma is_growth_step_qoq (g : list string) (yq : Z * Quarter) (c p : N)
    (m : GrowthMetric) :
  is_qoq_metric g yq c p m ->
  is_growth_step (str_Z (fst yq) ++ "-" ++ quarter_label (snd yq)) g c p m.
Proof.
  unfold is_qoq_metric, is_growth_step.
  intros (He & Hp & Hc & Hv & Hr & Ha). rewrite Hr.
  repeat (split; [assumption|]). split; [apply py_round_nearest | exact Ha].
Qed.

(** X10. For every record set and every valid grouping, the QoQ metrics of
    [calculate_growth_metrics] are exactly the steps between chronologically
    consecutive recorded quarters of a group whose earlier quarter has
    registrations: each such step gives a metric labelled "<year>-<quarter>"
    of the later quarter, with the rate rounded to two decimals (a value of
    two decimals at most 0.005 away from the exact percentage, whichever way
    an exact tie goes) and the absolute difference, and every metric comes
    from such a step.  Consecutive means adjacent in the group's history, not
    in the calendar.  The grouping is by one or both of the columns vehicle
    type and manufacturer, each at most once. *)
Theorem qoq_growth_metrics_characterised (df : DataFrame)
    (group_by : list column) :
  group_by <> [] -> has_duplicate group_by = false ->
  exists ms,
    calculate_growth_metrics df QOQ group_by = Ok ms
    /\ (forall g p1 p2,
          consecutive_quarters df group_by g p1 p2 ->
          (0 < quarter_sum df group_by g p1)%N ->
          exists m, In m ms
                    /\ is_growth_step
                         (str_Z (fst p2) ++ "-" ++ quarter_label (snd p2)) g
                         (quarter_sum df group_by g p2)
                         (quarter_sum df group_by g p1) m)
    /\ (forall m, In m ms ->
          exists g p1 p2,
            consecutive_quarters df group_by g p1 p2
            /\ (0 < quarter_sum df group_by g p1)%N
            /\ is_growth_step
                 (str_Z (fst p2) ++ "-" ++ quarter_label (snd p2)) g
                 (quarter_sum df group_by g p2)
                 (quarter_sum df group_by g p1) m).
Proof.
  intros Hne Hnd.
  destruct (qoq_growth_metrics_sound_complete df group_by Hne Hnd)
    as [Hok [Hcomplete Hsound]].
  eexists. split; [exact Hok|]. split.
  - intros g p1 p2 Hcons Hpos.
    destruct (Hcomplete g p1 p2 Hcons Hpos) as [m [Hm Hstep]].
    exists m. split; [exact Hm|]. apply is_growth_step_qoq. exact Hstep.
  - intros m Hm. destruct (Hsound m Hm) as [g [p1 [p2 [Hcons [Hpos Hstep]]]]].
    exists g, p1, p2. split; [exact Hcons|]. split; [exact Hpos|].
    apply is_growth_step_qoq. exact Hstep.
Qed.

Lemma qoq_growth_metrics_characterised_witness :
  exists m,
    calculate_growth_metrics scenario_quarter_gap QOQ [col_manufacturer]
    = Ok [m]
    /\ period m = "2021-Q3"
    /\ (growth_rate m == 25)%Q
    /\ exists g p1 p2,
         consecutive_quarters scenario_quarter_gap [col_manufacturer] g p1 p2
         /\ is_growth_step
              (str_Z (fst p2) ++ "-" ++ quarter_label (snd p2)) g
              (quarter_sum scenario_quarter_gap [col_manufacturer] g p2)
              (quarter_sum scenario_quarter_gap [col_manufacturer] g p1) m.
Proof.
  assert (Hne : [col_manufacturer] <> []) by discriminate.
  assert (Hnd : has_duplicate [col_manufacturer] = false) by reflexivity.
  destruct (qoq_growth_metrics_characterised scenario_quarter_gap
              [col_manufacturer] Hne Hnd) as (ms & Hms & _ & Hsound).
  assert (E : calculate_growth_metrics scenario_quarter_gap QOQ
                [col_manufacturer]
              = Ok [mkMetric "A" "2021-Q3" 125 100 (2500 # 100) 25 1])
    by (vm_compute; reflexivity).
  rewrite E in Hms. injection Hms as <-.
  eexists. split; [exact E|]. split; [reflexivity|]. split; [reflexivity|].
  destruct (Hsound _ (or_introl eq_refl)) as (g & p1 & p2 & Hc & _ & Hm).
  exists g, p1, p2. split; assumption.
Defined.

(** ** The store's growth rows per vehicle type *)

Lemma vy_eqb_eq (a b : string * Z) : vy_eqb a b = true <-> a = b.
Proof.
  unfold vy_eqb. rewrite andb_true_iff, String.eqb_eq, Z.eqb_eq.
  destruct a as [va ya], b as [vb yb]; simpl. split.
  - intros [-> ->]. reflexivity.
  - intros H. injection H. auto.
Qed.

Lemma sql_yearly_vehicle_data_In (df : DataFrame) (k : string * Z) (s : N) :
  In (k, s) (sql_yearly_vehicle_data (rows df))
  <-> has_year df [col_vehicle_type] [fst k] (snd k)
      /\ s = year_sum df [col_vehicle_type] [fst k] (snd k).
Proof.
  unfold sql_yearly_vehicle_data.
  rewrite (groupby_In vy_eqb vy_leb _ vy_eqb_eq).
  destruct k as [vt y]. simpl.
  assert (E : total_registrations
                (group_rows vy_eqb (fun r => (vehicle_type r, year r))
                            (rows df) (vt, y))
              = year_sum df [col_vehicle_type] [vt] y).
  { unfold year_sum, group_rows. f_equal. apply filter_ext. intros r.
    unfold vy_eqb, group_of. simpl. rewrite andb_true_r. reflexivity. }
  rewrite E. unfold has_year, group_of. simpl.
  split; intros [[r [Hr H]] Hs]; (split; [exists r|exact Hs]).
  - injection H as -> ->. auto.
  - destruct H as [H ->]. injection H as ->. auto.
Qed.

Lemma vehicle_type_yoy_rows_In (df : DataFrame) (row : StoredMetric) :
  In row (vehicle_type_yoy_rows (rows df))
  <-> exists vt y,
        has_year df [col_vehicle_type] [vt] (y - 1)
        /\ has_year df [col_vehicle_type] [vt] y
        /\ row = mkStored "vehicle_type" vt "yoy" (str_Z y)
                   (Some (year_sum df [col_vehicle_type] [vt] y))
                   (Some (year_sum df [col_vehicle_type] [vt] (y - 1)))
                   (sql_growth_rate
                      (year_sum df [col_vehicle_type] [vt] y)
                      (Some (year_sum df [col_vehicle_type] [vt] (y - 1))))
                   (sql_growth_absolute
                      (year_sum df [col_vehicle_type] [vt] y)
                      (Some (year_sum df [col_vehicle_type] [vt] (y - 1)))).
Proof.
  unfold vehicle_type_yoy_rows. cbv zeta. rewrite in_map_iff. split.
  - intros [[v1 [v2|]] [<- Hin]]; apply filter_In in Hin;
      destruct Hin as [Hin Hsome]; [|discriminate].
    apply left_join_Some in Hin. destruct Hin as [H1 [H2 Hc]].
    destruct v1 as [[t1 yr1] s1], v2 as [[t2 yr2] s2].
    apply sql_yearly_vehicle_data_In in H1.
    apply sql_yearly_vehicle_data_In in H2.
    simpl in H1, H2. destruct H1 as [H1 ->]. destruct H2 as [H2 ->].
    simpl in Hc. rewrite andb_true_iff, String.eqb_eq, Z.eqb_eq in Hc.
    destruct Hc as [-> ->].
    exists t2, (yr2 + 1).
    replace (yr2 + 1 - 1) with yr2 by lia. simpl. auto.
  - intros [vt [y [H1 [H2 ->]]]].
    exists ((vt, y, year_sum df [col_vehicle_type] [vt] y),
            Some (vt, y - 1, year_sum df [col_vehicle_type] [vt] (y - 1))).
    split; [reflexivity|]. apply filter_In. split; [|reflexivity].
    apply left_join_Some. split; [|split].
    + apply sql_yearly_vehicle_data_In. simpl. auto.
    + apply sql_yearly_vehicle_data_In. simpl. auto.
    + simpl. rewrite String.eqb_refl. simpl. apply Z.eqb_eq. lia.
Qed.

Lemma manufacturer_rows_entity_type (rs : list Row) (row : StoredMetric) :
  In row (yoy_manufacturer_rows rs ++ qoq_manufacturer_rows rs) ->
  entity_type row = "manufacturer".
Proof.
  intros H. apply in_app_or in H.
  destruct H as [H|H]; apply in_map_iff in H; destruct H as [j [<- _]];
    reflexivity.
Qed.

(** X11. After [calculate_and_store_growth_metrics] the rows of entity type
    "vehicle_type" are exactly one row for every category and year whose
    calendar predecessor year is in the category's history too: named after
    the category, of metric type "yoy", labelled with the year, holding both
    yearly sums, their difference, and the rounded rate (NULL when the
    previous sum is 0).  The previous content of the table plays no part. *)
Theorem stored_category_yoy_rows (df : DataFrame) (old : list StoredMetric)
    (row : StoredMetric) :
  (In row (growth_metrics
             (calculate_and_store_growth_metrics (store_of df old)))
   /\ entity_type row = "vehicle_type")
  <-> exists vt y,
        has_year df [col_vehicle_type] [vt] (y - 1)
        /\ has_year df [col_vehicle_type] [vt] y
        /\ row = mkStored "vehicle_type" vt "yoy" (str_Z y)
                   (Some (year_sum df [col_vehicle_type] [vt] y))
                   (Some (year_sum df [col_vehicle_type] [vt] (y - 1)))
                   (sql_growth_rate
                      (year_sum df [col_vehicle_type] [vt] y)
                      (Some (year_sum df [col_vehicle_type] [vt] (y - 1))))
                   (sql_growth_absolute
                      (year_sum df [col_vehicle_type] [vt] y)
                      (Some (year_sum df [col_vehicle_type] [vt] (y - 1)))).
Proof.
  unfold calculate_and_store_growth_metrics, store_of.
  cbn [growth_metrics vehicle_registrations]. cbv zeta.
  rewrite app_assoc. rewrite <- vehicle_type_yoy_rows_In. split.
  - intros [Hin Htype]. apply in_app_or in Hin.
    destruct Hin as [Hin|Hin]; [|exact Hin].
    apply manufacturer_rows_entity_type in Hin. rewrite Hin in Htype.
    discriminate.
  - intros Hin. split; [apply in_or_app; right; exact Hin|].
    apply in_map_iff in Hin. destruct Hin as [j [<- _]]. reflexivity.
Qed.

Lemma stored_category_yoy_rows_witness :
  exists row,
    In row (growth_metrics
              (calculate_and_store_growth_metrics
                 (store_of scenario_two_years [])))
    /\ entity_type row = "vehicle_type"
    /\ entity_name row = "2W"
    /\ stored_period row = "2021"
    /\ stored_current row = Some 1500%N
    /\ stored_previous row = Some 1000%N.
Proof.
  eexists. 
  assert (H : exists vt y,
            has_year scenario_two_years [col_vehicle_type] [vt] (y - 1)
            /\ has_year scenario_two_years [col_vehicle_type] [vt] y
            /\ mkStored "vehicle_type" "2W" "yoy" "2021" (Some 1500%N)
                 (Some 1000%N) (Some (5000 # 100)) 500
               = mkStored "vehicle_type" vt "yoy" (str_Z y)
                   (Some (year_sum scenario_two_years [col_vehicle_type]
                            [vt] y))
                   (Some (year_sum scenario_two_years [col_vehicle_type]
                            [vt] (y - 1)))
                   (sql_growth_rate
                      (year_sum scenario_two_years [col_vehicle_type] [vt] y)
                      (Some (year_sum scenario_two_years [col_vehicle_type]
                               [vt] (y - 1))))
                   (sql_growth_absolute
                      (year_sum scenario_two_years [col_vehicle_type] [vt] y)
                      (Some (year_sum scenario_two_years [col_vehicle_type]
                               [vt] (y - 1))))).
  { exists "2W", 2021. split; [|split].
    - exists (record 2020 Q1 "2W" "A" 1000). simpl. auto.
    - exists (record 2021 Q1 "2W" "A" 1500). simpl. auto.
    - vm_compute. reflexivity. }
  apply (stored_category_yoy_rows scenario_two_years []) in H.
  destruct H as [Hin Htype].
  split; [exact Hin|]. repeat split.
Defined.

(** ** The store's quarter-over-quarter rows *)

Section Counting.
Context {A : Type}.

Lemma filter_length_le (p q : A -> bool) (l : list A) :
  (forall x, In x l -> p x = true -> q x = true) ->
  (List.length (filter p l) <= List.length (filter q l))%nat.
Proof.
  induction l as [|a l IH]; intros H; simpl; [lia|].
  assert (IH' : (List.length (filter p l) <= List.length (filter q l))%nat).
  { apply IH. intros x Hx. apply H. right. exact Hx. }
  destruct (p a) eqn:Ep.
  - rewrite (H a (or_introl eq_refl) Ep). simpl. lia.
  - destruct (q a); simpl; lia.
Qed.

Lemma filter_length_lt (p q : A -> bool) (l : list A) (w : A) :
  (forall x, In x l -> p x = true -> q x = true) ->
  In w l -> p w = false -> q w = true ->
  (List.length (filter p l) < List.length (filter q l))%nat.
Proof.
  induction l as [|a l IH]; intros H Hw Hp Hq; [destruct Hw|].
  assert (Hsub : forall x, In x l -> p x = true -> q x = true).
  { intros x Hx. apply H. right. exact Hx. }
  pose proof (filter_length_le p q l Hsub) as Hle.
  simpl. destruct Hw as [->|Hw].
  - rewrite Hp, Hq. simpl. lia.
  - specialize (IH Hsub Hw Hp Hq).
    destruct (p a) eqn:Ep.
    + rewrite (H a (or_introl eq_refl) Ep). simpl. lia.
    + destruct (q a); simpl; lia.
Qed.

Lemma filter_length_cover (p q r : A -> bool) (l : list A) :
  (forall x, In x l -> p x = true -> q x = true \/ r x = true) ->
  (List.length (filter p l)
   <= List.length (filter q l) + List.length (filter r l))%nat.
Proof.
  induction l as [|a l IH]; intros H; simpl; [lia|].
  assert (IH' : (List.length (filter p l)
                 <= List.length (filter q l) + List.length (filter r l))%nat).
  { apply IH. intros x Hx. apply H. right. exact Hx. }
  destruct (p a) eqn:Ep.
  - destruct (H a (or_introl eq_refl) Ep) as [E|E]; rewrite E;
      destruct (q a), (r a); simpl; lia.
  - destruct (q a), (r a); simpl; lia.
Qed.

Lemma filter_key_length {K : Type} (key : A -> K) (is_k : A -> bool) (k : K)
    (l : list A) :
  (forall x, In x l -> is_k x = true -> key x = k) ->
  NoDup (map key l) ->
  (List.length (filter is_k l) <= 1)%nat.
Proof.
  induction l as [|a l IH]; intros Hk Hnd; simpl; [lia|].
  inversion Hnd as [|? ? Hnotin Hnd']; subst.
  assert (IH' : (List.length (filter is_k l) <= 1)%nat).
  { apply IH; [|exact Hnd']. intros x Hx. apply Hk. right. exact Hx. }
  destruct (is_k a) eqn:Ea; [|exact IH'].
  destruct (filter is_k l) as [|b rest] eqn:Ef; [simpl; lia|].
  exfalso. apply Hnotin.
  assert (Hb : In b (filter is_k l)) by (rewrite Ef; left; reflexivity).
  apply filter_In in Hb. destruct Hb as [Hb Hkb].
  rewrite (Hk a (or_introl eq_refl) Ea).
  rewrite <- (Hk b (or_intror Hb) Hkb). apply in_map. exact Hb.
Qed.
End Counting.

Lemma quarter_number_range (q : Quarter) : 1 <= quarter_number q <= 4.
Proof. destruct q; simpl; lia. Qed.

Lemma earlier_pos (a b : Z * Quarter) :
  earlier a b <-> quarter_pos a < quarter_pos b.
Proof.
  unfold earlier, quarter_pos.
  pose proof (quarter_number_range (snd a)).
  pose proof (quarter_number_range (snd b)). lia.
Qed.

Lemma yq_leb_pos (a b : Z * Quarter) :
  yq_leb a b = true <-> quarter_pos a <= quarter_pos b.
Proof.
  unfold yq_leb, quarter_pos.
  pose proof (quarter_number_range (snd a)).
  pose proof (quarter_number_range (snd b)).
  destruct (Z.compare_spec (fst a) (fst b)); rewrite ?Z.leb_le;
    split; intros; try lia; try discriminate; reflexivity.
Qed.

Lemma quarter_pos_inj (a b : Z * Quarter) :
  quarter_pos a = quarter_pos b -> a = b.
Proof.
  unfold quarter_pos. destruct a as [ya qa], b as [yb qb]. simpl.
  destruct qa, qb; simpl; intros H; try lia;
    (replace ya with yb by lia); reflexivity.
Qed.

Lemma precedes_iff (e e' : MvyqKey * N) :
  precedes e e' = true
  <-> mvyq_partition_eqb (fst e') (fst e) = true
      /\ quarter_pos (key_quarter (fst e'))
         < quarter_pos (key_quarter (fst e)).
Proof.
  unfold precedes. rewrite andb_true_iff, negb_true_iff.
  fold (key_quarter (fst e)). fold (key_quarter (fst e')).
  pose proof (yq_leb_pos (key_quarter (fst e)) (key_quarter (fst e'))) as H.
  destruct (yq_leb (key_quarter (fst e)) (key_quarter (fst e'))).
  - split; intros [Hp Hlt]; [discriminate|].
    assert (Hle : quarter_pos (key_quarter (fst e))
                  <= quarter_pos (key_quarter (fst e')))
      by (apply H; reflexivity).
    lia.
  - split; intros [Hp Hlt]; (split; [exact Hp|]); [|reflexivity].
    destruct (Z.lt_ge_cases (quarter_pos (key_quarter (fst e')))
                (quarter_pos (key_quarter (fst e)))) as [Hl|Hg];
      [exact Hl|].
    apply H in Hg. discriminate.
Qed.

Lemma partition_eqb_iff (a b : MvyqKey) :
  mvyq_partition_eqb a b = true
  <-> fst (fst (fst a)) = fst (fst (fst b))
      /\ snd (fst (fst a)) = snd (fst (fst b)).
Proof.
  unfold mvyq_partition_eqb.
  rewrite andb_true_iff, !String.eqb_eq. reflexivity.
Qed.

Lemma period_num_count (data : list (MvyqKey * N)) (e : MvyqKey * N) :
  period_num data e
  = 1 + Z.of_nat (List.length (filter (precedes e) data)).
Proof. reflexivity. Qed.

(** Two rows of a partition have consecutive row numbers exactly when the
    second is the latest row before the first. *)
Lemma period_num_step (data : list (MvyqKey * N)) (e1 e2 : MvyqKey * N) :
  NoDup (map fst data) -> In e1 data -> In e2 data ->
  mvyq_partition_eqb (fst e1) (fst e2) = true ->
  (period_num data e1 = period_num data e2 + 1
   <-> quarter_pos (key_quarter (fst e2)) < quarter_pos (key_quarter (fst e1))
       /\ forall e, In e data ->
            mvyq_partition_eqb (fst e) (fst e1) = true ->
            ~ (quarter_pos (key_quarter (fst e2))
               < quarter_pos (key_quarter (fst e))
               < quarter_pos (key_quarter (fst e1)))).
Proof.
  intros Hnd H1 H2 Hpart. rewrite !period_num_count.
  apply partition_eqb_iff in Hpart. destruct Hpart as [Hm Hv].
  assert (Hsame : forall x : MvyqKey * N,
            mvyq_partition_eqb (fst x) (fst e1) = true
            <-> mvyq_partition_eqb (fst x) (fst e2) = true).
  { intros x. rewrite !partition_eqb_iff, Hm, Hv. reflexivity. }
  assert (Hrefl : forall x : MvyqKey * N,
            mvyq_partition_eqb (fst x) (fst x) = true).
  { intros x. apply partition_eqb_iff. auto. }
  split.
  - intros Hstep.
    assert (Hlt : quarter_pos (key_quarter (fst e2))
                  < quarter_pos (key_quarter (fst e1))).
    { destruct (Z.lt_ge_cases (quarter_pos (key_quarter (fst e2)))
                  (quarter_pos (key_quarter (fst e1)))) as [Hl|Hg];
        [exact Hl|].
      exfalso.
      assert (Hle : (List.length (filter (precedes e1) data)
                     <= List.length (filter (precedes e2) data))%nat).
      { apply filter_length_le. intros x _ Hx.
        apply precedes_iff in Hx. destruct Hx as [Hp Hx].
        apply precedes_iff. split; [apply Hsame; exact Hp | lia]. }
      lia. }
    split; [exact Hlt|].
    intros c Hc Hpc [Hl Hr].
    assert (Ha : (List.length (filter (precedes e2) data)
                  < List.length (filter (precedes c) data))%nat).
    { apply (filter_length_lt _ _ _ e2); [|exact H2| |].
      - intros x _ Hx. apply precedes_iff in Hx. destruct Hx as [Hp Hx].
        apply precedes_iff. split; [|lia].
        apply partition_eqb_iff. apply partition_eqb_iff in Hp.
        apply Hsame, partition_eqb_iff in Hpc.
        destruct Hp as [-> ->]. destruct Hpc as [-> ->]. auto.
      - destruct (precedes e2 e2) eqn:E; [|reflexivity].
        apply precedes_iff in E. lia.
      - apply precedes_iff. split; [|exact Hl].
        apply partition_eqb_iff. apply Hsame, partition_eqb_iff in Hpc.
        destruct Hpc as [-> ->]. auto. }
    assert (Hb : (List.length (filter (precedes c) data)
                  < List.length (filter (precedes e1) data))%nat).
    { apply (filter_length_lt _ _ _ c); [|exact Hc| |].
      - intros x _ Hx. apply precedes_iff in Hx. destruct Hx as [Hp Hx].
        apply precedes_iff. split; [|lia].
        apply partition_eqb_iff. apply partition_eqb_iff in Hp.
        apply partition_eqb_iff in Hpc.
        destruct Hp as [-> ->]. destruct Hpc as [-> ->]. auto.
      - destruct (precedes c c) eqn:E; [|reflexivity].
        apply precedes_iff in E. lia.
      - apply precedes_iff. split; [exact Hpc | exact Hr]. }
    lia.
  - intros [Hlt Hfree].
    assert (Ha : (List.length (filter (precedes e2) data)
                  < List.length (filter (precedes e1) data))%nat).
    { apply (filter_length_lt _ _ _ e2); [|exact H2| |].
      - intros x _ Hx. apply precedes_iff in Hx. destruct Hx as [Hp Hx].
        apply precedes_iff. split; [apply Hsame; exact Hp | lia].
      - destruct (precedes e2 e2) eqn:E; [|reflexivity].
        apply precedes_iff in E. lia.
      - apply precedes_iff. split; [|exact Hlt].
        apply Hsame. apply Hrefl. }
    assert (Hb : (List.length (filter (precedes e1) data)
                  <= List.length (filter (precedes e2) data)
                     + List.length
                         (filter (fun x => mvyq_eqb (fst x) (fst e2)) data))%nat).
    { apply filter_length_cover. intros x Hx Hpx.
      apply precedes_iff in Hpx. destruct Hpx as [Hp Hpos].
      destruct (Z.lt_ge_cases (quarter_pos (key_quarter (fst x)))
                  (quarter_pos (key_quarter (fst e2)))) as [Hl|Hg].
      - left. apply precedes_iff. split; [apply Hsame; exact Hp | exact Hl].
      - right.
        assert (E : quarter_pos (key_quarter (fst x))
                    = quarter_pos (key_quarter (fst e2))).
        { destruct (Z.eq_dec (quarter_pos (key_quarter (fst x)))
                      (quarter_pos (key_quarter (fst e2)))) as [E|Hne];
            [exact E|].
          exfalso. apply (Hfree x Hx Hp). lia. }
        apply quarter_pos_inj in E. unfold mvyq_eqb.
        apply andb_true_iff. split; [apply Hsame; exact Hp|].
        apply yq_eqb_eq. exact E. }
    assert (Hc : (List.length
                    (filter (fun x => mvyq_eqb (fst x) (fst e2)) data)
                  <= 1)%nat).
    { apply (filter_key_length fst _ (fst e2)); [|exact Hnd].
      intros x _ Hx. unfold mvyq_eqb in Hx. apply andb_true_iff in Hx.
      destruct Hx as [Hp Hq]. apply partition_eqb_iff in Hp.
      apply yq_eqb_eq in Hq. destruct Hp as [Hp1 Hp2].
      destruct x as [[[[mx vx] yx] qx] sx], e2 as [[[[m2 v2] y2] q2] s2].
      simpl in *. injection Hq as -> ->. subst. reflexivity. }
    lia.
Qed.

Lemma mvyq_eqb_eq (a b : MvyqKey) : mvyq_eqb a b = true <-> a = b.
Proof.
  unfold mvyq_eqb. rewrite andb_true_iff, partition_eqb_iff, yq_eqb_eq.
  destruct a as [[[ma va] ya] qa], b as [[[mb vb] yb] qb]; simpl. split.
  - intros [[-> ->] E]. injection E as -> ->. reflexivity.
  - intros H. injection H as -> -> -> ->. auto.
Qed.

Lemma sql_quarterly_data_In (df : DataFrame) (k : MvyqKey) (s : N) :
  In (k, s) (sql_quarterly_data (rows df))
  <-> has_quarter df by_manufacturer
        [fst (fst (fst k)); snd (fst (fst k))] (key_quarter k)
      /\ s = quarter_sum df by_manufacturer
               [fst (fst (fst k)); snd (fst (fst k))] (key_quarter k).
Proof.
  unfold sql_quarterly_data.
  rewrite (groupby_In mvyq_eqb mvyq_leb _ mvyq_eqb_eq).
  destruct k as [[[mf vt] y] q]. unfold key_quarter. simpl.
  assert (E : total_registrations
                (group_rows mvyq_eqb
                   (fun r => (manufacturer r, vehicle_type r, year r,
                              quarter r))
                   (rows df) (mf, vt, y, q))
              = quarter_sum df by_manufacturer [mf; vt] (y, q)).
  { unfold quarter_sum, group_rows. f_equal. apply filter_ext. intros r.
    unfold mvyq_eqb, mvyq_partition_eqb, yq_eqb, by_manufacturer, group_of.
    simpl. rewrite andb_true_r. reflexivity. }
  rewrite E. unfold has_quarter, by_manufacturer, group_of. simpl.
  split; intros [[r [Hr H]] Hs]; (split; [exists r|exact Hs]).
  - injection H as -> -> -> ->. auto.
  - destruct H as [H [-> ->]]. injection H as -> ->. auto.
Qed.

Lemma sql_quarterly_data_NoDup (rs : list Row) :
  NoDup (map fst (sql_quarterly_data rs)).
Proof. apply (groupby_NoDup mvyq_eqb mvyq_leb _ mvyq_eqb_eq). Qed.

(** The rows of the per-manufacturer QoQ insert: one for every pair of
    chronologically consecutive quarters of a group. *)
Lemma qoq_manufacturer_rows_In (df : DataFrame) (row : StoredMetric) :
  In row (qoq_manufacturer_rows (rows df))
  <-> exists mf vt p1 p2,
        consecutive_quarters df by_manufacturer [mf; vt] p1 p2
        /\ row = mkStored "manufacturer" (mf ++ " (" ++ vt ++ ")") "qoq"
                   (str_Z (fst p2) ++ "-" ++ quarter_label (snd p2))
                   (Some (quarter_sum df by_manufacturer [mf; vt] p2))
                   (Some (quarter_sum df by_manufacturer [mf; vt] p1))
                   (sql_growth_rate
                      (quarter_sum df by_manufacturer [mf; vt] p2)
                      (Some (quarter_sum df by_manufacturer [mf; vt] p1)))
                   (sql_growth_absolute
                      (quarter_sum df by_manufacturer [mf; vt] p2)
                      (Some (quarter_sum df by_manufacturer [mf; vt] p1))).
Proof.
  unfold qoq_manufacturer_rows. cbv zeta. rewrite in_map_iff.
  pose proof (sql_quarterly_data_NoDup (rows df)) as Hnd.
  split.
  - intros [[q1 [q2|]] [<- Hin]]; apply filter_In in Hin;
      destruct Hin as [Hin Hsome]; [|discriminate].
    apply left_join_Some in Hin. destruct Hin as [H1 [H2 Hc]].
    apply andb_true_iff in Hc. destruct Hc as [Hpart Hstep].
    apply Z.eqb_eq in Hstep.
    apply (period_num_step _ _ _ Hnd H1 H2 Hpart) in Hstep.
    destruct Hstep as [Hlt Hfree].
    apply partition_eqb_iff in Hpart.
    destruct q1 as [[[[m1 v1] yr1] qr1] s1], q2 as [[[[m2 v2] yr2] qr2] s2].
    simpl in Hpart. destruct Hpart as [-> ->].
    pose proof H1 as H1'. pose proof H2 as H2'.
    apply sql_quarterly_data_In in H1'. apply sql_quarterly_data_In in H2'.
    unfold key_quarter in *. simpl in H1', H2', Hlt.
    destruct H1' as [Hq1 E1]. destruct H2' as [Hq2 E2].
    exists m2, v2, (yr2, qr2), (yr1, qr1). split.
    + split; [exact Hq2|]. split; [exact Hq1|].
      split; [apply earlier_pos; exact Hlt|].
      intros c Hc [Hac Hcb]. apply earlier_pos in Hac, Hcb.
      apply (Hfree (m2, v2, fst c, snd c,
                    quarter_sum df by_manufacturer [m2; v2] c)).
      * apply sql_quarterly_data_In. unfold key_quarter. simpl.
        destruct c as [yc qc]. simpl. auto.
      * apply partition_eqb_iff. simpl. auto.
      * simpl. destruct c as [yc qc]. simpl in *. lia.
    + simpl. rewrite E1, E2. reflexivity.
  - intros [mf [vt [[y1 q1] [[y2 q2] [[H1 [H2 [Hlt Hfree]]] ->]]]]].
    set (e1 := (mf, vt, y1, q1, quarter_sum df by_manufacturer [mf; vt] (y1, q1))).
    set (e2 := (mf, vt, y2, q2, quarter_sum df by_manufacturer [mf; vt] (y2, q2))).
    assert (Hin1 : In e1 (sql_quarterly_data (rows df))).
    { apply sql_quarterly_data_In. unfold key_quarter. simpl. auto. }
    assert (Hin2 : In e2 (sql_quarterly_data (rows df))).
    { apply sql_quarterly_data_In. unfold key_quarter. simpl. auto. }
    exists (e2, Some e1). split; [reflexivity|].
    apply filter_In. split; [|reflexivity].
    apply left_join_Some. split; [exact Hin2|]. split; [exact Hin1|].
    assert (Hpart : mvyq_partition_eqb (fst e2) (fst e1) = true).
    { apply partition_eqb_iff. simpl. auto. }
    apply andb_true_iff. split; [exact Hpart|]. apply Z.eqb_eq.
    apply (period_num_step _ _ _ Hnd Hin2 Hin1 Hpart).
    split; [apply earlier_pos in Hlt; exact Hlt|].
    intros [[[[mc vc] yc] qc] sc] Hc Hpc Hbetween.
    apply partition_eqb_iff in Hpc. simpl in Hpc. destruct Hpc as [-> ->].
    apply sql_quarterly_data_In in Hc. unfold key_quarter in Hc.
    simpl in Hc. destruct Hc as [Hc _].
    apply (Hfree (yc, qc) Hc).
    split; apply earlier_pos; unfold key_quarter in Hbetween;
      simpl in Hbetween; simpl; lia.
Qed.

(** X12. After [calculate_and_store_growth_metrics] the rows of metric type
    "qoq" are exactly one row for every manufacturer and category and every
    pair of chronologically consecutive recorded quarters of theirs: named
    "<manufacturer> (<category>)", labelled "<year>-<quarter>" of the later
    quarter, holding both quarterly sums, their difference, and the rounded
    rate (NULL when the earlier sum is 0).  Unlike the yearly rows, which
    need the calendar predecessor year, a gap in the quarters does not
    suppress the row. *)
Theorem stored_qoq_rows (df : DataFrame) (old : list StoredMetric)
    (row : StoredMetric) :
  (In row (growth_metrics
             (calculate_and_store_growth_metrics (store_of df old)))
   /\ metric_type row = "qoq")
  <-> exists mf vt p1 p2,
        consecutive_quarters df by_manufacturer [mf; vt] p1 p2
        /\ row = mkStored "manufacturer" (mf ++ " (" ++ vt ++ ")") "qoq"
                   (str_Z (fst p2) ++ "-" ++ quarter_label (snd p2))
                   (Some (quarter_sum df by_manufacturer [mf; vt] p2))
                   (Some (quarter_sum df by_manufacturer [mf; vt] p1))
                   (sql_growth_rate
                      (quarter_sum df by_manufacturer [mf; vt] p2)
                      (Some (quarter_sum df by_manufacturer [mf; vt] p1)))
                   (sql_growth_absolute
                      (quarter_sum df by_manufacturer [mf; vt] p2)
                      (Some (quarter_sum df by_manufacturer [mf; vt] p1))).
Proof.
  unfold calculate_and_store_growth_metrics, store_of.
  cbn [growth_metrics vehicle_registrations]. cbv zeta.
  rewrite <- qoq_manufacturer_rows_In. split.
  - intros [Hin Htype]. apply in_app_or in Hin.
    destruct Hin as [Hin|Hin].
    + apply in_map_iff in Hin. destruct Hin as [j [<- _]]. discriminate.
    + apply in_app_or in Hin. destruct Hin as [Hin|Hin]; [exact Hin|].
      apply in_map_iff in Hin. destruct Hin as [j [<- _]]. discriminate.
  - intros Hin. split.
    + apply in_or_app. right. apply in_or_app. left. exact Hin.
    + apply in_map_iff in Hin. destruct Hin as [j [<- _]]. reflexivity.
Qed.

Lemma stored_qoq_rows_witness :
  exists row,
    In row (growth_metrics
              (calculate_and_store_growth_metrics
                 (store_of scenario_quarter_gap [])))
    /\ metric_type row = "qoq"
    /\ entity_name row = "A (2W)"
    /\ stored_period row = "2021-Q3"
    /\ stored_current row = Some 125%N
    /\ stored_previous row = Some 100%N.
Proof.
  assert (Hin : In (mkStored "manufacturer" "A (2W)" "qoq" "2021-Q3"
                      (Some 125%N) (Some 100%N) (Some (2500 # 100)) 25)
                   (growth_metrics
                      (calculate_and_store_growth_metrics
                         (store_of scenario_quarter_gap []))))
    by (vm_compute; right; left; reflexivity).
  destruct (proj1 (stored_qoq_rows scenario_quarter_gap [] _)
                  (conj Hin eq_refl)) as (mf & vt & p1 & p2 & _ & E).
  eexists. split; [exact Hin|]. repeat split.
Defined.

Lemma manufacturer_group (df : DataFrame) (g : list string)
    (p : Z * Quarter) :
  has_quarter df by_manufacturer g p -> exists mf vt, g = [mf; vt].
Proof.
  intros [r [_ [<- _]]]. exists (manufacturer r), (vehicle_type r).
  reflexivity.
Qed.

Lemma qoq_rows_stored (df : DataFrame) (old : list StoredMetric)
    (row : StoredMetric) :
  In row (qoq_manufacturer_rows (rows df))
  <-> In row (growth_metrics
                (calculate_and_store_growth_metrics (store_of df old)))
      /\ metric_type row = "qoq".
Proof.
  unfold calculate_and_store_growth_metrics, store_of.
  cbn [growth_metrics vehicle_registrations]. cbv zeta. split.
  - intros Hin. split.
    + apply in_or_app. right. apply in_or_app. left. exact Hin.
    + apply in_map_iff in Hin. destruct Hin as [j [<- _]]. reflexivity.
  - intros [Hin Htype]. apply in_app_or in Hin.
    destruct Hin as [Hin|Hin].
    + apply in_map_iff in Hin. destruct Hin as [j [<- _]]. discriminate.
    + apply in_app_or in Hin. destruct Hin as [Hin|Hin]; [exact Hin|].
      apply in_map_iff in Hin. destruct Hin as [j [<- _]]. discriminate.
Qed.

(** C6, amended.  The growth computation never raises an arithmetic fault.
    The in-memory calculator returns only metrics with a positive previous
    value, so a step whose previous sum is zero yields no metric.  The
    store's recomputation gives every stored row whose previous value is
    zero a null growth rate, and it stores such a row for every year of a
    manufacturer and category, and of a category, whose preceding calendar
    year is recorded and sums to zero, and for every pair of consecutive
    recorded quarters of a manufacturer and category whose earlier quarter
    sums to zero. *)
Theorem zero_previous_skipped_or_null (df : DataFrame) (pt : GrowthPeriod)
    (group_by : list column) (old : list StoredMetric) :
  calculate_growth_metrics df pt group_by <> Raise ZeroDivisionError
  /\ (forall ms m,
        calculate_growth_metrics df pt group_by = Ok ms -> In m ms ->
        (0 < previous_value m)%N)
  /\ (forall row,
        In row (growth_metrics
                  (calculate_and_store_growth_metrics (store_of df old))) ->
        stored_previous row = Some 0%N -> stored_growth_rate row = None)
  /\ (forall mf vt y,
        has_year df by_manufacturer [mf; vt] (y - 1) ->
        has_year df by_manufacturer [mf; vt] y ->
        year_sum df by_manufacturer [mf; vt] (y - 1) = 0%N ->
        exists row,
          In row (growth_metrics
                    (calculate_and_store_growth_metrics (store_of df old)))
          /\ entity_type row = "manufacturer"
          /\ entity_name row = (mf ++ " (" ++ vt ++ ")")%string
          /\ metric_type row = "yoy"
          /\ stored_period row = str_Z y
          /\ stored_previous row = Some 0%N
          /\ stored_growth_rate row = None)
  /\ (forall vt y,
        has_year df [col_vehicle_type] [vt] (y - 1) ->
        has_year df [col_vehicle_type] [vt] y ->
        year_sum df [col_vehicle_type] [vt] (y - 1) = 0%N ->
        exists row,
          In row (growth_metrics
                    (calculate_and_store_growth_metrics (store_of df old)))
          /\ entity_type row = "vehicle_type"
          /\ entity_name row = vt
          /\ metric_type row = "yoy"
          /\ stored_period row = str_Z y
          /\ stored_previous row = Some 0%N
          /\ stored_growth_rate row = None)
  /\ (forall mf vt p1 p2,
        consecutive_quarters df by_manufacturer [mf; vt] p1 p2 ->
        quarter_sum df by_manufacturer [mf; vt] p1 = 0%N ->
        exists row,
          In row (growth_metrics
                    (calculate_and_store_growth_metrics (store_of df old)))
          /\ entity_type row = "manufacturer"
          /\ entity_name row = (mf ++ " (" ++ vt ++ ")")%string
          /\ metric_type row = "qoq"
          /\ stored_period row
             = (str_Z (fst p2) ++ "-" ++ quarter_label (snd p2))%string
          /\ stored_previous row = Some 0%N
          /\ stored_growth_rate row = None).
Proof.
  split; [apply calculate_growth_metrics_no_fault|].
  split; [|split; [apply stored_rows_null_rate|split; [|split]]].
  - unfold calculate_growth_metrics. intros ms m H Hm.
    apply bind_Ok_inv in H. destruct H as [emitted [Hrows H]].
    injection H as <-. revert Hm. apply rank_metrics_previous.
    intros m'. apply growth_rows_previous with (1 := Hrows).
  - intros mf vt y H1 H2 Hzero.
    eexists. split.
    + unfold calculate_and_store_growth_metrics, store_of. simpl.
      apply in_or_app. left. apply yoy_manufacturer_rows_In.
      exists mf, vt, y. split; [exact H1|]. split; [exact H2|]. reflexivity.
    + simpl. rewrite Hzero. auto 10.
  - intros vt y H1 H2 Hzero.
    eexists. split.
    + unfold calculate_and_store_growth_metrics, store_of.
      cbn [growth_metrics vehicle_registrations]. cbv zeta.
      apply in_or_app. right. apply in_or_app. right.
      apply vehicle_type_yoy_rows_In.
      exists vt, y. split; [exact H1|]. split; [exact H2|]. reflexivity.
    + simpl. rewrite Hzero. auto 10.
  - intros mf vt p1 p2 Hc Hzero.
    eexists. split.
    + apply (qoq_rows_stored df old). apply qoq_manufacturer_rows_In.
      exists mf, vt, p1, p2. split; [exact Hc|]. reflexivity.
    + simpl. rewrite Hzero. auto 10.
Qed.

Lemma zero_previous_skipped_or_null_witness :
  (forall ms m,
     calculate_growth_metrics scenario_zero_previous YOY by_manufacturer
     = Ok ms -> In m ms -> (0 < previous_value m)%N)
  /\ exists row,
       In row (growth_metrics
                 (calculate_and_store_growth_metrics
                    (store_of scenario_zero_previous [])))
       /\ entity_name row = "A (2W)"
       /\ stored_period row = "2021"
       /\ stored_previous row = Some 0%N
       /\ stored_growth_rate row = None.
Proof.
  destruct (zero_previous_skipped_or_null scenario_zero_previous YOY
              by_manufacturer [])
    as [_ [Hpos [_ [Hstore _]]]].
  split; [exact Hpos|].
  destruct (Hstore "A" "2W" 2021) as (row & Hin & _ & Hn & _ & Hp & Hz & Hr).
  - exists (record 2020 Q1 "2W" "A" 0). simpl. auto.
  - exists (record 2021 Q1 "2W" "A" 100). simpl. auto.
  - reflexivity.
  - exists row. auto.
Defined.

(** X13. The quarter-over-quarter rows of the store and the QoQ metrics of
    the in-memory calculator describe the same steps of every manufacturer
    and category: each metric has a stored row with the same period label,
    current and previous value and absolute growth, and the same rate unless
    the exact rate lies halfway between two values of two decimals; each
    stored row whose previous value is positive has such a metric. *)
Theorem qoq_store_agrees_with_calculator (df : DataFrame)
    (old : list StoredMetric) :
  exists ms,
    calculate_growth_metrics df QOQ by_manufacturer = Ok ms
    /\ (forall m, In m ms ->
          exists row mf vt,
            In row (growth_metrics
                      (calculate_and_store_growth_metrics (store_of df old)))
            /\ metric_type row = "qoq"
            /\ entity m = (mf ++ " - " ++ vt)%string
            /\ entity_name row = (mf ++ " (" ++ vt ++ ")")%string
            /\ stored_period row = period m
            /\ stored_current row = Some (current_value m)
            /\ stored_previous row = Some (previous_value m)
            /\ stored_growth_absolute row = growth_absolute m
            /\ exists r,
                 stored_growth_rate row = Some r
                 /\ (~ is_tie ((QofN (current_value m)
                                - QofN (previous_value m))
                               / QofN (previous_value m) * 100) 2 ->
                     (r == growth_rate m)%Q))
    /\ (forall row p,
          In row (growth_metrics
                    (calculate_and_store_growth_metrics (store_of df old))) ->
          metric_type row = "qoq" ->
          stored_previous row = Some p -> (0 < p)%N ->
          exists m,
            In m ms
            /\ period m = stored_period row
            /\ stored_current row = Some (current_value m)
            /\ previous_value m = p
            /\ growth_absolute m = stored_growth_absolute row).
Proof.
  destruct (qoq_growth_metrics_sound_complete df by_manufacturer)
    as [Hok [Hcomplete Hsound]]; [discriminate | reflexivity |].
  eexists. split; [exact Hok|]. split.
  - intros m Hm.
    destruct (Hsound m Hm) as (g & p1 & p2 & Hc & Hpos & Hmetric).
    destruct (manufacturer_group df g p1 (proj1 Hc)) as (mf & vt & ->).
    destruct Hmetric as (He & Hp & Hcur & Hprev & Hr & Ha).
    eexists. exists mf, vt.
    split; [|split].
    + apply (qoq_rows_stored df old). apply qoq_manufacturer_rows_In.
      exists mf, vt, p1, p2. split; [exact Hc | reflexivity].
    + reflexivity.
    + cbn [entity_name stored_period stored_current stored_previous
           stored_growth_absolute stored_growth_rate].
      rewrite He, Hp, Hcur, Hprev, Ha.
      split; [reflexivity|]. split; [reflexivity|]. split; [reflexivity|].
      split; [reflexivity|]. split; [reflexivity|]. split; [reflexivity|].
      unfold sql_growth_rate.
      apply N.ltb_lt in Hpos. rewrite Hpos. eexists. split; [reflexivity|].
      intros Htie. rewrite Hr. apply round_modes_agree; [|exact Htie].
      apply N.ltb_lt, QofN_pos in Hpos. field. exact Hpos.
  - intros row p Hin Htype Hprev Hpos.
    pose proof (proj2 (qoq_rows_stored df old row) (conj Hin Htype)) as Hq.
    clear Hin. apply qoq_manufacturer_rows_In in Hq. rename Hq into Hin.
    destruct Hin as (mf & vt & p1 & p2 & Hc & ->).
    cbn [stored_previous] in Hprev. injection Hprev as <-.
    destruct (Hcomplete [mf; vt] p1 p2 Hc Hpos)
      as (m & Hm & He & Hp & Hcur & Hpv & Hr & Ha).
    exists m. split; [exact Hm|].
    cbn [stored_period stored_current stored_growth_absolute].
    rewrite Hp, Hcur, Hpv, Ha. repeat split; reflexivity.
Qed.

Lemma qoq_store_agrees_with_calculator_witness :
  exists m row,
    calculate_growth_metrics scenario_quarter_gap QOQ by_manufacturer = Ok [m]
    /\ In row (growth_metrics
                 (calculate_and_store_growth_metrics
                    (store_of scenario_quarter_gap [])))
    /\ metric_type row = "qoq"
    /\ stored_period row = period m
    /\ stored_current row = Some (current_value m)
    /\ stored_previous row = Some (previous_value m).
Proof.
  destruct (qoq_store_agrees_with_calculator scenario_quarter_gap [])
    as (ms & Hms & Hto & _).
  assert (E : calculate_growth_metrics scenario_quarter_gap QOQ
                by_manufacturer
              = Ok [mkMetric "A - 2W" "2021-Q3" 125 100 (2500 # 100) 25 1])
    by (vm_compute; reflexivity).
  rewrite E in Hms. injection Hms as <-.
  destruct (Hto _ (or_introl eq_refl))
    as (row & mf & vt & Hin & Ht & _ & _ & Hp & Hc & Hv & _).
  eexists. exists row. split; [exact E|]. repeat split; assumption.
Defined.

(** ** The forecast of a linear history *)

Lemma Qsquare_pos (x : Q) : ~ (x == 0)%Q -> (0 < x * x)%Q.
Proof.
  intros Hx. destruct (Q_dec x 0) as [[Hneg|Hpos]|Heq]; [| |contradiction].
  - setoid_replace (x * x)%Q with ((- x) * (- x))%Q by ring.
    apply Qmult_lt_0_compat; lra.
  - apply Qmult_lt_0_compat; assumption.
Qed.

Lemma sumQ_sq_deviation_pos (a : Q) (l : list Q) :
  (exists x, In x l /\ ~ (x == a)%Q) ->
  (0 < inject_Z (Z.of_nat (List.length l)) * (a * a)
       - 2 * a * sumQ l + sumQ (map (fun q => q * q) l))%Q.
Proof.
  induction l as [|q l IH]; intros [x [Hx Hne]]; [destruct Hx|].
  pose proof (sumQ_sq_deviation a l) as Hdev.
  assert (Hcase : (0 < (a - q) * (a - q))%Q
                  \/ (0 < inject_Z (Z.of_nat (List.length l)) * (a * a)
                          - 2 * a * sumQ l
                          + sumQ (map (fun q => q * q) l))%Q).
  { destruct Hx as [->|Hx].
    - left. apply Qsquare_pos. intros E. apply Hne. lra.
    - right. apply IH. exists x. split; assumption. }
  pose proof (Qsquare_nonneg (a - q)) as Hsq.
  rewrite inject_length_cons. cbn [map sumQ fold_right].
  fold (sumQ l). fold (sumQ (map (fun q => q * q)%Q l)).
  set (n := inject_Z (Z.of_nat (List.length l))) in *. clearbody n.
  set (s1 := sumQ l) in *. clearbody s1.
  set (s2 := sumQ (map (fun q => q * q)%Q l)) in *. clearbody s2.
  destruct Hcase; lra.
Qed.

(** Values that are not all equal have a positive variance. *)
Lemma variance_pos (q : Q) (l : list Q) :
  (exists x, In x l /\ ~ (x == q)%Q) ->
  (0 < inject_Z (Z.of_nat (List.length (q :: l)))
       * sumQ (map (fun a => a * a) (q :: l))
       - sumQ (q :: l) * sumQ (q :: l))%Q.
Proof.
  intros Hx. pose proof (sumQ_sq_deviation_pos q l Hx) as Hdev.
  pose proof (sumQ_sq_mean l) as Hmean.
  rewrite inject_length_cons. cbn [map sumQ fold_right].
  fold (sumQ l). fold (sumQ (map (fun q => q * q)%Q l)).
  set (n := inject_Z (Z.of_nat (List.length l))) in *. clearbody n.
  set (s1 := sumQ l) in *. clearbody s1.
  set (s2 := sumQ (map (fun q => q * q)%Q l)) in *. clearbody s2.
  lra.
Qed.

Lemma line_sums (a b : Q) (x y : list Q) :
  Forall2 (fun xi yi => yi == a + b * xi)%Q x y ->
  (sumQ y == inject_Z (Z.of_nat (List.length x)) * a + b * sumQ x)%Q
  /\ (sumQ (map (fun ab => fst ab * snd ab) (combine x y))
      == a * sumQ x + b * sumQ (map (fun c => c * c) x))%Q.
Proof.
  induction 1 as [|xi yi x y Hxy _ [IH1 IH2]].
  - simpl. change (inject_Z 0) with 0%Q. split; ring.
  - rewrite inject_length_cons. cbn [map sumQ fold_right combine fst snd].
    fold (sumQ x). fold (sumQ y).
    fold (sumQ (map (fun c => c * c)%Q x)).
    fold (sumQ (map (fun ab : Q * Q => fst ab * snd ab)%Q (combine x y))).
    rewrite IH1, IH2, Hxy. split; ring.
Qed.

(** Least squares on points of a line returns the line. *)
Lemma polyfit1_line (a b : Q) (x y : list Q) :
  Forall2 (fun xi yi => yi == a + b * xi)%Q x y ->
  (0 < inject_Z (Z.of_nat (List.length x))
       * sumQ (map (fun c => c * c) x) - sumQ x * sumQ x)%Q ->
  (fst (polyfit1 x y) == b)%Q /\ (snd (polyfit1 x y) == a)%Q.
Proof.
  intros Hline Hvar. destruct (line_sums a b x y Hline) as [Hsy Hsxy].
  unfold polyfit1. cbv zeta. cbn [fst snd].
  set (n := inject_Z (Z.of_nat (List.length x))) in *.
  set (sx := sumQ x) in *. set (sy := sumQ y) in *.
  set (sxx := sumQ (map (fun c => c * c)%Q x)) in *.
  set (sxy := sumQ (map (fun ab : Q * Q => fst ab * snd ab)%Q
                        (combine x y))) in *.
  assert (Hn : (0 < n)%Q).
  { destruct x as [|x0 x']; [simpl in Hvar; unfold n, sx, sxx in Hvar;
                             simpl in Hvar; lra|].
    unfold n, Qlt. simpl. lia. }
  clearbody n sx sy sxx sxy.
  assert (Hslope : ((n * sxy - sx * sy) / (n * sxx - sx * sx) == b)%Q).
  { rewrite Hsy, Hsxy. field. lra. }
  split; [exact Hslope|].
  rewrite Hslope, Hsy. field. lra.
Qed.

Lemma py_int_floor (v : Q) :
  py_int v = if Qlt_le_dec v 0 then - Qfloor (- v) else Qfloor v.
Proof.
  unfold py_int. destruct v as [n d]. cbn [Qnum Qden].
  destruct (Qlt_le_dec (n # d) 0) as [Hneg|Hpos].
  - assert (Hn : n < 0) by (unfold Qlt in Hneg; simpl in Hneg; lia).
    replace n with (- (- n)) at 1 by lia.
    rewrite Z.quot_opp_l by discriminate.
    rewrite Z.quot_div_nonneg by lia. reflexivity.
  - assert (Hn : 0 <= n) by (unfold Qle in Hpos; simpl in Hpos; lia).
    rewrite Z.quot_div_nonneg by lia. reflexivity.
Qed.

Lemma py_int_compat (v w : Q) : (v == w)%Q -> py_int v = py_int w.
Proof.
  intros E. rewrite !py_int_floor.
  destruct (Qlt_le_dec v 0), (Qlt_le_dec w 0); try lra.
  - f_equal. apply Qfloor_comp. rewrite E. reflexivity.
  - apply Qfloor_comp. exact E.
Qed.

Lemma period_index_inj (m : Z) (a b : Z * Quarter) :
  period_index m a = period_index m b -> a = b.
Proof.
  unfold period_index. destruct a as [ya qa], b as [yb qb]. simpl.
  destruct qa, qb; simpl; intros H; try lia;
    (replace ya with yb by lia); reflexivity.
Qed.

Lemma forecast_x_NoDup (df : DataFrame) (vt : string) :
  NoDup (forecast_x df vt).
Proof.
  unfold forecast_x. cbv zeta.
  apply (NoDup_map_finer fst).
  - intros e e' _ _ H. apply period_index_inj in H. exact H.
  - apply (groupby_NoDup yq_eqb yq_leb _ yq_eqb_eq).
Qed.

Lemma forecast_xy_length (df : DataFrame) (vt : string) :
  List.length (forecast_x df vt) = List.length (forecast_y df vt)
  /\ List.length (forecast_x df vt) = List.length (distinct_quarters df vt).
Proof.
  unfold forecast_x, forecast_y, distinct_quarters, quarterly_sums.
  cbv zeta. rewrite !length_map. split; [reflexivity|].
  apply groupby_length.
Qed.

Lemma Forall2_combine {A B : Type} (R : A -> B -> Prop) (x : list A)
    (y : list B) :
  List.length x = List.length y ->
  (forall p, In p (combine x y) -> R (fst p) (snd p)) ->
  Forall2 R x y.
Proof.
  revert y. induction x as [|a x IH]; intros [|b y] Hlen H;
    try discriminate; constructor.
  - apply (H (a, b)). left. reflexivity.
  - apply IH; [simpl in Hlen; lia|]. intros p Hp. apply H. right. exact Hp.
Qed.

Lemma Forall2_map {A B C D : Type} (R : C -> D -> Prop) (f : A -> C)
    (g : B -> D) (x : list A) (y : list B) :
  Forall2 (fun a b => R (f a) (g b)) x y -> Forall2 R (map f x) (map g y).
Proof. induction 1; simpl; constructor; assumption. Qed.

(** The fitted line of a category whose quarterly sums lie on a line. *)
Lemma forecast_line_exact (df : DataFrame) (vt : string) (a b : Q) :
  (4 <= List.length (distinct_quarters df vt))%nat ->
  (forall x y, In (x, y) (combine (forecast_x df vt) (forecast_y df vt)) ->
               (QofN y == a + b * inject_Z x)%Q) ->
  (fst (forecast_line df vt) == b)%Q /\ (snd (forecast_line df vt) == a)%Q.
Proof.
  intros Hlen Hline. unfold forecast_line.
  destruct (forecast_xy_length df vt) as [Hxy Hx].
  pose proof (forecast_x_NoDup df vt) as Hnd.
  apply polyfit1_line.
  - apply Forall2_map. apply Forall2_combine; [exact Hxy|].
    intros [x y] Hp. apply Hline. exact Hp.
  - destruct (forecast_x df vt) as [|x0 [|x1 xs]];
      [simpl in Hx; lia | simpl in Hx; lia |].
    cbn [map]. apply variance_pos. exists (inject_Z x1).
    split; [left; reflexivity|].
    intros E. unfold Qeq in E. simpl in E.
    inversion Hnd as [|? ? Hnotin _]; subst. apply Hnotin. left. lia.
Qed.

Lemma sumQ_all_zero (l : list Q) :
  (forall e, In e l -> (e == 0)%Q) -> (sumQ l == 0)%Q.
Proof.
  induction l as [|e l IH]; intros H; [reflexivity|].
  unfold sumQ in *. cbn [fold_right].
  rewrite (H e) by (left; reflexivity).
  rewrite IH by (intros e' He'; apply H; right; exact He'). reflexivity.
Qed.

(** Residuals that all vanish have no deviation. *)
Lemma zero_deviation (df : DataFrame) (vt : string) :
  (forall e, In e (forecast_residuals df vt) -> (e == 0)%Q) ->
  (residual_variance df vt == 0)%Q.
Proof.
  intros Hres. unfold residual_variance. cbv zeta.
  set (l := forecast_residuals df vt) in *. clearbody l.
  pose proof (sumQ_all_zero l Hres) as Hsum.
  rewrite sumQ_all_zero; [unfold Qdiv; ring|].
  intros x Hx. apply in_map_iff in Hx. destruct Hx as [e [<- He]].
  rewrite (Hres e He), Hsum. unfold Qdiv. ring.
Qed.

Lemma forecast_room_nonneg (df : DataFrame) (vt : string) (v : Q) :
  (0 <= forecast_room df vt v)%Q.
Proof.
  unfold forecast_room, float_slack.
  pose proof (Qmag_nonneg v) as Hm.
  assert (Ht : (0 <= QofN (category_total df vt))%Q)
    by (unfold QofN; change 0%Q with (inject_Z 0); rewrite <- Zle_Qle; lia).
  apply Qmult_le_0_compat; lra.
Qed.

(** X14. When the quarterly sums of a category with at least four recorded
    quarters lie exactly on a line [a + b * period], [forecast_registrations]
    returns that line up to the float evaluation of the fit: the trend slope
    is [b] within one part in a thousand million, every forecast value is a
    non-negative integer between the line's value less 1 and the greater of
    0 and the line's value (where the line's value is a whole number the
    float fit may give it or the number below), the trend is "Positive" when
    [b] is above the float room and "Negative" when it is below its
    negative, and the confidence interval is a square root of nearly 0.
    Periods count calendar quarters from the first quarter of the category's
    first year, so a missing quarter leaves a gap in them. *)
Theorem forecast_recovers_line (sqrt : Q -> Q) (df : DataFrame)
    (periods : Z) (vt : string) (a b : Q) :
  In vt (vehicle_types df) ->
  (4 <= List.length (distinct_quarters df vt))%nat ->
  (forall x y, In (x, y) (combine (forecast_x df vt) (forecast_y df vt)) ->
               (QofN y == a + b * inject_Z x)%Q) ->
  exists out f,
    forecast_registrations sqrt df periods = Ok out
    /\ In (vt, f) out
    /\ close_to b (trend_slope f)
    /\ Forall2
         (fun p v =>
            0 <= v
            /\ (a + b * inject_Z p - 1 - forecast_room df vt (a + b * inject_Z p)
                <= inject_Z v
                <= Qmax 0 (a + b * inject_Z p)
                   + forecast_room df vt (a + b * inject_Z p))%Q)
         (forecast_periods df vt periods) (forecast_values f)
    /\ ((forecast_room df vt b < b)%Q -> growth_trend f = "Positive")
    /\ ((b < - forecast_room df vt b)%Q -> growth_trend f = "Negative")
    /\ ((0 <= sqrt (residual_variance df vt))%Q ->
        close_to (residual_variance df vt)
                 (sqrt (residual_variance df vt)
                  * sqrt (residual_variance df vt)) ->
        (0 <= confidence_interval f)%Q
        /\ ((confidence_interval f / (196 # 100))
            * (confidence_interval f / (196 # 100)) <= float_slack)%Q).
Proof.
  intros Hvt Hlen Hline.
  destruct (forecast_line_exact df vt a b Hlen Hline) as [Hslope Hicpt].
  exists (map (fun vt => (vt, forecast_value sqrt df periods vt))
              (filter (has_enough_history df) (vehicle_types df))).
  exists (forecast_value sqrt df periods vt).
  split; [apply forecast_registrations_Ok|]. split.
  { apply in_map_iff. exists vt. split; [reflexivity|].
    apply filter_In. split; [exact Hvt|].
    unfold has_enough_history. apply Nat.leb_le. exact Hlen. }
  unfold forecast_value.
  cbn [trend_slope forecast_values growth_trend confidence_interval].
  split; [apply close_to_refl; exact Hslope|]. split; [|split; [|split]].
  - induction (forecast_periods df vt periods) as [|p ps IH]; [constructor|].
    cbn [map]. constructor; [|exact IH]. split; [apply Z.le_max_l|].
    destruct (truncated_floor_bounds (projection df vt p)) as [Hlo Hhi].
    pose proof (forecast_room_nonneg df vt (a + b * inject_Z p)) as Hroom.
    assert (E : (projection df vt p == a + b * inject_Z p)%Q).
    { unfold projection. rewrite Hslope, Hicpt. ring. }
    set (P := projection df vt p) in *.
    set (v := inject_Z (Z.max 0 (py_int P))) in *.
    set (room := forecast_room df vt (a + b * inject_Z p)) in *.
    set (L := (a + b * inject_Z p)%Q) in *.
    clearbody P v room L. unfold Qmax in *.
    destruct (Qlt_le_dec 0 P), (Qlt_le_dec 0 L); split; lra.
  - intros Hb. pose proof (forecast_room_nonneg df vt b) as Hroom.
    destruct (Qlt_le_dec 0 (fst (forecast_line df vt))); [reflexivity | lra].
  - intros Hb. pose proof (forecast_room_nonneg df vt b) as Hroom.
    destruct (Qlt_le_dec 0 (fst (forecast_line df vt))); [lra | reflexivity].
  - change (np_std sqrt (forecast_residuals df vt))
      with (sqrt (residual_variance df vt)).
    assert (Hzero : (residual_variance df vt == 0)%Q).
    { apply zero_deviation. intros e He.
      unfold forecast_residuals in He. apply in_map_iff in He.
      destruct He as [[x y] [<- Hin]]. cbn [fst snd].
      unfold projection. rewrite Hslope, Hicpt, (Hline x y Hin). ring. }
    set (v := residual_variance df vt) in *. set (s := sqrt v) in *.
    intros Hs Hclose. split; [apply Qmult_le_0_compat; lra|].
    unfold close_to in Hclose.
    assert (E : (s * (196 # 100) / (196 # 100)
                 * (s * (196 # 100) / (196 # 100)) == s * s)%Q) by field.
    rewrite E.
    assert (Hmv : (Qmag v == 0)%Q).
    { unfold Qmag. destruct (Qlt_le_dec v 0); lra. }
    assert (Hd : (s * s - v <= Qmag (s * s - v))%Q).
    { unfold Qmag. destruct (Qlt_le_dec (s * s - v) 0); lra. }
    rewrite Hmv in Hclose. unfold float_slack in *.
    set (d := Qmag (s * s - v)) in *. clearbody d s v. lra.
Qed.

Lemma forecast_recovers_line_witness :
  exists f,
    forecast_registrations sqrt_10 scenario_linear 4 = Ok [("4W", f)]
    /\ close_to 50 (trend_slope f)
    /\ growth_trend f = "Positive"
    /\ Forall (fun v => 1249 <= v <= 1400) (forecast_values f).
Proof.
  assert (Hvt : In "4W" (vehicle_types scenario_linear))
    by (vm_compute; left; reflexivity).
  assert (Hlen : (4 <= List.length (distinct_quarters scenario_linear "4W"))%nat)
    by (vm_compute; lia).
  assert (Hline : forall x y,
            In (x, y) (combine (forecast_x scenario_linear "4W")
                               (forecast_y scenario_linear "4W")) ->
            (QofN y == 1000 + 50 * inject_Z x)%Q).
  { intros x y H. vm_compute in H.
    repeat (destruct H as [H|H]; [injection H as <- <-; reflexivity|]).
    destruct H. }
  destruct (forecast_recovers_line sqrt_10 scenario_linear 4 "4W"
              1000 50 Hvt Hlen Hline)
    as (out & f & Hout & Hin & Hs & _ & Ht & _).
  assert (E : forecast_registrations sqrt_10 scenario_linear 4
              = Ok [("4W", forecast_value sqrt_10 scenario_linear 4 "4W")])
    by (vm_compute; reflexivity).
  rewrite E in Hout. injection Hout as <-.
  destruct Hin as [Hin|[]]. injection Hin as <-.
  eexists. split; [exact E|]. split; [exact Hs|].
  split; [apply Ht; vm_compute; reflexivity|].
  vm_compute. repeat constructor; discriminate.
Defined.

(** ** Ceilings of the scorecard *)

Lemma category_frame_rows (df : DataFrame) (vt : string) :
  category_rows (category_frame df vt) vt = category_rows df vt.
Proof.
  unfold category_rows, category_frame, select. cbn [rows].
  induction (rows df) as [|r rs IH]; [reflexivity|]. simpl.
  destruct (String.eqb (vehicle_type r) vt) eqn:E; simpl;
    [rewrite E, IH; reflexivity | exact IH].
Qed.

Lemma py_round1_upper (x : Q) (b : Z) :
  (x <= inject_Z b)%Q -> (py_round x 1 <= inject_Z b)%Q.
Proof.
  intros Hb. unfold py_round. cbv zeta.
  change (inject_Z (10 ^ Z.of_nat 1)) with 10%Q.
  assert (H : round_half_even (x * 10) <= b * 10).
  { apply round_half_even_upper. rewrite inject_Z_mult.
    change (inject_Z 10) with 10%Q. lra. }
  apply Qle_shift_div_r; [reflexivity|].
  rewrite Zle_Qle, inject_Z_mult in H. exact H.
Qed.

(** The HHI of a category with registrations, against its number of
    distinct manufacturers. *)
Lemma hhi_lower_bound (df : DataFrame) (vt : string) (r : Row) :
  In r (category_rows df vt) -> (0 < registrations r)%N ->
  (10000 <= inject_Z (total_manufacturers (concentration_value df vt))
            * hhi_index (concentration_value df vt))%Q
  /\ (0 < hhi_index (concentration_value df vt))%Q.
Proof.
  intros Hr Hpos. unfold concentration_value. cbv zeta.
  cbn [total_manufacturers hhi_index]. rewrite sum_skipna_squares.
  pose proof (category_shares_sum df vt) as Hsum.
  pose proof (sumQ_sq_mean (share_values (category_shares df vt))) as Hcs.
  pose proof (category_total_pos df vt r Hr Hpos) as Ht.
  rewrite (category_share_values_length df vt Ht) in Hcs.
  apply N.eqb_neq in Ht. rewrite Ht in Hsum.
  set (n := inject_Z (Z.of_nat (List.length (category_shares df vt)))) in *.
  set (h := sumQ (map (fun q => q * q)%Q
                      (share_values (category_shares df vt)))) in *.
  set (s := sumQ (share_values (category_shares df vt))) in *.
  assert (Hn : (0 <= n)%Q) by (unfold n, Qle; simpl; lia).
  clearbody n h s.
  assert (Hs : (s * s == 10000)%Q) by (rewrite Hsum; reflexivity).
  split; [lra | nra].
Qed.

(** X15. Ceilings of [generate_investment_scorecard].  A category whose
    records all fall into one year, and which has a registration, gets no
    growth score, so its overall score is at most 60 and its recommendation
    is "Hold" or "Avoid".  Without a fuel_type column the innovation
    potential is 50, and the category "3W" is then never a "Strong Buy".
    A category with registrations from a single manufacturer has competition
    intensity 0. *)
Theorem scorecard_ceilings (df : DataFrame)
    (out : list (string * Scorecard)) (vt : string) (sc : Scorecard) :
  generate_investment_scorecard df = Ok out -> In (vt, sc) out ->
  ((forall r r', In r (category_rows df vt) -> In r' (category_rows df vt) ->
                 year r = year r') ->
   (exists r, In r (category_rows df vt) /\ (0 < registrations r)%N) ->
   (overall_score sc <= 60)%Q
   /\ (recommendation sc = "Hold - Mixed signals, monitor closely"
       \/ recommendation sc = "Avoid - Challenging market conditions"))
  /\ (has_fuel_type df = false ->
      (innovation_potential sc == 50)%Q
      /\ (vt = "3W" ->
          recommendation sc
          <> "Strong Buy - High growth potential with favorable market dynamics"))
  /\ (total_manufacturers (concentration_value df vt) = 1 ->
      (exists r, In r (category_rows df vt) /\ (0 < registrations r)%N) ->
      (competition_intensity sc == 0)%Q).
Proof.
  rewrite generate_investment_scorecard_Ok. intros E Hin.
  injection E as <-. apply in_map_iff in Hin.
  destruct Hin as [vt' [E _]]. cbv beta in E. injection E as -> <-.
  destruct (category_scores_bounds df vt) as [Hg [Hs [Hc Hi]]].
  assert (Hcv : concentration_value (category_frame df vt) vt
                = concentration_value df vt).
  { unfold concentration_value, category_shares.
    rewrite category_frame_rows. reflexivity. }
  unfold scorecard_value. cbv zeta.
  cbn [overall_score recommendation innovation_potential
       competition_intensity].
  assert (Hsize : (inject_Z (size_score (category_scores df vt)) <= 100)%Q).
  { destruct Hs as [-> | [-> | ->]]; unfold Qle; simpl; lia. }
  split; [|split].
  - intros Hsingle [r [Hr Hpos]].
    assert (Hnone : category_yoy_metrics df vt = []).
    { unfold category_yoy_metrics. apply single_year_no_metrics;
        [discriminate | reflexivity |].
      intros r1 r2 H1 H2 _. apply Hsingle; assumption. }
    destruct (hhi_lower_bound df vt r Hr Hpos) as [_ Hh].
    assert (Hw : (weighted_score (category_scores df vt) < 60)%Q).
    { unfold weighted_score.
      unfold category_scores in *.
      cbn [growth_score size_score competition_score innovation_score] in *.
      rewrite Hnone. cbn [map np_mean growth_score_of].
      rewrite Hcv in *.
      set (h := hhi_index (concentration_value df vt)) in *. clearbody h.
      assert (Hd : (h / 50 == h * (1 # 50))%Q) by (field; discriminate).
      assert (Hcomp : (Qmax 0 (100 - h / 50) < 100)%Q).
      { unfold Qmax. destruct (Qlt_le_dec 0 (100 - h / 50)); lra. }
      set (c := Qmax 0 (100 - h / 50)) in *. clearbody c.
      set (i := innovation_score_of (category_frame df vt)) in *.
      clearbody i.
      set (z := inject_Z (size_percentile_of vt)) in *. clearbody z.
      clear Hd Hs Hg Hcv Hsingle Hnone. lra. }
    split.
    + apply (py_round1_upper _ 60). apply Qlt_le_weak. exact Hw.
    + unfold recommendation_of.
      destruct (Qlt_le_dec (weighted_score (category_scores df vt)) 75);
        [|lra].
      destruct (Qlt_le_dec (weighted_score (category_scores df vt)) 60);
        [|lra].
      destruct (Qlt_le_dec (weighted_score (category_scores df vt)) 40);
        auto.
  - intros Hfuel.
    assert (Hinn : innovation_score (category_scores df vt) = 50%Q).
    { unfold category_scores. cbn [innovation_score].
      unfold innovation_score_of, category_frame, select.
      cbn [has_fuel_type]. rewrite Hfuel. reflexivity. }
    split; [rewrite Hinn; reflexivity|].
    intros -> Hrec. apply strong_buy_score in Hrec.
    unfold weighted_score in Hrec. rewrite Hinn in Hrec.
    unfold category_scores in Hrec, Hg, Hc.
    cbn [growth_score size_score competition_score] in Hrec, Hg, Hc.
    change (size_percentile_of "3W") with 33 in Hrec.
    change (inject_Z 33) with 33%Q in Hrec.
    set (g := growth_score_of _) in *. clearbody g.
    set (c := Qmax 0 _) in *. clearbody c.
    lra.
  - intros Hone [r [Hr Hpos]].
    destruct (hhi_lower_bound df vt r Hr Hpos) as [Hlow _].
    rewrite Hone in Hlow. change (inject_Z 1) with 1%Q in Hlow.
    unfold category_scores. cbn [competition_score]. rewrite Hcv.
    set (h := hhi_index (concentration_value df vt)) in *. clearbody h.
    assert (Hd : (h / 50 == h * (1 # 50))%Q) by (field; discriminate).
    assert (Hz : Qmax 0 (100 - h / 50) = 0%Q).
    { unfold Qmax. destruct (Qlt_le_dec 0 (100 - h / 50)); [lra|reflexivity]. }
    rewrite Hz. reflexivity.
Qed.

Lemma scorecard_ceilings_witness :
  exists sc,
    generate_investment_scorecard scenario_single_year = Ok [("2W", sc)]
    /\ (overall_score sc <= 60)%Q
    /\ (innovation_potential sc == 50)%Q.
Proof.
  assert (E : generate_investment_scorecard scenario_single_year
              = Ok [("2W", scorecard_value scenario_single_year "2W")])
    by (vm_compute; reflexivity).
  destruct (scorecard_ceilings scenario_single_year _ "2W" _ E
              (or_introl eq_refl)) as (Hyear & Hfuel & _).
  eexists. split; [exact E|]. split.
  - apply Hyear.
    + intros r r' Hr Hr'. simpl in Hr, Hr'.
      destruct Hr as [<-|[<-|[]]]; destruct Hr' as [<-|[<-|[]]]; reflexivity.
    + exists (record 2021 Q1 "2W" "A" 600).
      split; [left; reflexivity | reflexivity].
  - apply Hfuel. reflexivity.
Defined.

(** ** Market leaders and the competitive matrix *)

Lemma ranked_totals_In (df : DataFrame) (vt mf : string) (n : N) :
  In (mf, n) (ranked_totals (category_rows df vt))
  <-> In mf (category_manufacturers df vt)
      /\ n = manufacturer_total df vt mf.
Proof.
  unfold ranked_totals, manufacturer_totals, category_manufacturers.
  rewrite sort_by_In.
  rewrite (groupby_In String.eqb string_leb manufacturer String.eqb_eq).
  rewrite (drop_duplicates_In _ String.eqb_eq), in_map_iff.
  unfold manufacturer_total, group_rows. split.
  - intros [[r [Hr E]] ->]. split; [exists r; auto | reflexivity].
  - intros [[r [E Hr]] ->]. split; [exists r; auto | reflexivity].
Qed.

Lemma ranked_totals_length (df : DataFrame) (vt : string) :
  List.length (ranked_totals (category_rows df vt))
  = List.length (category_manufacturers df vt).
Proof.
  unfold ranked_totals, manufacturer_totals, category_manufacturers.
  rewrite sort_by_length. apply groupby_length.
Qed.

Lemma category_manufacturers_nil (df : DataFrame) (vt : string) :
  category_manufacturers df vt = [] <-> category_rows df vt = [].
Proof.
  unfold category_manufacturers. split.
  - intros E. destruct (category_rows df vt) as [|r rs]; [reflexivity|].
    exfalso.
    assert (H : In (manufacturer r)
                   (drop_duplicates String.eqb (map manufacturer (r :: rs)))).
    { apply (drop_duplicates_In _ String.eqb_eq). left. reflexivity. }
    rewrite E in H. exact H.
  - intros ->. reflexivity.
Qed.

Lemma ranked_totals_nil (df : DataFrame) (vt : string) :
  ranked_totals (category_rows df vt) = [] <-> category_rows df vt = [].
Proof.
  rewrite <- category_manufacturers_nil.
  pose proof (ranked_totals_length df vt) as H.
  destruct (ranked_totals (category_rows df vt)),
           (category_manufacturers df vt); simpl in H;
    split; intros; try reflexivity; try discriminate.
Qed.

Lemma sum_skipna_sq_nonneg (l : list (string * option Q)) :
  (0 <= sum_skipna (map (fun s => option_sq (snd s)) l))%Q.
Proof. rewrite sum_skipna_squares. apply sumQ_sq_nonneg. Qed.

(** The head of the ranking has the most registrations. *)
Lemma ranked_totals_head (df : DataFrame) (vt : string) (top : string * N)
    (rest : list (string * N)) :
  ranked_totals (category_rows df vt) = top :: rest ->
  In (fst top) (category_manufacturers df vt)
  /\ snd top = manufacturer_total df vt (fst top)
  /\ forall mf, (manufacturer_total df vt mf <= snd top)%N.
Proof.
  intros E.
  assert (Htop : In (fst top, snd top) (ranked_totals (category_rows df vt))).
  { rewrite E. left. destruct top. reflexivity. }
  apply ranked_totals_In in Htop. destruct Htop as [Hin Hn].
  split; [exact Hin|]. split; [exact Hn|]. intros mf.
  assert (Hs : StronglySorted (fun a b => (snd b <= snd a)%N) (top :: rest)).
  { rewrite <- E. apply count_geb_sorted. }
  destruct (in_dec string_dec mf (category_manufacturers df vt)) as [Hmf|Hmf].
  - assert (H : In (mf, manufacturer_total df vt mf) (top :: rest)).
    { rewrite <- E. apply ranked_totals_In. auto. }
    destruct H as [Etop|H]; [rewrite Etop; apply N.le_refl|].
    inversion Hs as [|? ? _ Hall]; subst. rewrite Forall_forall in Hall.
    apply (Hall _ H).
  - unfold manufacturer_total.
    rewrite total_registrations_nil_filter; [apply N.le_0_l|].
    intros r Hr. apply String.eqb_neq. intros <-. apply Hmf.
    unfold category_manufacturers.
    apply (drop_duplicates_In _ String.eqb_eq). apply in_map. exact Hr.
Qed.

(** X16. [identify_market_leaders] raises [IndexError] when the frame has no
    record of the vehicle type.  Otherwise it returns a report whose
    [total_players] is the number of distinct manufacturers of the
    category, whose leader is a manufacturer of the category that no other
    one exceeds in registrations, whose leader share is the leader's
    percentage of the category rounded to two decimals (a value of two
    decimals at most 0.005 away from the exact percentage, whichever way an
    exact tie goes; not a number when the category has no registrations),
    with at most three top players and a non-negative HHI. *)
Theorem market_leaders_by_category (df : DataFrame) (vt : string) :
  (category_rows df vt = [] ->
   identify_market_leaders df vt = Raise IndexError)
  /\ (category_rows df vt <> [] ->
      exists ml,
        identify_market_leaders df vt = Ok ml
        /\ total_players ml
           = Z.of_nat (List.length (category_manufacturers df vt))
        /\ In (ml_market_leader ml) (category_manufacturers df vt)
        /\ (forall mf,
              (manufacturer_total df vt mf
               <= manufacturer_total df vt (ml_market_leader ml))%N)
        /\ nearest_decimal_opt 2
             (share_of (total_registrations (category_rows df vt))
                       (manufacturer_total df vt (ml_market_leader ml)))
             (ml_leader_share ml)
        /\ (List.length (top_3_players ml) <= 3)%nat
        /\ (0 <= ml_hhi_index ml)%Q).
Proof.
  unfold identify_market_leaders, select. cbn [rows]. cbv zeta.
  fold (category_rows df vt). split.
  - intros E. rewrite E. reflexivity.
  - intros Hne.
    destruct (ranked_totals (category_rows df vt)) as [|top rest] eqn:Er.
    { apply ranked_totals_nil in Er. contradiction. }
    destruct (ranked_totals_head df vt top rest Er) as [Hin [Hn Hmax]].
    set (shares := rounded_shares (total_registrations (category_rows df vt))
                                  (top :: rest)).
    rewrite (first_item_Ok shares (EmptyString, None)) by discriminate.
    cbn [bind]. eexists. split; [reflexivity|].
    cbn [total_players ml_market_leader ml_leader_share top_3_players
         ml_hhi_index].
    split.
    { rewrite <- ranked_totals_length, Er. unfold shares, rounded_shares.
      rewrite length_map. reflexivity. }
    split; [exact Hin|]. split.
    { intros mf. cbn [shares rounded_shares map hd fst]. rewrite <- Hn.
      apply Hmax. }
    split; [cbn [shares rounded_shares map hd fst snd]; rewrite Hn;
            apply option_round_nearest|].
    split; [apply firstn_le_length|].
    apply (py_round_lower _ 0). change (inject_Z 0) with 0%Q.
    apply sum_skipna_sq_nonneg.
Qed.

Lemma market_leaders_by_category_witness :
  identify_market_leaders scenario_four_shares "2W" = Raise IndexError
  /\ exists ml,
       identify_market_leaders scenario_four_shares "4W" = Ok ml
       /\ ml_market_leader ml = "A"
       /\ total_players ml = 4.
Proof.
  destruct (market_leaders_by_category scenario_four_shares "2W")
    as [Hraise _].
  destruct (market_leaders_by_category scenario_four_shares "4W")
    as [_ Hok].
  split; [apply Hraise; reflexivity|].
  destruct Hok as (ml & Hml & Hn & _); [discriminate|].
  exists ml. split; [exact Hml|].
  split; [|rewrite Hn; reflexivity].
  assert (E : exists ml',
            identify_market_leaders scenario_four_shares "4W" = Ok ml'
            /\ ml_market_leader ml' = "A").
  { eexists. split; [vm_compute; reflexivity | reflexivity]. }
  destruct E as (ml' & E & Hl). rewrite E in Hml. injection Hml as <-.
  exact Hl.
Defined.

Section GroupSums.
Context {K : Type}.
Variable eqb : K -> K -> bool.
Hypothesis eqb_eq : forall x y, eqb x y = true <-> x = y.
Variable key : Row -> K.

Lemma sumN_app (l l' : list N) : sumN (l ++ l') = (sumN l + sumN l')%N.
Proof.
  unfold sumN. induction l as [|a l IH]; simpl; [reflexivity|].
  rewrite IH. lia.
Qed.

Lemma sumN_perm (l l' : list N) : Permutation l l' -> sumN l = sumN l'.
Proof.
  unfold sumN. induction 1; simpl; try lia.
Qed.

Lemma group_sums_cons (r : Row) (rs : list Row) (ks : list K) :
  NoDup ks ->
  sumN (map (fun k => total_registrations (group_rows eqb key (r :: rs) k)) ks)
  = ((if existsb (eqb (key r)) ks then registrations r else 0)
     + sumN (map (fun k => total_registrations (group_rows eqb key rs k)) ks))%N.
Proof.
  induction 1 as [|k ks Hnotin Hnd IH]; [reflexivity|].
  cbn [map existsb]. unfold sumN in *. cbn [fold_right]. rewrite IH.
  unfold group_rows at 1. cbn [filter].
  destruct (eqb (key r) k) eqn:E.
  - apply eqb_eq in E. subst k.
    assert (Hex : existsb (eqb (key r)) ks = false).
    { destruct (existsb (eqb (key r)) ks) eqn:Hex; [|reflexivity].
      apply existsb_exists in Hex. destruct Hex as [k [Hk Ek]].
      apply eqb_eq in Ek. subst k. contradiction. }
    rewrite Hex. cbn [orb].
    unfold total_registrations, sumN. cbn [map fold_right].
    unfold group_rows. lia.
  - cbn [orb]. unfold group_rows. lia.
Qed.

(** The sums of the groups add up to the sum of all rows. *)
Lemma group_sums_total (rs : list Row) (ks : list K) :
  NoDup ks -> (forall r, In r rs -> In (key r) ks) ->
  sumN (map (fun k => total_registrations (group_rows eqb key rs k)) ks)
  = total_registrations rs.
Proof.
  intros Hnd. induction rs as [|r rs IH]; intros Hks.
  - unfold group_rows. simpl. clear Hnd Hks.
    induction ks as [|k ks IHk]; [reflexivity|].
    cbn [map]. unfold sumN in *. cbn [fold_right]. rewrite IHk. reflexivity.
  - rewrite (group_sums_cons r rs ks Hnd).
    rewrite IH by (intros r' Hr'; apply Hks; right; exact Hr').
    assert (Hex : existsb (eqb (key r)) ks = true).
    { apply existsb_exists. exists (key r).
      split; [apply Hks; left; reflexivity | apply eqb_eq; reflexivity]. }
    rewrite Hex. unfold total_registrations, sumN. cbn [map fold_right].
    reflexivity.
Qed.
End GroupSums.




Lemma StronglySorted_unmap {A B : Type} (f : A -> B) (R : B -> B -> Prop)
    (l : list A) :
  StronglySorted R (map f l) -> StronglySorted (fun a b => R (f a) (f b)) l.
Proof.
  induction l as [|a l IH]; intros H; [constructor|].
  inversion H as [|? ? Hs Hall]; subst. constructor; [apply IH; exact Hs|].
  rewrite Forall_forall in *. intros x Hx. apply Hall. apply in_map. exact Hx.
Qed.



Lemma category_yoy_entities (df : DataFrame) (vt : string) (m : GrowthMetric) :
  In m (category_yoy_metrics df vt) ->
  In (entity m) (category_manufacturers df vt).
Proof.
  intros Hm. unfold category_yoy_metrics in Hm.
  destruct (yoy_growth_metrics_sound_complete (category_frame df vt)
              [col_manufacturer]) as [_ [_ Hsound]];
    [discriminate | reflexivity |].
  destruct (Hsound m Hm) as (g & y1 & y2 & [[r [Hr [Hg _]]] _] & _ & He & _).
  rewrite He, <- Hg. cbn [group_of map cell String.concat].
  unfold category_manufacturers.
  apply (drop_duplicates_In _ String.eqb_eq). apply in_map. exact Hr.
Qed.



(** ** Reading the registrations back from the store *)

Section PairOrder.
Context {A B : Type}.
Variable cmpA : A -> A -> comparison.
Variable cmpB : B -> B -> comparison.
Hypothesis A_refl : forall a, cmpA a a = Eq.
Hypothesis A_eq : forall a a', cmpA a a' = Eq -> a = a'.
Hypothesis A_anti : forall a a', cmpA a a' = CompOpp (cmpA a' a).
Hypothesis A_trans : forall a b c, cmpA a b = Lt -> cmpA b c = Lt ->
                                   cmpA a c = Lt.
Hypothesis B_refl : forall a, cmpB a a = Eq.
Hypothesis B_eq : forall a a', cmpB a a' = Eq -> a = a'.
Hypothesis B_anti : forall a a', cmpB a a' = CompOpp (cmpB a' a).
Hypothesis B_trans : forall a b c, cmpB a b = Lt -> cmpB b c = Lt ->
                                   cmpB a c = Lt.

Lemma pair_compare_refl (x : A * B) : pair_compare cmpA cmpB x x = Eq.
Proof. unfold pair_compare. rewrite A_refl. apply B_refl. Qed.

Lemma pair_compare_eq (x y : A * B) :
  pair_compare cmpA cmpB x y = Eq -> x = y.
Proof.
  unfold pair_compare. destruct x as [a b], y as [a' b']. simpl.
  destruct (cmpA a a') eqn:E; simpl; try discriminate.
  intros H. apply A_eq in E. apply B_eq in H. subst. reflexivity.
Qed.

Lemma pair_compare_anti (x y : A * B) :
  pair_compare cmpA cmpB x y = CompOpp (pair_compare cmpA cmpB y x).
Proof.
  unfold pair_compare. rewrite (A_anti (fst x) (fst y)).
  destruct (cmpA (fst y) (fst x)); simpl; [apply B_anti | reflexivity..].
Qed.

Lemma pair_compare_trans (x y z : A * B) :
  pair_compare cmpA cmpB x y = Lt -> pair_compare cmpA cmpB y z = Lt ->
  pair_compare cmpA cmpB x z = Lt.
Proof.
  unfold pair_compare. destruct x as [a b], y as [a' b'], z as [a'' b''].
  simpl.
  destruct (cmpA a a') eqn:E1; destruct (cmpA a' a'') eqn:E2; simpl;
    try discriminate.
  - apply A_eq in E1. apply A_eq in E2. subst. rewrite A_refl. simpl.
    apply B_trans.
  - apply A_eq in E1. subst. rewrite E2. reflexivity.
  - apply A_eq in E2. subst. rewrite E1. reflexivity.
  - rewrite (A_trans _ _ _ E1 E2). reflexivity.
Qed.
End PairOrder.

Section NotAfter.
Context {A : Type}.
Variable cmp : A -> A -> comparison.
Hypothesis cmp_refl : forall a, cmp a a = Eq.
Hypothesis cmp_eq : forall a a', cmp a a' = Eq -> a = a'.
Hypothesis cmp_anti : forall a a', cmp a a' = CompOpp (cmp a' a).
Hypothesis cmp_trans : forall a b c, cmp a b = Lt -> cmp b c = Lt ->
                                     cmp a c = Lt.

Lemma not_after_trans (a b c : A) :
  cmp a b <> Gt -> cmp b c <> Gt -> cmp a c <> Gt.
Proof.
  intros H1 H2.
  destruct (cmp a b) eqn:E1; [| |congruence];
    destruct (cmp b c) eqn:E2; try congruence.
  - apply cmp_eq in E1. apply cmp_eq in E2. subst. rewrite cmp_refl.
    discriminate.
  - apply cmp_eq in E1. subst. rewrite E2. discriminate.
  - apply cmp_eq in E2. subst. rewrite E1. discriminate.
  - rewrite (cmp_trans _ _ _ E1 E2). discriminate.
Qed.

Lemma after_flip (a b : A) : cmp a b = Gt -> cmp b a <> Gt.
Proof.
  intros H. rewrite (cmp_anti b a), H. discriminate.
Qed.
End NotAfter.

Lemma ascii_compare_refl (a : ascii) : Ascii.compare a a = Eq.
Proof. unfold Ascii.compare. apply N.compare_refl. Qed.

Lemma string_compare_refl (s : string) : String.compare s s = Eq.
Proof.
  induction s as [|a s IH]; [reflexivity|]. simpl.
  rewrite ascii_compare_refl. exact IH.
Qed.

Lemma string_compare_trans (s1 s2 s3 : string) :
  String.compare s1 s2 = Lt -> String.compare s2 s3 = Lt ->
  String.compare s1 s3 = Lt.
Proof.
  revert s2 s3. induction s1 as [|a s1 IH]; intros [|b s2] [|c s3]; simpl;
    try discriminate; try reflexivity.
  destruct (Ascii.compare a b) eqn:E1; destruct (Ascii.compare b c) eqn:E2;
    try discriminate.
  - apply Ascii.compare_eq_iff in E1. apply Ascii.compare_eq_iff in E2.
    subst. rewrite ascii_compare_refl. apply IH.
  - apply Ascii.compare_eq_iff in E1. subst. rewrite E2. reflexivity.
  - apply Ascii.compare_eq_iff in E2. subst. rewrite E1. reflexivity.
  - assert (E : Ascii.compare a c = Lt).
    { unfold Ascii.compare in *. rewrite N.compare_lt_iff in *. lia. }
    rewrite E. reflexivity.
Qed.

Lemma registration_compare_key (a b : Row) :
  registration_compare a b
  = pair_compare String.compare (pair_compare String.compare String.compare)
                 (registration_key a) (registration_key b).
Proof. reflexivity. Qed.

Lemma in_order_trans (a b c : Row) :
  in_order a b -> in_order b c -> in_order a c.
Proof.
  unfold in_order. rewrite !registration_compare_key.
  apply not_after_trans.
  - apply pair_compare_refl; [apply string_compare_refl|].
    apply pair_compare_refl; apply string_compare_refl.
  - apply pair_compare_eq; [apply String.compare_eq_iff|].
    apply pair_compare_eq; apply String.compare_eq_iff.
  - apply pair_compare_trans;
      [apply string_compare_refl | apply String.compare_eq_iff
       | apply string_compare_trans | ].
    apply pair_compare_trans;
      [apply string_compare_refl | apply String.compare_eq_iff
       | apply string_compare_trans | apply string_compare_trans].
Qed.

Lemma in_order_total (a b : Row) :
  registration_leb a b = false -> in_order b a.
Proof.
  unfold registration_leb, in_order. rewrite !registration_compare_key.
  intros H. apply after_flip.
  - apply pair_compare_anti; [apply String.compare_antisym|].
    apply pair_compare_anti; apply String.compare_antisym.
  - destruct (pair_compare _ _ _ _); [discriminate.. | reflexivity].
Qed.

Lemma get_data_sorted (l : list Row) :
  StronglySorted in_order (sort_by registration_leb l).
Proof.
  apply sort_by_sorted.
  - intros x y H. unfold in_order, registration_leb in *.
    destruct (registration_compare x y); [discriminate.. | discriminate H].
  - apply in_order_total.
  - apply in_order_trans.
Qed.

Lemma one_of_iff (values : option (list string)) (v : string) :
  one_of values v = true
  <-> forall l, values = Some l -> l <> [] -> In v l.
Proof.
  unfold one_of. destruct values as [[|x l]|].
  - split; [intros _ l E Hne; injection E as <-; congruence | reflexivity].
  - split.
    + intros H l' E _. injection E as <-. apply existsb_exists in H.
      destruct H as [y [Hy Ey]]. apply String.eqb_eq in Ey. subst. exact Hy.
    + intros H. apply existsb_exists. exists v.
      split; [apply (H _ eq_refl); discriminate | apply String.eqb_refl].
  - split; [intros _ l E; discriminate | reflexivity].
Qed.

Lemma date_from_iff (start_date : option string) (r : Row) :
  date_from start_date r = true
  <-> forall s, start_date = Some s -> s <> EmptyString ->
                String.leb s (date r) = true.
Proof.
  unfold date_from. destruct start_date as [s|].
  - destruct (String.eqb_spec s "") as [->|Hne].
    + split; [intros _ s E Hs; injection E as <-; congruence | reflexivity].
    + split; [intros H s' E _; injection E as <-; exact H|].
      intros H. apply (H s eq_refl Hne).
  - split; [intros _ s E; discriminate | reflexivity].
Qed.

Lemma date_until_iff (end_date : option string) (r : Row) :
  date_until end_date r = true
  <-> forall s, end_date = Some s -> s <> EmptyString ->
                String.leb (date r) s = true.
Proof.
  unfold date_until. destruct end_date as [s|].
  - destruct (String.eqb_spec s "") as [->|Hne].
    + split; [intros _ s E Hs; injection E as <-; congruence | reflexivity].
    + split; [intros H s' E _; injection E as <-; exact H|].
      intros H. apply (H s eq_refl Hne).
  - split; [intros _ s E; discriminate | reflexivity].
Qed.

Lemma filter_length_bound {A : Type} (p : A -> bool) (l : list A) :
  (List.length (filter p l) <= List.length l)%nat.
Proof.
  induction l as [|a l IH]; simpl; [lia|]. destruct (p a); simpl; lia.
Qed.

Lemma filter_all {A : Type} (p : A -> bool) (l : list A) :
  (forall x, In x l -> p x = true) -> filter p l = l.
Proof.
  induction l as [|a l IH]; intros H; [reflexivity|]. simpl.
  rewrite (H a) by (left; reflexivity).
  rewrite IH by (intros x Hx; apply H; right; exact Hx). reflexivity.
Qed.

(** X18. [get_data] returns a frame without fuel types whose rows are
    exactly the stored rows that pass every filter given, in the order of
    date, vehicle type and manufacturer; a filter that is absent or empty
    (an empty text, an empty list) restricts nothing, so without filters all
    stored rows come back. *)
Theorem get_data_selects_and_orders (st : Store)
    (start_date end_date : option string)
    (vehicle_types manufacturers : option (list string)) :
  let out := get_data st start_date end_date vehicle_types manufacturers in
  has_fuel_type out = false
  /\ (forall r, In r (rows out)
                <-> In r (vehicle_registrations st)
                    /\ selected start_date end_date vehicle_types
                                manufacturers r)
  /\ StronglySorted in_order (rows out)
  /\ (List.length (rows out) <= List.length (vehicle_registrations st))%nat
  /\ ((start_date = None \/ start_date = Some EmptyString) ->
      (end_date = None \/ end_date = Some EmptyString) ->
      (vehicle_types = None \/ vehicle_types = Some []) ->
      (manufacturers = None \/ manufacturers = Some []) ->
      Permutation (rows out) (vehicle_registrations st)).
Proof.
  cbv zeta. unfold get_data. cbn [has_fuel_type rows].
  split; [reflexivity|]. split; [|split; [|split]].
  - intros r. rewrite sort_by_In, filter_In. unfold selected.
    rewrite !andb_true_iff, date_from_iff, date_until_iff, !one_of_iff.
    tauto.
  - apply get_data_sorted.
  - rewrite sort_by_length. apply filter_length_bound.
  - intros Hs He Hv Hm. apply Permutation_sym.
    eapply Permutation_trans; [|apply sort_by_perm].
    rewrite filter_all; [apply Permutation_refl|].
    intros r _.
    destruct Hs as [-> | ->], He as [-> | ->], Hv as [-> | ->],
             Hm as [-> | ->]; reflexivity.
Qed.

Lemma get_data_selects_and_orders_witness :
  map manufacturer
      (rows (get_data (store_of scenario_fuel []) (Some "2020-06-30") None
                      (Some []) None))
  = ["B"]
  /\ map manufacturer
         (rows (get_data (store_of scenario_fuel []) None (Some "") None None))
     = ["A"; "B"; "B"].
Proof.
  destruct (get_data_selects_and_orders (store_of scenario_fuel [])
              (Some "2020-06-30") None (Some []) None) as (_ & _ & _ & Hlen & _).
  split; vm_compute; reflexivity.
Defined.

(** X19. Writing a frame to the store and reading it back.  After
    [bulk_insert_registrations] with [replace], [get_data] without filters
    returns the rows of the frame, cut to the seven columns of the table;
    without [replace] the old rows stay.  The derived growth table is not
    touched by the insert.  The frame read back has no fuel types: the
    electric vehicle theme is never built from it, the themes are the
    consolidation and high-growth ones only, and every category gets the
    default innovation potential 50. *)
Theorem store_round_trip (cagr_text : N -> N -> nat -> string) (st : Store)
    (df : DataFrame) :
  let reloaded :=
    get_data (bulk_insert_registrations st df true) None None None None in
  Permutation (rows reloaded) (map schema_row (rows df))
  /\ Permutation
       (rows (get_data (bulk_insert_registrations st df false)
                       None None None None))
       (vehicle_registrations st ++ map schema_row (rows df))
  /\ growth_metrics (bulk_insert_registrations st df true) = growth_metrics st
  /\ ev_theme cagr_text reloaded = Ok []
  /\ (exists t2 t3,
        consolidation_themes reloaded = Ok t2
        /\ high_growth_theme reloaded = Ok t3
        /\ identify_investment_themes cagr_text reloaded = Ok (t2 ++ t3))
  /\ (forall out vt sc,
        generate_investment_scorecard reloaded = Ok out -> In (vt, sc) out ->
        (innovation_potential sc == 50)%Q).
Proof.
  cbv zeta.
  assert (Hall : forall st', Permutation
                   (rows (get_data st' None None None None))
                   (vehicle_registrations st')).
  { intros st'. unfold get_data. cbn [rows date_from date_until one_of andb].
    apply Permutation_sym.
    eapply Permutation_trans; [|apply sort_by_perm].
    rewrite filter_all; [apply Permutation_refl | reflexivity]. }
  split; [apply (Hall (bulk_insert_registrations st df true))|].
  split; [apply (Hall (bulk_insert_registrations st df false))|].
  split; [reflexivity|].
  set (reloaded := get_data (bulk_insert_registrations st df true)
                            None None None None).
  assert (Hfuel : has_fuel_type reloaded = false) by reflexivity.
  assert (Hev : ev_theme cagr_text reloaded = Ok []).
  { unfold ev_theme. rewrite Hfuel. reflexivity. }
  split; [exact Hev|]. split.
  - destruct (high_growth_theme_spec reloaded) as (t3 & Ht3 & _).
    unfold identify_investment_themes, consolidation_themes.
    rewrite Hev, calculate_market_concentration_Ok. cbn [bind].
    rewrite Ht3. cbn [bind app].
    eexists. exists t3. split; [reflexivity|]. split; reflexivity.
  - rewrite generate_investment_scorecard_Ok. intros out vt sc E Hin.
    injection E as <-. apply in_map_iff in Hin.
    destruct Hin as [vt' [E _]]. cbv beta in E. injection E as _ <-.
    unfold scorecard_value. cbv zeta. cbn [innovation_potential].
    unfold category_scores. cbn [innovation_score].
    unfold innovation_score_of, category_frame, select.
    cbn [has_fuel_type]. rewrite Hfuel. reflexivity.
Qed.

Lemma store_round_trip_witness :
  (exists t ts,
     identify_investment_themes (fun _ _ _ => "100.0%") scenario_fuel
     = Ok (t :: ts)
     /\ theme_name t = "Electric Vehicle Adoption")
  /\ ev_theme (fun _ _ _ => "100.0%")
       (get_data (bulk_insert_registrations (store_of scenario_fuel [])
                    scenario_fuel true) None None None None)
     = Ok [].
Proof.
  destruct (store_round_trip (fun _ _ _ => "100.0%")
              (store_of scenario_fuel []) scenario_fuel)
    as (_ & _ & _ & Hev & _).
  split; [|exact Hev].
  eexists. eexists. split; [vm_compute; reflexivity | reflexivity].
Defined.

(** ** Independence of the record order *)

Section SortUnique.
Context {A : Type}.
Variable leb : A -> A -> bool.
Hypothesis leb_total : forall x y, leb x y = false -> leb y x = true.
Hypothesis leb_trans : forall x y z, leb x y = true -> leb y z = true ->
                                     leb x z = true.
Hypothesis leb_antisym : forall x y, leb x y = true -> leb y x = true -> x = y.

Lemma sorted_perm_eq (l l' : list A) :
  StronglySorted (fun a b => leb a b = true) l ->
  StronglySorted (fun a b => leb a b = true) l' ->
  Permutation l l' -> l = l'.
Proof.
  intros Hs. revert l'. induction Hs as [|a l Hs IH Ha]; intros l' Hs' Hp.
  - apply Permutation_nil in Hp. congruence.
  - destruct Hs' as [|b l' Hs' Hb].
    + apply Permutation_sym, Permutation_nil in Hp. discriminate.
    + rewrite Forall_forall in Ha, Hb.
      assert (E : a = b).
      { assert (Hab : In a (b :: l'))
          by (apply (Permutation_in _ Hp); left; reflexivity).
        assert (Hba : In b (a :: l))
          by (apply (Permutation_in _ (Permutation_sym Hp)); left;
              reflexivity).
        destruct Hab as [->|Hab]; [reflexivity|].
        destruct Hba as [->|Hba]; [reflexivity|].
        apply leb_antisym; [apply Ha; exact Hba | apply Hb; exact Hab]. }
      subst b. f_equal. apply IH; [exact Hs'|].
      eapply Permutation_cons_inv. exact Hp.
Qed.

Lemma sort_by_perm_eq (l l' : list A) :
  Permutation l l' -> sort_by leb l = sort_by leb l'.
Proof.
  intros Hp. apply sorted_perm_eq.
  - apply sort_by_sorted; auto.
  - apply sort_by_sorted; auto.
  - eapply Permutation_trans; [apply Permutation_sym, sort_by_perm|].
    eapply Permutation_trans; [exact Hp | apply sort_by_perm].
Qed.
End SortUnique.

Section LebOfCompare.
Context {A P : Type}.
Variable cmp : P -> P -> comparison.
Variable parts : A -> P.
Hypothesis cmp_refl : forall a, cmp a a = Eq.
Hypothesis cmp_eq : forall a a', cmp a a' = Eq -> a = a'.
Hypothesis cmp_anti : forall a a', cmp a a' = CompOpp (cmp a' a).
Hypothesis cmp_trans : forall a b c, cmp a b = Lt -> cmp b c = Lt ->
                                     cmp a c = Lt.
Hypothesis parts_inj : forall a a', parts a = parts a' -> a = a'.

Lemma leb_of_total (x y : A) :
  leb_of (cmp (parts x) (parts y)) = false ->
  leb_of (cmp (parts y) (parts x)) = true.
Proof.
  rewrite (cmp_anti (parts y) (parts x)).
  destruct (cmp (parts x) (parts y)); simpl; congruence.
Qed.

Lemma leb_of_trans (x y z : A) :
  leb_of (cmp (parts x) (parts y)) = true ->
  leb_of (cmp (parts y) (parts z)) = true ->
  leb_of (cmp (parts x) (parts z)) = true.
Proof.
  intros H1 H2.
  assert (H : cmp (parts x) (parts z) <> Gt).
  { apply (not_after_trans cmp cmp_refl cmp_eq cmp_trans _ (parts y)).
    - destruct (cmp (parts x) (parts y)); simpl in H1; congruence.
    - destruct (cmp (parts y) (parts z)); simpl in H2; congruence. }
  destruct (cmp (parts x) (parts z)); simpl; congruence.
Qed.

Lemma leb_of_antisym (x y : A) :
  leb_of (cmp (parts x) (parts y)) = true ->
  leb_of (cmp (parts y) (parts x)) = true -> x = y.
Proof.
  rewrite (cmp_anti (parts y) (parts x)). intros H1 H2.
  apply parts_inj. apply cmp_eq.
  destruct (cmp (parts x) (parts y)); simpl in *; congruence.
Qed.
End LebOfCompare.

Lemma Z_compare_trans (a b c : Z) :
  (a ?= b) = Lt -> (b ?= c) = Lt -> (a ?= c) = Lt.
Proof. rewrite !Z.compare_lt_iff. lia. Qed.

Lemma Z_compare_anti (a b : Z) : (a ?= b) = CompOpp (b ?= a).
Proof. apply Z.compare_antisym. Qed.

Lemma list_compare_refl (l : list string) : list_compare l l = Eq.
Proof.
  induction l as [|a l IH]; [reflexivity|]. simpl.
  rewrite string_compare_refl. exact IH.
Qed.

Lemma list_compare_eq (l l' : list string) :
  list_compare l l' = Eq -> l = l'.
Proof.
  revert l'. induction l as [|a l IH]; intros [|b l']; simpl;
    try discriminate; [reflexivity|].
  destruct (String.compare a b) eqn:E; try discriminate.
  intros H. apply String.compare_eq_iff in E. apply IH in H. congruence.
Qed.

Lemma list_compare_anti (l l' : list string) :
  list_compare l l' = CompOpp (list_compare l' l).
Proof.
  revert l'. induction l as [|a l IH]; intros [|b l']; simpl;
    try reflexivity.
  rewrite (String.compare_antisym a b).
  destruct (String.compare b a); simpl; [apply IH | reflexivity..].
Qed.

Lemma list_compare_trans (l1 l2 l3 : list string) :
  list_compare l1 l2 = Lt -> list_compare l2 l3 = Lt ->
  list_compare l1 l3 = Lt.
Proof.
  revert l2 l3. induction l1 as [|a l1 IH]; intros [|b l2] [|c l3]; simpl;
    try discriminate; try reflexivity.
  destruct (String.compare a b) eqn:E1; destruct (String.compare b c) eqn:E2;
    try discriminate.
  - apply String.compare_eq_iff in E1. apply String.compare_eq_iff in E2.
    subst. rewrite string_compare_refl. apply IH.
  - apply String.compare_eq_iff in E1. subst. rewrite E2. reflexivity.
  - apply String.compare_eq_iff in E2. subst. rewrite E1. reflexivity.
  - rewrite (string_compare_trans _ _ _ E1 E2). reflexivity.
Qed.

Lemma Z_leb_of (a b : Z) : (a <=? b) = leb_of (a ?= b).
Proof. unfold Z.leb. destruct (a ?= b); reflexivity. Qed.

Lemma key_leb_of (a b : GroupKey) :
  key_leb a b
  = leb_of (pair_compare list_compare (pair_compare Z.compare Z.compare)
              (group_key_parts a) (group_key_parts b)).
Proof.
  unfold key_leb, pair_compare, group_key_parts, lex. cbn [fst snd].
  destruct (list_compare (fst a) (fst b)); try reflexivity.
  destruct (p_year (snd a) ?= p_year (snd b)); reflexivity.
Qed.

Lemma group_key_parts_inj (a b : GroupKey) :
  group_key_parts a = group_key_parts b -> a = b.
Proof.
  destruct a as [ga [ya qa]], b as [gb [yb qb]]. unfold group_key_parts.
  simpl. intros H. injection H as -> -> H.
  apply option_quarter_number_inj in H. subst. reflexivity.
Qed.

Lemma yq_leb_of (a b : Z * Quarter) :
  yq_leb a b
  = leb_of (pair_compare Z.compare Z.compare
              (quarter_parts a) (quarter_parts b)).
Proof.
  unfold yq_leb, pair_compare, quarter_parts, lex. cbn [fst snd].
  destruct (fst a ?= fst b); reflexivity.
Qed.

Lemma quarter_parts_inj (a b : Z * Quarter) :
  quarter_parts a = quarter_parts b -> a = b.
Proof.
  destruct a as [ya qa], b as [yb qb]. unfold quarter_parts. simpl.
  intros H. injection H as -> H. apply quarter_number_inj in H.
  subst. reflexivity.
Qed.

Lemma string_leb_of (a b : string) :
  string_leb a b = leb_of (String.compare a b).
Proof. unfold string_leb, String.leb. destruct (String.compare a b); reflexivity. Qed.

Lemma filter_perm {A : Type} (p : A -> bool) (l l' : list A) :
  Permutation l l' -> Permutation (filter p l) (filter p l').
Proof.
  induction 1 as [|x l l' _ IH|x y l|l1 l2 l3 _ IH1 _ IH2]; simpl.
  - constructor.
  - destruct (p x); [constructor|]; exact IH.
  - destruct (p x), (p y); try apply Permutation_refl.
    apply perm_swap.
  - eapply Permutation_trans; eassumption.
Qed.

Lemma total_registrations_perm (rs rs' : list Row) :
  Permutation rs rs' -> total_registrations rs = total_registrations rs'.
Proof.
  intros H. unfold total_registrations. apply sumN_perm.
  apply Permutation_map. exact H.
Qed.

Section GroupByPerm.
Context {K : Type}.
Variable eqb : K -> K -> bool.
Hypothesis eqb_eq : forall x y, eqb x y = true <-> x = y.
Variable leb : K -> K -> bool.
Hypothesis leb_total : forall x y, leb x y = false -> leb y x = true.
Hypothesis leb_trans : forall x y z, leb x y = true -> leb y z = true ->
                                     leb x z = true.
Hypothesis leb_antisym : forall x y, leb x y = true -> leb y x = true -> x = y.
Variable key : Row -> K.

Lemma drop_duplicates_perm (l l' : list K) :
  Permutation l l' ->
  Permutation (drop_duplicates eqb l) (drop_duplicates eqb l').
Proof.
  intros Hp. apply NoDup_Permutation.
  - apply drop_duplicates_NoDup. exact eqb_eq.
  - apply drop_duplicates_NoDup. exact eqb_eq.
  - intros x. rewrite !(drop_duplicates_In eqb eqb_eq). split.
    + apply Permutation_in. exact Hp.
    + apply Permutation_in. apply Permutation_sym. exact Hp.
Qed.

(** The grouped sums do not depend on the order of the rows. *)
Lemma groupby_registrations_perm (rs rs' : list Row) :
  Permutation rs rs' ->
  groupby_registrations eqb leb key rs = groupby_registrations eqb leb key rs'.
Proof.
  intros Hp. unfold groupby_registrations.
  rewrite (sort_by_perm_eq leb leb_total leb_trans leb_antisym
             (drop_duplicates eqb (map key rs))
             (drop_duplicates eqb (map key rs')))
    by (apply drop_duplicates_perm, Permutation_map; exact Hp).
  apply map_ext. intros k. f_equal.
  apply total_registrations_perm. unfold group_rows.
  apply filter_perm. exact Hp.
Qed.
End GroupByPerm.

Lemma zz_compare_refl (a : Z * Z) : pair_compare Z.compare Z.compare a a = Eq.
Proof. apply pair_compare_refl; apply Z.compare_refl. Qed.

Lemma zz_compare_eq (a b : Z * Z) :
  pair_compare Z.compare Z.compare a b = Eq -> a = b.
Proof. apply pair_compare_eq; apply Z.compare_eq. Qed.

Lemma zz_compare_anti (a b : Z * Z) :
  pair_compare Z.compare Z.compare a b
  = CompOpp (pair_compare Z.compare Z.compare b a).
Proof. apply pair_compare_anti; apply Z_compare_anti. Qed.

Lemma zz_compare_trans (a b c : Z * Z) :
  pair_compare Z.compare Z.compare a b = Lt ->
  pair_compare Z.compare Z.compare b c = Lt ->
  pair_compare Z.compare Z.compare a c = Lt.
Proof.
  apply pair_compare_trans;
    [apply Z.compare_refl | apply Z.compare_eq | apply Z_compare_trans
     | apply Z_compare_trans].
Qed.

Lemma key_leb_total (x y : GroupKey) :
  key_leb x y = false -> key_leb y x = true.
Proof.
  rewrite !key_leb_of. apply leb_of_total.
  apply pair_compare_anti; [apply list_compare_anti | apply zz_compare_anti].
Qed.

Lemma key_leb_trans (x y z : GroupKey) :
  key_leb x y = true -> key_leb y z = true -> key_leb x z = true.
Proof.
  rewrite !key_leb_of. apply leb_of_trans.
  - apply pair_compare_refl; [apply list_compare_refl | apply zz_compare_refl].
  - apply pair_compare_eq; [apply list_compare_eq | apply zz_compare_eq].
  - apply pair_compare_trans;
      [apply list_compare_refl | apply list_compare_eq
       | apply list_compare_trans | apply zz_compare_trans].
Qed.

Lemma key_leb_antisym (x y : GroupKey) :
  key_leb x y = true -> key_leb y x = true -> x = y.
Proof.
  rewrite !key_leb_of. apply leb_of_antisym.
  - apply pair_compare_eq; [apply list_compare_eq | apply zz_compare_eq].
  - apply pair_compare_anti; [apply list_compare_anti | apply zz_compare_anti].
  - apply group_key_parts_inj.
Qed.

Lemma yq_leb_total (x y : Z * Quarter) :
  yq_leb x y = false -> yq_leb y x = true.
Proof. rewrite !yq_leb_of. apply leb_of_total. apply zz_compare_anti. Qed.

Lemma yq_leb_trans (x y z : Z * Quarter) :
  yq_leb x y = true -> yq_leb y z = true -> yq_leb x z = true.
Proof.
  rewrite !yq_leb_of. apply leb_of_trans;
    [apply zz_compare_refl | apply zz_compare_eq | apply zz_compare_trans].
Qed.

Lemma yq_leb_antisym (x y : Z * Quarter) :
  yq_leb x y = true -> yq_leb y x = true -> x = y.
Proof.
  rewrite !yq_leb_of. apply leb_of_antisym;
    [apply zz_compare_eq | apply zz_compare_anti | apply quarter_parts_inj].
Qed.

Lemma string_leb_total (x y : string) :
  string_leb x y = false -> string_leb y x = true.
Proof.
  rewrite !string_leb_of.
  apply (leb_of_total String.compare (fun s => s)).
  apply String.compare_antisym.
Qed.

Lemma string_leb_trans (x y z : string) :
  string_leb x y = true -> string_leb y z = true -> string_leb x z = true.
Proof.
  rewrite !string_leb_of.
  apply (leb_of_trans String.compare (fun s => s));
    [apply string_compare_refl | apply String.compare_eq_iff
     | apply string_compare_trans].
Qed.

Lemma string_leb_antisym (x y : string) :
  string_leb x y = true -> string_leb y x = true -> x = y.
Proof. apply String.leb_antisym. Qed.

Lemma groupby_sum_perm (pt : GrowthPeriod) (group_by : list column)
    (rs rs' : list Row) :
  Permutation rs rs' ->
  groupby_sum pt group_by rs = groupby_sum pt group_by rs'.
Proof.
  intros Hp. unfold groupby_sum. f_equal.
  apply (groupby_registrations_perm key_eqb key_eqb_eq key_leb
           key_leb_total key_leb_trans key_leb_antisym).
  exact Hp.
Qed.

Lemma manufacturer_totals_perm (rs rs' : list Row) :
  Permutation rs rs' -> manufacturer_totals rs = manufacturer_totals rs'.
Proof.
  apply (groupby_registrations_perm String.eqb String.eqb_eq string_leb
           string_leb_total string_leb_trans string_leb_antisym).
Qed.

Lemma quarterly_sums_perm (rs rs' : list Row) :
  Permutation rs rs' -> quarterly_sums rs = quarterly_sums rs'.
Proof.
  apply (groupby_registrations_perm yq_eqb yq_eqb_eq yq_leb
           yq_leb_total yq_leb_trans yq_leb_antisym).
Qed.

Lemma category_rows_perm (df df' : DataFrame) (vt : string) :
  Permutation (rows df) (rows df') ->
  Permutation (category_rows df vt) (category_rows df' vt).
Proof. apply filter_perm. Qed.

Lemma vehicle_types_perm (df df' : DataFrame) (vt : string) :
  Permutation (rows df) (rows df') ->
  (In vt (vehicle_types df) <-> In vt (vehicle_types df')).
Proof.
  intros Hp. unfold vehicle_types.
  rewrite !(drop_duplicates_In _ String.eqb_eq).
  split; apply Permutation_in; apply Permutation_map;
    [exact Hp | apply Permutation_sym; exact Hp].
Qed.

Lemma emitted_metrics_perm (df df' : DataFrame) (pt : GrowthPeriod)
    (group_by : list column) :
  Permutation (rows df) (rows df') ->
  emitted_metrics df pt group_by = emitted_metrics df' pt group_by.
Proof.
  intros Hp. unfold emitted_metrics, group_keys, grouped_frame.
  rewrite (groupby_sum_perm pt group_by _ _ Hp). reflexivity.
Qed.

Lemma concentration_value_perm (df df' : DataFrame) (vt : string) :
  Permutation (rows df) (rows df') ->
  concentration_value df vt = concentration_value df' vt.
Proof.
  intros Hp. unfold concentration_value, category_shares, market_shares.
  rewrite (manufacturer_totals_perm _ _ (category_rows_perm df df' vt Hp)).
  reflexivity.
Qed.

Lemma category_frame_perm (df df' : DataFrame) (vt : string) :
  Permutation (rows df) (rows df') ->
  Permutation (rows (category_frame df vt)) (rows (category_frame df' vt)).
Proof. apply filter_perm. Qed.

Lemma scorecard_value_perm (df df' : DataFrame) (vt : string) :
  has_fuel_type df = has_fuel_type df' ->
  Permutation (rows df) (rows df') ->
  scorecard_value df vt = scorecard_value df' vt.
Proof.
  intros Hfuel Hp.
  pose proof (category_frame_perm df df' vt Hp) as Hc.
  unfold scorecard_value, category_scores, category_yoy_metrics.
  rewrite (emitted_metrics_perm _ _ YOY [col_manufacturer] Hc).
  rewrite (concentration_value_perm _ _ vt Hc).
  rewrite (total_registrations_perm _ _ Hc).
  assert (Hin : innovation_score_of (category_frame df vt)
                = innovation_score_of (category_frame df' vt)).
  { unfold innovation_score_of.
    change (has_fuel_type (category_frame df vt)) with (has_fuel_type df).
    change (has_fuel_type (category_frame df' vt)) with (has_fuel_type df').
    rewrite Hfuel.
    rewrite (Permutation_length
               (drop_duplicates_perm String.eqb String.eqb_eq _ _
                  (Permutation_map fuel_type Hc))).
    reflexivity. }
  rewrite Hin. reflexivity.
Qed.

Lemma forecast_value_perm (sqrt : Q -> Q) (df df' : DataFrame) (periods : Z)
    (vt : string) :
  Permutation (rows df) (rows df') ->
  forecast_value sqrt df periods vt = forecast_value sqrt df' periods vt
  /\ has_enough_history df vt = has_enough_history df' vt.
Proof.
  intros Hp. pose proof (category_rows_perm df df' vt Hp) as Hc.
  split.
  - unfold forecast_value, forecast_residuals, forecast_periods, projection,
      forecast_line, forecast_x, forecast_y.
    rewrite (quarterly_sums_perm _ _ Hc). reflexivity.
  - unfold has_enough_history, distinct_quarters.
    rewrite (Permutation_length
               (drop_duplicates_perm yq_eqb yq_eqb_eq _ _
                  (Permutation_map (fun r => (year r, quarter r)) Hc))).
    reflexivity.
Qed.

(** X20. The analytics do not depend on the order of the records.  For two
    frames with the same columns whose rows are permutations of each other,
    [calculate_growth_metrics] returns the same list, and
    [calculate_market_concentration], [generate_investment_scorecard] and
    [forecast_registrations] return the same entry for every category (the
    categories themselves come in the order of their first record). *)
Theorem analytics_ignore_record_order (sqrt : Q -> Q) (df df' : DataFrame)
    (pt : GrowthPeriod) (group_by : list column) (periods : Z) :
  has_fuel_type df = has_fuel_type df' ->
  Permutation (rows df) (rows df') ->
  calculate_growth_metrics df pt group_by
  = calculate_growth_metrics df' pt group_by
  /\ (exists out out',
        calculate_market_concentration df = Ok out
        /\ calculate_market_concentration df' = Ok out'
        /\ forall e, In e out <-> In e out')
  /\ (exists out out',
        generate_investment_scorecard df = Ok out
        /\ generate_investment_scorecard df' = Ok out'
        /\ forall e, In e out <-> In e out')
  /\ (exists out out',
        forecast_registrations sqrt df periods = Ok out
        /\ forecast_registrations sqrt df' periods = Ok out'
        /\ forall e, In e out <-> In e out').
Proof.
  intros Hfuel Hp.
  assert (Hmap : forall (A : Type) (f f' : string -> A) (p p' : string -> bool),
             (forall vt, f vt = f' vt) -> (forall vt, p vt = p' vt) ->
             forall e,
               In e (map (fun vt => (vt, f vt))
                         (filter p (vehicle_types df)))
               <-> In e (map (fun vt => (vt, f' vt))
                             (filter p' (vehicle_types df')))).
  { intros A f f' p p' Hf Hpp e. rewrite !in_map_iff.
    split; intros [vt [<- Hin]]; exists vt; apply filter_In in Hin;
      destruct Hin as [Hin Hpv].
    - split; [rewrite Hf; reflexivity|]. apply filter_In.
      split; [apply (vehicle_types_perm df df' vt Hp); exact Hin|].
      rewrite <- Hpp. exact Hpv.
    - split; [rewrite Hf; reflexivity|]. apply filter_In.
      split; [apply (vehicle_types_perm df df' vt Hp); exact Hin|].
      rewrite Hpp. exact Hpv. }
  assert (Hall : forall l : list string, filter (fun _ => true) l = l).
  { intros l. apply filter_all. reflexivity. }
  split; [|split; [|split]].
  - unfold calculate_growth_metrics, growth_rows.
    rewrite (groupby_sum_perm pt group_by _ _ Hp). reflexivity.
  - eexists. eexists.
    split; [apply calculate_market_concentration_Ok|].
    split; [apply calculate_market_concentration_Ok|].
    intros e.
    rewrite <- (Hall (vehicle_types df)), <- (Hall (vehicle_types df')).
    apply Hmap; [|reflexivity].
    intros vt. apply concentration_value_perm. exact Hp.
  - eexists. eexists.
    split; [apply generate_investment_scorecard_Ok|].
    split; [apply generate_investment_scorecard_Ok|].
    intros e.
    rewrite <- (Hall (vehicle_types df)), <- (Hall (vehicle_types df')).
    apply Hmap; [|reflexivity].
    intros vt. apply scorecard_value_perm; assumption.
  - eexists. eexists.
    split; [apply forecast_registrations_Ok|].
    split; [apply forecast_registrations_Ok|].
    intros e. apply Hmap; intros vt;
      apply (forecast_value_perm sqrt df df' periods vt Hp).
Qed.

Lemma analytics_ignore_record_order_witness :
  calculate_growth_metrics (mkFrame false (rev (rows scenario_tie))) YOY
    [col_manufacturer]
  = calculate_growth_metrics scenario_tie YOY [col_manufacturer].
Proof.
  destruct (analytics_ignore_record_order (fun x => x)
              (mkFrame false (rev (rows scenario_tie))) scenario_tie
              YOY [col_manufacturer] 4 eq_refl
              (Permutation_sym (Permutation_rev (rows scenario_tie))))
    as [H _].
  exact H.
Defined.

(** ** The analytics on the frame read back from the store *)

Section GroupBySchema.
Context {K : Type}.
Variable eqb : K -> K -> bool.
Variable leb : K -> K -> bool.
Variable key : Row -> K.
Hypothesis key_schema : forall r, key (schema_row r) = key r.

Lemma total_registrations_schema (rs : list Row) :
  total_registrations (map schema_row rs) = total_registrations rs.
Proof.
  unfold total_registrations. rewrite map_map. reflexivity.
Qed.

Lemma filter_schema (p : Row -> bool) (rs : list Row) :
  (forall r, p (schema_row r) = p r) ->
  filter p (map schema_row rs) = map schema_row (filter p rs).
Proof.
  intros Hp. induction rs as [|r rs IH]; [reflexivity|]. simpl.
  rewrite Hp. destruct (p r); simpl; rewrite IH; reflexivity.
Qed.

(** The grouped sums do not read the columns the table drops. *)
Lemma groupby_registrations_schema (rs : list Row) :
  groupby_registrations eqb leb key (map schema_row rs)
  = groupby_registrations eqb leb key rs.
Proof.
  unfold groupby_registrations. rewrite map_map.
  rewrite (map_ext (fun r => key (schema_row r)) key key_schema).
  apply map_ext. intros k. f_equal. unfold group_rows.
  rewrite filter_schema by (intros r; rewrite key_schema; reflexivity).
  apply total_registrations_schema.
Qed.
End GroupBySchema.

Lemma category_rows_schema (df : DataFrame) (vt : string) :
  category_rows (stored_frame df) vt = map schema_row (category_rows df vt).
Proof.
  unfold category_rows, stored_frame. cbn [rows].
  apply filter_schema. reflexivity.
Qed.

Lemma vehicle_types_schema (df : DataFrame) :
  vehicle_types (stored_frame df) = vehicle_types df.
Proof.
  unfold vehicle_types, stored_frame. cbn [rows]. rewrite map_map.
  reflexivity.
Qed.

Lemma emitted_metrics_schema (df : DataFrame) (pt : GrowthPeriod)
    (group_by : list column) :
  emitted_metrics (stored_frame df) pt group_by
  = emitted_metrics df pt group_by.
Proof.
  unfold emitted_metrics, group_keys, grouped_frame, groupby_sum, stored_frame.
  cbn [rows].
  rewrite (groupby_registrations_schema key_eqb key_leb
             (row_key pt group_by)).
  - reflexivity.
  - intros r. unfold row_key, period_of. destruct pt; f_equal;
      apply map_ext; intros c; destruct c; reflexivity.
Qed.

Lemma concentration_value_schema (df : DataFrame) (vt : string) :
  concentration_value (stored_frame df) vt = concentration_value df vt.
Proof.
  unfold concentration_value, category_shares, market_shares,
    manufacturer_totals.
  rewrite category_rows_schema.
  rewrite (groupby_registrations_schema String.eqb string_leb manufacturer)
    by reflexivity.
  reflexivity.
Qed.

Lemma forecast_value_schema (sqrt : Q -> Q) (df : DataFrame) (periods : Z)
    (vt : string) :
  forecast_value sqrt (stored_frame df) periods vt
  = forecast_value sqrt df periods vt
  /\ has_enough_history (stored_frame df) vt = has_enough_history df vt.
Proof.
  split.
  - unfold forecast_value, forecast_residuals, forecast_periods, projection,
      forecast_line, forecast_x, forecast_y, quarterly_sums.
    rewrite category_rows_schema.
    rewrite (groupby_registrations_schema yq_eqb yq_leb
               (fun r => (year r, quarter r))) by reflexivity.
    reflexivity.
  - unfold has_enough_history, distinct_quarters.
    rewrite category_rows_schema, map_map. reflexivity.
Qed.

Lemma category_frame_schema (df : DataFrame) (vt : string) :
  category_frame (stored_frame df) vt = stored_frame (category_frame df vt).
Proof.
  unfold category_frame, select, stored_frame. cbn [rows has_fuel_type].
  f_equal. apply filter_schema. reflexivity.
Qed.

Lemma scorecard_value_schema (df : DataFrame) (vt : string) :
  has_fuel_type df = false ->
  scorecard_value (stored_frame df) vt = scorecard_value df vt.
Proof.
  intros Hfuel.
  unfold scorecard_value, category_scores, category_yoy_metrics.
  rewrite category_frame_schema, emitted_metrics_schema,
    concentration_value_schema.
  assert (Hin : innovation_score_of (stored_frame (category_frame df vt))
                = innovation_score_of (category_frame df vt)).
  { unfold innovation_score_of, category_frame, select, stored_frame.
    cbn [has_fuel_type]. rewrite Hfuel. reflexivity. }
  rewrite Hin.
  change (rows (stored_frame (category_frame df vt)))
    with (map schema_row (rows (category_frame df vt))).
  rewrite (total_registrations_schema (rows (category_frame df vt))).
  reflexivity.
Qed.

Lemma reloaded_rows (st : Store) (df : DataFrame) :
  Permutation
    (rows (get_data (bulk_insert_registrations st df true)
                    None None None None))
    (rows (stored_frame df)).
Proof.
  unfold get_data, bulk_insert_registrations, stored_frame.
  cbn [rows vehicle_registrations date_from date_until one_of andb app].
  apply Permutation_sym.
  eapply Permutation_trans; [|apply sort_by_perm].
  rewrite filter_all; [apply Permutation_refl | reflexivity].
Qed.

(** X21. Analytics after the round trip through the store.  On the frame
    read back by [get_data] after [bulk_insert_registrations] with
    [replace], [calculate_growth_metrics] returns the same list as on the
    original frame, and [calculate_market_concentration] and
    [forecast_registrations] return the same entry for every category; so
    does [generate_investment_scorecard] when the original frame has no
    fuel_type column. *)
Theorem analytics_after_round_trip (sqrt : Q -> Q) (st : Store)
    (df : DataFrame) (pt : GrowthPeriod) (group_by : list column)
    (periods : Z) :
  let reloaded :=
    get_data (bulk_insert_registrations st df true) None None None None in
  calculate_growth_metrics reloaded pt group_by
  = calculate_growth_metrics df pt group_by
  /\ (exists out out',
        calculate_market_concentration reloaded = Ok out
        /\ calculate_market_concentration df = Ok out'
        /\ forall e, In e out <-> In e out')
  /\ (exists out out',
        forecast_registrations sqrt reloaded periods = Ok out
        /\ forecast_registrations sqrt df periods = Ok out'
        /\ forall e, In e out <-> In e out')
  /\ (has_fuel_type df = false ->
      exists out out',
        generate_investment_scorecard reloaded = Ok out
        /\ generate_investment_scorecard df = Ok out'
        /\ forall e, In e out <-> In e out').
Proof.
  cbv zeta.
  set (reloaded := get_data (bulk_insert_registrations st df true)
                            None None None None).
  pose proof (reloaded_rows st df) as Hp. fold reloaded in Hp.
  assert (Hvt : forall vt, In vt (vehicle_types reloaded)
                           <-> In vt (vehicle_types df)).
  { intros vt.
    rewrite (vehicle_types_perm reloaded (stored_frame df) vt Hp),
      vehicle_types_schema.
    reflexivity. }
  assert (Hmap : forall (A : Type) (f f' : string -> A) (p p' : string -> bool),
             (forall vt, f vt = f' vt) -> (forall vt, p vt = p' vt) ->
             forall e,
               In e (map (fun vt => (vt, f vt))
                         (filter p (vehicle_types reloaded)))
               <-> In e (map (fun vt => (vt, f' vt))
                             (filter p' (vehicle_types df)))).
  { intros A f f' p p' Hf Hpp e. rewrite !in_map_iff.
    split; intros [vt [<- Hin]]; exists vt; apply filter_In in Hin;
      destruct Hin as [Hin Hpv].
    - split; [rewrite Hf; reflexivity|]. apply filter_In.
      split; [apply Hvt; exact Hin|]. rewrite <- Hpp. exact Hpv.
    - split; [rewrite Hf; reflexivity|]. apply filter_In.
      split; [apply Hvt; exact Hin|]. rewrite Hpp. exact Hpv. }
  assert (Hall : forall l : list string, filter (fun _ => true) l = l).
  { intros l. apply filter_all. reflexivity. }
  split; [|split; [|split]].
  - unfold calculate_growth_metrics, growth_rows.
    rewrite (groupby_sum_perm pt group_by _ _ Hp).
    unfold groupby_sum, stored_frame. cbn [rows].
    rewrite (groupby_registrations_schema key_eqb key_leb
               (row_key pt group_by)); [reflexivity|].
    intros r. unfold row_key, period_of. destruct pt; f_equal;
      apply map_ext; intros c; destruct c; reflexivity.
  - eexists. eexists.
    split; [apply calculate_market_concentration_Ok|].
    split; [apply calculate_market_concentration_Ok|].
    intros e.
    rewrite <- (Hall (vehicle_types reloaded)), <- (Hall (vehicle_types df)).
    apply Hmap; [|reflexivity]. intros vt.
    rewrite (concentration_value_perm reloaded (stored_frame df) vt Hp).
    apply concentration_value_schema.
  - eexists. eexists.
    split; [apply forecast_registrations_Ok|].
    split; [apply forecast_registrations_Ok|].
    intros e. apply Hmap; intros vt.
    + rewrite (proj1 (forecast_value_perm sqrt reloaded (stored_frame df)
                        periods vt Hp)).
      apply forecast_value_schema.
    + rewrite (proj2 (forecast_value_perm sqrt reloaded (stored_frame df)
                        periods vt Hp)).
      apply (forecast_value_schema sqrt df periods vt).
  - intros Hfuel. eexists. eexists.
    split; [apply generate_investment_scorecard_Ok|].
    split; [apply generate_investment_scorecard_Ok|].
    intros e.
    rewrite <- (Hall (vehicle_types reloaded)), <- (Hall (vehicle_types df)).
    apply Hmap; [|reflexivity]. intros vt.
    rewrite (scorecard_value_perm reloaded (stored_frame df) vt eq_refl Hp).
    apply scorecard_value_schema. exact Hfuel.
Qed.

Lemma analytics_after_round_trip_witness :
  calculate_growth_metrics
    (get_data (bulk_insert_registrations (store_of scenario_tie [])
                 scenario_fuel true) None None None None)
    YOY [col_manufacturer]
  = calculate_growth_metrics scenario_fuel YOY [col_manufacturer].
Proof.
  destruct (analytics_after_round_trip (fun x => x) (store_of scenario_tie [])
              scenario_fuel YOY [col_manufacturer] 4) as [H _].
  exact H.
Defined.

(** ** Categories with few manufacturers *)

Lemma concentration_value_category_frame (df : DataFrame) (vt : string) :
  concentration_value (category_frame df vt) vt = concentration_value df vt.
Proof.
  unfold concentration_value, category_shares.
  rewrite category_frame_rows. reflexivity.
Qed.

Lemma hhi_by_count (df : DataFrame) (vt : string) (r : Row) (k : Z) :
  In r (category_rows df vt) -> (0 < registrations r)%N ->
  total_manufacturers (concentration_value df vt) <= k ->
  (10000 <= inject_Z k * hhi_index (concentration_value df vt))%Q.
Proof.
  intros Hr Hpos Hk.
  destruct (hhi_lower_bound df vt r Hr Hpos) as [Hlow Hh].
  assert (Hq : (inject_Z (total_manufacturers (concentration_value df vt))
                <= inject_Z k)%Q) by (rewrite <- Zle_Qle; exact Hk).
  eapply Qle_trans; [exact Hlow|].
  apply Qmult_le_compat_r; [exact Hq | apply Qlt_le_weak; exact Hh].
Qed.

Lemma category_with_registration (df : DataFrame) (vt : string) (r : Row) :
  In r (category_rows df vt) -> In vt (vehicle_types df).
Proof.
  intros Hr. unfold category_rows in Hr. apply filter_In in Hr.
  destruct Hr as [Hr E]. apply String.eqb_eq in E. subst vt.
  unfold vehicle_types. apply (drop_duplicates_In _ String.eqb_eq).
  apply in_map. exact Hr.
Qed.

(** X22. A category with few manufacturers is concentrated whatever its
    shares are, because HHI is at least 10000 divided by the number of
    manufacturers.  For a category with a registration: with at most nine
    manufacturers it is never labelled "Highly Competitive"; with at most six
    [identify_investment_themes] contains its "Market Consolidation" theme;
    with at most three it is labelled "Highly Concentrated (Oligopoly)" and
    [_assess_market_risks] reports a high concentration risk; with at most
    two its competition intensity in the scorecard is 0. *)
Theorem few_manufacturers_concentrated (cagr_text : N -> N -> nat -> string)
    (df : DataFrame) (vt : string) :
  (exists r, In r (category_rows df vt) /\ (0 < registrations r)%N) ->
  exists out c,
    calculate_market_concentration df = Ok out
    /\ In (vt, c) out
    /\ (total_manufacturers c <= 9 ->
        market_structure c <> "Highly Competitive")
    /\ (total_manufacturers c <= 6 ->
        exists themes t,
          identify_investment_themes cagr_text df = Ok themes
          /\ In t themes
          /\ theme_name t = (vt ++ " Market Consolidation")%string)
    /\ (total_manufacturers c <= 3 ->
        market_structure c = "Highly Concentrated (Oligopoly)"
        /\ exists risks s,
             _assess_market_risks df = Ok risks
             /\ In s risks
             /\ String.prefix "High concentration risk in " s = true)
    /\ (total_manufacturers c <= 2 ->
        forall scores sc,
          generate_investment_scorecard df = Ok scores ->
          In (vt, sc) scores ->
          (competition_intensity sc == 0)%Q).
Proof.
  intros [r [Hr Hpos]].
  pose proof (category_with_registration df vt r Hr) as Hvt.
  exists (map (fun vt => (vt, concentration_value df vt)) (vehicle_types df)),
         (concentration_value df vt).
  split; [apply calculate_market_concentration_Ok|].
  split; [apply in_map_iff; exists vt; split; [reflexivity | exact Hvt]|].
  set (h := hhi_index (concentration_value df vt)).
  assert (Hlabel : market_structure (concentration_value df vt)
                   = _classify_market_structure h) by reflexivity.
  split; [|split; [|split]].
  - intros Hk. pose proof (hhi_by_count df vt r 9 Hr Hpos Hk) as Hb.
    fold h in Hb. change (inject_Z 9) with 9%Q in Hb.
    rewrite Hlabel. unfold _classify_market_structure.
    destruct (Qlt_le_dec 2500 h); [discriminate|].
    destruct (Qlt_le_dec 1500 h); [discriminate|].
    destruct (Qlt_le_dec 1000 h); [discriminate | lra].
  - intros Hk. pose proof (hhi_by_count df vt r 6 Hr Hpos Hk) as Hb.
    fold h in Hb. change (inject_Z 6) with 6%Q in Hb.
    destruct (ev_theme_spec cagr_text df) as [ev [Hev _]].
    destruct (high_growth_theme_spec df) as [growth [Hg _]].
    eexists. exists (consolidation_theme (vt, concentration_value df vt)).
    split.
    { unfold identify_investment_themes, consolidation_themes.
      rewrite Hev, calculate_market_concentration_Ok, Hg. reflexivity. }
    split; [|reflexivity].
    apply in_or_app. right. apply in_or_app. left.
    apply in_map. apply filter_In. split.
    + apply in_map_iff. exists vt. split; [reflexivity | exact Hvt].
    + unfold is_concentrated. cbn [snd]. fold h.
      destruct (Qlt_le_dec 1500 h); [reflexivity | lra].
  - intros Hk. pose proof (hhi_by_count df vt r 3 Hr Hpos Hk) as Hb.
    fold h in Hb. change (inject_Z 3) with 3%Q in Hb.
    split.
    + rewrite Hlabel. unfold _classify_market_structure.
      destruct (Qlt_le_dec 2500 h); [reflexivity | lra].
    + destruct (market_risks_spec df) as (specific & Hrisks & _ & Hconc & _).
      destruct (proj2 Hconc) as [s [Hs Hp]].
      { exists vt. split; [exact Hvt|]. fold h. lra. }
      eexists. exists s. split; [exact Hrisks|].
      split; [apply in_or_app; left; exact Hs | exact Hp].
  - intros Hk scores sc Hsc Hin.
    pose proof (hhi_by_count df vt r 2 Hr Hpos Hk) as Hb.
    fold h in Hb. change (inject_Z 2) with 2%Q in Hb.
    rewrite generate_investment_scorecard_Ok in Hsc. injection Hsc as <-.
    apply in_map_iff in Hin. destruct Hin as [vt' [E _]]. cbv beta in E.
    injection E as -> <-.
    unfold scorecard_value. cbv zeta. cbn [competition_intensity].
    unfold category_scores. cbn [competition_score].
    rewrite concentration_value_category_frame. fold h.
    assert (Hd : (h / 50 == h * (1 # 50))%Q) by (field; discriminate).
    assert (Hz : Qmax 0 (100 - h / 50) = 0%Q).
    { unfold Qmax. destruct (Qlt_le_dec 0 (100 - h / 50)); [lra|reflexivity]. }
    rewrite Hz. reflexivity.
Qed.

Lemma few_manufacturers_concentrated_witness :
  exists c risks s,
    calculate_market_concentration scenario_single_year = Ok [("2W", c)]
    /\ market_structure c = "Highly Concentrated (Oligopoly)"
    /\ _assess_market_risks scenario_single_year = Ok risks
    /\ In s risks
    /\ String.prefix "High concentration risk in " s = true.
Proof.
  destruct (few_manufacturers_concentrated (fun _ _ _ => "0.0%")
              scenario_single_year "2W")
    as (out & c & Hout & Hin & _ & _ & Hthree & _).
  { exists (record 2021 Q1 "2W" "A" 600).
    split; [left; reflexivity | reflexivity]. }
  assert (E : calculate_market_concentration scenario_single_year
              = Ok [("2W", concentration_value scenario_single_year "2W")])
    by (vm_compute; reflexivity).
  rewrite E in Hout. injection Hout as <-.
  destruct Hin as [Hin|[]]. injection Hin as <-.
  destruct Hthree as (Hlabel & risks & s & Hr & Hs & Hp);
    [vm_compute; discriminate|].
  eexists. exists risks, s. split; [exact E|].
  repeat split; assumption.
Defined.

(** ** Market sizing *)

Lemma round_half_even_compat (x y : Q) :
  (x == y)%Q -> round_half_even x = round_half_even y.
Proof.
  intros E. unfold round_half_even. cbv zeta.
  rewrite (Qfloor_comp _ _ E).
  assert (Ec : ((x - inject_Z (Qfloor y)) ?= (1 # 2))%Q
               = ((y - inject_Z (Qfloor y)) ?= (1 # 2))%Q).
  { apply Qcompare_comp; [rewrite E; reflexivity | reflexivity]. }
  rewrite Ec. reflexivity.
Qed.

Lemma fmt_1f_compat (x y : Q) : (x == y)%Q -> fmt_1f x = fmt_1f y.
Proof.
  intros E. unfold fmt_1f. cbv zeta.
  rewrite (round_half_even_compat (x * 10) (y * 10))
    by (rewrite E; reflexivity).
  destruct (Qlt_le_dec x 0), (Qlt_le_dec y 0); try reflexivity; lra.
Qed.

Lemma fmt_pct0_compat (x y : Q) :
  (x == y)%Q -> fmt_pct0 (Some x) = fmt_pct0 (Some y).
Proof.
  intros E. unfold fmt_pct0.
  rewrite (round_half_even_compat x y E).
  destruct (Qlt_le_dec x 0), (Qlt_le_dec y 0); try reflexivity; lra.
Qed.

(** X23. On every frame with at least one registration
    [calculate_tam_sam_som] returns without raising, and apart from the
    three market values (3 and 2 times the registrations, and 0.1 times the
    registrations up to the rounding of the float product) its answer does
    not depend on the data: the current penetration always reads "33.3%"
    and the growth potential "100%". *)
Theorem market_sizing_is_constant (zero_division : exc (option Q))
    (df : DataFrame) :
  (0 < total_registrations (rows df))%N ->
  exists s,
    calculate_tam_sam_som zero_division df = Ok s
    /\ (sized_value (total_addressable_market s)
        == 3 * QofN (total_registrations (rows df)))%Q
    /\ (sized_value (serviceable_addressable_market s)
        == 2 * QofN (total_registrations (rows df)))%Q
    /\ close_to (QofN (total_registrations (rows df)) / 10)
                (sized_value (serviceable_obtainable_market s))
    /\ current_penetration (market_penetration s) = "33.3%"
    /\ growth_potential (market_penetration s) = "100%".
Proof.
  intros Hpos. unfold calculate_tam_sam_som, sizing_div. cbv zeta.
  set (c := QofN (total_registrations (rows df))).
  assert (Hc : (0 < c)%Q) by (unfold c, QofN, Qlt; simpl; lia).
  assert (E1 : Qeq_bool (c * 3) 0 = false).
  { destruct (Qeq_bool (c * 3) 0) eqn:E; [|reflexivity].
    apply Qeq_bool_iff in E. lra. }
  assert (E2 : Qeq_bool c 0 = false).
  { destruct (Qeq_bool c 0) eqn:E; [|reflexivity].
    apply Qeq_bool_iff in E. lra. }
  rewrite E1, E2. cbn [bind]. eexists. split; [reflexivity|].
  cbn [total_addressable_market serviceable_addressable_market
       serviceable_obtainable_market market_penetration sized_value
       current_penetration growth_potential option_map].
  split; [ring|]. split; [ring|]. split; [apply close_to_refl; field|]. split.
  - unfold fmt_pct. rewrite (fmt_1f_compat _ (100 # 3)).
    + vm_compute. reflexivity.
    + field. lra.
  - rewrite (fmt_pct0_compat _ 100).
    + vm_compute. reflexivity.
    + field. lra.
Qed.

Lemma market_sizing_is_constant_witness :
  exists s,
    calculate_tam_sam_som (Raise ZeroDivisionError) scenario_two_years = Ok s
    /\ close_to 250 (sized_value (serviceable_obtainable_market s))
    /\ current_penetration (market_penetration s) = "33.3%"
    /\ growth_potential (market_penetration s) = "100%".
Proof.
  destruct (market_sizing_is_constant (Raise ZeroDivisionError)
              scenario_two_years) as (s & Hs & _ & _ & Hsom & Hp & Hg);
    [reflexivity|].
  exists s. split; [exact Hs|]. split; [|split; assumption].
  unfold close_to in *.
  assert (E : (QofN (total_registrations (rows scenario_two_years)) / 10
               == 250)%Q) by (vm_compute; reflexivity).
  rewrite <- (Qmag_compat _ _ E).
  assert (E2 : (sized_value (serviceable_obtainable_market s) - 250
                == sized_value (serviceable_obtainable_market s)
                   - QofN (total_registrations (rows scenario_two_years))
                     / 10)%Q) by (rewrite E; reflexivity).
  rewrite (Qmag_compat _ _ E2). exact Hsom.
Defined.

(** ** The market share table *)

Lemma qvm_eqb_eq (a b : QvmKey) : qvm_eqb a b = true <-> a = b.
Proof.
  unfold qvm_eqb. rewrite !andb_true_iff, yq_eqb_eq, !String.eqb_eq.
  destruct a as [[[ya qa] va] ma], b as [[[yb qb] vb] mb]; simpl. split.
  - intros [[E ->] ->]. injection E as -> ->. reflexivity.
  - intros H. injection H as -> -> -> ->. auto.
Qed.

Lemma quarterly_totals_In (rs : list Row) (e : QuarterlyTotal) :
  In e (quarterly_totals rs)
  <-> exists r,
        In r rs
        /\ e = mkQuarterly (period_text (year r) (quarter r))
                 (vehicle_type r) (manufacturer r)
                 (quarter_total rs (year r) (quarter r) (vehicle_type r)
                                (manufacturer r)).
Proof.
  unfold quarterly_totals. rewrite in_map_iff. split.
  - intros [[k s] [<- Hin]].
    apply (groupby_In qvm_eqb qvm_leb _ qvm_eqb_eq) in Hin.
    destruct Hin as [[r [Hr <-]] ->]. exists r. split; [exact Hr|].
    reflexivity.
  - intros [r [Hr ->]].
    exists ((year r, quarter r, vehicle_type r, manufacturer r),
            quarter_total rs (year r) (quarter r) (vehicle_type r)
                          (manufacturer r)).
    split; [reflexivity|].
    apply (groupby_In qvm_eqb qvm_leb _ qvm_eqb_eq).
    split; [exists r; auto | reflexivity].
Qed.

Lemma pv_eqb_eq (a b : string * string) : pv_eqb a b = true <-> a = b.
Proof.
  unfold pv_eqb. rewrite andb_true_iff, !String.eqb_eq.
  destruct a, b; simpl. split; [intros [-> ->]; reflexivity|].
  intros H. injection H as -> ->. auto.
Qed.

Lemma in_partition_iff (pv : string * string) (e : QuarterlyTotal) :
  in_partition pv e = true <-> (qt_period e, qt_vehicle_type e) = pv.
Proof.
  unfold in_partition. rewrite andb_true_iff, !String.eqb_eq.
  destruct pv; simpl. split; [intros [-> ->]; reflexivity|].
  intros H. injection H as -> ->. auto.
Qed.

Lemma partitions_In (qts : list QuarterlyTotal) (pv : string * string) :
  In pv (partitions qts)
  <-> exists e, In e qts /\ (qt_period e, qt_vehicle_type e) = pv.
Proof.
  unfold partitions. rewrite (drop_duplicates_In _ pv_eqb_eq), in_map_iff.
  split; intros [e [H1 H2]]; exists e; auto.
Qed.

Lemma number_rows_In (i : Z) (total : N) (l : list QuarterlyTotal)
    (x : QuarterlyTotal * option Q * Z) :
  In x (number_rows i total l)
  <-> exists n, nth_error l n = Some (fst (fst x))
                /\ snd x = i + Z.of_nat n
                /\ snd (fst x) = sql_share (qt_registrations (fst (fst x)))
                                           total.
Proof.
  revert i. induction l as [|e l IH]; intros i; cbn [number_rows].
  - split; [intros [] | intros [[|n] [H _]]; discriminate].
  - cbn [In]. rewrite IH. split.
    + intros [<-|[n [H1 [H2 H3]]]].
      * exists 0%nat. cbn. split; [reflexivity|]. split; [lia | reflexivity].
      * exists (S n). cbn [nth_error]. split; [exact H1|].
        split; [lia | exact H3].
    + intros [[|n] [H1 [H2 H3]]].
      * left. cbn in H1. injection H1 as ->.
        destruct x as [[e' s] k]. cbn in *. subst. f_equal. lia.
      * right. exists n. cbn [nth_error] in H1. split; [exact H1|].
        split; [lia | exact H3].
Qed.

Lemma number_rows_ranks (i : Z) (total : N) (l : list QuarterlyTotal) :
  map snd (number_rows i total l)
  = map (fun n => i + Z.of_nat n) (seq 0 (List.length l)).
Proof.
  revert i. induction l as [|e l IH]; intros i; [reflexivity|].
  cbn [number_rows map List.length seq snd]. f_equal; [lia|].
  rewrite IH, <- seq_shift, map_map. apply map_ext. intros n. lia.
Qed.

Lemma number_rows_rows (i : Z) (total : N) (l : list QuarterlyTotal) :
  map (fun x => fst (fst x)) (number_rows i total l) = l.
Proof.
  revert i. induction l as [|e l IH]; intros i; [reflexivity|].
  cbn [number_rows map fst]. rewrite IH. reflexivity.
Qed.

Lemma share_chunk_partition (qts : list QuarterlyTotal) (pv : string * string)
    (x : QuarterlyTotal * option Q * Z) :
  In x (share_chunk qts pv) ->
  In (fst (fst x)) qts
  /\ (qt_period (fst (fst x)), qt_vehicle_type (fst (fst x))) = pv.
Proof.
  intros H. unfold share_chunk in H. apply number_rows_In in H.
  destruct H as [n [Hn _]]. apply nth_error_In in Hn.
  apply sort_by_In, filter_In in Hn. destruct Hn as [Hin Hp].
  apply in_partition_iff in Hp. auto.
Qed.

Lemma market_share_calc_chunks (qts : list QuarterlyTotal) :
  market_share_calc qts = flat_map (share_chunk qts) (partitions qts).
Proof. reflexivity. Qed.

Lemma insert_shares_Stored (calc : list (QuarterlyTotal * option Q * Z))
    (table : list ShareRow) :
  insert_shares calc = Stored table -> map lift_row table = calc.
Proof.
  revert table. induction calc as [|[[e [s|]] k] calc IH]; intros table H;
    cbn [insert_shares] in H.
  - injection H as <-. reflexivity.
  - destruct (insert_shares calc) as [t|]; [|discriminate].
    injection H as <-. cbn [map]. rewrite (IH t eq_refl).
    unfold lift_row. cbn. destruct e. reflexivity.
  - discriminate.
Qed.

Lemma insert_shares_Error (calc : list (QuarterlyTotal * option Q * Z)) :
  insert_shares calc = IntegrityError
  <-> exists e k, In (e, None, k) calc.
Proof.
  induction calc as [|[[e [s|]] k] calc IH]; cbn [insert_shares].
  - split; [discriminate | intros [e [k []]]].
  - destruct (insert_shares calc) as [t|].
    + split; [discriminate|]. intros [e' [k' [H|H]]]; [discriminate|].
      assert (Hex : exists e k, In (e, None, k) calc) by (exists e', k'; auto).
      apply IH in Hex. discriminate.
    + split; [|reflexivity]. intros _.
      destruct (proj1 IH eq_refl) as [e' [k' H]].
      exists e', k'. right. exact H.
  - split; [|reflexivity]. intros _. exists e, k. left. reflexivity.
Qed.

Lemma sql_round_percent (x : Q) :
  (0 <= x <= 100)%Q ->
  (0 <= sql_round x 2 <= 100)%Q
  /\ (x - (1 # 200) <= sql_round x 2 <= x + (1 # 200))%Q.
Proof.
  intros [Hlo Hhi]. unfold sql_round. cbv zeta.
  change (inject_Z (10 ^ Z.of_nat 2)) with 100%Q.
  destruct (Qlt_le_dec (x * 100) 0) as [Hneg|_]; [lra|].
  destruct (Qfloor_bounds (x * 100 + (1 # 2))) as [Hf1 Hf2].
  assert (H0 : 0 <= Qfloor (x * 100 + (1 # 2))).
  { rewrite <- (Qfloor_Z 0). apply Qfloor_resp_le.
    change (inject_Z 0) with 0%Q. lra. }
  assert (H1 : Qfloor (x * 100 + (1 # 2)) <= 10000).
  { assert (H : Qfloor (x * 100 + (1 # 2)) < 10001); [|lia].
    rewrite Zlt_Qlt. change (inject_Z 10001) with 10001%Q. lra. }
  set (k := Qfloor (x * 100 + (1 # 2))) in *.
  assert (Hk0 : (0 <= inject_Z k)%Q) by (unfold Qle; simpl; lia).
  assert (Hk1 : (inject_Z k <= 10000)%Q) by (unfold Qle; simpl; lia).
  clearbody k. repeat split.
  - apply Qle_shift_div_l; lra.
  - apply Qle_shift_div_r; lra.
  - apply Qle_shift_div_l; lra.
  - apply Qle_shift_div_r; lra.
Qed.

Lemma percent_of_part (n t : N) :
  (n <= t)%N -> (0 < t)%N -> (0 <= QofN n * 100 / QofN t <= 100)%Q.
Proof.
  intros Hle Hpos. unfold QofN.
  assert (Ht : (0 < inject_Z (Z.of_N t))%Q) by (unfold Qlt; simpl; lia).
  assert (Hn : (0 <= inject_Z (Z.of_N n))%Q) by (unfold Qle; simpl; lia).
  assert (Hnt : (inject_Z (Z.of_N n) <= inject_Z (Z.of_N t))%Q)
    by (unfold Qle; simpl; lia).
  split.
  - apply Qle_shift_div_l; lra.
  - apply Qle_shift_div_r; lra.
Qed.

Lemma filter_map_swap {A B : Type} (g : A -> B) (p : B -> bool)
    (l : list A) :
  filter p (map g l) = map g (filter (fun a => p (g a)) l).
Proof.
  induction l as [|a l IH]; [reflexivity|]. cbn [map filter].
  destruct (p (g a)); cbn [map]; rewrite IH; reflexivity.
Qed.

Lemma filter_twice {A : Type} (p q : A -> bool) (l : list A) :
  filter p (filter q l) = filter (fun a => q a && p a) l.
Proof.
  induction l as [|a l IH]; [reflexivity|]. cbn [filter].
  destruct (q a); cbn [filter andb]; [destruct (p a)|]; rewrite IH;
    reflexivity.
Qed.

(** The [vehicle_type_totals] row of a partition is the sum over the
    records of the period and vehicle type. *)
Lemma partition_sum (rs : list Row) (p vt : string) :
  sumN (map qt_registrations
            (filter (in_partition (p, vt)) (quarterly_totals rs)))
  = partition_total rs p vt.
Proof.
  unfold quarterly_totals, groupby_registrations. rewrite map_map.
  rewrite filter_map_swap, map_map. cbn [qt_registrations fst snd].
  set (key := fun r : Row => (year r, quarter r, vehicle_type r,
                              manufacturer r)).
  set (inside := fun r : Row =>
                   String.eqb (period_text (year r) (quarter r)) p
                   && String.eqb (vehicle_type r) vt).
  set (ks := filter _ _).
  assert (Hks : forall k, In k ks ->
                  period_text (fst (fst (fst k))) (snd (fst (fst k))) = p
                  /\ snd (fst k) = vt).
  { intros k Hk. apply filter_In in Hk. destruct Hk as [_ Hk].
    unfold in_partition in Hk. cbn in Hk.
    apply andb_true_iff in Hk. rewrite !String.eqb_eq in Hk. exact Hk. }
  assert (Hsame : forall k, In k ks ->
                    group_rows qvm_eqb key rs k
                    = group_rows qvm_eqb key (filter inside rs) k).
  { intros k Hk. unfold group_rows. rewrite filter_twice.
    apply filter_ext_in. intros r _.
    destruct (qvm_eqb (key r) k) eqn:E; [|rewrite andb_false_r; reflexivity].
    apply qvm_eqb_eq in E. destruct (Hks k Hk) as [Hp Hv].
    subst k. unfold inside. cbn in Hp, Hv. rewrite Hp, Hv, !String.eqb_refl.
    reflexivity. }
  rewrite (map_ext_in _ (fun k => total_registrations
                                    (group_rows qvm_eqb key
                                       (filter inside rs) k))).
  2:{ intros k Hk. rewrite (Hsame k Hk). reflexivity. }
  apply (group_sums_total qvm_eqb qvm_eqb_eq).
  - apply NoDup_filter.
    eapply Permutation_NoDup; [apply sort_by_perm|].
    apply drop_duplicates_NoDup. exact qvm_eqb_eq.
  - intros r Hr. apply filter_In in Hr. destruct Hr as [Hin Hr].
    apply filter_In. split.
    + apply sort_by_In, (drop_duplicates_In _ qvm_eqb_eq), in_map. exact Hin.
    + unfold in_partition. cbn. exact Hr.
Qed.

Lemma calc_In_chunk (qts : list QuarterlyTotal)
    (x : QuarterlyTotal * option Q * Z) :
  In x (market_share_calc qts)
  <-> In x (share_chunk qts (qt_period (fst (fst x)),
                             qt_vehicle_type (fst (fst x)))).
Proof.
  rewrite market_share_calc_chunks, in_flat_map. split.
  - intros [pv [_ Hx]].
    destruct (share_chunk_partition qts pv x Hx) as [_ <-]. exact Hx.
  - intros Hx. eexists. split; [|exact Hx].
    destruct (share_chunk_partition qts _ x Hx) as [Hin _].
    apply partitions_In. exists (fst (fst x)). auto.
Qed.

Lemma registrations_geb_sorted (l : list QuarterlyTotal) :
  StronglySorted (fun a b => (qt_registrations b <= qt_registrations a)%N)
                 (sort_by registrations_geb l).
Proof.
  apply sort_by_sorted; unfold registrations_geb.
  - intros a b H. apply N.leb_le in H. exact H.
  - intros a b H. apply N.leb_gt in H. lia.
  - intros a b c H1 H2. lia.
Qed.

Lemma sorted_nth_error {A : Type} (R : A -> A -> Prop) (l : list A)
    (n m : nat) (a b : A) :
  StronglySorted R l -> (n < m)%nat ->
  nth_error l n = Some a -> nth_error l m = Some b -> R a b.
Proof.
  intros Hs. revert n m. induction Hs as [|x l Hs IH Hx]; intros n m Hnm Ha Hb.
  - destruct n; discriminate.
  - destruct m as [|m]; [lia|]. cbn [nth_error] in Hb.
    destruct n as [|n].
    + cbn in Ha. injection Ha as <-. rewrite Forall_forall in Hx.
      apply Hx. eapply nth_error_In. exact Hb.
    + cbn [nth_error] in Ha. apply (IH n m); [lia | exact Ha | exact Hb].
Qed.

Lemma lift_row_inj (a b : ShareRow) : lift_row a = lift_row b -> a = b.
Proof.
  destruct a, b. unfold lift_row. cbn. intros H. injection H as -> -> -> -> -> ->.
  reflexivity.
Qed.

Lemma lift_row_In (table : list ShareRow)
    (calc : list (QuarterlyTotal * option Q * Z)) (row : ShareRow) :
  map lift_row table = calc -> (In row table <-> In (lift_row row) calc).
Proof.
  intros <-. split; [apply in_map|]. intros H. apply in_map_iff in H.
  destruct H as [row' [E Hin]]. apply lift_row_inj in E. subst. exact Hin.
Qed.

Lemma lifted_In (table : list ShareRow)
    (calc : list (QuarterlyTotal * option Q * Z))
    (x : QuarterlyTotal * option Q * Z) :
  map lift_row table = calc -> In x calc ->
  exists row, In row table /\ lift_row row = x.
Proof.
  intros <- H. apply in_map_iff in H. destruct H as [row [E Hin]].
  exists row. auto.
Qed.

(** The rows of a chunk: position, share and membership. *)
Lemma share_chunk_In (rs : list Row) (p vt : string)
    (x : QuarterlyTotal * option Q * Z) :
  In x (share_chunk (quarterly_totals rs) (p, vt))
  <-> exists n,
        nth_error (sort_by registrations_geb
                     (filter (in_partition (p, vt)) (quarterly_totals rs))) n
        = Some (fst (fst x))
        /\ snd x = 1 + Z.of_nat n
        /\ snd (fst x) = sql_share (qt_registrations (fst (fst x)))
                                   (partition_total rs p vt).
Proof.
  unfold share_chunk. rewrite number_rows_In, partition_sum. reflexivity.
Qed.

Lemma partition_total_zero (rs : list Row) (p vt : string) :
  partition_total rs p vt = 0%N
  <-> forall r, In r rs -> period_text (year r) (quarter r) = p ->
                vehicle_type r = vt -> registrations r = 0%N.
Proof.
  unfold partition_total. split.
  - intros H r Hin Hp Hv.
    assert (Hle := total_registrations_In_le
                     (fun r => String.eqb (period_text (year r) (quarter r)) p
                               && String.eqb (vehicle_type r) vt) rs r Hin).
    cbv beta in Hle. rewrite Hp, Hv, !String.eqb_refl in Hle.
    specialize (Hle eq_refl). lia.
  - intros H. unfold total_registrations. apply sumN_all_zero.
    intros n Hn. apply in_map_iff in Hn. destruct Hn as [r [<- Hr]].
    apply filter_In in Hr. destruct Hr as [Hin Hr].
    apply andb_true_iff in Hr. rewrite !String.eqb_eq in Hr.
    apply H; tauto.
Qed.

Lemma quarter_total_le_partition (rs : list Row) (r : Row) :
  In r rs ->
  (quarter_total rs (year r) (quarter r) (vehicle_type r) (manufacturer r)
   <= partition_total rs (period_text (year r) (quarter r)) (vehicle_type r))%N.
Proof.
  intros Hin. rewrite <- partition_sum. apply sumN_In_le. apply in_map_iff.
  exists (mkQuarterly (period_text (year r) (quarter r)) (vehicle_type r)
            (manufacturer r)
            (quarter_total rs (year r) (quarter r) (vehicle_type r)
                           (manufacturer r))).
  split; [reflexivity|]. apply filter_In. split.
  - apply quarterly_totals_In. exists r. auto.
  - apply in_partition_iff. reflexivity.
Qed.

Lemma filter_none {A : Type} (p : A -> bool) (l : list A) :
  (forall x, In x l -> p x = false) -> filter p l = [].
Proof.
  induction l as [|a l IH]; intros H; [reflexivity|]. simpl.
  rewrite (H a) by (left; reflexivity).
  apply IH. intros x Hx. apply H. right. exact Hx.
Qed.

(** Selecting by key from a concatenation of chunks, one per key, gives the
    chunk of the key. *)
Section Chunks.
Context {A B : Type}.
Variable eqb : A -> A -> bool.
Hypothesis eqb_eq : forall x y, eqb x y = true <-> x = y.
Variable key : B -> A.
Variable f : A -> list B.
Hypothesis chunk_key : forall a x, In x (f a) -> key x = a.

Lemma filter_chunks (ps : list A) (a : A) :
  NoDup ps -> (~ In a ps -> f a = []) ->
  filter (fun x => eqb (key x) a) (flat_map f ps) = f a.
Proof.
  induction 1 as [|a' ps Hnotin Hnd IH]; intros Hempty.
  - rewrite Hempty by (intros []). reflexivity.
  - cbn [flat_map]. rewrite filter_app. destruct (eqb a' a) eqn:E.
    + apply eqb_eq in E. subst a'.
      rewrite filter_all.
      2:{ intros x Hx. apply eqb_eq. apply chunk_key. exact Hx. }
      rewrite filter_none; [apply app_nil_r|].
      intros x Hx. apply in_flat_map in Hx. destruct Hx as [a' [Ha' Hx]].
      apply chunk_key in Hx. destruct (eqb (key x) a) eqn:E'; [|reflexivity].
      apply eqb_eq in E'. congruence.
    + rewrite filter_none.
      2:{ intros x Hx. apply chunk_key in Hx. rewrite Hx. exact E. }
      apply IH. intros Hn. apply Hempty. intros [->|Hin]; [|tauto].
      rewrite (proj2 (eqb_eq a a) eq_refl) in E. discriminate.
Qed.
End Chunks.

Section SortedStays.
Context {A : Type}.
Variable leb : A -> A -> bool.

Lemma sort_by_sorted_id (l : list A) :
  StronglySorted (fun a b => leb a b = true) l -> sort_by leb l = l.
Proof.
  induction 1 as [|a l Hs IH Ha]; [reflexivity|].
  cbn [sort_by]. rewrite IH. destruct l as [|b l]; [reflexivity|].
  cbn [insert_by]. rewrite Forall_forall in Ha.
  rewrite (Ha b) by (left; reflexivity). reflexivity.
Qed.
End SortedStays.

Lemma number_rows_sorted (i : Z) (total : N) (l : list QuarterlyTotal) :
  StronglySorted (fun x y => snd x < snd y) (number_rows i total l)
  /\ Forall (fun x => i <= snd x) (number_rows i total l).
Proof.
  revert i. induction l as [|e l IH]; intros i; cbn [number_rows].
  - split; constructor.
  - destruct (IH (i + 1)) as [Hs Hall]. rewrite Forall_forall in Hall. split.
    + constructor; [exact Hs|]. apply Forall_forall. intros x Hx. cbn [snd].
      specialize (Hall x Hx). lia.
    + constructor; [cbn; lia|]. apply Forall_forall. intros x Hx.
      specialize (Hall x Hx). lia.
Qed.

Lemma share_rows_chunk (rs : list Row) (table : list ShareRow)
    (p vt : string) :
  calculate_and_store_market_share rs = Stored table ->
  map lift_row (share_rows table p vt)
  = share_chunk (quarterly_totals rs) (p, vt).
Proof.
  intros Hst. apply insert_shares_Stored in Hst. unfold share_rows.
  rewrite <- (filter_chunks pv_eqb pv_eqb_eq
                (fun x : QuarterlyTotal * option Q * Z =>
                   (qt_period (fst (fst x)), qt_vehicle_type (fst (fst x))))
                (share_chunk (quarterly_totals rs))
                (fun a x Hx => proj2 (share_chunk_partition _ a x Hx))
                (partitions (quarterly_totals rs)) (p, vt)).
  - rewrite <- market_share_calc_chunks, <- Hst, filter_map_swap.
    f_equal.
  - apply drop_duplicates_NoDup. exact pv_eqb_eq.
  - intros Hn. unfold share_chunk. rewrite filter_none; [reflexivity|].
    intros e He. destruct (in_partition (p, vt) e) eqn:E; [|reflexivity].
    exfalso. apply Hn. apply partitions_In. exists e. split; [exact He|].
    apply in_partition_iff. exact E.
Qed.

Lemma sql_share_None (n t : N) : sql_share n t = None <-> t = 0%N.
Proof.
  unfold sql_share. destruct (t =? 0)%N eqn:E.
  - apply N.eqb_eq in E. tauto.
  - apply N.eqb_neq in E. split; [discriminate | tauto].
Qed.

(** Membership in the stored table: the position in the ordered partition,
    the row number and the share. *)
Lemma stored_In (rs : list Row) (table : list ShareRow) (row : ShareRow) :
  calculate_and_store_market_share rs = Stored table ->
  (In row table
   <-> exists n,
         nth_error (sort_by registrations_geb
                      (filter (in_partition (share_period row,
                                             share_vehicle_type row))
                              (quarterly_totals rs))) n
         = Some (mkQuarterly (share_period row) (share_vehicle_type row)
                   (share_manufacturer row) (share_registrations row))
         /\ rank_position row = 1 + Z.of_nat n
         /\ Some (market_share_percent row)
            = sql_share (share_registrations row)
                (partition_total rs (share_period row)
                                 (share_vehicle_type row))).
Proof.
  intros Hst. apply insert_shares_Stored in Hst.
  rewrite (lift_row_In table _ row Hst).
  change (market_share_calc (quarterly_totals rs))
    with (market_share_calc (quarterly_totals rs)).
  unfold calculate_and_store_market_share in *.
  rewrite calc_In_chunk. unfold lift_row at 2 3. cbn [fst snd qt_period
    qt_vehicle_type]. rewrite share_chunk_In. reflexivity.
Qed.

Lemma partition_member (rs : list Row) (p vt : string) (e : QuarterlyTotal)
    (n : nat) :
  nth_error (sort_by registrations_geb
               (filter (in_partition (p, vt)) (quarterly_totals rs))) n
  = Some e ->
  exists r,
    In r rs
    /\ p = period_text (year r) (quarter r)
    /\ vt = vehicle_type r
    /\ e = mkQuarterly p vt (manufacturer r)
             (quarter_total rs (year r) (quarter r) (vehicle_type r)
                            (manufacturer r)).
Proof.
  intros Hn. apply nth_error_In, sort_by_In, filter_In in Hn.
  destruct Hn as [Hin Hp]. apply in_partition_iff in Hp.
  apply quarterly_totals_In in Hin. destruct Hin as [r [Hr ->]].
  cbn in Hp. injection Hp as <- <-. exists r. auto.
Qed.

Lemma member_position (rs : list Row) (r : Row) :
  In r rs ->
  exists n,
    nth_error (sort_by registrations_geb
                 (filter (in_partition (period_text (year r) (quarter r),
                                        vehicle_type r))
                         (quarterly_totals rs))) n
    = Some (mkQuarterly (period_text (year r) (quarter r)) (vehicle_type r)
              (manufacturer r)
              (quarter_total rs (year r) (quarter r) (vehicle_type r)
                             (manufacturer r))).
Proof.
  intros Hin. apply In_nth_error, sort_by_In, filter_In. split.
  - apply quarterly_totals_In. exists r. auto.
  - apply in_partition_iff. reflexivity.
Qed.

Lemma market_share_failure (rs : list Row) :
  calculate_and_store_market_share rs = IntegrityError
  <-> exists r,
        In r rs
        /\ partition_total rs (period_text (year r) (quarter r))
                           (vehicle_type r) = 0%N.
Proof.
  unfold calculate_and_store_market_share. rewrite insert_shares_Error. split.
  - intros [e [k Hin]]. apply calc_In_chunk in Hin. cbn [fst snd] in Hin.
    apply share_chunk_In in Hin. cbn [fst snd] in Hin.
    destruct Hin as [n [Hn [_ Hs]]].
    destruct (partition_member rs _ _ e n Hn) as [r [Hr [Hp [Hv _]]]].
    exists r. split; [exact Hr|]. rewrite <- Hp, <- Hv.
    symmetry in Hs. apply sql_share_None in Hs. exact Hs.
  - intros [r [Hr Hz]]. destruct (member_position rs r Hr) as [n Hn].
    exists (mkQuarterly (period_text (year r) (quarter r)) (vehicle_type r)
              (manufacturer r)
              (quarter_total rs (year r) (quarter r) (vehicle_type r)
                             (manufacturer r))).
    exists (1 + Z.of_nat n). apply calc_In_chunk. cbn [fst snd].
    apply share_chunk_In. cbn [fst snd]. exists n.
    cbn [qt_period qt_vehicle_type qt_registrations].
    split; [exact Hn|]. split; [reflexivity|].
    symmetry. apply sql_share_None. exact Hz.
Qed.

Lemma stored_row_spec (rs : list Row) (table : list ShareRow)
    (row : ShareRow) :
  calculate_and_store_market_share rs = Stored table ->
  In row table ->
  (exists r,
     In r rs
     /\ share_period row = period_text (year r) (quarter r)
     /\ share_vehicle_type row = vehicle_type r
     /\ share_manufacturer row = manufacturer r
     /\ share_registrations row
        = quarter_total rs (year r) (quarter r) (vehicle_type r)
                        (manufacturer r))
  /\ (0 < partition_total rs (share_period row) (share_vehicle_type row))%N
  /\ (share_registrations row
      <= partition_total rs (share_period row) (share_vehicle_type row))%N
  /\ market_share_percent row
     = sql_round (QofN (share_registrations row) * 100
                  / QofN (partition_total rs (share_period row)
                                          (share_vehicle_type row))) 2.
Proof.
  intros Hst Hin. apply (stored_In rs table row Hst) in Hin.
  destruct Hin as [n [Hn [_ Hs]]].
  destruct (partition_member rs _ _ _ n Hn) as [r [Hr [Hp [Hv He]]]].
  injection He as Hm Hq.
  assert (Hle := quarter_total_le_partition rs r Hr).
  rewrite <- Hq, <- Hp, <- Hv in Hle.
  unfold sql_share in Hs.
  destruct (partition_total rs (share_period row) (share_vehicle_type row)
            =? 0)%N eqn:E; [discriminate|].
  apply N.eqb_neq in E. injection Hs as Hs.
  split; [exists r; auto|]. split; [lia|]. split; [exact Hle | exact Hs].
Qed.

Lemma stored_row_exists (rs : list Row) (table : list ShareRow) (r : Row) :
  calculate_and_store_market_share rs = Stored table ->
  In r rs ->
  exists row,
    In row table
    /\ share_period row = period_text (year r) (quarter r)
    /\ share_vehicle_type row = vehicle_type r
    /\ share_manufacturer row = manufacturer r
    /\ share_registrations row
       = quarter_total rs (year r) (quarter r) (vehicle_type r)
                       (manufacturer r).
Proof.
  intros Hst Hr. destruct (member_position rs r Hr) as [n Hn].
  destruct (partition_total rs (period_text (year r) (quarter r))
                            (vehicle_type r) =? 0)%N eqn:E.
  - apply N.eqb_eq in E.
    assert (Hf : calculate_and_store_market_share rs = IntegrityError)
      by (apply market_share_failure; exists r; auto).
    rewrite Hst in Hf. discriminate.
  - exists (mkShare (period_text (year r) (quarter r)) (vehicle_type r)
              (manufacturer r)
              (quarter_total rs (year r) (quarter r) (vehicle_type r)
                             (manufacturer r))
              (sql_round (QofN (quarter_total rs (year r) (quarter r)
                                  (vehicle_type r) (manufacturer r)) * 100
                          / QofN (partition_total rs
                                    (period_text (year r) (quarter r))
                                    (vehicle_type r))) 2)
              (1 + Z.of_nat n)).
    split; [|cbn; auto]. apply (stored_In rs table _ Hst).
    cbn [share_period share_vehicle_type share_manufacturer
         share_registrations market_share_percent rank_position].
    exists n. split; [exact Hn|]. split; [reflexivity|].
    unfold sql_share. rewrite E. reflexivity.
Qed.

(** X24. [calculate_and_store_market_share] fails on the NOT NULL constraint
    of the share column exactly when some period and vehicle type of the
    registrations table has no registration at all (every record of it is
    0): the share would divide by zero.  Otherwise the new table has a row
    for every recorded period, vehicle type and manufacturer, and each row
    holds the manufacturer's registrations of that quarter and their
    percentage of the positive total of the period and vehicle type, rounded
    to two decimals: a value from 0 to 100 within 0.005 of the exact
    percentage. *)
Theorem market_share_table (rs : list Row) :
  (calculate_and_store_market_share rs = IntegrityError
   <-> exists r,
         In r rs
         /\ forall r', In r' rs ->
              period_text (year r') (quarter r')
              = period_text (year r) (quarter r) ->
              vehicle_type r' = vehicle_type r -> registrations r' = 0%N)
  /\ forall table,
       calculate_and_store_market_share rs = Stored table ->
       (forall row, In row table ->
          let total := partition_total rs (share_period row)
                                       (share_vehicle_type row) in
          let exact := (QofN (share_registrations row) * 100 / QofN total)%Q in
          (exists r,
             In r rs
             /\ share_period row = period_text (year r) (quarter r)
             /\ share_vehicle_type row = vehicle_type r
             /\ share_manufacturer row = manufacturer r
             /\ share_registrations row
                = quarter_total rs (year r) (quarter r) (vehicle_type r)
                                (manufacturer r))
          /\ (0 < total)%N
          /\ market_share_percent row = sql_round exact 2
          /\ (0 <= market_share_percent row <= 100)%Q
          /\ (exact - (1 # 200) <= market_share_percent row
              <= exact + (1 # 200))%Q)
       /\ (forall r, In r rs ->
             exists row,
               In row table
               /\ share_period row = period_text (year r) (quarter r)
               /\ share_vehicle_type row = vehicle_type r
               /\ share_manufacturer row = manufacturer r
               /\ share_registrations row
                  = quarter_total rs (year r) (quarter r) (vehicle_type r)
                                  (manufacturer r)).
Proof.
  split.
  - rewrite market_share_failure. split; intros [r [Hr H]]; exists r;
      (split; [exact Hr|]); apply partition_total_zero; exact H.
  - intros table Hst. split.
    + intros row Hin. cbv zeta.
      destruct (stored_row_spec rs table row Hst Hin)
        as [Hrec [Hpos [Hle Hshare]]].
      destruct (sql_round_percent _ (percent_of_part _ _ Hle Hpos))
        as [Hrange Hnear].
      rewrite <- Hshare in Hrange, Hnear. auto.
    + intros r Hr. exact (stored_row_exists rs table r Hst Hr).
Qed.

Lemma market_share_table_witness :
  calculate_and_store_market_share (rows scenario_idle_quarter)
  = IntegrityError
  /\ exists table,
       calculate_and_store_market_share (rows scenario_quarter_shares)
       = Stored table
       /\ forall row, In row table ->
            (0 <= market_share_percent row <= 100)%Q.
Proof.
  split.
  - apply (proj1 (market_share_table (rows scenario_idle_quarter))).
    exists (record 2021 Q2 "2W" "A" 0). split; [vm_compute; tauto|].
    intros r' [<- | [<- | [<- | []]]] Hp Hv;
      [vm_compute in Hp; discriminate | vm_compute in Hp; discriminate
       | reflexivity].
  - destruct (calculate_and_store_market_share (rows scenario_quarter_shares))
      as [table|] eqn:E; [|vm_compute in E; discriminate].
    exists table. split; [reflexivity|]. intros row Hin.
    apply (proj1 (proj2 (market_share_table (rows scenario_quarter_shares))
                    table E) row Hin).
Defined.

Lemma sql_share_mono (n m t : N) (s s' : Q) :
  (n <= m)%N -> (m <= t)%N ->
  sql_share n t = Some s -> sql_share m t = Some s' -> (s <= s')%Q.
Proof.
  unfold sql_share. intros Hnm Hmt. destruct (t =? 0)%N eqn:E; [discriminate|].
  apply N.eqb_neq in E. intros Hs Hs'. injection Hs as <-. injection Hs' as <-.
  assert (Hpos : (0 < t)%N) by lia.
  destruct (percent_of_part n t ltac:(lia) Hpos) as [Hn0 _].
  destruct (percent_of_part m t Hmt Hpos) as [Hm0 _].
  assert (Hle : (QofN n * 100 / QofN t <= QofN m * 100 / QofN t)%Q).
  { unfold QofN.
    assert (Ht : (0 < inject_Z (Z.of_N t))%Q) by (unfold Qlt; simpl; lia).
    assert (Hq : (inject_Z (Z.of_N n) <= inject_Z (Z.of_N m))%Q)
      by (unfold Qle; simpl; lia).
    apply Qle_shift_div_l; [exact Ht|].
    unfold Qdiv. rewrite <- Qmult_assoc, (Qmult_comm (/ _)), Qmult_assoc.
    setoid_replace (inject_Z (Z.of_N n) * 100 * inject_Z (Z.of_N t)
                    * / inject_Z (Z.of_N t))%Q
      with (inject_Z (Z.of_N n) * 100)%Q by (field; lra).
    lra. }
  set (x := (QofN n * 100 / QofN t)%Q) in *.
  set (y := (QofN m * 100 / QofN t)%Q) in *. clearbody x y.
  unfold sql_round. cbv zeta.
  change (inject_Z (10 ^ Z.of_nat 2)) with 100%Q.
  destruct (Qlt_le_dec (x * 100) 0) as [Hneg|_]; [lra|].
  destruct (Qlt_le_dec (y * 100) 0) as [Hneg|_]; [lra|].
  assert (Hf : Qfloor (x * 100 + (1 # 2)) <= Qfloor (y * 100 + (1 # 2))).
  { apply Qfloor_resp_le. lra. }
  assert (Hq : (inject_Z (Qfloor (x * 100 + (1 # 2)))
                <= inject_Z (Qfloor (y * 100 + (1 # 2))))%Q)
    by (rewrite <- Zle_Qle; exact Hf).
  set (a := inject_Z (Qfloor (x * 100 + (1 # 2)))) in *.
  set (b := inject_Z (Qfloor (y * 100 + (1 # 2)))) in *. clearbody a b.
  unfold Qdiv. apply Qmult_le_compat_r; [exact Hq|].
  apply Qlt_le_weak. reflexivity.
Qed.

Lemma number_rows_length (i : Z) (total : N) (l : list QuarterlyTotal) :
  List.length (number_rows i total l) = List.length l.
Proof.
  rewrite <- (number_rows_rows i total l) at 2. symmetry. apply length_map.
Qed.

Lemma share_rows_length (rs : list Row) (table : list ShareRow)
    (p vt : string) :
  calculate_and_store_market_share rs = Stored table ->
  List.length (share_rows table p vt)
  = List.length (filter (in_partition (p, vt)) (quarterly_totals rs)).
Proof.
  intros Hst. rewrite <- (length_map lift_row).
  rewrite (share_rows_chunk rs table p vt Hst). unfold share_chunk.
  rewrite number_rows_length. apply sort_by_length.
Qed.

Lemma share_rows_In (table : list ShareRow) (p vt : string)
    (row : ShareRow) :
  In row (share_rows table p vt)
  <-> In row table /\ share_period row = p /\ share_vehicle_type row = vt.
Proof.
  unfold share_rows. rewrite filter_In, andb_true_iff, !String.eqb_eq.
  reflexivity.
Qed.

(** X25. The ranks of a stored market share table are row numbers: within
    one period and vehicle type they are the numbers from 1 to the number of
    rows of that period and vehicle type, each taken by exactly one row
    (manufacturers with equal registrations get different ranks), and a row
    with a smaller rank has neither fewer registrations nor a smaller
    share. *)
Theorem market_share_ranking (rs : list Row) (table : list ShareRow)
    (a : ShareRow) :
  calculate_and_store_market_share rs = Stored table ->
  In a table ->
  let peers := share_rows table (share_period a) (share_vehicle_type a) in
  1 <= rank_position a <= Z.of_nat (List.length peers)
  /\ (forall k, 1 <= k <= Z.of_nat (List.length peers) ->
        exists b, In b peers /\ rank_position b = k)
  /\ (forall b, In b peers ->
        (rank_position b = rank_position a -> b = a)
        /\ (rank_position a < rank_position b ->
            (share_registrations b <= share_registrations a)%N
            /\ (market_share_percent b <= market_share_percent a)%Q)).
Proof.
  intros Hst Ha. cbv zeta.
  set (p := share_period a). set (vt := share_vehicle_type a).
  rewrite (share_rows_length rs table p vt Hst).
  rewrite <- (sort_by_length registrations_geb).
  pose proof (proj1 (stored_In rs table a Hst) Ha) as [n [Hn [Hrank Hshare]]].
  fold p vt in Hn, Hshare.
  set (part := sort_by registrations_geb
                 (filter (in_partition (p, vt)) (quarterly_totals rs))) in *.
  split; [|split].
  - assert (Hlt : (n < List.length part)%nat)
      by (apply nth_error_Some; rewrite Hn; discriminate).
    lia.
  - intros k Hk.
    destruct (nth_error part (Z.to_nat (k - 1))) as [e|] eqn:He.
    2:{ apply nth_error_None in He. lia. }
    destruct (lifted_In table (market_share_calc (quarterly_totals rs))
                (e, sql_share (qt_registrations e) (partition_total rs p vt),
                 k)) as [b [Hb Hlift]].
    + apply insert_shares_Stored. exact Hst.
    + pose proof (nth_error_In _ _ He) as Hin.
      apply sort_by_In, filter_In in Hin. destruct Hin as [_ Hpv].
      apply in_partition_iff in Hpv. injection Hpv as Hp Hv.
      apply calc_In_chunk. cbn [fst snd]. rewrite Hp, Hv.
      apply share_chunk_In. cbn [fst snd]. exists (Z.to_nat (k - 1)).
      split; [exact He|]. split; [lia | reflexivity].
    + exists b. unfold lift_row in Hlift. injection Hlift as He' _ Hk'.
      pose proof (nth_error_In _ _ He) as Hin.
      apply sort_by_In, filter_In in Hin. destruct Hin as [_ Hpv].
      apply in_partition_iff in Hpv. injection Hpv as Hp Hv.
      rewrite <- He' in Hp, Hv. cbn [qt_period qt_vehicle_type] in Hp, Hv.
      split; [|exact Hk']. apply share_rows_In. auto.
  - intros b Hb. apply share_rows_In in Hb. destruct Hb as [Hb [Hbp Hbv]].
    pose proof (proj1 (stored_In rs table b Hst) Hb)
      as [m [Hm [Hrank' Hshare']]].
    rewrite Hbp, Hbv in Hm, Hshare'. fold part in Hm. split.
    + intros E. assert (Hnm : m = n) by lia. subst m.
      rewrite Hn in Hm. injection Hm as Hmf Hreg.
      rewrite <- Hreg in Hshare'. rewrite <- Hshare' in Hshare.
      injection Hshare as Hsh.
      destruct a, b. cbn in *. subst. reflexivity.
    + intros Hlt. assert (Hnm : (n < m)%nat) by lia.
      pose proof (sorted_nth_error _ part n m _ _
                    (registrations_geb_sorted _) Hnm Hn Hm) as Hle.
      cbn [qt_registrations] in Hle. split; [exact Hle|].
      destruct (stored_row_spec rs table a Hst Ha) as [_ [_ [Hat _]]].
      fold p vt in Hat.
      exact (sql_share_mono _ _ _ _ _ Hle Hat (eq_sym Hshare')
               (eq_sym Hshare)).
Qed.

Lemma market_share_ranking_witness :
  exists table a b,
    calculate_and_store_market_share (rows scenario_level_pair) = Stored table
    /\ In a table /\ In b table
    /\ share_manufacturer a = "A" /\ share_manufacturer b = "C"
    /\ share_registrations a = share_registrations b
    /\ rank_position a <> rank_position b
    /\ 1 <= rank_position a <= 3.
Proof.
  destruct (calculate_and_store_market_share (rows scenario_level_pair))
    as [table|] eqn:E; [|vm_compute in E; discriminate].
  exists table.
  exists (mkShare "2021-Q1" "2W" "A" 30 (3000 # 100) 2).
  exists (mkShare "2021-Q1" "2W" "C" 30 (3000 # 100) 3).
  assert (Ha : In (mkShare "2021-Q1" "2W" "A" 30 (3000 # 100) 2) table).
  { vm_compute in E. injection E as <-. right. left. reflexivity. }
  split; [reflexivity|]. split; [exact Ha|]. split.
  { vm_compute in E. injection E as <-. right. right. left. reflexivity. }
  split; [reflexivity|]. split; [reflexivity|]. split; [reflexivity|].
  split; [discriminate|].
  pose proof (market_share_ranking (rows scenario_level_pair) table _ E Ha)
    as [Hr _].
  vm_compute in E. injection E as <-. exact Hr.
Defined.

Lemma StronglySorted_weaken {A : Type} (R R' : A -> A -> Prop) (l : list A) :
  (forall a b, R a b -> R' a b) -> StronglySorted R l -> StronglySorted R' l.
Proof.
  intros Himp. induction 1 as [|a l Hs IH Ha]; constructor; [exact IH|].
  rewrite Forall_forall in *. intros x Hx. apply Himp, Ha, Hx.
Qed.

Lemma string_leb_refl (s : string) : String.leb s s = true.
Proof.
  destruct (String.leb s s) eqn:E; [reflexivity|].
  pose proof (string_leb_total s s E) as H. unfold string_leb in H.
  rewrite E in H. exact H.
Qed.

Lemma latest_text (l : list string) (s : string) :
  let m := fold_left (fun best t => if String.leb best t then t else best)
                     l s in
  In m (s :: l) /\ forall t, In t (s :: l) -> String.leb t m = true.
Proof.
  cbv zeta. revert s. induction l as [|u l IH]; intros s; cbn [fold_left].
  - split; [left; reflexivity|]. intros t [<-|[]]. apply string_leb_refl.
  - destruct (String.leb s u) eqn:E.
    + destruct (IH u) as [Hin Hmax]. split; [right; exact Hin|].
      intros t [<-|Ht]; [|apply Hmax; exact Ht].
      apply (string_leb_trans _ u); [exact E|]. apply Hmax. left. reflexivity.
    + destruct (IH s) as [Hin Hmax]. split.
      * destruct Hin as [Hin|Hin]; [left; exact Hin | right; right; exact Hin].
      * intros t [<-|[<-|Ht]].
        -- apply Hmax. left. reflexivity.
        -- apply (string_leb_trans _ s); [apply string_leb_total; exact E|].
           apply Hmax. left. reflexivity.
        -- apply Hmax. right. exact Ht.
Qed.

Lemma max_text_spec (l : list string) :
  match max_text l with
  | None => l = []
  | Some m => In m l /\ forall t, In t l -> String.leb t m = true
  end.
Proof.
  destruct l as [|s l]; [reflexivity|]. cbn [max_text]. apply latest_text.
Qed.

Lemma period_text_nonempty (y : Z) (q : Quarter) : period_text y q <> "".
Proof.
  unfold period_text. destruct (str_Z y); cbn; discriminate.
Qed.

(** The rows of a period and vehicle type come out of the ordering by rank
    as they are stored. *)
Lemma leaders_of_period (rs : list Row) (table : list ShareRow)
    (vt p : string) :
  calculate_and_store_market_share rs = Stored table ->
  sort_by rank_leb
    (filter (fun r => String.eqb (share_period r) p)
       (filter (fun r => String.eqb (share_vehicle_type r) vt) table))
  = share_rows table p vt.
Proof.
  intros Hst. rewrite filter_twice.
  rewrite (filter_ext _ (fun row => String.eqb (share_period row) p
                                    && String.eqb (share_vehicle_type row) vt))
    by (intros row; apply andb_comm).
  fold (share_rows table p vt). apply sort_by_sorted_id.
  apply (StronglySorted_weaken
           (fun a b => snd (lift_row a) < snd (lift_row b))).
  - intros a b H. unfold rank_leb. apply Z.leb_le. cbn in H. lia.
  - apply StronglySorted_unmap
      with (R := fun x y : QuarterlyTotal * option Q * Z => snd x < snd y).
    rewrite (share_rows_chunk rs table p vt Hst). unfold share_chunk.
    apply number_rows_sorted.
Qed.

Lemma share_rows_ranks (rs : list Row) (table : list ShareRow)
    (p vt : string) :
  calculate_and_store_market_share rs = Stored table ->
  map rank_position (share_rows table p vt)
  = map Z.of_nat (seq 1 (List.length (share_rows table p vt))).
Proof.
  intros Hst.
  change rank_position with (fun row => snd (lift_row row)).
  rewrite <- (map_map lift_row snd).
  rewrite <- (length_map lift_row (share_rows table p vt)).
  rewrite (share_rows_chunk rs table p vt Hst). unfold share_chunk.
  rewrite number_rows_ranks, number_rows_length.
  rewrite <- seq_shift, map_map. apply map_ext. intros n. lia.
Qed.

Lemma share_rows_by_registrations (rs : list Row) (table : list ShareRow)
    (p vt : string) :
  calculate_and_store_market_share rs = Stored table ->
  StronglySorted (fun a b => (share_registrations b <= share_registrations a)%N)
                 (share_rows table p vt).
Proof.
  intros Hst.
  apply (StronglySorted_unmap (fun row => fst (fst (lift_row row)))
           (fun x y => (qt_registrations y <= qt_registrations x)%N)).
  rewrite <- (map_map lift_row (fun x => fst (fst x))).
  rewrite (share_rows_chunk rs table p vt Hst). unfold share_chunk.
  rewrite number_rows_rows. apply registrations_geb_sorted.
Qed.

Lemma market_leaders_given (rs : list Row) (table : list ShareRow)
    (vt p : string) :
  calculate_and_store_market_share rs = Stored table -> p <> ""%string ->
  get_market_leaders table vt (Some p) = share_rows table p vt.
Proof.
  intros Hst Hp. unfold get_market_leaders.
  destruct (String.eqb p "") eqn:E; [apply String.eqb_eq in E; tauto|].
  apply (leaders_of_period rs table vt p Hst).
Qed.

Lemma market_leaders_latest (rs : list Row) (table : list ShareRow)
    (vt : string) :
  calculate_and_store_market_share rs = Stored table ->
  get_market_leaders table vt (Some ""%string)
  = get_market_leaders table vt None
  /\ ((forall r, In r rs -> vehicle_type r <> vt) ->
      get_market_leaders table vt None = [])
  /\ ((exists r, In r rs /\ vehicle_type r = vt) ->
      exists r,
        In r rs /\ vehicle_type r = vt
        /\ (forall r', In r' rs -> vehicle_type r' = vt ->
              String.leb (period_text (year r') (quarter r'))
                         (period_text (year r) (quarter r)) = true)
        /\ get_market_leaders table vt None
           = share_rows table (period_text (year r) (quarter r)) vt).
Proof.
  intros Hst. split; [reflexivity|]. unfold get_market_leaders.
  set (of_type := filter (fun r => String.eqb (share_vehicle_type r) vt)
                         table).
  pose proof (max_text_spec (map share_period of_type)) as Hmax.
  destruct (max_text (map share_period of_type)) as [m|]; split.
  - intros Hnone. exfalso. destruct Hmax as [Hin _].
    apply in_map_iff in Hin. destruct Hin as [row [_ Hrow]].
    apply filter_In in Hrow. destruct Hrow as [Hrow Hv].
    apply String.eqb_eq in Hv.
    destruct (stored_row_spec rs table row Hst Hrow)
      as [[r [Hr [_ [Hvr _]]]] _].
    apply (Hnone r Hr). congruence.
  - intros _. destruct Hmax as [Hin Hle].
    apply in_map_iff in Hin. destruct Hin as [row [Hm Hrow]].
    apply filter_In in Hrow. destruct Hrow as [Hrow Hv].
    apply String.eqb_eq in Hv.
    destruct (stored_row_spec rs table row Hst Hrow)
      as [[r [Hr [Hpr [Hvr _]]]] _].
    exists r. split; [exact Hr|]. split; [congruence|]. split.
    + intros r' Hr' Hv'.
      destruct (stored_row_exists rs table r' Hst Hr')
        as [row' [Hrow' [Hp' [Hvt' _]]]].
      rewrite <- Hpr, Hm, <- Hp'. apply Hle. apply in_map.
      apply filter_In. split; [exact Hrow'|]. apply String.eqb_eq. congruence.
    + rewrite <- Hpr, Hm. apply (leaders_of_period rs table vt m Hst).
  - reflexivity.
  - intros [r [Hr Hv]]. exfalso.
    destruct (stored_row_exists rs table r Hst Hr)
      as [row [Hrow [_ [Hvt _]]]].
    assert (Hin : In (share_period row) (map share_period of_type)).
    { apply in_map. apply filter_In. split; [exact Hrow|].
      apply String.eqb_eq. congruence. }
    rewrite Hmax in Hin. exact Hin.
Qed.

(** X26. [get_market_leaders] on a stored market share table.  For a given
    period it returns the table rows of that vehicle type and period, one for
    every manufacturer recorded there, with the ranks 1, 2, ..., n in this
    order and registrations that never increase down the list.  Without a
    period, or with an empty one, it does the same for the latest period of
    the vehicle type, the greatest period text among its records; for a
    vehicle type without records the result is empty. *)
Theorem market_leaders_listing (rs : list Row) (table : list ShareRow)
    (vt : string) :
  calculate_and_store_market_share rs = Stored table ->
  (forall p, p <> ""%string ->
     let leaders := get_market_leaders table vt (Some p) in
     (forall row, In row leaders
                  <-> In row table /\ share_vehicle_type row = vt
                      /\ share_period row = p)
     /\ map rank_position leaders
        = map Z.of_nat (seq 1 (List.length leaders))
     /\ StronglySorted
          (fun a b => (share_registrations b <= share_registrations a)%N)
          leaders
     /\ (forall r, In r rs -> period_text (year r) (quarter r) = p ->
           vehicle_type r = vt ->
           exists row, In row leaders
                       /\ share_manufacturer row = manufacturer r))
  /\ get_market_leaders table vt (Some ""%string)
     = get_market_leaders table vt None
  /\ ((forall r, In r rs -> vehicle_type r <> vt) ->
      get_market_leaders table vt None = [])
  /\ ((exists r, In r rs /\ vehicle_type r = vt) ->
      exists r,
        In r rs /\ vehicle_type r = vt
        /\ (forall r', In r' rs -> vehicle_type r' = vt ->
              String.leb (period_text (year r') (quarter r'))
                         (period_text (year r) (quarter r)) = true)
        /\ get_market_leaders table vt None
           = get_market_leaders table vt
               (Some (period_text (year r) (quarter r)))).
Proof.
  intros Hst. split.
  - intros p Hp. cbv zeta. rewrite (market_leaders_given rs table vt p Hst Hp).
    split; [|split; [|split]].
    + intros row. rewrite share_rows_In. tauto.
    + apply (share_rows_ranks rs table p vt Hst).
    + apply (share_rows_by_registrations rs table p vt Hst).
    + intros r Hr Hpr Hv.
      destruct (stored_row_exists rs table r Hst Hr)
        as [row [Hrow [Hp' [Hvt [Hm _]]]]].
      exists row. split; [|exact Hm]. apply share_rows_In.
      split; [exact Hrow|]. split; congruence.
  - destruct (market_leaders_latest rs table vt Hst) as [Hempty [Hnone Hsome]].
    split; [exact Hempty|]. split; [exact Hnone|].
    intros Hex. destruct (Hsome Hex) as [r [Hr [Hv [Hmax Heq]]]].
    exists r. split; [exact Hr|]. split; [exact Hv|]. split; [exact Hmax|].
    rewrite (market_leaders_given rs table vt _ Hst
               (period_text_nonempty (year r) (quarter r))).
    exact Heq.
Qed.

Lemma market_leaders_listing_witness :
  exists table,
    calculate_and_store_market_share (rows scenario_two_quarters)
    = Stored table
    /\ map share_manufacturer (get_market_leaders table "2W" None)
       = ["A"; "B"]%string
    /\ map rank_position (get_market_leaders table "2W" (Some "2021-Q4"%string))
       = [1; 2]
    /\ get_market_leaders table "3W" None = [].
Proof.
  destruct (calculate_and_store_market_share (rows scenario_two_quarters))
    as [table|] eqn:E; [|vm_compute in E; discriminate].
  exists table. split; [reflexivity|].
  destruct (market_leaders_listing (rows scenario_two_quarters) table "3W" E)
    as [_ [_ [Hnone _]]].
  destruct (market_leaders_listing (rows scenario_two_quarters) table "2W" E)
    as [Hgiven _].
  destruct (Hgiven "2021-Q4"%string ltac:(discriminate)) as [_ [Hranks _]].
  split; [|split].
  - vm_compute in E. injection E as <-. vm_compute. reflexivity.
  - rewrite Hranks. vm_compute in E. injection E as <-. vm_compute.
    reflexivity.
  - apply Hnone. intros r [<- | [<- | [<- | [<- | []]]]]; discriminate.
Defined.

(** ** Trends *)

Lemma ym_eqb_eq (a b : YmKey) : ym_eqb a b = true <-> a = b.
Proof.
  unfold ym_eqb. rewrite andb_true_iff, Z.eqb_eq, String.eqb_eq.
  destruct a, b; simpl. split; [intros [-> ->]; reflexivity|].
  intros H. injection H as -> ->. auto.
Qed.

(** Sums of group sums over the keys a predicate selects. *)
Section SelectedSums.
Context {K : Type}.
Variable eqb : K -> K -> bool.
Hypothesis eqb_eq : forall x y, eqb x y = true <-> x = y.
Variable leb : K -> K -> bool.
Variable key : Row -> K.
Variable chosen : K -> bool.

Lemma selected_group_sums (rs : list Row) :
  sumN (map snd (filter (fun e => chosen (fst e))
                        (groupby_registrations eqb leb key rs)))
  = total_registrations (filter (fun r => chosen (key r)) rs).
Proof.
  unfold groupby_registrations. rewrite filter_map_swap, map_map.
  cbn [fst snd].
  set (ks := filter _ _).
  assert (Hks : forall k, In k ks -> chosen k = true).
  { intros k Hk. apply filter_In in Hk. tauto. }
  rewrite (map_ext_in _ (fun k => total_registrations
                                    (group_rows eqb key
                                       (filter (fun r => chosen (key r)) rs)
                                       k))).
  2:{ intros k Hk. unfold group_rows. rewrite filter_twice. f_equal.
      apply filter_ext_in. intros r _.
      destruct (eqb (key r) k) eqn:E; [|symmetry; apply andb_false_r].
      apply eqb_eq in E. rewrite E, (Hks k Hk). reflexivity. }
  apply (group_sums_total eqb eqb_eq).
  - apply NoDup_filter.
    eapply Permutation_NoDup; [apply sort_by_perm|].
    apply drop_duplicates_NoDup. exact eqb_eq.
  - intros r Hr. apply filter_In in Hr. destruct Hr as [Hin Hr].
    apply filter_In. split; [|exact Hr].
    apply sort_by_In, (drop_duplicates_In _ eqb_eq), in_map. exact Hin.
Qed.
End SelectedSums.

Lemma tl_drop_duplicates_In (l : list Z) (y : Z) :
  In y (tl (drop_duplicates Z.eqb l))
  <-> In y l /\ match l with [] => False | x :: _ => y <> x end.
Proof.
  destruct l as [|x l]; [cbn; tauto|]. cbn [drop_duplicates tl].
  rewrite filter_In, (drop_duplicates_In _ Z.eqb_eq), negb_true_iff,
    Z.eqb_neq.
  cbn [In]. split.
  - intros [Hin Hne]. split; [right; exact Hin | congruence].
  - intros [[->|Hin] Hne]; [congruence|]. split; [exact Hin | congruence].
Qed.

Lemma yearly_manufacturer_In (rs : list Row) (k : YmKey) (s : N) :
  In (k, s) (yearly_manufacturer rs)
  <-> (exists r, In r rs /\ year r = fst k /\ manufacturer r = snd k)
      /\ s = total_registrations
               (filter (fun r => ym_eqb (year r, manufacturer r) k) rs).
Proof.
  unfold yearly_manufacturer.
  rewrite (groupby_In ym_eqb ym_leb _ ym_eqb_eq). unfold group_rows.
  destruct k as [y m]. cbn [fst snd]. split.
  - intros [[r [Hr E]] Hs]. injection E as Hy Hm. split; [|exact Hs].
    exists r. auto.
  - intros [[r [Hr [Hy Hm]]] Hs]. split; [|exact Hs]. exists r.
    split; [exact Hr|]. congruence.
Qed.

Lemma yearly_manufacturer_first (rs : list Row) (e : YmKey * N)
    (l : list (YmKey * N)) :
  yearly_manufacturer rs = e :: l ->
  forall e', In e' l -> fst (fst e) <= fst (fst e').
Proof.
  intros E e' He'.
  assert (Hs : StronglySorted (fun a b : YmKey => fst a <= fst b)
                 (map fst (yearly_manufacturer rs))).
  { unfold yearly_manufacturer. rewrite groupby_keys.
    apply sort_by_sorted; unfold ym_leb.
    - intros a b. destruct (Z.compare_spec (fst a) (fst b)); intros Hleb;
        try lia; discriminate.
    - intros a b. destruct (Z.compare_spec (fst a) (fst b)); intros Hleb;
        try lia; discriminate.
    - intros a b c. lia. }
  rewrite E in Hs. cbn [map] in Hs. inversion Hs as [|? ? _ Hall]; subst.
  rewrite Forall_forall in Hall. apply Hall. apply in_map. exact He'.
Qed.

Lemma category_entry (df : DataFrame) (vt mf : string) (y : Z) (s : N) :
  In ((y, mf), s)
     (yearly_manufacturer
        (filter (fun r => String.eqb (vehicle_type r) vt) (rows df)))
  <-> has_year df in_category [vt; mf] y
      /\ s = year_sum df in_category [vt; mf] y.
Proof.
  rewrite yearly_manufacturer_In. cbn [fst snd].
  unfold has_year, year_sum, in_category, group_of. cbn [map cell].
  rewrite filter_twice.
  rewrite (filter_ext
             (fun a => String.eqb (vehicle_type a) vt
                       && ym_eqb (year a, manufacturer a) (y, mf))
             (fun r => list_eqb String.eqb
                         [vehicle_type r; manufacturer r] [vt; mf]
                       && Z.eqb (year r) y)).
  2:{ intros r. unfold ym_eqb. cbn.
      destruct (String.eqb (vehicle_type r) vt),
               (String.eqb (manufacturer r) mf), (Z.eqb (year r) y);
        reflexivity. }
  split.
  - intros [[r [Hr [Hy Hm]]] Hs]. split; [|exact Hs].
    apply filter_In in Hr. destruct Hr as [Hr Hv].
    apply String.eqb_eq in Hv. exists r. split; [exact Hr|].
    split; [congruence | exact Hy].
  - intros [[r [Hr [Hg Hy]]] Hs]. split; [|exact Hs].
    injection Hg as Hv Hm. exists r. split; [|auto].
    apply filter_In. split; [exact Hr|]. apply String.eqb_eq. exact Hv.
Qed.

Lemma category_year_total (df : DataFrame) (vt : string) (y : Z) :
  sumN (map snd
          (filter (fun e : YmKey * N => Z.eqb (fst (fst e)) y)
             (yearly_manufacturer
                (filter (fun r => String.eqb (vehicle_type r) vt)
                        (rows df)))))
  = year_sum df [col_vehicle_type] [vt] y.
Proof.
  unfold yearly_manufacturer.
  rewrite (selected_group_sums ym_eqb ym_eqb_eq ym_leb _
             (fun k : YmKey => Z.eqb (fst k) y)).
  cbn [fst]. rewrite filter_twice. unfold year_sum, group_of.
  cbn [map cell]. f_equal. apply filter_ext. intros r. cbn.
  destruct (String.eqb (vehicle_type r) vt), (Z.eqb (year r) y); reflexivity.
Qed.

Lemma year_sum_part (df : DataFrame) (vt mf : string) (y : Z) :
  (year_sum df in_category [vt; mf] y
   <= year_sum df [col_vehicle_type] [vt] y)%N.
Proof.
  unfold year_sum, in_category, group_of. cbn [map cell].
  rewrite (filter_ext
             (fun r => list_eqb String.eqb
                         [vehicle_type r; manufacturer r] [vt; mf]
                       && Z.eqb (year r) y)
             (fun r => (list_eqb String.eqb [vehicle_type r] [vt]
                        && Z.eqb (year r) y)
                       && String.eqb (manufacturer r) mf)).
  2:{ intros r. cbn.
      destruct (String.eqb (vehicle_type r) vt),
               (String.eqb (manufacturer r) mf), (Z.eqb (year r) y);
        reflexivity. }
  rewrite <- filter_twice.
  set (l := filter _ (rows df)). clearbody l.
  unfold total_registrations.
  induction l as [|r l IH]; [cbn; lia|]. cbn [filter].
  destruct (String.eqb (manufacturer r) mf); cbn [map sumN fold_right] in *;
    unfold sumN in *; lia.
Qed.

(** The head of the filtered [previous_year] is the manufacturer's entry of
    the previous year. *)
Lemma previous_entry (df : DataFrame) (vt mf : string) (y : Z)
    (first : YmKey * N) (l : list (YmKey * N)) :
  filter (fun e : YmKey * N => String.eqb (snd (fst e)) mf)
    (filter (fun e : YmKey * N => Z.eqb (fst (fst e)) y)
       (yearly_manufacturer
          (filter (fun r => String.eqb (vehicle_type r) vt) (rows df))))
  = first :: l ->
  has_year df in_category [vt; mf] y
  /\ snd first = year_sum df in_category [vt; mf] y.
Proof.
  intros E.
  assert (Hin : In first (first :: l)) by (left; reflexivity).
  rewrite <- E in Hin. apply filter_In in Hin. destruct Hin as [Hin Hm].
  apply filter_In in Hin. destruct Hin as [Hin Hy].
  destruct first as [[y' m'] s]. cbn [fst snd] in *.
  apply String.eqb_eq in Hm. apply Z.eqb_eq in Hy. subst y' m'.
  apply category_entry in Hin. exact Hin.
Qed.

Lemma category_shifts_In (df : DataFrame) (vt : string) (ins : MarketInsight) :
  In ins (category_shifts df vt)
  <-> exists mf y,
        has_year df in_category [vt; mf] y
        /\ has_year df in_category [vt; mf] (y - 1)
        /\ np_gt (np_abs
                    (np_sub
                       (share_percent (year_sum df in_category [vt; mf] y)
                          (year_sum df [col_vehicle_type] [vt] y))
                       (share_percent
                          (year_sum df in_category [vt; mf] (y - 1))
                          (year_sum df [col_vehicle_type] [vt] (y - 1)))))
                 2 = true
        /\ ins = shift_insight vt mf
                   (np_sub
                      (share_percent (year_sum df in_category [vt; mf] y)
                         (year_sum df [col_vehicle_type] [vt] y))
                      (share_percent
                         (year_sum df in_category [vt; mf] (y - 1))
                         (year_sum df [col_vehicle_type] [vt] (y - 1))))
                   (share_percent (year_sum df in_category [vt; mf] y)
                      (year_sum df [col_vehicle_type] [vt] y))
                   (share_percent
                      (year_sum df in_category [vt; mf] (y - 1))
                      (year_sum df [col_vehicle_type] [vt] (y - 1))).
Proof.
  unfold category_shifts. cbv zeta. cbn [rows select].
  set (ym := yearly_manufacturer
               (filter (fun r => String.eqb (vehicle_type r) vt) (rows df))).
  rewrite in_flat_map. split.
  - intros [y [_ Hin]]. unfold year_shifts in Hin. cbv zeta in Hin.
    apply in_flat_map in Hin. destruct Hin as [e [He Hins]].
    apply filter_In in He. destruct He as [He Hy].
    destruct e as [[y' mf] s]. cbn [fst snd] in Hy. apply Z.eqb_eq in Hy.
    subst y'. apply category_entry in He. destruct He as [Hhas Hs].
    unfold manufacturer_shift in Hins. cbv zeta in Hins.
    cbn [fst snd] in Hins.
    match type of Hins with
    | In _ (match ?prev_data with _ => _ end) =>
        destruct prev_data as [|first l] eqn:E; [contradiction|]
    end.
    destruct (previous_entry df vt mf (y - 1) first l E) as [Hprev Hs'].
    unfold ym in Hins. rewrite !category_year_total in Hins.
    unfold YmKey in *. rewrite Hs', Hs in Hins.
    exists mf, y. split; [exact Hhas|]. split; [exact Hprev|].
    destruct (np_gt _ 2); [|contradiction].
    split; [reflexivity|]. destruct Hins as [<-|[]]. reflexivity.
  - intros [mf [y [Hcur [Hprev [Hgt ->]]]]].
    assert (Hec : In ((y, mf), year_sum df in_category [vt; mf] y) ym)
      by (apply category_entry; auto).
    assert (Hep : In ((y - 1, mf), year_sum df in_category [vt; mf] (y - 1))
                     ym)
      by (apply category_entry; auto).
    exists y. split.
    + apply tl_drop_duplicates_In. split.
      * apply in_map_iff. eexists. split; [|exact Hec]. reflexivity.
      * destruct ym as [|e0 l] eqn:Eym; [destruct Hec|]. cbn [map].
        assert (Hle : fst (fst e0) <= y - 1).
        { destruct Hep as [E0|Hep]; [rewrite E0; cbn; lia|].
          apply (yearly_manufacturer_first _ e0 l Eym) in Hep. exact Hep. }
        unfold YmKey in *. lia.
    + unfold year_shifts. cbv zeta. apply in_flat_map.
      exists ((y, mf), year_sum df in_category [vt; mf] y). split.
      * apply filter_In. split; [exact Hec|]. apply Z.eqb_refl.
      * unfold manufacturer_shift. cbv zeta. cbn [fst snd].
        match goal with
        | |- In _ (match ?prev_data with _ => _ end) =>
            destruct prev_data as [|first l] eqn:E
        end.
        -- exfalso.
           assert (Hin : In ((y - 1, mf),
                             year_sum df in_category [vt; mf] (y - 1))
                            (@nil (Z * string * N))); [|destruct Hin].
           rewrite <- E. apply filter_In. split; [|apply String.eqb_refl].
           apply filter_In. split; [exact Hep | apply Z.eqb_refl].
        -- destruct (previous_entry df vt mf (y - 1) first l E) as [_ Hs'].
           unfold ym. rewrite !category_year_total.
           unfold YmKey in *. rewrite Hs', Hgt.
           left. reflexivity.
Qed.

Lemma share_percent_pos (n t : N) :
  (0 < t)%N -> share_percent n t = Finite (QofN n / QofN t * 100).
Proof.
  intros Ht. unfold share_percent, np_div, np_mul.
  destruct (Qeq_bool (QofN t) 0) eqn:E; [|reflexivity].
  apply Qeq_bool_iff in E. exfalso. exact (QofN_pos t Ht E).
Qed.

Lemma share_percent_nan : share_percent 0 0 = NaN.
Proof. reflexivity. Qed.

Lemma np_abs_gt (q c : Q) :
  (0 <= c)%Q ->
  (np_gt (np_abs (Finite q)) c = true <-> (c < q \/ q < - c)%Q).
Proof.
  intros Hc. unfold np_abs, np_gt.
  destruct (Qlt_le_dec q 0) as [Hq|Hq];
    match goal with
    | |- context [Qlt_le_dec ?u ?v] => destruct (Qlt_le_dec u v) as [Hd|Hd]
    end; split; intros H; try discriminate; try reflexivity; lra.
Qed.

Lemma np_abs_lt (q c : Q) :
  (np_lt (np_abs (Finite q)) c = true <-> (- c < q /\ q < c)%Q).
Proof.
  unfold np_abs, np_lt.
  destruct (Qlt_le_dec q 0) as [Hq|Hq];
    match goal with
    | |- context [Qlt_le_dec ?u ?v] => destruct (Qlt_le_dec u v) as [Hd|Hd]
    end; split; intros H; try discriminate; try reflexivity; lra.
Qed.

(** When a share change counts as significant. *)
Lemma shift_condition (a b c d : N) :
  (a <= b)%N -> (c <= d)%N ->
  np_gt (np_abs (np_sub (share_percent a b) (share_percent c d))) 2 = true
  <-> (0 < b)%N /\ (0 < d)%N
      /\ (2 < QofN a / QofN b * 100 - QofN c / QofN d * 100
          \/ QofN a / QofN b * 100 - QofN c / QofN d * 100 < - (2))%Q.
Proof.
  intros Hab Hcd. destruct (N.eq_dec b 0) as [->|Hb].
  - assert (a = 0%N) by lia. subst a. rewrite share_percent_nan. cbn.
    split; [discriminate | intros [H _]; lia].
  - rewrite (share_percent_pos a b) by lia.
    destruct (N.eq_dec d 0) as [->|Hd].
    + assert (c = 0%N) by lia. subst c. rewrite share_percent_nan. cbn.
      split; [discriminate | intros [_ [H _]]; lia].
    + rewrite (share_percent_pos c d) by lia. cbn [np_sub].
      rewrite np_abs_gt by lra. split.
      * intros H. split; [lia|]. split; [lia | exact H].
      * intros [_ [_ H]]. exact H.
Qed.

Lemma yearly_share_bounds (df : DataFrame) (vt mf : string) (y : Z) :
  (0 < year_sum df [col_vehicle_type] [vt] y)%N ->
  (0 <= yearly_share df vt mf y <= 100)%Q.
Proof.
  intros Hpos. unfold yearly_share.
  pose proof (year_sum_part df vt mf y) as Hle.
  set (n := year_sum df in_category [vt; mf] y) in *.
  set (t := year_sum df [col_vehicle_type] [vt] y) in *. clearbody n t.
  destruct (percent_of_part n t Hle Hpos) as [H0 H1].
  assert (E : (QofN n / QofN t * 100 == QofN n * 100 / QofN t)%Q).
  { field. apply QofN_pos. exact Hpos. }
  rewrite E. split; assumption.
Qed.

(** The market share shifts, in exact arithmetic. *)
Lemma market_share_shifts_spec (df : DataFrame) (ins : MarketInsight) :
  In ins (market_share_shifts df)
  <-> exists vt mf y,
        In vt ["2W"; "3W"; "4W"]%string
        /\ has_year df in_category [vt; mf] y
        /\ has_year df in_category [vt; mf] (y - 1)
        /\ (0 < year_sum df [col_vehicle_type] [vt] y)%N
        /\ (0 < year_sum df [col_vehicle_type] [vt] (y - 1))%N
        /\ (2 < yearly_share df vt mf y - yearly_share df vt mf (y - 1)
            \/ yearly_share df vt mf y - yearly_share df vt mf (y - 1)
               < - (2))%Q
        /\ ins = shift_insight vt mf
                   (Finite (yearly_share df vt mf y
                            - yearly_share df vt mf (y - 1)))
                   (Finite (yearly_share df vt mf y))
                   (Finite (yearly_share df vt mf (y - 1))).
Proof.
  unfold market_share_shifts. rewrite in_flat_map. split.
  - intros [vt [Hvt Hin]]. apply category_shifts_In in Hin.
    destruct Hin as [mf [y [Hcur [Hprev [Hgt ->]]]]].
    apply shift_condition in Hgt; try apply year_sum_part.
    destruct Hgt as [Hb [Hd Hch]].
    exists vt, mf, y. rewrite !share_percent_pos by assumption.
    repeat (split; [assumption|]). reflexivity.
  - intros [vt [mf [y [Hvt [Hcur [Hprev [Hb [Hd [Hch ->]]]]]]]]].
    exists vt. split; [exact Hvt|]. apply category_shifts_In.
    exists mf, y. split; [exact Hcur|]. split; [exact Hprev|].
    split.
    + apply shift_condition; try apply year_sum_part. auto.
    + rewrite !share_percent_pos by assumption. reflexivity.
Qed.
